(* ===== verification/_CoqProject ===== *)
-Q . S2P
Prelude.v
GoStr.v
Codec.v
Netip.v
NetipFacts.v
Stunwire.v
Demux.v
Json.v
JsonFacts.v
Validation.v
Discovery.v
Entity.v
GoTime.v
TextFacts.v
Plugin.v
PluginFacts.v
JsonDecode.v
Config.v
ConfigFacts.v
PingMonitor.v
PingMonitorFacts.v
IcmpConn.v
Routeprobe.v
Dialer.v
DialNet.v
DialNetFacts.v
RouteprobeFacts.v
Proxy.v
ProxyFacts.v
Counters.v
RelaySpec.v
ProxyLife.v
ProxyLifeFacts.v
Escape.v
EscapeFacts.v
Wg.v
WgFacts.v
Ctrl.v
CtrlFacts.v
Daemon.v
DaemonFacts.v
EndToEnd.v
Wiring.v
AppGraph.v
Stun.v
StunFacts.v
MobileBind.v
MobileBindFacts.v
MobileConfig.v
MobileConfigFacts.v
MobileController.v
MobileControllerFacts.v
MobileNode.v
MobileNodeFacts.v
Provision.v
ProvisionFacts.v
StrSearch.v
LinuxProfile.v
LinuxProfileFacts.v
LinuxRuntime.v
LinuxRuntimeFacts.v
LinuxServer.v
LinuxServerFacts.v
Flags.v
JsonIndent.v
LinuxIssue.v
LinuxIssueFacts.v
Commands.v
CommandsFacts.v
