(* ===== verification/Prelude.v ===== *)
(** * stunmesh-go: a verified model

    stunmesh-go keeps WireGuard peers behind NAT reachable.  Every host asks a
    STUN server for its own public endpoint, publishes it in an OpenDHT store
    under a key both peers can compute, looks the other's record up, and sets the
    endpoint of the peer in WireGuard.  A UDP relay shares one outer socket
    between the STUN exchanges and the WireGuard traffic.  This library models
    that program, component by component, from the Go sources under src/, and
    proves what makes each component correct.

    ** Files

    Go's standard library, as far as the program uses it:
    - [Prelude]: errors and results, machine integers, bytes, tactics, hints.
    - [GoStr]: strings, UTF-8, strconv, host:port; [TextFacts] its lemmas on
      words and lines.
    - [Codec]: hexadecimal, base64, SHA-1, X25519.
    - [Netip], [NetipFacts]: net/netip addresses, prefixes, parsing, printing.
    - [Json], [JsonFacts]: encoding/json values, parser, string printer.
    - [JsonDecode], [JsonIndent]: encoding/json for structs, and printed trees:
      any layout of a tree, indented or not, is read back as the tree.
    - [GoTime]: time.ParseDuration with its float64 arithmetic.
    - [StrSearch]: strings.Index, Count, TrimRight; [Flags]: the flag package.

    The program (under internal/ unless said otherwise):
    - [Stunwire]: stunwire/stun.go.  [ParseResponse] is the attribute walk; its
      fuel is the length of the message, one more than the attributes it can
      hold, and a theorem shows that the fuel never runs out.
    - [Demux]: wgproxy/demux.go.  [TxnRegistry] holds the pending transactions
      and the contents of their reply channels; [demux_step] is one call.
    - [Proxy], [ProxyFacts]: wgproxy/proxy.go, manager.go, escape.go.  The two
      loop bodies are functions of one datagram; [proxy_step] interleaves them
      with STUN exchanges and the controllers' calls.  [RelaySpec]: what the relay
      promises, as a table of endpoints, and the refinement.  [ProxyLife],
      [ProxyLifeFacts]: the goroutines and sockets from New to the return of
      Close, as [life_step]; [own_step] is what needs nobody's call.
    - [Counters]: the drop counters and their rate-limited warnings.
    - [Validation]: validation/validation.go, the boundary all input crosses.
    - [Discovery]: discovery/, the record, its codec, the protocol preference,
      the selection state.
    - [Entity]: entity/, repo/, queue/: identities and store keys, peers,
      devices, repositories, bounded queues.
    - [Plugin], [PluginFacts]: plugin/ and pluginapi/: the OpenDHT store over a
      transport, plugin configuration, loading.
    - [Config], [ConfigFacts]: config/: data, defaults, accessors, the YAML tree
      check, validation, loading.
    - [PingMonitor], [PingMonitorFacts]: ctrl/ping_monitor.go: sending, replies
      and timeouts as events of a device monitor, and the retry policy.
    - [IcmpConn]: ctrl/ping_monitor_{linux,darwinbsd,windows}.go: the monitor's
      socket and its descriptors, and the loops over it.
    - [Wg], [WgFacts]: wg/: reading a device and a peer's health from the wg
      tool, setting an endpoint, and the decorator that puts the relay between.
    - [Ctrl], [CtrlFacts]: ctrl/publish.go, establish.go, bootstrap.go, with the
      establish worker as [establisher_step].
    - [Routeprobe], [RouteprobeFacts]: routeprobe/: does a tunnel cover the
      default route, and which interface does not; the routing tables of Linux,
      the BSDs and Windows as their parsers read them.
    - [Dialer]: plugin/dialer/: the sockets and lookups of plugin traffic.
      [DialNet], [DialNetFacts]: the dialer and the resolver over package net; the
      recursion between dialing and resolving has fuel, and two levels are enough.
    - [Escape], [EscapeFacts]: wgproxy/escape_{darwin,windows,freebsd}.go: the
      watcher that keeps the outer socket off the tunnel, as [escape_step].
    - [Stun], [StunFacts]: stun/: the server order and the relay-backed client.
    - [Daemon], [DaemonFacts]: daemon/daemon.go and app/app.go: the daemon with
      its workers as [daemon_step], the application object as [app_step].
    - [EndToEnd]: two hosts, the store between them and a relay: the components
      together.
    - [Wiring]: app/wiring.go, app/proxy_stack.go, logger/: what an application
      acquires, and what it releases on each way out.  [AppGraph]: which object
      holds which, the constructors as allocations in a store.
    - [MobileBind], [MobileBindFacts]: mobilebind/: the shared socket and its
      STUN exchanges.
    - [MobileConfig], [MobileConfigFacts]: mobile/config.go, uapi.go, health.go.
    - [MobileController], [MobileControllerFacts]: mobile/controller.go and the
      controller's part of network.go; [loop_step] is its loop.
    - [MobileNode], [MobileNodeFacts]: mobile/node.go, network.go, keys.go,
      version.go; [node_step] is what can happen to a node.
    - [Provision], [ProvisionFacts]: provision/ and cmd/provision/server.go.
    - [LinuxProfile], [LinuxProfileFacts]: linuxprofile/profile.go: the profile's
      boundary, the WireGuard and discovery files rendered from it, exclusive
      creation of files; [LinuxIssue], [LinuxIssueFacts]: its Issue, with the
      template's raw members and the indented text.
    - [LinuxRuntime], [LinuxRuntimeFacts]: linuxprofile/runtime.go: the native
      tools setting the interface up and down, as a trace of calls and answers;
      [host_at] is the interface a trace leaves.
    - [LinuxServer], [LinuxServerFacts]: linuxprofile/server.go: the server's two
      files, with the managed peer put in, replaced and taken out.
    - [Commands], [CommandsFacts]: main.go and cmd/provision/main.go.

    ** How the model reads

    Go's errors are [error]; a function that returns a value and an error
    returns [result].  Pointers to state become state passed and returned; a
    mutex makes an operation one step, and concurrency is an inductive step
    relation whose reachable states the invariants are about.  Integers are Z,
    with the wrap-around of their width written out where it can matter.  Go
    maps are [gmap]; where the code iterates over one, [map_to_list] is one of
    its orders and the theorems hold for it whatever it is.  Instants are
    nanoseconds, with 0 the zero time.  Sockets, HTTP, YAML and ICMP libraries,
    the wg tool, wgctrl, the resolver and the clock are parameters (type classes,
    section variables, or arguments that are the outcome of a call); what a
    function sends out is in its result.

    ** What is shown

    - The relay only ever sends WireGuard's traffic to the endpoint programmed
      for its peer, and delivers to a peer's socket only what came from there.
    - The relay refines a table of endpoints: all it sends is a run of that table.
    - Every relay that is open has all its loops; Close always returns, and leaves
      nothing that runs or sends.  A flood of datagrams cannot fill the log.
    - The kernel only learns loopback endpoints from an update through the relay.
    - What one host publishes makes the other program the discovered endpoint, and
      with the relay on its WireGuard then reaches and hears exactly that endpoint;
      a lookup programs only its own peer, with a public address its record
      offers, and only when the connection was not seen to work.
    - Parsers are sound, complete on what they accept, and inverse to printers:
      STUN responses, endpoints, keys, records, YAML trees, the wg tool's text.
    - The establish queue never holds a peer twice, drains, and a refresh
      reaches every peer; retries are bounded and spaced.
    - Bootstrap admits exactly the peers both the configuration and the kernel
      know; publishing writes exactly the records of the discovered endpoints.
    - The daemon's ticks reach every peer in every reachable state, a oneshot run
      that returns did its whole program, and nothing outlives a run or a close.
    - Every socket of a plugin dial, lookups included, is escaped as the context
      says, and the dial ends.
    - The socket's binding is never stale once the watcher is idle; a tunnel
      covers exactly when its routes say so; what discovery finds can be encoded.
    - A parsed mobile configuration is complete and renders line by line; the
      node's device follows the underlay; its loop never sleeps while online and
      acts only on its own peers; mobile and desktop dispatch STUN alike.
    - An issued enrollment is all or nothing, decodes to the proposal it was made
      from, and carries the first free address of the server's network; what
      provision new writes, provision reply reads, one size apart.
    - A valid Linux profile renders to a WireGuard file of one peer and to a
      discovery file the daemon accepts; when an issued one can be loaded.
    - A run leaves the host with the interface it had, whatever fails in it, and
      only an interface proved to be one's own is deleted.
    - Activating a client reserves its address, revoking it gives the server's
      files back, and both files are written or neither.
    - No Linux command changes a file that is there and what is printed is a public view; a
      failed start of the application holds nothing.

    ** Not modelled

    The contents of log lines, test mocks, the end-to-end test programs under
    test/, and the time limits of contexts (an expired context is an error of the call it was
    passed to).  System calls, third-party packages and the tools the program
    runs are parameters: what the code relies on in them is a hypothesis of the
    theorem that needs it.  *)

From Stdlib Require Export ZArith Lia Ascii.
From stdpp Require Export base gmap strings list fin_maps option.
#[export] Set Default Goal Selector "!".
#[global] Arguments String.append !s1 s2 / : rename, simpl nomatch.

Declare Scope go_scope.
Delimit Scope go_scope with go.
#[global] Open Scope Z_scope.
#[global] Open Scope go_scope.

(** ** Errors and results

    A Go [error] is a message together with the errors it wraps ([%w] and
    [errors.Join]).  Callers only ever test an error for [nil] or with
    [errors.Is], so the message stands for the error's category. *)

Inductive error : Type :=
| ENew (msg : string)
| EWrap (msg : string) (causes : list error).

(** [errors.Is err target], for a sentinel [target] created by [errors.New]. *)
Fixpoint errors_Is (err : error) (target : string) : bool :=
  match err with
  | ENew m => String.eqb m target
  | EWrap _ es => existsb (fun e => errors_Is e target) es
  end.

Inductive result (A : Type) : Type :=
| Ok (a : A)
| Err (e : error).
Arguments Ok {A} a.
Arguments Err {A} e.

(** Injectivity without the simplification that [injection] does. *)
Lemma Ok_inj {A} (a b : A) : Ok a = Ok b -> a = b.
Proof. congruence. Qed.
Lemma triple_inj {A B C} (a a' : A) (b b' : B) (c c' : C) : (a, b, c) = (a', b', c') -> a = a' /\ b = b' /\ c = c'.
Proof. by intros [= -> -> ->]. Qed.

Definition is_ok {A} (r : result A) : bool :=
  match r with Ok _ => true | Err _ => false end.

(** [let? x := e in k]: the Go idiom [x, err := e; if err != nil { return err }]. *)
Notation "'let?' x := e 'in' k" :=
  (match e with Ok x => k | Err err => Err err end)
    (at level 200, x pattern, e at level 100, k at level 200) : go_scope.

(** [check c else err; k]: an early return of an error when [c] is false. *)
Notation "'require' c 'else' err ';' k" :=
  (if c then k else Err err)
    (at level 200, c at level 100, err at level 100, k at level 200) : go_scope.

Definition map_err {A} (err : error) (r : result A) : result A :=
  match r with Ok a => Ok a | Err _ => Err err end.

(** Evaluate the scrutinee of the match or test the left-hand side starts with,
    so a witness can go through a function call by call. *)
Ltac eval_head :=
  match goal with
  | |- match ?e with _ => _ end = _ =>
      let v := eval vm_compute in e in
      replace e with v by (vm_compute; reflexivity); cbv beta iota
  end.

(** Boolean equality of strings, and the string tests the code uses. *)
Notation "s =s t" := (String.eqb s t) (at level 70) : go_scope.
Notation "s <>s t" := (negb (String.eqb s t)) (at level 70) : go_scope.

Lemma forallb_false {A} (f : A -> bool) l : forallb f l = false -> exists x, In x l /\ f x = false.
Proof.
  induction l as [|x l IH]; cbn; [done|]. destruct (f x) eqn:E; cbn.
  - intros (y & Hy & Hf)%IH. by exists y; auto.
  - intros _. by exists x; auto.
Qed.

(** ** Machine integers

    Values are integers in range; [wrapN] writes out the wrap-around of the
    Go conversion or operation at that width. *)

Definition wrap8 (z : Z) : Z := z mod 2 ^ 8.
Definition wrap16 (z : Z) : Z := z mod 2 ^ 16.
Definition wrap32 (z : Z) : Z := z mod 2 ^ 32.
Definition wrapU64 (z : Z) : Z := z mod 2 ^ 64.
(** int and int64: two's complement *)
Definition wrap64 (z : Z) : Z := (z + 2 ^ 63) mod 2 ^ 64 - 2 ^ 63.

Definition is_u16 (z : Z) : Prop := 0 <= z < 2 ^ 16.

Lemma wrap64_id z : - 2 ^ 63 <= z < 2 ^ 63 -> wrap64 z = z.
Proof. intros. unfold wrap64. rewrite Z.mod_small by lia. lia. Qed.

Lemma wrap64_range z : - 2 ^ 63 <= wrap64 z < 2 ^ 63.
Proof. unfold wrap64. pose proof (Z.mod_pos_bound (z + 2 ^ 63) (2 ^ 64)). lia. Qed.

Lemma wrapU64_id z : 0 <= z < 2 ^ 64 -> wrapU64 z = z.
Proof. intros. unfold wrapU64. by rewrite Z.mod_small. Qed.

Lemma wrap16_id z : is_u16 z -> wrap16 z = z.
Proof. unfold is_u16, wrap16. intros. by rewrite Z.mod_small. Qed.

Lemma wrap16_range z : is_u16 (wrap16 z).
Proof. unfold is_u16, wrap16. apply Z.mod_pos_bound. lia. Qed.

(** ** Bytes and big-endian words *)

Definition is_byte (b : Z) : Prop := 0 <= b < 256.
Definition bytes_ok (l : list Z) : Prop := Forall is_byte l.

#[export] Instance is_byte_dec b : Decision (is_byte b).
Proof. unfold is_byte. apply _. Defined.

(** [b[i]] for an index the code has already bounds-checked. *)
Definition byte_at (l : list Z) (i : nat) : Z := nth i l 0.

(** [b[lo:hi]] *)
Definition slice {A} (l : list A) (lo hi : nat) : list A := take (hi - lo) (drop lo l).

(** binary.BigEndian.Uint16 / Uint32 / PutUint16 / PutUint32 *)
Definition be16 (l : list Z) : Z :=
  Z.lor (Z.shiftl (byte_at l 0) 8) (byte_at l 1).
Definition be32 (l : list Z) : Z :=
  Z.lor (Z.shiftl (byte_at l 0) 24)
    (Z.lor (Z.shiftl (byte_at l 1) 16)
       (Z.lor (Z.shiftl (byte_at l 2) 8) (byte_at l 3))).
Definition put_be16 (v : Z) : list Z := [wrap8 (Z.shiftr v 8); wrap8 v].
Definition put_be32 (v : Z) : list Z :=
  [wrap8 (Z.shiftr v 24); wrap8 (Z.shiftr v 16); wrap8 (Z.shiftr v 8); wrap8 v].

Definition list_lor (l : list Z) : Z := fold_left (fun acc b => acc * 256 + b) l 0.

(** An or of a shifted word with a byte is a sum. *)
Lemma lor_shiftl_add a b n : 0 <= n -> 0 <= b < 2 ^ n ->
  Z.lor (Z.shiftl a n) b = a * 2 ^ n + b.
Proof.
  intros Hn Hb. pose proof (Z.add_lor_land (Z.shiftl a n) b) as Hadd.
  assert (Z.land (Z.shiftl a n) b = 0) as Hland.
  { apply Z.bits_inj'. intros i Hi. rewrite Z.land_spec, Z.bits_0.
    destruct (decide (i < n)).
    - by rewrite Z.shiftl_spec_low.
    - rewrite andb_comm. assert (Z.testbit b i = false) as ->; [|done].
      rewrite <-(Z.mod_small b (2 ^ n)) by done.
      apply Z.mod_pow2_bits_high. lia. }
  rewrite Z.shiftl_mul_pow2 in * by done. lia.
Qed.

Lemma be16_arith a b l : is_byte a -> is_byte b -> be16 (a :: b :: l) = a * 256 + b.
Proof.
  intros Ha Hb. unfold be16, byte_at. simpl.
  rewrite lor_shiftl_add; unfold is_byte in *; lia.
Qed.

Lemma be16_range a b l : is_byte a -> is_byte b -> is_u16 (be16 (a :: b :: l)).
Proof.
  intros. rewrite be16_arith by done. unfold is_byte, is_u16 in *. lia.
Qed.

Lemma be16_put v : is_u16 v -> forall l, be16 (put_be16 v ++ l) = v.
Proof.
  intros Hv l. unfold put_be16. simpl.
  assert (is_byte (wrap8 (Z.shiftr v 8))) by (apply Z.mod_pos_bound; lia).
  assert (is_byte (wrap8 v)) by (apply Z.mod_pos_bound; lia).
  rewrite be16_arith by done. unfold is_u16, wrap8 in *.
  rewrite Z.shiftr_div_pow2 by lia. change (2 ^ 8) with 256.
  rewrite (Z.mod_small (v / 256)).
  - pose proof (Z.div_mod v 256). lia.
  - split; [apply Z.div_pos; lia|apply Z.div_lt_upper_bound; lia].
Qed.

Lemma put_be16_bytes v : bytes_ok (put_be16 v).
Proof. repeat constructor; by apply Z.mod_pos_bound. Qed.

Lemma put_be32_bytes v : bytes_ok (put_be32 v).
Proof. repeat constructor; by apply Z.mod_pos_bound. Qed.

Lemma bytes_ok_app l k : bytes_ok l -> bytes_ok k -> bytes_ok (l ++ k).
Proof. apply Forall_app_2. Qed.

Lemma bytes_ok_slice l lo hi : bytes_ok l -> bytes_ok (slice l lo hi).
Proof. intros. by apply Forall_take, Forall_drop. Qed.

Lemma bytes_ok_drop n l : bytes_ok l -> bytes_ok (drop n l).
Proof. apply Forall_drop. Qed.

Lemma bytes_ok_cons b l : is_byte b -> bytes_ok l -> bytes_ok (b :: l).
Proof. by constructor. Qed.

Lemma wrap8_byte z : is_byte (wrap8 z).
Proof. by apply Z.mod_pos_bound. Qed.

(** Xor stays within the width of its operands, and is its own inverse *)
Lemma log2_lt n a : 0 < n -> 0 <= a < 2 ^ n -> Z.log2 a < n.
Proof.
  intros Hn Ha. destruct (decide (a = 0)) as [->|]; [done|]. apply Z.log2_lt_pow2; lia.
Qed.

Lemma lxor_range n a b :
  0 < n -> 0 <= a < 2 ^ n -> 0 <= b < 2 ^ n -> 0 <= Z.lxor a b < 2 ^ n.
Proof.
  intros Hn Ha Hb. assert (0 <= Z.lxor a b) by (apply Z.lxor_nonneg; lia). split; [done|].
  destruct (decide (Z.lxor a b = 0)) as [->|Hne]; [lia|].
  apply Z.log2_lt_pow2; [lia|].
  pose proof (Z.log2_lxor a b ltac:(lia) ltac:(lia)).
  pose proof (log2_lt n a Hn Ha). pose proof (log2_lt n b Hn Hb). lia.
Qed.

Lemma lxor_byte a b : is_byte a -> is_byte b -> is_byte (Z.lxor a b).
Proof. apply (lxor_range 8). lia. Qed.

Lemma lxor_u16 a b : is_u16 a -> is_u16 b -> is_u16 (Z.lxor a b).
Proof. apply (lxor_range 16). lia. Qed.

Lemma lxor_lxor_cancel a b : Z.lxor (Z.lxor a b) b = a.
Proof. by rewrite Z.lxor_assoc, Z.lxor_nilpotent, Z.lxor_0_r. Qed.

(** A decidable property of a small range of integers, by computation. *)
Lemma range_check (P : Z -> bool) (n : nat) :
  forallb P (map Z.of_nat (seq 0 n)) = true -> forall v, 0 <= v < Z.of_nat n -> P v = true.
Proof.
  intros H v Hv. rewrite forallb_forall in H. apply H.
  apply in_map_iff. exists (Z.to_nat v). split; [lia|]. apply in_seq. lia.
Qed.

Lemma range_check_P (P : Z -> Prop) `{!forall v, Decision (P v)} (n : nat) :
  forallb (fun v => bool_decide (P v)) (map Z.of_nat (seq 0 n)) = true ->
  forall v, 0 <= v < Z.of_nat n -> P v.
Proof.
  intros Hall v Hv. apply (bool_decide_eq_true_1 (P v)).
  exact (range_check (fun w => bool_decide (P w)) n Hall v Hv).
Qed.

Create HintDb go.
#[export] Hint Resolve lxor_byte put_be16_bytes put_be32_bytes wrap16_range
  bytes_ok_app bytes_ok_slice bytes_ok_drop bytes_ok_cons wrap8_byte : go.

(** ** Tactics *)

(** Peel nested early returns off a hypothesis [H : ... = Ok v] or [... = Err e]. *)
Ltac go_inv H :=
  repeat (case_match; try discriminate H); simplify_eq.
Ltac go_cases := repeat (case_match; simplify_eq/=; try done).
