(* ===== verification/GoStr.v ===== *)
(** * The parts of Go's [strings], [strconv], [net] and [unicode/utf8] the
    program uses, on byte strings.

    A Go [string] (and a [[]byte] that holds text) is a Rocq [string]: a
    sequence of 8-bit characters.  Errors of the library functions are only
    ever tested for [nil], so the fallible functions return an [option]. *)

From S2P Require Import Prelude.

(** ** Characters *)

Definition bz (c : ascii) : Z := Z.of_N (N_of_ascii c).
Definition zb (z : Z) : ascii := ascii_of_N (Z.to_N z).
Definition slen (s : string) : Z := Z.of_nat (String.length s).

Definition is_digit (c : ascii) : bool := (48 <=? bz c) && (bz c <=? 57).
Definition is_lower_hex (c : ascii) : bool :=
  is_digit c || ((97 <=? bz c) && (bz c <=? 102)).
Definition is_ascii (s : string) : bool :=
  forallb (fun c => bz c <? 128) (String.list_ascii_of_string s).

(** The value of a hexadecimal digit of either case. *)
Definition hex_val (c : ascii) : option Z :=
  let b := bz c in
  if (48 <=? b) && (b <=? 57) then Some (b - 48)
  else if (97 <=? b) && (b <=? 102) then Some (b - 97 + 10)
  else if (65 <=? b) && (b <=? 70) then Some (b - 65 + 10)
  else None.

Definition digit_val (c : ascii) : option Z :=
  if is_digit c then Some (bz c - 48) else None.

(** [hexdigits[v]]: lower-case hexadecimal digit *)
Definition hex_digit (v : Z) : ascii := zb (if v <? 10 then 48 + v else 87 + v).
Definition dec_digit (v : Z) : ascii := zb (48 + v).

Fixpoint smem (c : ascii) (s : string) : bool :=
  match s with
  | "" => false
  | String a s' => Ascii.eqb a c || smem c s'
  end.

Fixpoint sforall (P : ascii -> bool) (s : string) : bool :=
  match s with
  | "" => true
  | String a s' => P a && sforall P s'
  end.

Lemma sapp_nil_r s : s +:+ "" = s.
Proof. induction s as [|c s IH]; [done|]. cbn. by f_equal. Qed.

Lemma sapp_assoc s t u : (s +:+ t) +:+ u = s +:+ t +:+ u.
Proof. induction s as [|c s IH]; [done|]. cbn. by f_equal. Qed.

Lemma slength_app s t : String.length (s +:+ t) = (String.length s + String.length t)%nat.
Proof. induction s as [|c s IH]; [done|]. cbn. by rewrite IH. Qed.

Lemma smem_app c s t : smem c (s +:+ t) = smem c s || smem c t.
Proof. induction s as [|a s IH]; [done|]. cbn. by rewrite IH, orb_assoc. Qed.

(** strings.ContainsAny(s, chars) *)
Fixpoint contains_any (s chars : string) : bool :=
  match s with
  | "" => false
  | String a s' => smem a chars || contains_any s' chars
  end.

(** strings.HasPrefix, HasSuffix, TrimSuffix *)
Definition has_prefix (s pre : string) : bool := String.prefix pre s.
Fixpoint has_suffix (s suf : string) : bool :=
  if s =s suf then true
  else match s with "" => false | String _ s' => has_suffix s' suf end.
Fixpoint trim_suffix (s suf : string) : string :=
  if s =s suf then ""
  else match s with "" => "" | String a s' => String a (trim_suffix s' suf) end.

(** Split at the first, respectively the last, occurrence of a byte. *)
Fixpoint cut (c : ascii) (s : string) : option (string * string) :=
  match s with
  | "" => None
  | String a s' =>
      if Ascii.eqb a c then Some ("", s')
      else match cut c s' with
           | Some (x, y) => Some (String a x, y)
           | None => None
           end
  end.

Fixpoint cut_last (c : ascii) (s : string) : option (string * string) :=
  match s with
  | "" => None
  | String a s' =>
      match cut_last c s' with
      | Some (x, y) => Some (String a x, y)
      | None => if Ascii.eqb a c then Some ("", s') else None
      end
  end.

(** strings.Split(s, sep) for a one-byte separator: never the empty list. *)
Fixpoint split_on (c : ascii) (s : string) : list string :=
  match s with
  | "" => [""]
  | String a s' =>
      if Ascii.eqb a c then "" :: split_on c s'
      else match split_on c s' with
           | x :: l => String a x :: l
           | [] => [String a ""]
           end
  end.

(** strings.Join *)
Fixpoint join (sep : string) (l : list string) : string :=
  match l with
  | [] => ""
  | [x] => x
  | x :: l' => x +:+ sep +:+ join sep l'
  end.

(** The last byte of a non-empty string, and the string without it. *)
Fixpoint unsnoc (s : string) : option (string * ascii) :=
  match s with
  | "" => None
  | String a "" => Some ("", a)
  | String a s' =>
      match unsnoc s' with
      | Some (x, c) => Some (String a x, c)
      | None => None
      end
  end.

(** ** UTF-8

    [utf8.DecodeRune]: each step yields a rune with the bytes it was read
    from; an invalid byte yields U+FFFD with that single byte. *)

Definition rune_error : Z := 65533.
Definition is_cont (c : ascii) : bool := (128 <=? bz c) && (bz c <=? 191).
Definition in_range (c : ascii) (lo hi : Z) : bool := (lo <=? bz c) && (bz c <=? hi).

Fixpoint runes (s : string) : list (Z * string) :=
  match s with
  | "" => []
  | String a s1 =>
      let bad := (rune_error, String a "") in
      let b0 := bz a in
      if b0 <? 128 then (b0, String a "") :: runes s1
      else
        match s1 with
        | "" => [bad]
        | String b s2 =>
            if in_range a 194 223 then
              if is_cont b
              then (Z.lor (Z.shiftl (b0 - 192) 6) (bz b - 128), String a (String b "")) :: runes s2
              else bad :: runes s1
            else if in_range a 224 239 then
              if in_range b (if b0 =? 224 then 160 else 128) (if b0 =? 237 then 159 else 191) then
                match s2 with
                | "" => bad :: runes s1
                | String c s3 =>
                    if is_cont c
                    then (Z.lor (Z.shiftl (b0 - 224) 12)
                            (Z.lor (Z.shiftl (bz b - 128) 6) (bz c - 128)),
                          String a (String b (String c ""))) :: runes s3
                    else bad :: runes s1
                end
              else bad :: runes s1
            else if in_range a 240 244 then
              if in_range b (if b0 =? 240 then 144 else 128) (if b0 =? 244 then 143 else 191) then
                match s2 with
                | "" => bad :: runes s1
                | String c s3 =>
                    match s3 with
                    | "" => bad :: runes s1
                    | String d s4 =>
                        if is_cont c && is_cont d
                        then (Z.lor (Z.shiftl (b0 - 240) 18)
                                (Z.lor (Z.shiftl (bz b - 128) 12)
                                   (Z.lor (Z.shiftl (bz c - 128) 6) (bz d - 128))),
                              String a (String b (String c (String d "")))) :: runes s4
                        else bad :: runes s1
                    end
                end
              else bad :: runes s1
            else bad :: runes s1
        end
  end.

Definition of_runes (l : list (Z * string)) : string :=
  fold_right (fun r acc => r.2 +:+ acc) "" l.

(** unicode.IsSpace *)
Definition is_space (r : Z) : bool :=
  ((9 <=? r) && (r <=? 13)) || (r =? 32) || (r =? 133) || (r =? 160) ||
  (r =? 5760) || ((8192 <=? r) && (r <=? 8202)) || (r =? 8232) || (r =? 8233) ||
  (r =? 8239) || (r =? 8287) || (r =? 12288).

Fixpoint drop_spaces (l : list (Z * string)) : list (Z * string) :=
  match l with
  | [] => []
  | r :: l' => if is_space r.1 then drop_spaces l' else l
  end.

(** strings.TrimSpace / bytes.TrimSpace *)
Definition trim_space (s : string) : string :=
  of_runes (rev (drop_spaces (rev (drop_spaces (runes s))))).

(** strings.Fields: maximal runs of non-space runes *)
Fixpoint fields_go (cur : option string) (l : list (Z * string)) : list string :=
  match l with
  | [] => match cur with Some w => [w] | None => [] end
  | r :: l' =>
      if is_space r.1
      then match cur with Some w => w :: fields_go None l' | None => fields_go None l' end
      else fields_go (Some (match cur with Some w => w +:+ r.2 | None => r.2 end)) l'
  end.
Definition fields (s : string) : list string := fields_go None (runes s).

(** utf8.AppendRune *)
Definition utf8_encode (r : Z) : string :=
  let cont n := zb (128 + Z.land (Z.shiftr r n) 63) in
  if r <? 128 then String (zb r) ""
  else if r <? 2048 then String (zb (192 + Z.shiftr r 6)) (String (cont 0) "")
  else if r <? 65536 then
    String (zb (224 + Z.shiftr r 12)) (String (cont 6) (String (cont 0) ""))
  else String (zb (240 + Z.shiftr r 18)) (String (cont 12) (String (cont 6) (String (cont 0) ""))).

(** strings.ToLower.  ASCII letters are lowered here; [lower_rune] stands for
    the Unicode case table and is consulted only for runes from U+0080 on. *)
Class UnicodeTables := { lower_rune : Z -> Z }.

Definition lower_char (c : ascii) : ascii :=
  if (65 <=? bz c) && (bz c <=? 90) then zb (bz c + 32) else c.
Fixpoint ascii_lower (s : string) : string :=
  match s with "" => "" | String a s' => String (lower_char a) (ascii_lower s') end.
Definition to_lower `{UnicodeTables} (s : string) : string :=
  if is_ascii s then ascii_lower s
  else fold_right (fun r acc =>
         (if r.1 <? 128 then ascii_lower r.2 else utf8_encode (lower_rune r.1)) +:+ acc) "" (runes s).

(** ** Numbers *)

(** strconv.Itoa on a non-negative number; [fuel] bounds the digits. *)
Fixpoint dec_go (fuel : nat) (n : Z) (acc : string) : string :=
  match fuel with
  | O => acc
  | S f =>
      let acc' := String (dec_digit (n mod 10)) acc in
      if n <? 10 then acc' else dec_go f (n / 10) acc'
  end.
Definition dec_nonneg (n : Z) : string := dec_go (S (Z.to_nat (Z.log2 n))) n "".
Definition itoa (n : Z) : string :=
  if n <? 0 then String "-" (dec_nonneg (- n)) else dec_nonneg n.

(** Value of a digit string in [base], most significant digit first. *)
Fixpoint digits_val (digit : ascii -> option Z) (base acc : Z) (s : string) : option Z :=
  match s with
  | "" => Some acc
  | String c s' =>
      match digit c with
      | Some d => digits_val digit base (acc * base + d) s'
      | None => None
      end
  end.

(** strconv.ParseUint(s, base, bits) for base 10 and 16: digits only, no sign,
    and a value that fits. *)
Definition parse_uint (digit : ascii -> option Z) (base bits : Z) (s : string) : option Z :=
  if s =s "" then None
  else match digits_val digit base 0 s with
       | Some v => if v <? 2 ^ bits then Some v else None
       | None => None
       end.
Definition parse_uint10 (bits : Z) (s : string) : option Z := parse_uint digit_val 10 bits s.
Definition parse_uint16 (bits : Z) (s : string) : option Z := parse_uint hex_val 16 bits s.

(** strconv.Atoi and strconv.ParseInt(s, 10, 64): an optional sign. *)
Definition parse_int64 (s : string) : option Z :=
  match s with
  | "" => None
  | String c s' =>
      if Ascii.eqb c "-" then
        match parse_uint10 64 s' with
        | Some v => if v <=? 2 ^ 63 then Some (- v) else None
        | None => None
        end
      else
        match parse_uint10 64 (if Ascii.eqb c "+" then s' else s) with
        | Some v => if v <? 2 ^ 63 then Some v else None
        | None => None
        end
  end.
Definition atoi : string -> option Z := parse_int64.

(** ** net.SplitHostPort and net.JoinHostPort *)

Definition join_host_port (host port : string) : string :=
  if smem ":" host then "[" +:+ host +:+ "]:" +:+ port else host +:+ ":" +:+ port.

Definition split_host_port (hostport : string) : option (string * string) :=
  match cut_last ":" hostport with
  | None => None                                     (* missing port *)
  | Some (before, port) =>
      match hostport with
      | String "[" rest =>
          match cut "]" rest with
          | None => None                             (* missing ']' *)
          | Some (host, tail) =>
              (* the first ']' must sit just before the last ':' *)
              if tail =s (":" +:+ port) then
                if smem "[" rest || smem "]" tail then None
                else Some (host, port)
              else None
          end
      | _ =>
          if smem ":" before then None               (* too many colons *)
          else if smem "[" hostport || smem "]" hostport then None
          else Some (before, port)
      end
  end.

Lemma hex_val_digit d : 0 <= d < 16 -> hex_val (hex_digit d) = Some d.
Proof. revert d. apply (range_check_P (fun d => hex_val (hex_digit d) = Some d) 16). by vm_compute. Qed.

