(* ===== verification/Codec.v ===== *)
(** * Encodings and primitives of the standard library: hex, base64, SHA-1, X25519

    The parts of [encoding/hex], [encoding/base64], [crypto/sha1] and
    [crypto/ecdh] the program calls, executable, with their round trips. *)

From S2P Require Import Prelude GoStr.

(** ** Strings and bytes *)

Definition bytes_of (s : string) : list Z := map bz (String.list_ascii_of_string s).
Definition string_of (l : list Z) : string := String.string_of_list_ascii (map zb l).

(** ** encoding/hex *)

Fixpoint hex_encode (l : list Z) : string :=
  match l with
  | [] => ""
  | b :: l' => String (hex_digit (b / 16)) (String (hex_digit (b mod 16)) (hex_encode l'))
  end.

(** hex.DecodeString: digits of either case, an even number of them *)
Fixpoint hex_decode (s : string) : option (list Z) :=
  match s with
  | "" => Some []
  | String a (String b s') =>
      match hex_val a, hex_val b, hex_decode s' with
      | Some h, Some l, Some r => Some ((h * 16 + l) :: r)
      | _, _, _ => None
      end
  | String _ "" => None
  end.

(** ** encoding/base64, StdEncoding *)

Definition b64_char (v : Z) : ascii :=
  zb (if v <? 26 then 65 + v
      else if v <? 52 then 71 + v
      else if v <? 62 then v - 4
      else if v =? 62 then 43 else 47).
Definition b64_val (c : ascii) : option Z :=
  let b := bz c in
  if (65 <=? b) && (b <=? 90) then Some (b - 65)
  else if (97 <=? b) && (b <=? 122) then Some (b - 71)
  else if (48 <=? b) && (b <=? 57) then Some (b + 4)
  else if b =? 43 then Some 62
  else if b =? 47 then Some 63
  else None.

Fixpoint b64_encode (l : list Z) : string :=
  match l with
  | [] => ""
  | [a] => String (b64_char (a / 4)) (String (b64_char ((a mod 4) * 16)) "==")
  | [a; b] => String (b64_char (a / 4)) (String (b64_char ((a mod 4) * 16 + b / 16))
                (String (b64_char ((b mod 16) * 4)) "="))
  | a :: b :: c :: l' =>
      String (b64_char (a / 4)) (String (b64_char ((a mod 4) * 16 + b / 16))
        (String (b64_char ((b mod 16) * 4 + c / 64)) (String (b64_char (c mod 64)) (b64_encode l'))))
  end.

(** Decoding after line breaks are dropped; [strict] demands zero padding bits. *)
Fixpoint b64_groups (strict : bool) (s : string) : option (list Z) :=
  match s with
  | "" => Some []
  | String a (String b (String c (String d s'))) =>
      match b64_val a, b64_val b with
      | Some va, Some vb =>
          match b64_val c with
          | Some vc =>
              match b64_val d with
              | Some vd =>
                  match b64_groups strict s' with
                  | Some r => Some ((va * 4 + vb / 16) :: ((vb mod 16) * 16 + vc / 4) ::
                                    ((vc mod 4) * 64 + vd) :: r)
                  | None => None
                  end
              | None =>
                  if Ascii.eqb d "=" && (s' =s "") && negb (strict && negb (vc mod 4 =? 0))
                  then Some [va * 4 + vb / 16; (vb mod 16) * 16 + vc / 4] else None
              end
          | None =>
              if Ascii.eqb c "=" && Ascii.eqb d "=" && (s' =s "")
                 && negb (strict && negb (vb mod 16 =? 0))
              then Some [va * 4 + vb / 16] else None
          end
      | _, _ => None
      end
  | _ => None
  end.

Fixpoint drop_newlines (s : string) : string :=
  match s with
  | "" => ""
  | String a s' => if (bz a =? 10) || (bz a =? 13) then drop_newlines s' else String a (drop_newlines s')
  end.
Definition b64_decode (strict : bool) (s : string) : option (list Z) :=
  b64_groups strict (drop_newlines s).

(** ** crypto/sha1 *)

Definition rotl (n x : Z) : Z := Z.lor (wrap32 (Z.shiftl x n)) (Z.shiftr x (32 - n)).

Definition sha1_pad (m : list Z) : list Z :=
  let n := length m in
  let k := ((119 - (n mod 64)) mod 64)%nat in
  m ++ [128] ++ replicate k 0 ++
  put_be32 (Z.shiftr (8 * Z.of_nat n) 32) ++ put_be32 (8 * Z.of_nat n).

Fixpoint words_of (n : nat) (l : list Z) : list Z :=
  match n with O => [] | S n' => be32 l :: words_of n' (drop 4 l) end.

(** Message schedule, most recent word first. *)
Fixpoint sha1_schedule (n : nat) (w : list Z) : list Z :=
  match n with
  | O => w
  | S n' =>
      let x := Z.lxor (Z.lxor (nth 2 w 0) (nth 7 w 0)) (Z.lxor (nth 13 w 0) (nth 15 w 0)) in
      sha1_schedule n' (rotl 1 x :: w)
  end.

Fixpoint sha1_rounds (t : Z) (w : list Z) (st : Z * Z * Z * Z * Z) : Z * Z * Z * Z * Z :=
  match w with
  | [] => st
  | wt :: w' =>
      let '(a, b, c, d, e) := st in
      let '(f, k) :=
        if t <? 20 then (Z.lor (Z.land b c) (Z.land (Z.lxor b (2 ^ 32 - 1)) d), 0x5A827999)
        else if t <? 40 then (Z.lxor (Z.lxor b c) d, 0x6ED9EBA1)
        else if t <? 60 then
          (Z.lor (Z.lor (Z.land b c) (Z.land b d)) (Z.land c d), 0x8F1BBCDC)
        else (Z.lxor (Z.lxor b c) d, 0xCA62C1D6) in
      let tmp := wrap32 (rotl 5 a + f + e + k + wt) in
      sha1_rounds (t + 1) w' (tmp, a, rotl 30 b, c, d)
  end.

Fixpoint sha1_blocks (n : nat) (m : list Z) (st : Z * Z * Z * Z * Z) : Z * Z * Z * Z * Z :=
  match n with
  | O => st
  | S n' =>
      let w := rev (sha1_schedule 64 (rev (words_of 16 m))) in
      let '(a, b, c, d, e) := st in
      let '(a', b', c', d', e') := sha1_rounds 0 w st in
      sha1_blocks n' (drop 64 m)
        (wrap32 (a + a'), wrap32 (b + b'), wrap32 (c + c'), wrap32 (d + d'), wrap32 (e + e'))
  end.

Definition sha1_sum (m : list Z) : list Z :=
  let p := sha1_pad m in
  let '(a, b, c, d, e) :=
    sha1_blocks (length p / 64) p
      (0x67452301, 0xEFCDAB89, 0x98BADCFE, 0x10325476, 0xC3D2E1F0) in
  put_be32 a ++ put_be32 b ++ put_be32 c ++ put_be32 d ++ put_be32 e.

Example sha1_abc : hex_encode (sha1_sum (bytes_of "abc")) = "a9993e364706816aba3e25717850c26c9cd0d89d".
Proof. vm_compute. reflexivity. Qed.
Example sha1_two_blocks :
  hex_encode (sha1_sum (bytes_of "abcdbcdecdefdefgefghfghighijhijkijkljklmklmnlmnomnopnopq"))
  = "84983e441c3bd26ebaae4aa1f95129e5e54670f1".
Proof. vm_compute. reflexivity. Qed.

(** ** crypto/ecdh X25519

    The Montgomery ladder of RFC 7748 over Z/(2^255-19), on projective
    coordinates.  [ECDH] fails when the shared secret is the all-zero value,
    which for u = X/Z means X = 0 or Z = 0. *)

Definition p25519 : Z := 2 ^ 255 - 19.
(** Reduce a product below 2^510 by folding 2^255 = 19 twice. *)
Definition fred (x : Z) : Z :=
  let y := Z.land x (2 ^ 255 - 1) + 19 * Z.shiftr x 255 in
  Z.land y (2 ^ 255 - 1) + 19 * Z.shiftr y 255.
Definition fmul (a b : Z) : Z := fred (a * b).
Definition fadd (a b : Z) : Z := fred (a + b).
Definition fsub (a b : Z) : Z := fred (a + (2 * p25519 - b)).

Definition le_val (l : list Z) : Z := fold_right (fun b acc => b + 256 * acc) 0 l.

Definition ladder_step (x1 : Z) (bit : bool) (s : Z * Z * Z * Z) : Z * Z * Z * Z :=
  let '(x2, z2, x3, z3) := s in
  let '(x2, z2, x3, z3) := if bit then (x3, z3, x2, z2) else (x2, z2, x3, z3) in
  let a := fadd x2 z2 in let aa := fmul a a in
  let b := fsub x2 z2 in let bb := fmul b b in
  let e := fsub aa bb in
  let c := fadd x3 z3 in let d := fsub x3 z3 in
  let da := fmul d a in let cb := fmul c b in
  let x5 := let t := fadd da cb in fmul t t in
  let z5 := let t := fsub da cb in fmul x1 (fmul t t) in
  let x4 := fmul aa bb in
  let z4 := fmul e (fadd aa (fmul 121665 e)) in
  if bit then (x5, z5, x4, z4) else (x4, z4, x5, z5).

Fixpoint ladder (n : nat) (k x1 : Z) (s : Z * Z * Z * Z) : Z * Z * Z * Z :=
  match n with
  | O => s
  | S n' => ladder n' k x1 (ladder_step x1 (Z.testbit k (Z.of_nat n')) s)
  end.

(** The little-endian scalar, clamped. *)
Definition clamp (k : list Z) : Z :=
  Z.lor (Z.land (le_val k) (2 ^ 254 - 8)) (2 ^ 254).

(** [priv.ECDH(pub) == nil]: the shared secret is not all zero. *)
Definition ecdh_ok (scalar pub : list Z) : bool :=
  let u := Z.land (le_val pub) (2 ^ 255 - 1) in
  let '(x, z, _, _) := ladder 255 (clamp scalar) u (1, 0, u, 1) in
  negb (x mod p25519 =? 0) && negb (z mod p25519 =? 0).

(** ** Round trips *)

Lemma bz_range c : 0 <= bz c < 256.
Proof. unfold bz. pose proof (N_ascii_bounded c). lia. Qed.

Lemma bz_zb v : 0 <= v < 256 -> bz (zb v) = v.
Proof. intros. unfold bz, zb. rewrite N_ascii_embedding by lia. lia. Qed.

Lemma zb_bz c : zb (bz c) = c.
Proof. unfold bz, zb. by rewrite N2Z.id, ascii_N_embedding. Qed.

Lemma bytes_of_string_of l : bytes_ok l -> bytes_of (string_of l) = l.
Proof.
  intros Hl. unfold bytes_of, string_of. rewrite String.list_ascii_of_string_of_list_ascii.
  induction Hl as [|b l Hb Hl IH]; simpl; [done|]. by rewrite bz_zb, IH.
Qed.

Lemma bytes_of_ok s : bytes_ok (bytes_of s).
Proof. induction s; constructor; [apply bz_range|done]. Qed.

Lemma hex_roundtrip l : bytes_ok l -> hex_decode (hex_encode l) = Some l.
Proof.
  induction 1 as [|b l Hb Hl IH]; [done|]. simpl. unfold is_byte in Hb.
  pose proof (Z.div_mod b 16 ltac:(lia)). pose proof (Z.mod_pos_bound b 16 ltac:(lia)).
  assert (0 <= b / 16 < 16) by (split; [apply Z.div_pos|apply Z.div_lt_upper_bound]; lia).
  rewrite !hex_val_digit, IH by done. f_equal. f_equal. lia.
Qed.

Lemma b64_val_char v : 0 <= v < 64 -> b64_val (b64_char v) = Some v.
Proof.
  intros Hv. apply (bool_decide_eq_true_1 _).
  revert v Hv. apply (range_check _ 64). vm_compute. reflexivity.
Qed.

Lemma b64_char_no_newline v : 0 <= v < 64 -> (bz (b64_char v) =? 10) || (bz (b64_char v) =? 13) = false.
Proof.
  intros Hv. apply negb_true_iff. revert v Hv. apply (range_check _ 64). vm_compute. reflexivity.
Qed.

(** Induction on lists three elements at a time, as the encoder recurses. *)
Lemma list_ind3 {A} (P : list A -> Prop) :
  P [] -> (forall a, P [a]) -> (forall a b, P [a; b]) ->
  (forall a b c l, P l -> P (a :: b :: c :: l)) -> forall l, P l.
Proof.
  intros H0 H1 H2 H3. fix IH 1. intros [|a [|b [|c l]]]; [done..|]. apply H3, IH.
Qed.

Ltac div_mod_lia := Z.div_mod_to_equations; lia.

Lemma b64_groups_roundtrip strict l : bytes_ok l -> b64_groups strict (b64_encode l) = Some l.
Proof.
  induction l as [|a|a b|a b c l IH] using list_ind3; intros Hl; [done|..];
    repeat match goal with
    | H : bytes_ok (_ :: _) |- _ => inversion_clear H
    | H : Forall is_byte (_ :: _) |- _ => inversion_clear H
    end; unfold is_byte in *; cbn [b64_encode b64_groups]; rewrite !b64_val_char by div_mod_lia.
  - change (b64_val "=") with (@None Z). cbn [Ascii.eqb Bool.eqb andb String.eqb].
    rewrite Z.mod_mul, Z.div_mul by done. cbn. rewrite andb_false_r. cbn.
    f_equal. f_equal. div_mod_lia.
  - change (b64_val "=") with (@None Z). cbn [Ascii.eqb Bool.eqb andb String.eqb].
    rewrite Z.mod_mul, Z.div_mul by done. cbn. rewrite andb_false_r. cbn.
    f_equal. f_equal; [div_mod_lia|]. f_equal. div_mod_lia.
  - rewrite IH by done. f_equal. f_equal; [div_mod_lia|]. f_equal; [div_mod_lia|].
    f_equal. div_mod_lia.
Qed.

Lemma b64_encode_no_newlines l : bytes_ok l -> drop_newlines (b64_encode l) = b64_encode l.
Proof.
  induction l as [|a|a b|a b c l IH] using list_ind3; intros Hl; [done|..];
    repeat match goal with
    | H : bytes_ok (_ :: _) |- _ => inversion_clear H
    | H : Forall is_byte (_ :: _) |- _ => inversion_clear H
    end; unfold is_byte in *; cbn [b64_encode drop_newlines];
    rewrite !b64_char_no_newline by div_mod_lia; [done..|]. by rewrite IH.
Qed.

Lemma b64_roundtrip strict l : bytes_ok l -> b64_decode strict (b64_encode l) = Some l.
Proof.
  intros Hl. unfold b64_decode. by rewrite b64_encode_no_newlines, b64_groups_roundtrip.
Qed.

(** Decoding yields bytes. *)
Lemma b64_val_range c v : b64_val c = Some v -> 0 <= v < 64.
Proof.
  unfold b64_val. intros H. pose proof (bz_range c). repeat case_match; simplify_eq; lia.
Qed.

Fixpoint b64_groups_bytes strict s {struct s} :
  forall l, b64_groups strict s = Some l -> bytes_ok l.
Proof.
  destruct s as [|a [|b [|c [|d s]]]]; cbn [b64_groups]; intros l H; try done.
  - simplify_eq. constructor.
  - destruct (b64_val a) as [va|] eqn:Ha; [|done]. destruct (b64_val b) as [vb|] eqn:Hb; [|done].
    apply b64_val_range in Ha, Hb.
    destruct (b64_val c) as [vc|] eqn:Hc.
    + apply b64_val_range in Hc. destruct (b64_val d) as [vd|] eqn:Hd.
      * apply b64_val_range in Hd. destruct (b64_groups strict s) as [r|] eqn:Hr; [|done].
        simplify_eq. apply b64_groups_bytes in Hr.
        repeat (constructor; [unfold is_byte; div_mod_lia|]). done.
      * case_match; simplify_eq. repeat (constructor; [unfold is_byte; div_mod_lia|]). constructor.
    + case_match; simplify_eq. repeat (constructor; [unfold is_byte; div_mod_lia|]). constructor.
Qed.

Lemma b64_decode_bytes strict s l : b64_decode strict s = Some l -> bytes_ok l.
Proof. apply b64_groups_bytes. Qed.
