(* ===== verification/Netip.v ===== *)
(** * Go's [net/netip]: addresses, address-port pairs and prefixes

    The part of the standard library the program's address policy is written
    in.  An IPv4 address is its 32-bit value, an IPv6 address its 128-bit value
    with a zone; the zero [netip.Addr] is [AddrZ]. *)

From S2P Require Import Prelude GoStr.

Inductive Addr : Type :=
| AddrZ
| Addr4 (v : Z)
| Addr6 (v : Z) (zone : string).

#[export] Instance Addr_eq_dec : EqDecision Addr.
Proof. solve_decision. Defined.
#[export] Instance Addr_countable : Countable Addr.
Proof.
  refine (inj_countable'
    (fun a => match a with
              | AddrZ => inl tt | Addr4 v => inr (inl v) | Addr6 v z => inr (inr (v, z))
              end)
    (fun s => match s with
              | inl _ => AddrZ | inr (inl v) => Addr4 v | inr (inr (v, z)) => Addr6 v z
              end) _).
  by intros [].
Defined.

Record AddrPort := mkAP { ap_addr : Addr; ap_port : Z }.

#[export] Instance AddrPort_eq_dec : EqDecision AddrPort.
Proof. solve_decision. Defined.
#[export] Instance AddrPort_countable : Countable AddrPort.
Proof.
  refine (inj_countable' (fun p => (ap_addr p, ap_port p)) (fun q => mkAP q.1 q.2) _).
  by intros [].
Defined.

(** [netip.AddrPort{}] *)
Definition AddrPort0 : AddrPort := mkAP AddrZ 0.

(** ** Classification *)

Definition Addr_IsValid (a : Addr) : bool :=
  match a with AddrZ => false | _ => true end.
Definition Is4 (a : Addr) : bool := match a with Addr4 _ => true | _ => false end.
Definition Is6 (a : Addr) : bool := match a with Addr6 _ _ => true | _ => false end.
(** ::ffff:0:0/96 *)
Definition Is4In6 (a : Addr) : bool :=
  match a with Addr6 v _ => Z.shiftr v 32 =? 65535 | _ => false end.
Definition Unmap (a : Addr) : Addr :=
  match a with
  | Addr6 v _ => if Is4In6 a then Addr4 (v mod 2 ^ 32) else a
  | _ => a
  end.
Definition Zone (a : Addr) : string := match a with Addr6 _ z => z | _ => "" end.
Definition withoutZone (a : Addr) : Addr :=
  match a with Addr6 v _ => Addr6 v "" | _ => a end.
Definition BitLen (a : Addr) : Z :=
  match a with AddrZ => 0 | Addr4 _ => 32 | Addr6 _ _ => 128 end.

Definition IsUnspecified (a : Addr) : bool :=
  match a with
  | Addr4 v => v =? 0
  | Addr6 v z => (v =? 0) && (z =s "")
  | AddrZ => false
  end.
Definition IsLoopback (a : Addr) : bool :=
  match Unmap a with
  | Addr4 v => Z.shiftr v 24 =? 127
  | Addr6 v _ => v =? 1
  | AddrZ => false
  end.
Definition IsMulticast (a : Addr) : bool :=
  match Unmap a with
  | Addr4 v => Z.shiftr v 28 =? 14
  | Addr6 v _ => Z.shiftr v 120 =? 255
  | AddrZ => false
  end.
Definition IsLinkLocalUnicast (a : Addr) : bool :=
  match Unmap a with
  | Addr4 v => Z.shiftr v 16 =? 169 * 256 + 254
  | Addr6 v _ => Z.shiftr v 118 =? 1018 (* fe80::/10 *)
  | AddrZ => false
  end.
Definition IsPrivate (a : Addr) : bool :=
  match Unmap a with
  | Addr4 v =>
      (Z.shiftr v 24 =? 10) || (Z.shiftr v 20 =? 172 * 16 + 1)
      || (Z.shiftr v 16 =? 192 * 256 + 168)
  | Addr6 v _ => Z.shiftr v 121 =? 126 (* fc00::/7 *)
  | AddrZ => false
  end.
Definition IsGlobalUnicast (a : Addr) : bool :=
  let ip := Unmap a in
  match ip with
  | AddrZ => false
  | Addr4 v => negb ((v =? 0) || (v =? 2 ^ 32 - 1)) &&
               negb (IsLoopback ip) && negb (IsMulticast ip) && negb (IsLinkLocalUnicast ip)
  | Addr6 v z => negb ((v =? 0) && (z =s "")) &&
               negb (IsLoopback ip) && negb (IsMulticast ip) && negb (IsLinkLocalUnicast ip)
  end.

Definition AddrPort_IsValid (p : AddrPort) : bool := Addr_IsValid (ap_addr p).

(** ** Conversions from bytes *)

Definition bytes_val (l : list Z) : Z := fold_left (fun acc b => acc * 256 + b) l 0.
(** [n] big-endian bytes of [v] *)
Fixpoint val_bytes (n : nat) (v : Z) : list Z :=
  match n with
  | O => []
  | S n' => (Z.shiftr v (8 * Z.of_nat n')) mod 256 :: val_bytes n' v
  end.

Definition AddrFrom4 (l : list Z) : Addr := Addr4 (bytes_val l).
Definition AddrFrom16 (l : list Z) : Addr := Addr6 (bytes_val l) "".
(** netip.AddrFromSlice: 4 or 16 bytes *)
Definition AddrFromSlice (l : list Z) : option Addr :=
  if decide (length l = 4%nat) then Some (AddrFrom4 l)
  else if decide (length l = 16%nat) then Some (AddrFrom16 l)
  else None.

(** ** Parsing *)

Fixpoint v4_fields (s : string) (val digLen pos : Z) (acc : list Z) : option (list Z) :=
  match s with
  | "" => if pos <? 3 then None else Some (acc ++ [val])
  | String c s' =>
      match digit_val c with
      | Some d =>
          if (digLen =? 1) && (val =? 0) then None          (* leading zero *)
          else let val' := val * 10 + d in
               if 255 <? val' then None
               else v4_fields s' val' (digLen + 1) pos acc
      | None =>
          if Ascii.eqb c "." then
            if (digLen =? 0) || (s' =s "") then None        (* empty field *)
            else if pos =? 3 then None                      (* too long *)
            else v4_fields s' 0 0 (pos + 1) (acc ++ [val])
          else None
      end
  end.

Definition parse_v4 (s : string) : option Addr :=
  if s =s "" then None
  else match v4_fields s 0 0 0 [] with
       | Some l => Some (AddrFrom4 l)
       | None => None
       end.

(** One hexadecimal group: its value, its digits and the rest. *)
Fixpoint hex_group (s : string) (acc off : Z) : option (Z * Z * string) :=
  match s with
  | "" => Some (acc, off, s)
  | String c s' =>
      match hex_val c with
      | Some d =>
          let acc' := acc * 16 + d in
          if 3 <? off then None
          else if 65535 <? acc' then None
          else hex_group s' acc' (off + 1)
      | None => Some (acc, off, s)
      end
  end.

(** The loop over groups; [ip] holds the bytes read so far and [ell] the
    position of the ellipsis.  Each turn adds two bytes, so eight turns read
    the whole address. *)
Fixpoint v6_loop (fuel : nat) (s : string) (ip : list Z) (ell : option nat)
  : option (string * list Z * option nat) :=
  match fuel with
  | O => Some (s, ip, ell)
  | S fuel' =>
      match hex_group s 0 0 with
      | None => None
      | Some (acc, off, rest) =>
          if off =? 0 then None
          else
            match rest with
            | "" => Some ("", ip ++ put_be16 acc, ell)
            | String c rest' =>
                if Ascii.eqb c "." then
                  if match ell with None => negb (Nat.eqb (length ip) 12) | Some _ => false end
                  then None
                  else if (16 <? length ip + 4)%nat then None
                  else match v4_fields s 0 0 0 [] with
                       | Some l => Some ("", ip ++ l, ell)
                       | None => None
                       end
                else
                  let ip' := ip ++ put_be16 acc in
                  if negb (Ascii.eqb c ":") then None
                  else
                    match rest' with
                    | "" => None
                    | String c2 rest2 =>
                        if Ascii.eqb c2 ":" then
                          match ell with
                          | Some _ => None
                          | None =>
                              if rest2 =s "" then Some ("", ip', Some (length ip'))
                              else v6_loop fuel' rest2 ip' (Some (length ip'))
                          end
                        else v6_loop fuel' rest' ip' ell
                    end
            end
      end
  end.

Definition v6_finish (zone : string) (r : string * list Z * option nat) : option Addr :=
  let '(s, ip, ell) := r in
  if s <>s "" then None
  else if (length ip <? 16)%nat then
    match ell with
    | None => None
    | Some e =>
        Some (Addr6 (bytes_val (take e ip ++ replicate (16 - length ip) 0 ++ drop e ip)) zone)
    end
  else match ell with
       | Some _ => None
       | None => Some (Addr6 (bytes_val ip) zone)
       end.

Definition parse_v6_body (s zone : string) : option Addr :=
  match s with
  | String ":" (String ":" s') =>
      if s' =s "" then Some (Addr6 0 zone)
      else match v6_loop 8 s' [] (Some O) with
           | Some r => v6_finish zone r
           | None => None
           end
  | _ => match v6_loop 8 s [] None with
         | Some r => v6_finish zone r
         | None => None
         end
  end.

Definition parse_v6 (s : string) : option Addr :=
  match cut "%" s with
  | Some (body, zone) => if zone =s "" then None else parse_v6_body body zone
  | None => parse_v6_body s ""
  end.

(** The first of ['.'], [':'] and ['%'] decides the format. *)
Fixpoint addr_kind (s : string) : option ascii :=
  match s with
  | "" => None
  | String c s' =>
      if Ascii.eqb c "." || Ascii.eqb c ":" || Ascii.eqb c "%" then Some c
      else addr_kind s'
  end.

Definition ParseAddr (s : string) : option Addr :=
  match addr_kind s with
  | Some c => if Ascii.eqb c "." then parse_v4 s
              else if Ascii.eqb c ":" then parse_v6 s
              else None
  | None => None
  end.

Definition split_addr_port (s : string) : option (string * string * bool) :=
  match cut_last ":" s with
  | None => None
  | Some (ip, port) =>
      if (ip =s "") || (port =s "") then None
      else match ip with
           | String "[" ip' =>
               match unsnoc ip' with
               | Some (ip2, c) => if Ascii.eqb c "]" then Some (ip2, port, true) else None
               | None => None
               end
           | _ => Some (ip, port, false)
           end
  end.

Definition ParseAddrPort (s : string) : option AddrPort :=
  match split_addr_port s with
  | None => None
  | Some (ip, port, v6) =>
      match parse_uint10 16 port with
      | None => None
      | Some p =>
          match ParseAddr ip with
          | None => None
          | Some a => if Bool.eqb v6 (Is6 a) then Some (mkAP a p) else None
          end
      end
  end.

(** ** Prefixes: [pf_bits = -1] is an invalid prefix *)

Record Prefix := mkPrefix { pf_addr : Addr; pf_bits : Z }.
#[export] Instance Prefix_eq_dec : EqDecision Prefix.
Proof. solve_decision. Defined.

Definition Prefix0 : Prefix := mkPrefix AddrZ (-1).
Definition PrefixFrom (a : Addr) (bits : Z) : Prefix :=
  if Addr_IsValid a && (0 <=? bits) && (bits <=? BitLen a)
  then mkPrefix (withoutZone a) bits
  else mkPrefix (withoutZone a) (-1).
Definition Prefix_IsValid (p : Prefix) : bool := 0 <=? pf_bits p.

(** Clear the bits below the prefix length. *)
Definition mask_val (width bits v : Z) : Z := Z.shiftl (Z.shiftr v (width - bits)) (width - bits).
Definition Masked (p : Prefix) : Prefix :=
  if (pf_bits p <? 0) || (BitLen (pf_addr p) <? pf_bits p) then Prefix0
  else match pf_addr p with
       | AddrZ => Prefix0
       | Addr4 v => mkPrefix (Addr4 (mask_val 32 (pf_bits p) v)) (pf_bits p)
       | Addr6 v _ => mkPrefix (Addr6 (mask_val 128 (pf_bits p) v) "") (pf_bits p)
       end.

(** [p.Contains(ip)]: the same family, and equal above the host bits. *)
Definition Contains (p : Prefix) (a : Addr) : bool :=
  Prefix_IsValid p &&
  match pf_addr p, a with
  | Addr4 v, Addr4 w => Z.shiftr (Z.lxor w v) (32 - pf_bits p) =? 0
  | Addr6 v _, Addr6 w z => (z =s "") && (Z.shiftr (Z.lxor w v) (128 - pf_bits p) =? 0)
  | _, _ => false
  end.

Definition ParsePrefix (s : string) : option Prefix :=
  match cut_last "/" s with
  | None => None
  | Some (ip, bits_str) =>
      match ParseAddr ip with
      | None => None
      | Some a =>
          if Is6 a && (Zone a <>s "") then None
          else
            (* no sign and no leading zero *)
            if match bits_str with
               | String c (String _ _) => negb ((49 <=? bz c) && (bz c <=? 57))
               | _ => false
               end
            then None
            else match atoi bits_str with
                 | None => None
                 | Some bits =>
                     if (bits <? 0) || ((if Is6 a then 128 else 32) <? bits) then None
                     else Some (PrefixFrom a bits)
                 end
      end
  end.

(** ** Printing *)

Definition v4_string (v : Z) : string :=
  dec_nonneg (Z.shiftr v 24 mod 256) +:+ "." +:+ dec_nonneg (Z.shiftr v 16 mod 256) +:+ "." +:+
  dec_nonneg (Z.shiftr v 8 mod 256) +:+ "." +:+ dec_nonneg (v mod 256).

(** 16-bit group [i] of an IPv6 address, most significant first. *)
Definition v6u16 (v i : Z) : Z := Z.shiftr v (112 - 16 * i) mod 2 ^ 16.
(** Hexadecimal without leading zeros. *)
Definition hex16 (g : Z) : string :=
  let d n := hex_digit (Z.shiftr g n mod 16) in
  if g <? 16 then String (d 0) ""
  else if g <? 256 then String (d 4) (String (d 0) "")
  else if g <? 4096 then String (d 8) (String (d 4) (String (d 0) ""))
  else String (d 12) (String (d 8) (String (d 4) (String (d 0) ""))).

(** Length of the run of zero groups at the head. *)
Fixpoint zero_run (l : list Z) : Z :=
  match l with
  | [] => 0
  | g :: l' => if g =? 0 then 1 + zero_run l' else 0
  end.
(** First longest run of at least two zero groups: start and length. *)
Fixpoint longest_zeros (l : list Z) (i : Z) (best : Z * Z) : Z * Z :=
  match l with
  | [] => best
  | _ :: l' =>
      let n := zero_run l in
      longest_zeros l' (i + 1) (if (2 <=? n) && (best.2 <? n) then (i, n) else best)
  end.
Definition v6_groups (v : Z) : list Z := map (v6u16 v) [0; 1; 2; 3; 4; 5; 6; 7].
Definition v6_string (v : Z) : string :=
  let gs := v6_groups v in
  let '(st, n) := longest_zeros gs 0 (255, 0) in
  if st =? 255 then join ":" (map hex16 gs)
  else join ":" (map hex16 (take (Z.to_nat st) gs)) +:+ "::" +:+
       join ":" (map hex16 (drop (Z.to_nat (st + n)) gs)).

Definition Addr_String (a : Addr) : string :=
  match a with
  | AddrZ => "invalid IP"
  | Addr4 v => v4_string v
  | Addr6 v z =>
      (if Is4In6 a then "::ffff:" +:+ v4_string (v mod 2 ^ 32) else v6_string v) +:+
      (if z =s "" then "" else "%" +:+ z)
  end.
Definition AddrPort_String (p : AddrPort) : string :=
  match ap_addr p with
  | AddrZ => "invalid AddrPort"
  | Addr4 _ => Addr_String (ap_addr p) +:+ ":" +:+ itoa (ap_port p)
  | Addr6 _ _ => "[" +:+ Addr_String (ap_addr p) +:+ "]:" +:+ itoa (ap_port p)
  end.
Definition Prefix_String (p : Prefix) : string :=
  if Prefix_IsValid p then Addr_String (pf_addr p) +:+ "/" +:+ itoa (pf_bits p)
  else "invalid Prefix".
