(* ===== verification/NetipFacts.v ===== *)
(** * Facts about addresses: ranges, and the parse/print round trip *)

From S2P Require Import Prelude GoStr Netip.

(** ** Ranges *)

Definition addr_wf (a : Addr) : Prop :=
  match a with
  | AddrZ => False
  | Addr4 v => 0 <= v < 2 ^ 32
  | Addr6 v _ => 0 <= v < 2 ^ 128
  end.

Lemma bytes_val_app l k : bytes_val (l ++ k) = bytes_val l * 256 ^ Z.of_nat (length k) + bytes_val k.
Proof.
  unfold bytes_val. rewrite fold_left_app. generalize (fold_left (fun acc b => acc * 256 + b) l 0).
  induction k as [|b k IH] using rev_ind; intros z; cbn; [lia|].
  rewrite !fold_left_app, IH, length_app. cbn.
  rewrite Nat2Z.inj_add, Z.pow_add_r by lia. lia.
Qed.

Lemma bytes_val_range l : bytes_ok l -> 0 <= bytes_val l < 256 ^ Z.of_nat (length l).
Proof.
  induction l as [|b l IH] using rev_ind; intros Hl; [done|].
  apply Forall_app in Hl as [Hl Hb%Forall_inv]. specialize (IH Hl).
  rewrite bytes_val_app, length_app. cbn [length]. unfold bytes_val at 2 4. cbn [fold_left].
  rewrite Nat2Z.inj_add, Z.pow_add_r by lia. unfold is_byte in Hb.
  change (Z.of_nat 1) with 1. rewrite Z.pow_1_r. nia.
Qed.

Lemma digit_val_range c d : digit_val c = Some d -> 0 <= d < 10.
Proof.
  unfold digit_val, is_digit. intros H. go_inv H. destruct_and?. lia.
Qed.

Lemma hex_val_range c d : hex_val c = Some d -> 0 <= d < 16.
Proof. unfold hex_val. intros H. go_inv H; lia. Qed.

Lemma v4_fields_ok s val digLen pos acc l :
  is_byte val -> Z.of_nat (length acc) = pos -> pos <= 3 -> bytes_ok acc ->
  v4_fields s val digLen pos acc = Some l -> length l = 4%nat /\ bytes_ok l.
Proof.
  revert val digLen pos acc. induction s as [|c s IH]; cbn; intros val dl pos acc Hv Hlen Hpos Hacc H.
  - go_inv H. rewrite length_app. cbn. split; [lia|].
    apply Forall_app_2; [done|]. by apply Forall_singleton.
  - destruct (digit_val c) as [d|] eqn:Hd.
    + apply digit_val_range in Hd. go_inv H. eapply IH in H; eauto. unfold is_byte in *. lia.
    + go_inv H. eapply IH in H; eauto.
      * done.
      * rewrite length_app. cbn. lia.
      * lia.
      * apply Forall_app_2; [done|]. by apply Forall_singleton.
Qed.

Lemma hex_group_range s acc off g n r :
  0 <= acc < 2 ^ 16 -> hex_group s acc off = Some (g, n, r) -> 0 <= g < 2 ^ 16.
Proof.
  revert acc off. induction s as [|c s IH]; cbn; intros acc off Ha H; [by simplify_eq|].
  destruct (hex_val c) as [d|] eqn:Hd; [|by simplify_eq].
  apply hex_val_range in Hd. go_inv H. eapply IH in H; [done|]. lia.
Qed.

(** The ellipsis lies within the bytes read, which never exceed the address. *)
Definition v6_state (ip : list Z) (ell : option nat) : Prop :=
  bytes_ok ip /\ match ell with Some e => (e <= length ip)%nat | None => True end.

Lemma v6_state_app ip ell l : v6_state ip ell -> bytes_ok l -> v6_state (ip ++ l) ell.
Proof.
  intros [? He] ?. split; [by apply Forall_app_2|]. destruct ell; [|done].
  rewrite length_app. lia.
Qed.

Lemma v6_loop_ok fuel s ip ell s' ip' ell' :
  v6_state ip ell -> (length ip + 2 * fuel <= 16)%nat ->
  v6_loop fuel s ip ell = Some (s', ip', ell') -> v6_state ip' ell' /\ (length ip' <= 16)%nat.
Proof.
  revert s ip ell. induction fuel as [|fuel IH]; cbn [v6_loop]; intros s ip ell Hst Hlen H;
    [simplify_eq; split; [done|lia]|].
  assert (forall g, v6_state (ip ++ put_be16 g) ell) as Hnext.
  { intros. apply v6_state_app; [done|]. apply put_be16_bytes. }
  assert (forall g, length (ip ++ put_be16 g) + 2 * fuel <= 16)%nat as Hnl.
  { intros. rewrite length_app. cbn. lia. }
  destruct (hex_group s 0 0) as [[[g n] r]|]; [|done].
  destruct (n =? 0); [done|]. destruct r as [|c r].
  { simplify_eq. split; [done|]. specialize (Hnl g). lia. }
  destruct (Ascii.eqb c ".").
  { destruct (match ell with None => _ | Some _ => _ end); [done|].
    destruct (16 <? length ip + 4)%nat eqn:E; [done|]. apply Nat.ltb_ge in E.
    destruct (v4_fields s 0 0 0 []) as [l|] eqn:Hl; [|done]. simplify_eq.
    apply v4_fields_ok in Hl as [Hl4 Hlb]; [|unfold is_byte; lia|done|lia|by constructor].
    split; [by apply v6_state_app|]. rewrite length_app. lia. }
  destruct (negb (Ascii.eqb c ":")); [done|]. destruct r as [|c2 r]; [done|].
  destruct (Ascii.eqb c2 ":"); [|eapply IH; [| |exact H]; auto].
  destruct ell; [done|].
  assert (v6_state (ip ++ put_be16 g) (Some (length (ip ++ put_be16 g)))) by (split; [apply Hnext|done]).
  destruct (r =s ""); [|eapply IH; [| |exact H]; auto].
  simplify_eq. split; [done|]. specialize (Hnl g). lia.
Qed.

Lemma v6_finish_ok z r a :
  v6_state r.1.2 r.2 -> (length r.1.2 <= 16)%nat -> v6_finish z r = Some a -> addr_wf a.
Proof.
  destruct r as [[s ip] ell]. unfold v6_finish. cbn [fst snd]. intros [Hb He] Hlen H.
  destruct (s <>s ""); [done|]. destruct (length ip <? 16)%nat eqn:E.
  - destruct ell as [e|]; [|done]. simplify_eq. cbn.
    set (l := take e ip ++ replicate (16 - length ip) 0 ++ drop e ip).
    assert (length l = 16%nat) as Hl.
    { unfold l. rewrite !length_app, length_take, length_replicate, length_drop.
      apply Nat.ltb_lt in E. lia. }
    pose proof (bytes_val_range l) as Hr. rewrite Hl in Hr. apply Hr.
    apply Forall_app; split; [by apply Forall_take|]. apply Forall_app; split; [|by apply Forall_drop].
    by apply Forall_replicate.
  - destruct ell; [done|]. simplify_eq. cbn. apply Nat.ltb_ge in E.
    pose proof (bytes_val_range ip Hb) as Hr. replace (length ip) with 16%nat in Hr by lia. done.
Qed.

Lemma parse_v6_body_ok s z a : parse_v6_body s z = Some a -> addr_wf a.
Proof.
  assert (forall s ell, v6_state [] ell ->
    match v6_loop 8 s [] ell with Some r => v6_finish z r | None => None end = Some a -> addr_wf a) as Hgo.
  { intros s' ell Hs H. destruct (v6_loop 8 s' [] ell) as [[[s2 ip] e]|] eqn:E; [|done].
    apply v6_loop_ok in E as [??]; [|done|cbn; lia]. by eapply v6_finish_ok in H. }
  unfold parse_v6_body. intros H.
  repeat (case_match; simplify_eq; try (eapply Hgo; [|eassumption]; by split; [constructor|cbn])).
  done.
Qed.

Lemma ParseAddr_wf s a : ParseAddr s = Some a -> addr_wf a.
Proof.
  unfold ParseAddr, parse_v4, parse_v6. intros H.
  go_inv H; try by eapply parse_v6_body_ok.
  match goal with E : v4_fields _ _ _ _ _ = Some _ |- _ =>
    apply v4_fields_ok in E as [Hl Hb]; [|unfold is_byte; lia|done|lia|by constructor] end.
  pose proof (bytes_val_range _ Hb) as Hr. rewrite Hl in Hr. exact Hr.
Qed.

Lemma Unmap_wf a : addr_wf a -> addr_wf (Unmap a).
Proof.
  destruct a; cbn; [done..|]. intros. destruct (_ =? _); cbn; [|done].
  apply Z.mod_pos_bound. lia.
Qed.

(** ** Printing, then parsing: IPv4 *)

Lemma digit_val_dec d : 0 <= d < 10 -> digit_val (dec_digit d) = Some d.
Proof.
  revert d. apply (range_check_P (fun d => digit_val (dec_digit d) = Some d) 10). by vm_compute.
Qed.

(** The decimal form of a byte. *)
Definition dec_byte (b : Z) : string :=
  if b <? 10 then String (dec_digit b) ""
  else if b <? 100 then String (dec_digit (b / 10)) (String (dec_digit (b mod 10)) "")
  else String (dec_digit (b / 100))
         (String (dec_digit (b / 10 mod 10)) (String (dec_digit (b mod 10)) "")).

Lemma dec_nonneg_byte b : is_byte b -> dec_nonneg b = dec_byte b.
Proof.
  intros Hb. apply String.eqb_eq.
  by apply (range_check (fun b => dec_nonneg b =s dec_byte b) 256); [vm_compute|].
Qed.

Lemma v4_fields_digit d s val dl pos acc :
  0 <= d < 10 -> (dl =? 1) && (val =? 0) = false -> val * 10 + d <= 255 ->
  v4_fields (String (dec_digit d) s) val dl pos acc = v4_fields s (val * 10 + d) (dl + 1) pos acc.
Proof.
  intros Hd Hz Hv. cbn [v4_fields]. rewrite digit_val_dec, Hz by done.
  destruct (Z.ltb_spec 255 (val * 10 + d)); [lia|done].
Qed.

Lemma v4_fields_byte b s pos acc :
  is_byte b -> exists dl, 0 < dl /\ v4_fields (dec_nonneg b +:+ s) 0 0 pos acc = v4_fields s b dl pos acc.
Proof.
  intros Hb. rewrite dec_nonneg_byte by done. unfold is_byte, dec_byte in *.
  destruct (Z.ltb_spec b 10); [|destruct (Z.ltb_spec b 100)]; cbn [String.append].
  - exists 1. split; [lia|]. rewrite v4_fields_digit by (done || lia). done.
  - exists 2. split; [lia|].
    rewrite v4_fields_digit by (try apply andb_false_iff; (done || (left; done) || (Z.to_euclidean_division_equations; lia))).
    rewrite v4_fields_digit.
    + f_equal. Z.to_euclidean_division_equations; lia.
    + Z.to_euclidean_division_equations; lia.
    + apply andb_false_iff. right. apply Z.eqb_neq. Z.to_euclidean_division_equations; lia.
    + Z.to_euclidean_division_equations; lia.
  - exists 3. split; [lia|].
    rewrite v4_fields_digit by (try apply andb_false_iff; (done || (left; done) || (Z.to_euclidean_division_equations; lia))).
    rewrite v4_fields_digit; [rewrite v4_fields_digit| | |].
    + f_equal. Z.to_euclidean_division_equations; lia.
    + Z.to_euclidean_division_equations; lia.
    + by apply andb_false_iff; left.
    + Z.to_euclidean_division_equations; lia.
    + Z.to_euclidean_division_equations; lia.
    + apply andb_false_iff. right. apply Z.eqb_neq. Z.to_euclidean_division_equations; lia.
    + Z.to_euclidean_division_equations; lia.
Qed.

Lemma v4_fields_dot s b dl pos acc :
  0 < dl -> s <> "" -> pos < 3 ->
  v4_fields (String "." s) b dl pos acc = v4_fields s 0 0 (pos + 1) (acc ++ [b]).
Proof.
  intros. cbn [v4_fields]. assert (digit_val "." = None) as -> by done.
  rewrite (proj2 (Z.eqb_neq dl 0)), (proj2 (Z.eqb_neq pos 3)) by lia.
  destruct s; [done|]. done.
Qed.

Lemma dec_nonneg_ne b : is_byte b -> forall s, dec_nonneg b +:+ s <> "".
Proof.
  intros Hb s. rewrite dec_nonneg_byte by done. unfold dec_byte. by repeat case_match.
Qed.

Lemma v4_fields_byte_dot b s pos acc :
  is_byte b -> s <> "" -> pos < 3 ->
  v4_fields (dec_nonneg b +:+ "." +:+ s) 0 0 pos acc = v4_fields s 0 0 (pos + 1) (acc ++ [b]).
Proof.
  intros Hb Hs Hp. destruct (v4_fields_byte b ("." +:+ s) pos acc Hb) as (dl & ? & ->).
  by apply v4_fields_dot.
Qed.

Lemma v4_fields_string v :
  v4_fields (v4_string v) 0 0 0 [] =
  Some [Z.shiftr v 24 mod 256; Z.shiftr v 16 mod 256; Z.shiftr v 8 mod 256; v mod 256].
Proof.
  unfold v4_string.
  assert (forall z, is_byte (z mod 256)) as Hb by (intros; by apply Z.mod_pos_bound).
  pose proof (dec_nonneg_ne _ (Hb v) "") as Hne. rewrite sapp_nil_r in Hne.
  rewrite v4_fields_byte_dot by (done || by apply dec_nonneg_ne).
  rewrite v4_fields_byte_dot by (done || by apply dec_nonneg_ne).
  rewrite v4_fields_byte_dot by (done || by apply Hne).
  rewrite <-(sapp_nil_r (dec_nonneg (v mod 256))).
  destruct (v4_fields_byte (v mod 256) "" (0 + 1 + 1 + 1)
     ((([] ++ [Z.shiftr v 24 mod 256]) ++ [Z.shiftr v 16 mod 256]) ++ [Z.shiftr v 8 mod 256])
     (Hb v)) as (d4 & ? & ->). done.
Qed.

Lemma bytes_val_v4 v : 0 <= v < 2 ^ 32 ->
  bytes_val [Z.shiftr v 24 mod 256; Z.shiftr v 16 mod 256; Z.shiftr v 8 mod 256; v mod 256] = v.
Proof.
  intros. unfold bytes_val. cbn [fold_left]. rewrite !Z.shiftr_div_pow2 by lia.
  change (2 ^ 24) with 16777216. change (2 ^ 16) with 65536. change (2 ^ 8) with 256.
  change (2 ^ 32) with 4294967296 in *.
  Z.to_euclidean_division_equations; lia.
Qed.

(** ** Decimal numbers *)

Lemma digits_val_dec_go f n acc :
  0 <= n < 10 ^ Z.of_nat f ->
  digits_val digit_val 10 0 (dec_go f n acc) = digits_val digit_val 10 n acc.
Proof.
  revert n acc. induction f as [|f IH]; intros n acc Hn.
  { cbn in *. by replace n with 0 by lia. }
  cbn [dec_go]. destruct (Z.ltb_spec n 10).
  - cbn [digits_val]. rewrite digit_val_dec by (apply Z.mod_pos_bound; lia).
    by rewrite Z.mod_small by lia.
  - rewrite IH.
    + cbn [digits_val]. rewrite digit_val_dec by (apply Z.mod_pos_bound; lia).
      f_equal. pose proof (Z.div_mod n 10). lia.
    + rewrite Nat2Z.inj_succ, Z.pow_succ_r in Hn by lia. split; [apply Z.div_pos; lia|].
      apply Z.div_lt_upper_bound; lia.
Qed.

Lemma dec_fuel n : 0 <= n -> n < 10 ^ Z.of_nat (S (Z.to_nat (Z.log2 n))).
Proof.
  intros Hn. rewrite Nat2Z.inj_succ, Z2Nat.id by apply Z.log2_nonneg.
  destruct (decide (n = 0)) as [->|]; [done|].
  pose proof (Z.log2_spec n ltac:(lia)) as [_ Hlt]. pose proof (Z.log2_nonneg n).
  pose proof (Z.pow_le_mono_l 2 10 (Z.succ (Z.log2 n)) ltac:(lia)). lia.
Qed.

Lemma dec_go_ne f n acc : (f <> 0)%nat \/ acc <> "" -> dec_go f n acc <> "".
Proof.
  revert n acc. induction f as [|f IH]; intros n acc H; [destruct H; done|].
  cbn. destruct (n <? 10); [done|]. apply IH. by right.
Qed.

Lemma dec_nonneg_val n : 0 <= n -> digits_val digit_val 10 0 (dec_nonneg n) = Some n.
Proof.
  intros Hn. unfold dec_nonneg. rewrite digits_val_dec_go; [done|].
  split; [done|]. by apply dec_fuel.
Qed.

Lemma parse_uint10_itoa bits n : 0 <= n < 2 ^ bits -> parse_uint10 bits (itoa n) = Some n.
Proof.
  intros [H1 H2]. unfold parse_uint10, parse_uint, itoa.
  destruct (Z.ltb_spec n 0); [lia|].
  destruct (dec_nonneg n =s "") eqn:E.
  { apply String.eqb_eq in E. by destruct (dec_go_ne (S (Z.to_nat (Z.log2 n))) n ""); [left|]. }
  rewrite dec_nonneg_val by done. destruct (Z.ltb_spec n (2 ^ bits)); [done|lia].
Qed.

(** A string of decimal digits has no other character. *)
Lemma smem_dec_go c f n acc :
  0 <= n -> is_digit c = false -> smem c acc = false -> smem c (dec_go f n acc) = false.
Proof.
  intros Hn Hc. revert n acc Hn. induction f as [|f IH]; intros n acc Hn Hacc; [done|].
  assert (smem c (String (dec_digit (n mod 10)) acc) = false) as Hs.
  { cbn. rewrite Hacc, orb_false_r. apply Ascii.eqb_neq. intros <-.
    assert (digit_val (dec_digit (n mod 10)) = Some (n mod 10)) as Hd
      by (apply digit_val_dec, Z.mod_pos_bound; lia).
    unfold digit_val in Hd. by rewrite Hc in Hd. }
  cbn [dec_go]. destruct (n <? 10); [done|]. apply IH; [|done]. apply Z.div_pos; lia.
Qed.

Lemma smem_itoa c n : 0 <= n -> is_digit c = false -> smem c (itoa n) = false.
Proof.
  intros Hn Hc. unfold itoa. destruct (Z.ltb_spec n 0); [lia|]. by apply smem_dec_go.
Qed.

(** ** Printing, then parsing: IPv6 *)

Lemma hex_group_digit d s acc off :
  0 <= d < 16 -> off <= 3 -> acc * 16 + d < 65536 ->
  hex_group (String (hex_digit d) s) acc off = hex_group s (acc * 16 + d) (off + 1).
Proof.
  intros. cbn [hex_group]. rewrite hex_val_digit by done.
  destruct (Z.ltb_spec 3 off); [lia|]. destruct (Z.ltb_spec 65535 (acc * 16 + d)); [lia|done].
Qed.

Definition hex_stop (s : string) : Prop :=
  match s with "" => True | String c _ => hex_val c = None end.

Lemma hex_group_stop s acc off : hex_stop s -> hex_group s acc off = Some (acc, off, s).
Proof. destruct s; cbn; [done|]. by intros ->. Qed.

Lemma hex_group_hex16 g s :
  is_u16 g -> hex_stop s ->
  exists n, 0 < n /\ hex_group (hex16 g +:+ s) 0 0 = Some (g, n, s).
Proof.
  intros Hg Hs. unfold is_u16 in Hg. unfold hex16.
  rewrite !Z.shiftr_div_pow2 by lia.
  change (2 ^ 12) with 4096. change (2 ^ 8) with 256. change (2 ^ 4) with 16. change (2 ^ 0) with 1.
  change (2 ^ 16) with 65536 in *.
  repeat case_match; rewrite ?Z.ltb_lt, ?Z.ltb_ge in *; cbn [String.append].
  - exists 1. rewrite hex_group_digit, hex_group_stop by (done || (Z.to_euclidean_division_equations; lia)).
    split; [done|]. do 3 f_equal. Z.to_euclidean_division_equations; lia.
  - exists 2. rewrite !hex_group_digit, hex_group_stop by (done || (Z.to_euclidean_division_equations; lia)).
    split; [done|]. do 3 f_equal. Z.to_euclidean_division_equations; lia.
  - exists 3. rewrite !hex_group_digit, hex_group_stop by (done || (Z.to_euclidean_division_equations; lia)).
    split; [done|]. do 3 f_equal. Z.to_euclidean_division_equations; lia.
  - exists 4. rewrite !hex_group_digit, hex_group_stop by (done || (Z.to_euclidean_division_equations; lia)).
    split; [done|]. do 3 f_equal. Z.to_euclidean_division_equations; lia.
Qed.

Lemma hex16_head g : exists d s, 0 <= d < 16 /\ hex16 g = String (hex_digit d) s.
Proof.
  unfold hex16. repeat case_match; eexists _, _; (split; [|done]); apply Z.mod_pos_bound; lia.
Qed.

(** No hexadecimal digit is one of the characters of [l]. *)
Lemma hex_digit_not d c : 0 <= d < 16 -> hex_val c = None -> Ascii.eqb (hex_digit d) c = false.
Proof.
  intros Hd Hc. apply Ascii.eqb_neq. intros <-. by rewrite hex_val_digit in Hc.
Qed.

Lemma smem_hex16 c g : hex_val c = None -> smem c (hex16 g) = false.
Proof.
  intros Hc. unfold hex16.
  repeat case_match; cbn [smem]; rewrite !hex_digit_not by (done || (apply Z.mod_pos_bound; lia)); done.
Qed.

Lemma addr_kind_hex16 g s : addr_kind (hex16 g +:+ s) = addr_kind s.
Proof.
  unfold hex16. repeat case_match; cbn [addr_kind String.append];
    rewrite !hex_digit_not by (done || (apply Z.mod_pos_bound; lia)); done.
Qed.

(** Addresses as groups: the printed form of a list of groups. *)
Definition groups_string (l : list Z) : string := join ":" (map hex16 l).

Lemma groups_string_cons g l : l <> [] ->
  groups_string (g :: l) = hex16 g +:+ ":" +:+ groups_string l.
Proof. by destruct l. Qed.

Lemma groups_string_head l : l <> [] -> exists d s, 0 <= d < 16 /\ groups_string l = String (hex_digit d) s.
Proof.
  destruct l as [|g l]; [done|]. intros _. destruct (hex16_head g) as (d & s & Hd & E).
  destruct l as [|g' l]; [by eexists _, _|].
  rewrite groups_string_cons by done. rewrite E. by eexists _, _.
Qed.

Lemma v6_loop_group f g s ip ell :
  is_u16 g -> (exists d s', 0 <= d < 16 /\ s = String (hex_digit d) s') ->
  v6_loop (S f) (hex16 g +:+ ":" +:+ s) ip ell = v6_loop f s (ip ++ put_be16 g) ell.
Proof.
  intros Hg (d & s' & Hd & ->). cbn [v6_loop].
  destruct (hex_group_hex16 g (":" +:+ String (hex_digit d) s')) as (n & Hn & ->); [done|done|].
  rewrite (proj2 (Z.eqb_neq n 0)) by lia. cbn [String.append].
  rewrite (hex_digit_not d ":") by done. done.
Qed.

Lemma v6_loop_last f g ip ell :
  is_u16 g -> v6_loop (S f) (hex16 g) ip ell = Some ("", ip ++ put_be16 g, ell).
Proof.
  intros Hg. cbn [v6_loop].
  destruct (hex_group_hex16 g "") as (n & Hn & E); [done|done|].
  rewrite sapp_nil_r in E. rewrite E. by rewrite (proj2 (Z.eqb_neq n 0)) by lia.
Qed.

Lemma v6_loop_ellipsis f g s ip :
  is_u16 g ->
  v6_loop (S f) (hex16 g +:+ "::" +:+ s) ip None =
  (let ip' := ip ++ put_be16 g in
   if s =s "" then Some ("", ip', Some (length ip')) else v6_loop f s ip' (Some (length ip'))).
Proof.
  intros Hg. cbn [v6_loop].
  destruct (hex_group_hex16 g ("::" +:+ s)) as (n & Hn & ->); [done|done|].
  rewrite (proj2 (Z.eqb_neq n 0)) by lia. done.
Qed.

Definition groups_bytes (l : list Z) : list Z := concat (map put_be16 l).

Lemma groups_bytes_length l : length (groups_bytes l) = (2 * length l)%nat.
Proof. induction l as [|g l IH]; [done|]. unfold groups_bytes in *. cbn. rewrite IH. lia. Qed.

Lemma v6_loop_groups l f ip ell :
  l <> [] -> Forall is_u16 l -> (length l <= f)%nat ->
  v6_loop f (groups_string l) ip ell = Some ("", ip ++ groups_bytes l, ell).
Proof.
  revert f ip. induction l as [|g l IH]; intros f ip Hne Hl Hf; [done|].
  apply Forall_cons_iff in Hl as [Hg Hl]. destruct f as [|f]; [cbn in Hf; lia|].
  destruct l as [|g' l].
  - unfold groups_string. cbn [map join]. rewrite v6_loop_last by done.
    unfold groups_bytes. cbn [map concat]. by rewrite app_nil_r.
  - rewrite groups_string_cons, v6_loop_group by (done || by apply groups_string_head).
    rewrite IH by (done || (cbn in *; lia)). by rewrite <-app_assoc.
Qed.

(** The groups before the ellipsis, then whatever follows it. *)
Lemma v6_loop_prefix l s f ip :
  l <> [] -> Forall is_u16 l -> (length l <= f)%nat ->
  v6_loop f (groups_string l +:+ "::" +:+ s) ip None =
  (let ip' := ip ++ groups_bytes l in
   if s =s "" then Some ("", ip', Some (length ip'))
   else v6_loop (f - length l) s ip' (Some (length ip'))).
Proof.
  revert f ip. induction l as [|g l IH]; intros f ip Hne Hl Hf; [done|].
  apply Forall_cons_iff in Hl as [Hg Hl]. destruct f as [|f]; [cbn in Hf; lia|].
  destruct l as [|g' l].
  - unfold groups_string. cbn [map join]. rewrite v6_loop_ellipsis by done.
    unfold groups_bytes. cbn [map concat length]. rewrite app_nil_r.
    by replace (S f - 1)%nat with f by lia.
  - rewrite groups_string_cons, !sapp_assoc by done.
    rewrite v6_loop_group.
    + rewrite IH by (done || (cbn in *; lia)). unfold groups_bytes.
      rewrite <-app_assoc. done.
    + done.
    + destruct (groups_string_head (g' :: l)) as (d & s' & Hd & ->); [done|]. by eexists _, _.
Qed.

(** The compressed run consists of zero groups. *)
Lemma zero_run_spec l : exists k, l = replicate (Z.to_nat (zero_run l)) 0 ++ k /\ 0 <= zero_run l.
Proof.
  induction l as [|g l (k & E & Hk)]; cbn [zero_run]; [by exists []|].
  destruct (Z.eqb_spec g 0) as [->|]; [|by exists (g :: l)].
  exists k. rewrite Z2Nat.inj_add by lia. change (Z.to_nat 1) with 1%nat. cbn [Nat.add replicate app].
  split; [by f_equal|lia].
Qed.

Definition run_ok (gs : list Z) (best : Z * Z) : Prop :=
  best.1 = 255 \/ 0 <= best.1 /\ 2 <= best.2 /\
  exists k, drop (Z.to_nat best.1) gs = replicate (Z.to_nat best.2) 0 ++ k.

Lemma longest_zeros_spec gs l i best :
  0 <= i -> l = drop (Z.to_nat i) gs -> run_ok gs best -> run_ok gs (longest_zeros l i best).
Proof.
  revert i best. induction l as [|g l IH]; intros i best Hi E Hb; cbn [longest_zeros]; [done|].
  apply IH; [lia| |].
  - rewrite Z2Nat.inj_add by lia. rewrite <-drop_drop, <-E. done.
  - destruct (_ && _) eqn:C; [|done]. apply andb_true_iff in C as [C _].
    right. cbn [fst snd]. split_and!; [lia|lia|].
    destruct (zero_run_spec (g :: l)) as (k & Ek & _). exists k. by rewrite <-E.
Qed.

Lemma bytes_val_put_be16 g : is_u16 g -> bytes_val (put_be16 g) = g.
Proof.
  intros Hg. pose proof (be16_put g Hg []) as E. rewrite app_nil_r in E.
  unfold put_be16 in *. rewrite be16_arith in E by apply wrap8_byte. exact E.
Qed.

Lemma bytes_val_groups l : Forall is_u16 l ->
  bytes_val (groups_bytes l) = fold_left (fun acc g => acc * 65536 + g) l 0.
Proof.
  induction l as [|g l IH] using rev_ind; intros Hl; [done|].
  apply Forall_app in Hl as [Hl Hg%Forall_inv]. unfold groups_bytes in *.
  rewrite map_app, concat_app, bytes_val_app, fold_left_app, IH by done.
  cbn [map concat fold_left]. rewrite app_nil_r, bytes_val_put_be16 by done. done.
Qed.

Lemma shiftr_split v n : 0 <= n -> 
  Z.shiftr v (n + 16) * 65536 + Z.shiftr v n mod 2 ^ 16 = Z.shiftr v n.
Proof.
  intros Hn. rewrite <-Z.shiftr_shiftr by done. rewrite (Z.shiftr_div_pow2 _ 16) by lia.
  pose proof (Z.div_mod (Z.shiftr v n) (2 ^ 16)). change (2 ^ 16) with 65536 in *. lia.
Qed.

Lemma v6_groups_u16 v : Forall is_u16 (v6_groups v).
Proof. repeat constructor; by apply Z.mod_pos_bound. Qed.

Lemma v6_groups_val v : 0 <= v < 2 ^ 128 -> bytes_val (groups_bytes (v6_groups v)) = v.
Proof.
  intros Hv. rewrite bytes_val_groups by apply v6_groups_u16.
  unfold v6_groups, v6u16. cbn [map fold_left].
  assert (Z.shiftr v 128 = 0) as H0.
  { rewrite Z.shiftr_div_pow2 by lia. by apply Z.div_small. }
  pose proof (fun n => shiftr_split v n) as Hs.
  pose proof (Hs 112 ltac:(lia)) as H1. change (112 + 16) with 128 in H1. rewrite H0 in H1.
  pose proof (Hs 96 ltac:(lia)) as H2. pose proof (Hs 80 ltac:(lia)) as H3.
  pose proof (Hs 64 ltac:(lia)) as H4. pose proof (Hs 48 ltac:(lia)) as H5.
  pose proof (Hs 32 ltac:(lia)) as H6. pose proof (Hs 16 ltac:(lia)) as H7.
  pose proof (Hs 0 ltac:(lia)) as H8. rewrite Z.shiftr_0_r in H8. clear Hs H0.
  change (96 + 16) with 112 in H2. change (80 + 16) with 96 in H3. change (64 + 16) with 80 in H4.
  change (48 + 16) with 64 in H5. change (32 + 16) with 48 in H6. change (16 + 16) with 32 in H7.
  change (0 + 16) with 16 in H8.
  repeat match goal with
         | |- context [112 - 16 * ?k] =>
             let r := eval cbv in (112 - 16 * k) in change (112 - 16 * k) with r
         end.
  rewrite Z.shiftr_0_r. by rewrite H1, H2, H3, H4, H5, H6, H7.
Qed.

Lemma cut_none c s : smem c s = false -> cut c s = None.
Proof.
  induction s as [|a s IH]; cbn; [done|]. intros [Ha Hs]%orb_false_iff. by rewrite Ha, IH.
Qed.

Lemma smem_groups c l : hex_val c = None -> Ascii.eqb ":" c = false -> smem c (groups_string l) = false.
Proof.
  intros Hc Hc'. induction l as [|g l IH]; [done|]. destruct l as [|g' l].
  - by apply smem_hex16.
  - rewrite groups_string_cons, !smem_app, smem_hex16, IH by done. cbn [smem]. by rewrite Hc'.
Qed.

(** An address in groups, with a run of zero groups written as an ellipsis. *)
Lemma parse_v6_ellipsis pre n post z :
  Forall is_u16 pre -> Forall is_u16 post -> (2 <= n)%nat ->
  (length pre + n + length post = 8)%nat ->
  parse_v6_body (groups_string pre +:+ "::" +:+ groups_string post) z =
  Some (Addr6 (bytes_val (groups_bytes (pre ++ replicate n 0 ++ post))) z).
Proof.
  intros Hpre Hpost Hn Hlen.
  assert (forall k, groups_bytes (replicate k 0) = replicate (2 * k) 0) as Hz.
  { induction k as [|k IHk]; [done|]. replace (2 * S k)%nat with (S (S (2 * k)))%nat by lia.
    unfold groups_bytes in *. cbn [replicate map concat]. rewrite IHk. done. }
  assert (groups_bytes (pre ++ replicate n 0 ++ post) =
          groups_bytes pre ++ replicate (16 - length (groups_bytes pre ++ groups_bytes post)) 0
          ++ groups_bytes post) as ->.
  { unfold groups_bytes at 1. rewrite !map_app, !concat_app. fold (groups_bytes pre) (groups_bytes post).
    fold (groups_bytes (replicate n 0)). rewrite Hz, length_app, !groups_bytes_length.
    do 3 f_equal. lia. }
  assert (length (groups_bytes pre ++ groups_bytes post) <? 16 = true)%nat as Hshort.
  { apply Nat.ltb_lt. rewrite length_app, !groups_bytes_length. lia. }
  destruct pre as [|g pre].
  - unfold groups_string at 1. cbn [map join String.append parse_v6_body].
    destruct post as [|g' post].
    + cbn. change (bytes_val (replicate 16 0)) with 0. done.
    + destruct (groups_string (g' :: post) =s "") eqn:E.
      { destruct (groups_string_head (g' :: post)) as (d & s & _ & E'); [done|].
        apply String.eqb_eq in E. congruence. }
      rewrite v6_loop_groups by (done || lia). cbn [app]. unfold v6_finish.
      change (groups_bytes [] ++ groups_bytes (g' :: post)) with (groups_bytes (g' :: post)) in *.
      by rewrite Hshort.
  - assert (parse_v6_body (groups_string (g :: pre) +:+ "::" +:+ groups_string post) z =
      match v6_loop 8 (groups_string (g :: pre) +:+ "::" +:+ groups_string post) [] None with
      | Some r => v6_finish z r | None => None end) as ->.
    { destruct (groups_string_head (g :: pre)) as (d & s & Hd & ->); [done|].
      pose proof (hex_digit_not d ":" Hd eq_refl) as Hc. cbn [String.append parse_v6_body].
      revert Hc. generalize (hex_digit d). intros [[] [] [] [] [] [] [] []]; done. }
    rewrite v6_loop_prefix by (done || lia). cbn [app].
    destruct post as [|g' post].
    + unfold v6_finish. change (groups_string []) with "". change (groups_bytes []) with (@nil Z) in *.
      rewrite app_nil_r in *. cbn [String.eqb]. rewrite Hshort. cbn [String.eqb negb]. rewrite take_ge, drop_ge by done. by rewrite !app_nil_r.
    + destruct (groups_string (g' :: post) =s "") eqn:E.
      { destruct (groups_string_head (g' :: post)) as (d & s & _ & E'); [done|].
        apply String.eqb_eq in E. congruence. }
      rewrite v6_loop_groups by (done || (cbn [length] in *; lia)). unfold v6_finish.
      rewrite Hshort. cbn [String.eqb negb]. rewrite take_app_length, drop_app_length. done.
Qed.

Lemma parse_v6_full l z :
  Forall is_u16 l -> length l = 8%nat ->
  parse_v6_body (groups_string l) z = Some (Addr6 (bytes_val (groups_bytes l)) z).
Proof.
  intros Hl Hlen.
  assert (parse_v6_body (groups_string l) z =
      match v6_loop 8 (groups_string l) [] None with
      | Some r => v6_finish z r | None => None end) as ->.
  { destruct (groups_string_head l) as (d & s & Hd & ->); [by intros ->|].
    pose proof (hex_digit_not d ":" Hd eq_refl) as Hc. unfold parse_v6_body.
    revert Hc. generalize (hex_digit d). intros [[] [] [] [] [] [] [] []]; done. }
  rewrite v6_loop_groups by (lia || done || by intros ->). unfold v6_finish. cbn [app].
  rewrite groups_bytes_length, Hlen. done.
Qed.

Lemma v6_string_parse v z : 0 <= v < 2 ^ 128 -> parse_v6_body (v6_string v) z = Some (Addr6 v z).
Proof.
  intros Hv. unfold v6_string. pose proof (v6_groups_u16 v) as Hu.
  assert (length (v6_groups v) = 8%nat) as Hlen by done.
  pose proof (longest_zeros_spec (v6_groups v) (v6_groups v) 0 (255, 0) ltac:(lia) eq_refl
                ltac:(by left)) as Hr.
  pose proof (v6_groups_val v Hv) as Hval.
  revert Hu Hlen Hr Hval. generalize (v6_groups v) as gs. intros gs Hu Hlen Hr Hval.
  destruct (longest_zeros gs 0 (255, 0)) as [st n]. destruct Hr as [Hst|(Hst & Hn & k & E)]; cbn [fst snd] in *.
  { subst. cbn. fold (groups_string gs). rewrite parse_v6_full by done. done. }
  destruct (Z.eqb_spec st 255) as [->|Hne].
  { fold (groups_string gs). rewrite parse_v6_full by done. by rewrite Hval. }
  fold (groups_string (take (Z.to_nat st) gs)) (groups_string (drop (Z.to_nat (st + n)) gs)).
  assert (drop (Z.to_nat (st + n)) gs = k) as ->.
  { rewrite Z2Nat.inj_add by lia. rewrite <-drop_drop, E.
    by rewrite drop_app_length' by by rewrite length_replicate. }
  assert (gs = take (Z.to_nat st) gs ++ replicate (Z.to_nat n) 0 ++ k) as Egs.
  { rewrite <-E. by rewrite take_drop. }
  rewrite (parse_v6_ellipsis _ (Z.to_nat n)).
  - rewrite <-Egs. by rewrite Hval.
  - by apply Forall_take.
  - rewrite Egs in Hu. apply Forall_app in Hu as [_ Hu]. by apply Forall_app in Hu as [_ Hu].
  - lia.
  - rewrite Egs in Hlen. rewrite !length_app, length_replicate in Hlen. lia.
Qed.

Lemma smem_v6_string c v : hex_val c = None -> Ascii.eqb ":" c = false -> smem c (v6_string v) = false.
Proof.
  intros Hc Hc'. unfold v6_string. destruct (longest_zeros _ _ _) as [st n].
  destruct (st =? 255).
  - by apply (smem_groups c (v6_groups v)).
  - rewrite !smem_app. pose proof (fun l => smem_groups c l Hc Hc') as H.
    unfold groups_string in H. rewrite !H. cbn [smem]. by rewrite Hc'.
Qed.

Lemma addr_kind_v6 v : addr_kind (v6_string v) = Some ":"%char /\ smem ":" (v6_string v) = true.
Proof.
  unfold v6_string. destruct (longest_zeros _ _ _) as [st n].
  assert (forall l s, addr_kind (groups_string l +:+ "::" +:+ s) = Some ":"%char) as Hg.
  { intros l s. destruct l as [|g [|g' l]]; [done|..].
    - change (groups_string [g]) with (hex16 g). by rewrite addr_kind_hex16.
    - rewrite groups_string_cons, sapp_assoc, addr_kind_hex16 by done. done. }
  destruct (st =? 255); (split; [|rewrite ?smem_app, ?orb_true_r]).
  - unfold v6_groups. cbn [map join]. by rewrite addr_kind_hex16.
  - unfold v6_groups. cbn [map join]. rewrite smem_app. cbn [smem String.append]. by rewrite orb_true_r.
  - apply Hg.
  - by cbn [smem orb]; rewrite ?orb_true_r.
Qed.

(** [netip.Addr.String] is read back by [netip.ParseAddr]. *)
Lemma ParseAddr_String a :
  addr_wf a -> Zone a = "" -> Is4In6 a = false -> ParseAddr (Addr_String a) = Some a.
Proof.
  destruct a as [|v|v z]; cbn [addr_wf Zone]; intros Hwf Hz H4; [done| |].
  - cbn [Addr_String]. unfold ParseAddr, parse_v4, AddrFrom4.
    assert (addr_kind (v4_string v) = Some "."%char) as ->.
    { unfold v4_string. rewrite dec_nonneg_byte by by apply Z.mod_pos_bound.
      assert (forall d s, 0 <= d < 10 -> addr_kind (String (dec_digit d) s) = addr_kind s) as Hd.
      { intros d s Hd. cbn [addr_kind]. assert (forall c, digit_val c = None ->
          Ascii.eqb (dec_digit d) c = false) as Hc.
        { intros c Hc. apply Ascii.eqb_neq. intros <-. by rewrite digit_val_dec in Hc. }
        by rewrite !Hc. }
      pose proof (Z.mod_pos_bound (Z.shiftr v 24) 256 ltac:(lia)).
      unfold dec_byte. repeat case_match; cbn [String.append];
        rewrite !Hd by (Z.to_euclidean_division_equations; lia); done. }
    rewrite v4_fields_string, bytes_val_v4 by done.
    pose proof (v4_fields_string v) as Hv. destruct (v4_string v); [done|]. done.
  - subst z. unfold Addr_String. rewrite H4. cbn [String.eqb]. rewrite sapp_nil_r.
    unfold ParseAddr, parse_v6. rewrite (proj1 (addr_kind_v6 v)).
    cbn [Ascii.eqb Bool.eqb]. rewrite cut_none by by apply smem_v6_string.
    by apply v6_string_parse.
Qed.

Lemma cut_last_none c s : smem c s = false -> cut_last c s = None.
Proof.
  induction s as [|a s IH]; cbn; [done|]. intros [Ha Hs]%orb_false_iff. by rewrite Ha, IH.
Qed.

Lemma cut_last_app c s t : smem c t = false -> cut_last c (s +:+ String c t) = Some (s, t).
Proof.
  intros Ht. induction s as [|a s IH]; cbn.
  - by rewrite cut_last_none, Ascii.eqb_refl.
  - by rewrite IH.
Qed.

Lemma unsnoc_app s c : unsnoc (s +:+ String c "") = Some (s, c).
Proof.
  induction s as [|a s IH]; [done|]. cbn. rewrite IH. by destruct s.
Qed.

Lemma itoa_ne n : 0 <= n -> itoa n <> "".
Proof.
  intros Hn. unfold itoa. destruct (Z.ltb_spec n 0); [lia|]. apply dec_go_ne. by left.
Qed.

Lemma Addr_String_colon a : addr_wf a -> Zone a = "" -> Is4In6 a = false ->
  smem ":" (Addr_String a) = Is6 a.
Proof.
  destruct a as [|v|v z]; cbn [addr_wf Zone]; intros Hwf Hz H4; [done| |].
  - cbn [Addr_String Is6]. unfold v4_string.
    assert (forall n, smem ":" (dec_nonneg (n mod 256)) = false) as Hd.
    { intros n. pose proof (smem_itoa ":" (n mod 256)) as Hi. unfold itoa in Hi.
      pose proof (Z.mod_pos_bound n 256 ltac:(lia)).
      destruct (Z.ltb_spec (n mod 256) 0); [lia|]. by apply Hi; [lia|]. }
    rewrite !smem_app, !Hd. done.
  - subst. unfold Addr_String. rewrite H4. cbn [String.eqb]. rewrite sapp_nil_r. apply addr_kind_v6.
Qed.

Lemma Addr_String_head a : addr_wf a -> Zone a = "" -> Is4In6 a = false ->
  exists c s, Addr_String a = String c s /\ Ascii.eqb c "[" = false.
Proof.
  intros Hwf Hz H4. destruct (Addr_String a) as [|c s] eqn:E.
  { pose proof (ParseAddr_String a Hwf Hz H4) as Hp. by rewrite E in Hp. }
  exists c, s. split; [done|]. apply Ascii.eqb_neq. intros ->.
  pose proof (ParseAddr_String a Hwf Hz H4) as Hp. rewrite E in Hp.
  unfold ParseAddr in Hp. destruct (addr_kind _) as [k|]; [|done].
  destruct (Ascii.eqb k "."); [by cbn in Hp|]. destruct (Ascii.eqb k ":"); [|done].
  unfold parse_v6 in Hp. cbn in Hp. destruct (cut "%" s) as [[b z']|]; [destruct (z' =s "")|]; by cbn in Hp.
Qed.

(** An address and a port joined by [net.JoinHostPort] are read back. *)
Lemma ParseAddrPort_join a port :
  addr_wf a -> Zone a = "" -> Is4In6 a = false -> is_u16 port ->
  ParseAddrPort (join_host_port (Addr_String a) (itoa port)) = Some (mkAP a port).
Proof.
  intros Hwf Hz H4 Hp. unfold join_host_port. rewrite Addr_String_colon by done.
  assert (smem ":" (itoa port) = false) as Hc by (apply smem_itoa; unfold is_u16 in *; lia || done).
  pose proof (itoa_ne port ltac:(unfold is_u16 in *; lia)) as Hne%String.eqb_neq.
  destruct (Addr_String_head a Hwf Hz H4) as (c & s & E & Hb).
  pose proof (ParseAddr_String a Hwf Hz H4) as Hpa.
  unfold ParseAddrPort, split_addr_port. destruct (Is6 a) eqn:H6.
  - assert ("[" +:+ Addr_String a +:+ "]:" +:+ itoa port =
            ("[" +:+ Addr_String a +:+ "]") +:+ String ":" (itoa port)) as ->
      by (rewrite !sapp_assoc; done).
    rewrite cut_last_app by done. cbn [String.append String.eqb]. rewrite Hne. cbn [orb].
    rewrite unsnoc_app. cbn [Ascii.eqb Bool.eqb]. rewrite parse_uint10_itoa by done.
    rewrite Hpa, H6. done.
  - change (":" +:+ itoa port) with (String ":" (itoa port)). rewrite cut_last_app by done.
    rewrite Hne. rewrite E at 1. cbn [String.eqb orb].
    assert (match Addr_String a with
      | String "[" ip' => match unsnoc ip' with
               | Some (ip2, c) => if Ascii.eqb c "]" then Some (ip2, itoa port, true) else None
               | None => None end
      | _ => Some (Addr_String a, itoa port, false) end = Some (Addr_String a, itoa port, false)) as ->.
    { rewrite E. revert Hb. destruct c as [[] [] [] [] [] [] [] []]; done. }
    rewrite parse_uint10_itoa, Hpa, H6 by done. done.
Qed.
