(* ===== verification/Stunwire.v ===== *)
(** * internal/stunwire/stun.go: the shared, bounded STUN binding parser

    Packets are lists of bytes.  [decodeAddress], [ParseResponse] and the
    predicates keep the source's structure; the attribute loop runs on fuel,
    and [ParseResponse_fuel] shows that the fuel given always suffices. *)

From S2P Require Import Prelude GoStr Netip NetipFacts.

Definition stunHeaderSize : nat := 20.
Definition stunMagicCookie : Z := 0x2112A442.
Definition stunBindingRequest : Z := 0x0001.
Definition stunBindingSuccess : Z := 0x0101.
Definition attrMappedAddress : Z := 0x0001.
Definition attrXorMappedAddress : Z := 0x0020.

(** [[12]byte] *)
Abbreviation TxnID := (list Z) (only parsing).

Definition blen (b : list Z) : Z := Z.of_nat (length b).

Definition IsSTUN (b : list Z) : bool :=
  (20 <=? blen b) && (blen b <=? 2048) &&
  (Z.land (byte_at b 0) 0xc0 =? 0) &&
  (be32 (slice b 4 8) =? stunMagicCookie) &&
  (be16 (slice b 2 4) mod 4 =? 0) &&
  (20 + be16 (slice b 2 4) =? blen b).

(** A zero identifier when the packet is too short. *)
Definition TxnIDOf (b : list Z) : TxnID :=
  if 20 <=? blen b then slice b 8 20 else replicate 12 0.

(** [rand.Read] is the parameter [random]: twelve bytes, or a failure. *)
Definition BuildRequest (random : option TxnID) : result (list Z * TxnID) :=
  match random with
  | None => Err (ENew "stun: txn id")
  | Some txn =>
      let msg := put_be16 stunBindingRequest ++ put_be16 0 ++ put_be32 stunMagicCookie ++ txn in
      Ok (msg, txn)
  end.

(** [for i := range raw { raw[i] ^= mask[i] }] *)
Fixpoint xor_bytes (raw mask : list Z) : list Z :=
  match raw, mask with
  | r :: raw', m :: mask' => Z.lxor r m :: xor_bytes raw' mask'
  | _, _ => raw
  end.

Definition decodeAddress (value : list Z) (txn : TxnID) (xored : bool) : result AddrPort :=
  if (blen value <? 8) || negb (byte_at value 0 =? 0) then
    Err (ENew "stun: short address attribute")
  else
    let family := byte_at value 1 in
    let port := be16 (slice value 2 4) in
    let port := if xored then Z.lxor port (wrap16 (Z.shiftr stunMagicCookie 16)) else port in
    let? rawAddr :=
      if family =? 0x01 then
        if negb (blen value =? 8) then Err (ENew "stun: short IPv4 attribute")
        else
          let raw := slice value 4 8 in
          Ok (if xored then xor_bytes raw (put_be32 stunMagicCookie) else raw)
      else if family =? 0x02 then
        if negb (blen value =? 20) then Err (ENew "stun: short IPv6 attribute")
        else
          let raw := slice value 4 20 in
          Ok (if xored then xor_bytes raw (put_be32 stunMagicCookie ++ txn) else raw)
      else Err (ENew "stun: unknown address family") in
    match AddrFromSlice rawAddr with
    | None => Err (ENew "stun: invalid address")
    | Some addr =>
        if (port =? 0) || negb (IsGlobalUnicast addr) || Is4In6 addr
        then Err (ENew "stun: invalid mapped endpoint")
        else Ok (mkAP addr port)
    end.

(** The loop over attributes: [mapped] and [xor] are the addresses seen. *)
Definition out_of_fuel : error := ENew "out of fuel".

Fixpoint attr_loop (fuel : nat) (attrs : list Z) (txn : TxnID) (mapped xor : AddrPort)
  : result (AddrPort * AddrPort) :=
  match fuel with
  | O => Err out_of_fuel
  | S fuel' =>
      if blen attrs =? 0 then Ok (mapped, xor)
      else if blen attrs <? 4 then Err (ENew "truncated STUN attribute")
      else
        let kind := be16 (slice attrs 0 2) in
        let length := be16 (slice attrs 2 4) in
        let padded := Z.land (length + 3) (Z.lnot 3) in
        if blen attrs <? padded + 4 then Err (ENew "truncated STUN attribute padding")
        else
          let next := drop (Z.to_nat (4 + padded)) attrs in
          if (kind =? attrXorMappedAddress) || (kind =? attrMappedAddress) then
            let? value := decodeAddress (slice attrs 4 (Z.to_nat (4 + length))) txn
                            (kind =? attrXorMappedAddress) in
            if kind =? attrXorMappedAddress then
              if AddrPort_IsValid xor then Err (ENew "duplicate mapped address")
              else attr_loop fuel' next txn mapped value
            else
              if AddrPort_IsValid mapped then Err (ENew "duplicate mapped address")
              else attr_loop fuel' next txn value xor
          else attr_loop fuel' next txn mapped xor
  end.

Definition ParseResponse (msg : list Z) (txn : TxnID) : result AddrPort :=
  if negb (IsSTUN msg) || negb (bool_decide (TxnIDOf msg = txn))
     || negb (be16 (slice msg 0 2) =? stunBindingSuccess)
  then Err (ENew "invalid STUN binding response")
  else
    let attrs := drop stunHeaderSize msg in
    let? r := attr_loop (S (length attrs)) attrs txn AddrPort0 AddrPort0 in
    if AddrPort_IsValid r.2 then Ok r.2
    else if AddrPort_IsValid r.1 then Ok r.1
    else Err (ENew "missing STUN mapped address").

(** ** Reference encoder: the message a STUN server sends

    RFC 8489: a type-length-value attribute is padded to a multiple of four
    with bytes the receiver ignores. *)

Record attribute := mkAttr { at_kind : Z; at_value : list Z; at_pad : list Z }.

Definition attr_wf (a : attribute) : Prop :=
  is_u16 (at_kind a) /\ bytes_ok (at_value a) /\ blen (at_value a) < 2 ^ 16 /\
  blen (at_pad a) = (- blen (at_value a)) mod 4.

Definition encode_attr (a : attribute) : list Z :=
  put_be16 (at_kind a) ++ put_be16 (blen (at_value a)) ++ at_value a ++ at_pad a.
Definition encode_attrs (l : list attribute) : list Z := concat (map encode_attr l).
Definition encode_success (txn : TxnID) (l : list attribute) : list Z :=
  put_be16 stunBindingSuccess ++ put_be16 (blen (encode_attrs l)) ++
  put_be32 stunMagicCookie ++ txn ++ encode_attrs l.

(** What the attributes of a response mean: every address attribute must
    decode, none may repeat, and XOR-MAPPED-ADDRESS takes precedence. *)
Fixpoint select_mapped (l : list attribute) (txn : TxnID) (mapped xor : option AddrPort)
  : result AddrPort :=
  match l with
  | [] =>
      match xor, mapped with
      | Some x, _ => Ok x
      | None, Some m => Ok m
      | None, None => Err (ENew "missing STUN mapped address")
      end
  | a :: l' =>
      if at_kind a =? attrXorMappedAddress then
        let? v := decodeAddress (at_value a) txn true in
        match xor with
        | Some _ => Err (ENew "duplicate mapped address")
        | None => select_mapped l' txn mapped (Some v)
        end
      else if at_kind a =? attrMappedAddress then
        let? v := decodeAddress (at_value a) txn false in
        match mapped with
        | Some _ => Err (ENew "duplicate mapped address")
        | None => select_mapped l' txn (Some v) xor
        end
      else select_mapped l' txn mapped xor
  end.

(** The value of an address attribute for an endpoint, xor-ed or plain. *)
Definition encode_address (ep : AddrPort) (txn : TxnID) (xored : bool) : list Z :=
  let raw := match ap_addr ep with
             | Addr4 v => val_bytes 4 v
             | Addr6 v _ => val_bytes 16 v
             | AddrZ => []
             end in
  let fam := if Is4 (ap_addr ep) then 1 else 2 in
  [0; fam] ++
  put_be16 (if xored then Z.lxor (ap_port ep) (wrap16 (Z.shiftr stunMagicCookie 16)) else ap_port ep) ++
  (if xored then xor_bytes raw (put_be32 stunMagicCookie ++ txn) else raw).

(** A mapped endpoint the code accepts as the reflexive address of this host. *)
Definition good_mapped (ep : AddrPort) : Prop :=
  0 < ap_port ep < 2 ^ 16 /\ IsGlobalUnicast (ap_addr ep) = true /\
  Is4In6 (ap_addr ep) = false /\ Zone (ap_addr ep) = "" /\
  match ap_addr ep with
  | Addr4 v => 0 <= v < 2 ^ 32
  | Addr6 v _ => 0 <= v < 2 ^ 128
  | AddrZ => False
  end.

(** ** Lemmas *)

Lemma padded_arith n : 0 <= n -> Z.land (n + 3) (Z.lnot 3) = n + (- n) mod 4.
Proof.
  intros Hn. change 3 with (Z.ones 2) at 2. rewrite <-Z.ldiff_land.
  rewrite Z.ldiff_ones_r by lia. rewrite Z.shiftl_mul_pow2, Z.shiftr_div_pow2 by lia.
  change (2 ^ 2) with 4.
  pose proof (Z.div_mod (n + 3) 4). pose proof (Z.mod_pos_bound (n + 3) 4).
  pose proof (Z.div_mod (- n) 4). pose proof (Z.mod_pos_bound (- n) 4). lia.
Qed.

Lemma AddrFromSlice_valid raw a : AddrFromSlice raw = Some a -> Addr_IsValid a = true.
Proof. unfold AddrFromSlice. intros. repeat case_decide; by simplify_eq. Qed.

Lemma bytes_val_snoc l b : bytes_val (l ++ [b]) = bytes_val l * 256 + b.
Proof. unfold bytes_val. by rewrite fold_left_app. Qed.

Lemma xor_bytes_ok raw mask : bytes_ok raw -> bytes_ok mask -> bytes_ok (xor_bytes raw mask).
Proof.
  intros Hr. revert mask. induction Hr as [|r raw Hr Hraw IH]; intros mask Hm; simpl; [constructor|].
  destruct Hm; constructor; eauto with go. by apply IH.
Qed.

Lemma length_xor_bytes raw mask : length (xor_bytes raw mask) = length raw.
Proof. revert mask. induction raw; intros [|]; simpl; auto. Qed.

Lemma xor_bytes_prefix raw m m' :
  (length raw <= length m)%nat -> xor_bytes raw m = xor_bytes raw (m ++ m').
Proof.
  revert m. induction raw as [|r raw IH]; intros [|k m] Hl; simpl in *; try (done || lia).
  by rewrite (IH m) by lia.
Qed.

Lemma xor_bytes_invol raw mask :
  (length raw <= length mask)%nat -> xor_bytes (xor_bytes raw mask) mask = raw.
Proof.
  revert mask. induction raw as [|r raw IH]; intros [|m mask] Hl; simpl in *; try (done || lia).
  rewrite lxor_lxor_cancel, IH by lia. done.
Qed.

Lemma be16_slice_range l lo : bytes_ok l -> is_u16 (be16 (slice l lo (lo + 2))).
Proof.
  intros Hl. unfold slice. replace (lo + 2 - lo)%nat with 2%nat by lia.
  assert (bytes_ok (take 2 (drop lo l))) as Ht by (by apply Forall_take, Forall_drop).
  unfold be16, byte_at. destruct (take 2 (drop lo l)) as [|a [|b t]]; simpl.
  - done.
  - inversion_clear Ht. rewrite lor_shiftl_add by lia.
    unfold is_byte, is_u16 in *. lia.
  - inversion_clear Ht as [|?? Ha Hb]. inversion_clear Hb. by apply (be16_range a b t).
Qed.

Lemma decodeAddress_no_fuel v txn x : decodeAddress v txn x <> Err out_of_fuel.
Proof. unfold decodeAddress, out_of_fuel. intros H. repeat (case_match; simplify_eq). Qed.

Lemma attr_loop_fuel fuel : forall attrs txn m x,
  bytes_ok attrs -> (length attrs < fuel)%nat ->
  attr_loop fuel attrs txn m x <> Err out_of_fuel.
Proof.
  induction fuel as [|fuel IH]; intros attrs txn m x Hb Hl; [lia|]. simpl.
  destruct (blen attrs =? 0) eqn:H0; [done|].
  destruct (blen attrs <? 4) eqn:H4; [done|].
  pose proof (be16_slice_range attrs 2 Hb) as Hr. simpl in Hr. unfold is_u16 in Hr.
  set (n := be16 (slice attrs 2 4)) in *.
  rewrite (padded_arith n) by lia.
  pose proof (Z.mod_pos_bound (- n) 4).
  destruct (blen attrs <? n + - n mod 4 + 4) eqn:Hp; [done|].
  apply Z.ltb_ge in H4, Hp. unfold blen in *.
  assert (length (drop (Z.to_nat (4 + (n + - n mod 4))) attrs) < fuel)%nat as Hd
    by (rewrite length_drop; lia).
  pose proof (bytes_ok_drop (Z.to_nat (4 + (n + - n mod 4))) attrs Hb) as Hdb.
  destruct (_ || _); [|by apply IH].
  destruct (decodeAddress _ _ _) eqn:Hdec.
  - repeat case_match; try done; by apply IH.
  - intros [= ->]. by eapply decodeAddress_no_fuel.
Qed.

Lemma decodeAddress_good v txn x ep :
  bytes_ok v -> bytes_ok txn -> decodeAddress v txn x = Ok ep -> good_mapped ep.
Proof.
  intros Hv Htxn. unfold decodeAddress. intros H.
  destruct (_ || _); [discriminate|].
  pose proof (be16_slice_range v 2 Hv) as Hr. simpl in Hr.
  set (port := if x then Z.lxor _ _ else _) in H.
  assert (is_u16 port) as Hport.
  { subst port. destruct x; [apply lxor_u16; auto with go|done]. }
  match type of H with context [match ?r with Ok _ => _ | Err _ => _ end] =>
    assert (forall raw, r = Ok raw -> bytes_ok raw) as Hraw; [|destruct r as [raw|] eqn:Er; [|done]]
  end.
  { clear H. intros raw Hr'. repeat (case_match; simplify_eq);
      repeat apply xor_bytes_ok; auto with go. }
  specialize (Hraw _ eq_refl). clear Er.
  destruct (AddrFromSlice raw) as [a|] eqn:Ha; [|done].
  destruct (_ || _) eqn:Hbad in H; [done|]. simplify_eq.
  apply orb_false_iff in Hbad as [[Hp Hg]%orb_false_iff H46].
  apply negb_false_iff in Hg. apply Z.eqb_neq in Hp. clearbody port.
  pose proof (bytes_val_range raw Hraw) as Hval. unfold blen in Hval.
  unfold good_mapped, is_u16 in *. cbn [ap_addr ap_port].
  unfold AddrFromSlice, AddrFrom4, AddrFrom16 in Ha.
  destruct (decide (length raw = 4%nat)) as [E|_];
    [|destruct (decide (length raw = 16%nat)) as [E|_]; [|done]];
    rewrite E in Hval; simplify_eq; split_and!; try done; lia.
Qed.

Lemma attr_loop_good fuel : forall attrs txn m x r,
  bytes_ok attrs -> bytes_ok txn ->
  (AddrPort_IsValid m = true -> good_mapped m) ->
  (AddrPort_IsValid x = true -> good_mapped x) ->
  attr_loop fuel attrs txn m x = Ok r ->
  (AddrPort_IsValid r.1 = true -> good_mapped r.1) /\
  (AddrPort_IsValid r.2 = true -> good_mapped r.2).
Proof.
  induction fuel as [|fuel IH]; intros attrs txn m x r Hb Ht Hm Hx H; [done|]. simpl in H.
  destruct (blen attrs =? 0); [by simplify_eq|].
  destruct (blen attrs <? 4); [done|].
  destruct (blen attrs <? _) in H; [done|].
  pose proof (bytes_ok_drop
    (Z.to_nat (4 + Z.land (be16 (slice attrs 2 4) + 3) (Z.lnot 3))) attrs Hb) as Hdb.
  destruct (_ || _) in H; [|exact (IH _ _ _ _ _ Hdb Ht Hm Hx H)].
  destruct (decodeAddress _ _ _) as [v|] eqn:Hdec; [|done].
  apply decodeAddress_good in Hdec; [|by apply Forall_take, Forall_drop|done].
  repeat (case_match; try done); by refine (IH _ _ _ _ _ Hdb Ht _ _ H).
Qed.

Lemma ParseResponse_good msg txn ep :
  bytes_ok msg -> bytes_ok txn -> ParseResponse msg txn = Ok ep ->
  IsSTUN msg = true /\ TxnIDOf msg = txn /\ be16 (slice msg 0 2) = stunBindingSuccess /\
  good_mapped ep.
Proof.
  intros Hm Ht. unfold ParseResponse. intros H.
  destruct (_ || _) eqn:Hc; [done|].
  apply orb_false_iff in Hc as [[Hs Hid]%orb_false_iff Hty].
  apply negb_false_iff in Hs, Hid, Hty.
  apply bool_decide_eq_true in Hid. apply Z.eqb_eq in Hty.
  do 3 (split; [done|]).
  destruct (attr_loop _ _ _ _ _) as [r|] eqn:Hl; [|done].
  apply attr_loop_good in Hl as [H1 H2]; [|auto with go|done..].
  destruct (AddrPort_IsValid r.2); [by simplify_eq; auto|].
  destruct (AddrPort_IsValid r.1); [by simplify_eq; auto|done].
Qed.

(** A response the parser accepts is a STUN success response to exactly
    the transaction it was matched against, and the endpoint it yields is a
    well-formed global-unicast address with a non-zero port: nothing a server
    sends can make the host publish a loopback, multicast, link-local,
    unspecified, 4-in-6 or port-0 endpoint. *)
Theorem ParseResponse_sound msg txn ep :
  bytes_ok msg -> bytes_ok txn -> ParseResponse msg txn = Ok ep ->
  IsSTUN msg = true /\ TxnIDOf msg = txn /\ be16 (slice msg 0 2) = stunBindingSuccess /\
  good_mapped ep.
Proof. apply ParseResponse_good. Qed.

(** Parsing always terminates with an answer: the attribute loop consumes
    at least four bytes per turn, so the fuel [ParseResponse] gives it (one more
    than the number of attribute bytes) is never exhausted. *)
Theorem ParseResponse_fuel msg txn :
  bytes_ok msg -> ParseResponse msg txn <> Err out_of_fuel.
Proof.
  intros Hm. unfold ParseResponse. destruct (_ || _); [done|].
  pose proof (attr_loop_fuel (S (length (drop stunHeaderSize msg))) (drop stunHeaderSize msg)
    txn AddrPort0 AddrPort0 ltac:(auto with go) ltac:(lia)) as Hf.
  destruct (attr_loop _ _ _ _ _); [|by intros [= ->]].
  by repeat case_match.
Qed.

(** *** The parser against the reference encoder *)

Definition opt_ap (p : AddrPort) : option AddrPort :=
  if AddrPort_IsValid p then Some p else None.
Definition finish (r : result (AddrPort * AddrPort)) : result AddrPort :=
  let? r := r in
  if AddrPort_IsValid r.2 then Ok r.2
  else if AddrPort_IsValid r.1 then Ok r.1
  else Err (ENew "missing STUN mapped address").

Lemma decodeAddress_valid v txn x ep :
  decodeAddress v txn x = Ok ep -> AddrPort_IsValid ep = true.
Proof.
  unfold decodeAddress. intros H. repeat (case_match; simplify_eq).
  all: by eapply AddrFromSlice_valid.
Qed.

Lemma opt_ap_cases p : opt_ap p = if AddrPort_IsValid p then Some p else None.
Proof. done. Qed.

Lemma blen_nonneg l : 0 <= blen l.
Proof. unfold blen. lia. Qed.

Lemma blen_app l k : blen (l ++ k) = blen l + blen k.
Proof. unfold blen. rewrite length_app. lia. Qed.

Lemma blen_encode_attr a : attr_wf a ->
  blen (encode_attr a) = 4 + (blen (at_value a) + (- blen (at_value a)) mod 4).
Proof.
  intros (_ & _ & _ & Hp). unfold encode_attr. rewrite !blen_app, Hp.
  change (blen (put_be16 (at_kind a))) with 2.
  change (blen (put_be16 (blen (at_value a)))) with 2. lia.
Qed.

Lemma attr_loop_step fuel a rest txn m x : attr_wf a ->
  attr_loop (S fuel) (encode_attr a ++ rest) txn m x =
  if (at_kind a =? attrXorMappedAddress) || (at_kind a =? attrMappedAddress) then
    let? value := decodeAddress (at_value a) txn (at_kind a =? attrXorMappedAddress) in
    if at_kind a =? attrXorMappedAddress then
      if AddrPort_IsValid x then Err (ENew "duplicate mapped address")
      else attr_loop fuel rest txn m value
    else
      if AddrPort_IsValid m then Err (ENew "duplicate mapped address")
      else attr_loop fuel rest txn value x
  else attr_loop fuel rest txn m x.
Proof.
  intros Hwf. pose proof (blen_encode_attr a Hwf) as Hlen.
  destruct Hwf as (Hk & Hv & Hvl & Hp).
  pose proof (blen_nonneg (at_value a)) as Hv0.
  pose proof (blen_nonneg rest) as Hr0.
  pose proof (Z.mod_pos_bound (- blen (at_value a)) 4 ltac:(lia)) as Hmod.
  assert (be16 (slice (encode_attr a ++ rest) 0 2) = at_kind a) as Hkind
    by exact (be16_put (at_kind a) Hk []).
  assert (be16 (slice (encode_attr a ++ rest) 2 4) = blen (at_value a)) as Hlength
    by exact (be16_put (blen (at_value a)) (conj Hv0 Hvl) []).
  assert (slice (encode_attr a ++ rest) 4 (Z.to_nat (4 + blen (at_value a))) = at_value a) as Hval.
  { unfold slice, encode_attr. simpl. rewrite <-app_assoc. unfold blen.
    replace (Z.to_nat (4 + Z.of_nat (length (at_value a))) - 4)%nat
      with (length (at_value a)) by lia. apply take_app_length. }
  assert (drop (Z.to_nat (4 + (blen (at_value a) + (- blen (at_value a)) mod 4)))
            (encode_attr a ++ rest) = rest) as Hdrop.
  { rewrite <-Hlen. unfold blen. rewrite Nat2Z.id. apply drop_app_length. }
  cbn [attr_loop]. rewrite Hkind, Hlength, Hval, padded_arith, Hdrop by lia.
  rewrite blen_app, Hlen.
  replace (_ =? 0) with false by (symmetry; apply Z.eqb_neq; lia).
  replace (4 + _ + _ <? 4) with false by (symmetry; apply Z.ltb_ge; lia).
  replace (4 + _ + _ <? _) with false by (symmetry; apply Z.ltb_ge; lia).
  done.
Qed.

Lemma attr_loop_encode l : forall fuel txn m x,
  Forall attr_wf l -> (length l < fuel)%nat ->
  finish (attr_loop fuel (encode_attrs l) txn m x) = select_mapped l txn (opt_ap m) (opt_ap x).
Proof.
  induction l as [|a l IH]; intros fuel txn m x Hwf Hf; (destruct fuel as [|fuel]; [simpl in *; lia|]).
  { simpl. unfold opt_ap. by repeat case_match. }
  inversion_clear Hwf as [|?? Ha Hl]. simpl in Hf.
  unfold encode_attrs. cbn [map concat]. rewrite attr_loop_step by done.
  fold (encode_attrs l). cbn [select_mapped].
  destruct (at_kind a =? attrXorMappedAddress) eqn:Hx; cbn [orb].
  - destruct (decodeAddress _ _ _) as [v|] eqn:Hdec; [|done].
    apply decodeAddress_valid in Hdec.
    rewrite (opt_ap_cases x). destruct (AddrPort_IsValid x); [done|].
    rewrite IH by (done || lia). by rewrite (opt_ap_cases v), Hdec.
  - destruct (at_kind a =? attrMappedAddress) eqn:Hm; cbn [orb]; [|apply IH; [done|lia]].
    destruct (decodeAddress _ _ _) as [v|] eqn:Hdec; [|done].
    apply decodeAddress_valid in Hdec.
    rewrite (opt_ap_cases m). destruct (AddrPort_IsValid m); [done|].
    rewrite IH by (done || lia). by rewrite (opt_ap_cases v), Hdec.
Qed.

Lemma encode_attrs_len l : Forall attr_wf l ->
  blen (encode_attrs l) mod 4 = 0 /\ (4 * length l <= length (encode_attrs l))%nat.
Proof.
  induction 1 as [|a l Ha Hl [IHm IHl]]; [done|].
  pose proof (blen_encode_attr a Ha) as Hlen.
  pose proof (blen_nonneg (at_value a)).
  set (n := blen (at_value a)) in *.
  pose proof (Z.div_mod (- n) 4 ltac:(lia)). pose proof (Z.mod_pos_bound (- n) 4 ltac:(lia)).
  unfold encode_attrs in *. cbn [map concat]. split.
  - rewrite blen_app, Hlen.
    apply Z.mod_divide in IHm as [k Hk]; [|lia]. rewrite Hk.
    replace (4 + (n + - n mod 4) + k * 4) with ((1 - (- n) / 4 + k) * 4) by lia.
    apply Z.mod_mul. lia.
  - rewrite length_app. unfold blen in *. cbn [length]. lia.
Qed.

(** A response of legal size has a well-formed header. *)
Lemma encode_success_header txn l :
  length txn = 12%nat -> Forall attr_wf l -> blen (encode_attrs l) <= 2028 ->
  IsSTUN (encode_success txn l) = true /\ TxnIDOf (encode_success txn l) = txn /\
  be16 (slice (encode_success txn l) 0 2) = stunBindingSuccess /\
  drop stunHeaderSize (encode_success txn l) = encode_attrs l.
Proof.
  intros Ht Hl Hs. destruct (encode_attrs_len l Hl) as [Hm _].
  do 12 (destruct txn as [|? txn]; [discriminate Ht|]). destruct txn; [|discriminate Ht].
  pose proof (blen_nonneg (encode_attrs l)) as H0.
  assert (be16 (put_be16 (blen (encode_attrs l))) = blen (encode_attrs l)) as Hb.
  { rewrite <-(app_nil_r (put_be16 _)). apply be16_put. unfold is_u16. lia. }
  unfold encode_success. set (e := encode_attrs l) in *. clearbody e.
  unfold IsSTUN, TxnIDOf, stunHeaderSize.
  match goal with |- context [blen (put_be16 stunBindingSuccess ++ ?t)] =>
    assert (blen (put_be16 stunBindingSuccess ++ t) = 20 + blen e) as -> by
      (rewrite !blen_app; change (blen (put_be16 stunBindingSuccess)) with 2;
       change (blen (put_be16 (blen e))) with 2; change (blen (put_be32 stunMagicCookie)) with 4;
       unfold blen at 1; simpl length; lia)
  end.
  change (be16 (slice (put_be16 stunBindingSuccess ++ put_be16 (blen e) ++ ?t) 2 4))
    with (be16 (put_be16 (blen e))).
  split_and!.
  - rewrite Hb, Hm. repeat (apply andb_true_intro; split);
      first [reflexivity | apply Z.leb_le; lia | apply Z.eqb_eq; lia].
  - rewrite (proj2 (Z.leb_le _ _)) by lia. reflexivity.
  - reflexivity.
  - reflexivity.
Qed.

Lemma ParseResponse_encode txn l :
  length txn = 12%nat -> Forall attr_wf l -> blen (encode_attrs l) <= 2028 ->
  ParseResponse (encode_success txn l) txn = select_mapped l txn None None.
Proof.
  intros Ht Hl Hs. destruct (encode_success_header txn l Ht Hl Hs) as (Hi & Hid & Hty & Hd).
  destruct (encode_attrs_len l Hl) as [_ Hlen].
  unfold ParseResponse. rewrite Hi, Hid, Hty, Hd, bool_decide_true by done. cbn [negb orb].
  rewrite Z.eqb_refl. cbn [negb].
  refine (attr_loop_encode l (S _) txn AddrPort0 AddrPort0 Hl _). lia.
Qed.

(** C12: On every well-formed success response (any attributes, in any order,
    with any padding bytes, up to the 2048-byte bound) the byte-level parser
    computes exactly the reference meaning of the attribute list: every mapped
    address must decode, a repeated one is refused, and XOR-MAPPED-ADDRESS wins
    over MAPPED-ADDRESS. *)
Theorem ParseResponse_refines txn l :
  length txn = 12%nat -> Forall attr_wf l -> blen (encode_attrs l) <= 2028 ->
  ParseResponse (encode_success txn l) txn = select_mapped l txn None None.
Proof. apply ParseResponse_encode. Qed.

Lemma length_val_bytes n v : length (val_bytes n v) = n.
Proof. induction n; simpl; auto. Qed.

Lemma val_bytes_ok n v : bytes_ok (val_bytes n v).
Proof. induction n; constructor; [by apply Z.mod_pos_bound|done]. Qed.

Lemma bytes_val_cons b l : bytes_val (b :: l) = b * 256 ^ blen l + bytes_val l.
Proof.
  induction l as [|c l IH] using rev_ind; [unfold bytes_val, blen; simpl; lia|].
  rewrite app_comm_cons, !bytes_val_snoc, IH, blen_app. change (blen [c]) with 1.
  pose proof (blen_nonneg l). rewrite Z.pow_add_r, Z.pow_1_r by lia. lia.
Qed.

Lemma bytes_val_val_bytes n v : bytes_val (val_bytes n v) = v mod 256 ^ Z.of_nat n.
Proof.
  induction n as [|n IH]; [by rewrite Z.mod_1_r|].
  cbn [val_bytes]. rewrite bytes_val_cons, IH. unfold blen. rewrite length_val_bytes.
  rewrite Z.shiftr_div_pow2, Z.pow_mul_r by lia. change (2 ^ 8) with 256.
  rewrite Nat2Z.inj_succ, Z.pow_succ_r by lia. rewrite (Z.mul_comm 256).
  rewrite Z.rem_mul_r by (try apply Z.pow_nonzero; lia). lia.
Qed.

(** The shape of an encoded address attribute. *)
Lemma encode_address_shape ep txn x :
  good_mapped ep -> exists n raw,
    (n = 4%nat /\ Is4 (ap_addr ep) = true \/ n = 16%nat /\ Is4 (ap_addr ep) = false) /\
    length raw = n /\ AddrFromSlice raw = Some (ap_addr ep) /\
    encode_address ep txn x = [0; if Is4 (ap_addr ep) then 1 else 2] ++
      put_be16 (if x then Z.lxor (ap_port ep) (wrap16 (Z.shiftr stunMagicCookie 16)) else ap_port ep) ++
      (if x then xor_bytes raw (put_be32 stunMagicCookie ++ txn) else raw).
Proof.
  intros (Hp & Hg & H46 & Hz & Hr).
  unfold encode_address, AddrFromSlice, AddrFrom4, AddrFrom16.
  destruct (ap_addr ep) as [|v|v z]; [done| |]; eexists _, (val_bytes _ v); simpl in Hz; subst.
  - split; [by left|]. split; [apply length_val_bytes|]. split; [|done].
    rewrite length_val_bytes, decide_True by done. f_equal. f_equal.
    rewrite bytes_val_val_bytes. by apply Z.mod_small.
  - split; [by right|]. split; [apply length_val_bytes|]. split; [|done].
    rewrite length_val_bytes, decide_False, decide_True by done. f_equal. f_equal.
    rewrite bytes_val_val_bytes. by apply Z.mod_small.
Qed.

Lemma decode_encode_address ep txn x :
  length txn = 12%nat -> good_mapped ep ->
  decodeAddress (encode_address ep txn x) txn x = Ok ep.
Proof.
  intros Ht Hgood. destruct (encode_address_shape ep txn x Hgood) as (n & raw & Hn & Hlen & Hs & ->).
  destruct Hgood as (Hp & Hg & H46 & Hz & Hr).
  set (m := put_be32 stunMagicCookie ++ txn).
  assert (length raw <= length m)%nat as Hm
    by (subst m; rewrite length_app, Ht; simpl; lia).
  set (enc := if x then xor_bytes raw m else raw).
  assert (length enc = n) as Hle by (subst enc; destruct x; by rewrite ?length_xor_bytes).
  set (pt := if x then Z.lxor _ _ else _).
  assert (is_u16 pt) as Hpt.
  { subst pt. unfold is_u16 in *. destruct x; [apply lxor_u16; auto with go|]; unfold is_u16; lia. }
  assert ((if x then Z.lxor pt (wrap16 (Z.shiftr stunMagicCookie 16)) else pt) = ap_port ep) as Hdec
    by (subst pt; destruct x; [apply lxor_lxor_cancel|done]).
  assert ((if x then xor_bytes enc m else enc) = raw) as Hraw
    by (subst enc; destruct x; [by apply xor_bytes_invol|done]).
  assert (byte_at (put_be16 pt) 0 = wrap8 (Z.shiftr pt 8) /\ be16 (put_be16 pt) = pt) as [_ Hbe].
  { split; [done|]. rewrite <-(app_nil_r (put_be16 pt)). by apply be16_put. }
  clearbody enc pt. set (fam := if Is4 _ then 1 else 2).
  set (value := [0; fam] ++ put_be16 pt ++ enc).
  assert (blen value = 4 + Z.of_nat n) as Hbl
    by (subst value n; rewrite !blen_app; change (blen [0; fam]) with 2;
        change (blen (put_be16 pt)) with 2; unfold blen; lia).
  assert (slice value 4 (4 + n) = enc) as Hsl.
  { subst value. unfold slice. replace (4 + n - 4)%nat with (length enc) by lia.
    simpl drop. apply firstn_all. }
  unfold decodeAddress. change (byte_at value 0) with 0. change (byte_at value 1) with fam.
  change (slice value 2 4) with (put_be16 pt). rewrite Hbe, Hbl, Hdec.
  rewrite (proj2 (Z.ltb_ge _ _)) by lia. cbn [orb negb Z.eqb].
  assert (ap_port ep =? 0 = false) as Hp0 by (apply Z.eqb_neq; lia).
  destruct Hn as [[-> H4] | [-> H4]]; subst fam; rewrite H4; cbn [Z.eqb Pos.eqb];
    change (4 + Z.of_nat 4 =? 8) with true; change (4 + Z.of_nat 16 =? 20) with true;
    cbn [negb]; cbn [Nat.add] in Hsl; rewrite Hsl.
  - rewrite (xor_bytes_prefix enc (put_be32 stunMagicCookie) txn) by (rewrite Hle; simpl; lia).
    fold m. rewrite Hraw, Hs, Hg, H46, Hp0. by destruct ep.
  - fold m. rewrite Hraw, Hs, Hg, H46, Hp0. by destruct ep.
Qed.

Definition not_address (a : attribute) : Prop :=
  at_kind a <> attrXorMappedAddress /\ at_kind a <> attrMappedAddress.

Lemma select_mapped_skip l l' txn m x :
  Forall not_address l -> select_mapped (l ++ l') txn m x = select_mapped l' txn m x.
Proof.
  induction 1 as [|a l [H1 H2] Hl IH]; [done|]. simpl.
  by rewrite (proj2 (Z.eqb_neq _ _) H1), (proj2 (Z.eqb_neq _ _) H2).
Qed.


(** A WireGuard message: type 1-4 and three reserved zero bytes; a transport
    message, the shortest kind, has 32 bytes. *)
Definition wireguard_shaped (b : list Z) : Prop :=
  1 <= byte_at b 0 <= 4 /\ byte_at b 1 = 0 /\ byte_at b 2 = 0 /\ byte_at b 3 = 0 /\ 32 <= blen b.

(** No WireGuard message is ever taken for STUN by the strict test, even
    when its index field happens to equal the magic cookie: the reserved zero
    bytes would announce an empty STUN message of 20 bytes. *)
Theorem wireguard_not_STUN b : wireguard_shaped b -> IsSTUN b = false.
Proof.
  intros (_ & _ & H2 & H3 & Hl). unfold IsSTUN.
  assert (be16 (slice b 2 4) = 0) as ->.
  { unfold slice, be16, byte_at in *.
    do 4 (destruct b as [|? b]; [unfold blen in Hl; simpl in Hl; lia|]). simpl in *. by subst. }
  rewrite (proj2 (Z.eqb_neq (20 + 0) (blen b))) by lia. apply andb_false_r.
Qed.

(** ** Witnesses *)

Definition w_txn : TxnID := [1; 2; 3; 4; 5; 6; 7; 8; 9; 10; 11; 12].
Definition w_ep : AddrPort := mkAP (Addr4 (203 * 2 ^ 24 + 113 * 2 ^ 8 + 9)) 51820.
Definition w_attr : attribute := mkAttr attrXorMappedAddress (encode_address w_ep w_txn true) [].

Lemma bytes_ok_compute l : forallb (fun b => (0 <=? b) && (b <? 256)) l = true -> bytes_ok l.
Proof.
  intros H. apply Forall_forall. intros b Hb. rewrite forallb_forall in H.
  specialize (H b Hb). unfold is_byte. lia.
Qed.

Lemma ParseResponse_sound_witness :
  ParseResponse (encode_success w_txn [w_attr]) w_txn = Ok w_ep /\ good_mapped w_ep.
Proof.
  split; [reflexivity|].
  apply (ParseResponse_sound (encode_success w_txn [w_attr]) w_txn w_ep);
    [apply bytes_ok_compute; reflexivity..|reflexivity].
Defined.

Lemma ParseResponse_fuel_witness :
  ParseResponse [1; 1; 0; 0] w_txn <> Err out_of_fuel.
Proof. apply (ParseResponse_fuel [1; 1; 0; 0] w_txn). apply bytes_ok_compute; reflexivity. Defined.

Lemma w_attr_wf : attr_wf w_attr.
Proof. repeat split; try (by vm_compute). apply bytes_ok_compute. reflexivity. Qed.

Lemma ParseResponse_refines_witness :
  ParseResponse (encode_success w_txn [w_attr]) w_txn = Ok w_ep.
Proof.
  rewrite (ParseResponse_refines w_txn [w_attr]).
  - reflexivity.
  - reflexivity.
  - constructor; [apply w_attr_wf|constructor].
  - by vm_compute.
Defined.


Lemma wireguard_not_STUN_witness :
  IsSTUN ([4; 0; 0; 0] ++ put_be32 stunMagicCookie ++ replicate 24 0) = false.
Proof. apply wireguard_not_STUN. repeat split; by vm_compute. Defined.
