(* ===== verification/Demux.v ===== *)
(** * internal/wgproxy/demux.go: packet classifier and STUN transaction registry

    A reply channel is an object shared between the registry and the waiting
    goroutine, so channels live in a store: [chans] maps a channel reference to
    its buffer, and [next_chan] is the next fresh reference. *)

From S2P Require Import Prelude GoStr Netip Stunwire.

(** [PeerKey = [32]byte], [TxnID = [12]byte] *)
Abbreviation PeerKey := (list Z) (only parsing).
Definition zero_key : PeerKey := replicate 32 0.

Definition stunHeaderLen : nat := 20.
Definition stunBindingError : Z := 0x0111.
Definition ErrTxnExists : error := ENew "wgproxy: transaction already registered".

Inductive Bucket := BucketSTUN | BucketRelay | BucketDrop.
#[export] Instance Bucket_eq_dec : EqDecision Bucket.
Proof. solve_decision. Defined.

Record Decision_ := mkDecision { d_bucket : Bucket; d_peer : PeerKey }.

(** strips the 4-in-6 mapped form so addresses compare equal *)
Definition normalize (ap : AddrPort) : AddrPort := mkAP (Unmap (ap_addr ap)) (ap_port ap).

Definition isSTUNShaped (b : list Z) : bool :=
  (stunHeaderLen <=? length b)%nat &&
  (Z.land (byte_at b 0) 0xC0 =? 0) &&
  (be32 (slice b 4 8) =? stunMagicCookie).

(** ** Transaction registry *)

Record pendingTxn := mkTxn { pt_server : AddrPort; pt_reply : nat }.

Record TxnRegistry := mkReg {
  pending : gmap TxnID pendingTxn;
  chans : gmap nat (list (list Z));
  next_chan : nat;
}.

Definition NewTxnRegistry : TxnRegistry := mkReg ∅ ∅ 0.

(** Returns the reply channel: fresh, empty, of capacity one. *)
Definition Register (r : TxnRegistry) (id : TxnID) (server : AddrPort)
  : TxnRegistry * result nat :=
  match pending r !! id with
  | Some _ => (r, Err ErrTxnExists)
  | None =>
      let ch := next_chan r in
      (mkReg (<[id := mkTxn (normalize server) ch]> (pending r))
             (<[ch := []]> (chans r)) (S ch),
       Ok ch)
  end.

Definition Unregister (r : TxnRegistry) (id : TxnID) : TxnRegistry :=
  mkReg (delete id (pending r)) (chans r) (next_chan r).

(** [select { case ch <- packet: true; default: false }] on a channel of
    capacity one *)
Definition try_send (c : gmap nat (list (list Z))) (ch : nat) (packet : list Z)
  : gmap nat (list (list Z)) * bool :=
  match c !! ch with
  | Some [] => (<[ch := [packet]]> c, true)
  | _ => (c, false)
  end.

(** [<-ch]: receive from a channel, if it holds a packet. *)
Definition try_recv (r : TxnRegistry) (ch : nat) : TxnRegistry * option (list Z) :=
  match chans r !! ch with
  | Some (p :: rest) => (mkReg (pending r) (<[ch := rest]> (chans r)) (next_chan r), Some p)
  | _ => (r, None)
  end.

Definition route (r : TxnRegistry) (src : AddrPort) (b : list Z) : TxnRegistry * bool :=
  let msgType := be16 (slice b 0 2) in
  if negb (msgType =? stunBindingSuccess) && negb (msgType =? stunBindingError)
  then (r, false)
  else
    let id := slice b 8 stunHeaderLen in
    match pending r !! id with
    | None => (r, false)
    | Some txn =>
        if negb (bool_decide (pt_server txn = normalize src)) then (r, false)
        else
          match ParseResponse b id with
          | Err _ => (r, false)
          | Ok _ =>
              let '(c', sent) := try_send (chans r) (pt_reply txn) b in
              (mkReg (pending r) c' (next_chan r), sent)
          end
    end.

(** ** Demux *)

Record Demux := mkDemux {
  txns : TxnRegistry;
  peerBySrc : gmap AddrPort PeerKey;
  srcByPeer : gmap PeerKey AddrPort;
  droppedSTUN : Z;
  droppedOther : Z;
}.

Definition NewDemux : Demux := mkDemux NewTxnRegistry ∅ ∅ 0 0.

(** [d.peerBySrc[old] == peer]: a missing key reads as the zero key. *)
Definition owner_is (m : gmap AddrPort PeerKey) (a : AddrPort) (peer : PeerKey) : bool :=
  bool_decide (default zero_key (m !! a) = peer).

Definition Program (d : Demux) (peer : PeerKey) (remote : AddrPort) : Demux * result unit :=
  let remote := normalize remote in
  if match peerBySrc d !! remote with
     | Some owner => negb (bool_decide (owner = peer))
     | None => false
     end
  then (d, Err (ENew "endpoint already belongs to another peer"))
  else
    let pbs := match srcByPeer d !! peer with
               | Some old => if owner_is (peerBySrc d) old peer
                             then delete old (peerBySrc d) else peerBySrc d
               | None => peerBySrc d
               end in
    (mkDemux (txns d) (<[remote := peer]> pbs) (<[peer := remote]> (srcByPeer d))
       (droppedSTUN d) (droppedOther d), Ok tt).

Definition Unprogram (d : Demux) (peer : PeerKey) : Demux :=
  match srcByPeer d !! peer with
  | Some old =>
      mkDemux (txns d)
        (if owner_is (peerBySrc d) old peer then delete old (peerBySrc d) else peerBySrc d)
        (delete peer (srcByPeer d)) (droppedSTUN d) (droppedOther d)
  | None => d
  end.

Definition Classify (d : Demux) (src : AddrPort) (b : list Z) : Demux * Decision_ :=
  if isSTUNShaped b then
    let '(r', matched) := route (txns d) src b in
    (mkDemux r' (peerBySrc d) (srcByPeer d)
       (if matched then droppedSTUN d else wrapU64 (droppedSTUN d + 1)) (droppedOther d),
     mkDecision BucketSTUN zero_key)
  else
    match peerBySrc d !! normalize src with
    | Some peer => (d, mkDecision BucketRelay peer)
    | None =>
        (mkDemux (txns d) (peerBySrc d) (srcByPeer d) (droppedSTUN d)
           (wrapU64 (droppedOther d + 1)),
         mkDecision BucketDrop zero_key)
    end.

(** ** The classifier's steps and its invariant *)

Inductive demux_step : Demux -> Demux -> Prop :=
| step_Program d peer remote : demux_step d (Program d peer remote).1
| step_Unprogram d peer : demux_step d (Unprogram d peer)
| step_Classify d src b : bytes_ok b -> demux_step d (Classify d src b).1
| step_Register d id server :
    demux_step d (mkDemux (Register (txns d) id server).1 (peerBySrc d) (srcByPeer d)
                    (droppedSTUN d) (droppedOther d))
| step_Unregister d id :
    demux_step d (mkDemux (Unregister (txns d) id) (peerBySrc d) (srcByPeer d)
                    (droppedSTUN d) (droppedOther d))
| step_recv d ch :
    demux_step d (mkDemux (try_recv (txns d) ch).1 (peerBySrc d) (srcByPeer d)
                    (droppedSTUN d) (droppedOther d)).

Inductive demux_reachable : Demux -> Prop :=
| reach_new : demux_reachable NewDemux
| reach_step d d' : demux_reachable d -> demux_step d d' -> demux_reachable d'.

(** The two maps are inverse bijections. *)
Definition maps_inverse (d : Demux) : Prop :=
  forall peer src, srcByPeer d !! peer = Some src <-> peerBySrc d !! src = Some peer.

(** The registry: distinct transactions have distinct live channels, and a
    channel holds at most one packet, which answers its transaction. *)
Definition registry_ok (r : TxnRegistry) : Prop :=
  (forall ch buf, chans r !! ch = Some buf -> (ch < next_chan r)%nat /\ (length buf <= 1)%nat) /\
  (forall id txn, pending r !! id = Some txn ->
     exists buf, chans r !! pt_reply txn = Some buf /\
       Forall (fun p => bytes_ok p /\ is_ok (ParseResponse p id) = true) buf) /\
  (forall id1 id2 t1 t2, pending r !! id1 = Some t1 -> pending r !! id2 = Some t2 ->
     pt_reply t1 = pt_reply t2 -> id1 = id2).

Definition demux_inv (d : Demux) : Prop := maps_inverse d /\ registry_ok (txns d).

(** ** Lemmas *)

Section inverse.
Context (pbs : gmap AddrPort PeerKey) (sbp : gmap PeerKey AddrPort).
Hypothesis Hinv : forall p s, sbp !! p = Some s <-> pbs !! s = Some p.

(** The entry that [Program] and [Unprogram] drop for a peer. *)
Definition drop_old (peer : PeerKey) : gmap AddrPort PeerKey :=
  match sbp !! peer with
  | Some old => if owner_is pbs old peer then delete old pbs else pbs
  | None => pbs
  end.

Lemma drop_old_lookup peer s q :
  drop_old peer !! s = Some q <-> pbs !! s = Some q /\ q <> peer.
Proof.
  unfold drop_old. destruct (sbp !! peer) as [old|] eqn:Ho.
  - pose proof (proj1 (Hinv _ _) Ho) as Hold.
    unfold owner_is. rewrite Hold. simpl. rewrite bool_decide_true by done.
    rewrite lookup_delete. case_decide; naive_solver.
  - split; [|naive_solver]. intros H. split; [done|]. intros ->.
    apply Hinv in H. congruence.
Qed.

Lemma inverse_program peer remote p s :
  (pbs !! remote = None \/ pbs !! remote = Some peer) ->
  <[peer := remote]> sbp !! p = Some s <-> <[remote := peer]> (drop_old peer) !! s = Some p.
Proof.
  intros Hr. rewrite !lookup_insert. repeat case_decide; subst.
  - naive_solver.
  - rewrite drop_old_lookup. naive_solver.
  - rewrite Hinv. naive_solver.
  - rewrite drop_old_lookup, Hinv. naive_solver.
Qed.

Lemma inverse_unprogram peer p s :
  delete peer sbp !! p = Some s <-> drop_old peer !! s = Some p.
Proof.
  rewrite lookup_delete, drop_old_lookup. case_decide; subst; [naive_solver|].
  rewrite Hinv. naive_solver.
Qed.
End inverse.

(** [Program] either refuses and changes nothing, or installs the mapping. *)
Lemma Program_cases d peer remote :
  (exists owner e, peerBySrc d !! normalize remote = Some owner /\ owner <> peer /\
     Program d peer remote = (d, Err e)) \/
  ((peerBySrc d !! normalize remote = None \/ peerBySrc d !! normalize remote = Some peer) /\
   Program d peer remote =
     (mkDemux (txns d)
        (<[normalize remote := peer]> (drop_old (peerBySrc d) (srcByPeer d) peer))
        (<[peer := normalize remote]> (srcByPeer d)) (droppedSTUN d) (droppedOther d), Ok tt)).
Proof.
  unfold Program. cbv zeta. destruct (peerBySrc d !! normalize remote) as [owner|] eqn:Ho.
  - case_bool_decide as Hc; simpl; [right; subst; eauto|left; eauto 10].
  - right. eauto.
Qed.

Lemma Program_maps d peer remote : maps_inverse d -> maps_inverse (Program d peer remote).1.
Proof.
  intros Hi. destruct (Program_cases d peer remote) as [(?&?&?&?&->)|[Hr ->]]; [done|].
  intros p s. simpl. by apply inverse_program.
Qed.

Lemma Unprogram_maps d peer : maps_inverse d -> maps_inverse (Unprogram d peer).
Proof.
  intros Hi p s. pose proof (inverse_unprogram _ _ Hi peer p s) as H.
  unfold Unprogram. unfold drop_old in H. destruct (srcByPeer d !! peer) eqn:E; simpl; [done|].
  apply Hi.
Qed.

Lemma Program_txns d peer remote : txns (Program d peer remote).1 = txns d.
Proof. destruct (Program_cases d peer remote) as [(?&?&?&?&->)|[_ ->]]; done. Qed.

Lemma Unprogram_txns d peer : txns (Unprogram d peer) = txns d.
Proof. unfold Unprogram. by destruct (srcByPeer d !! peer). Qed.

(** [Classify] never learns a mapping from a packet. *)
Lemma Classify_maps d src b :
  peerBySrc (Classify d src b).1 = peerBySrc d /\ srcByPeer (Classify d src b).1 = srcByPeer d.
Proof.
  unfold Classify. destruct (isSTUNShaped b); [by destruct (route _ _ _)|].
  by destruct (peerBySrc d !! normalize src).
Qed.

Lemma Register_ok r id server : registry_ok r -> registry_ok (Register r id server).1.
Proof.
  intros (Hc & Hp & Hd). unfold Register. destruct (pending r !! id) eqn:Hid; [done|]. simpl.
  assert (forall id' t, pending r !! id' = Some t -> pt_reply t <> next_chan r) as Hfresh.
  { intros id' t Ht He. destruct (Hp _ _ Ht) as (buf & Hb & _). apply Hc in Hb as [Hb _]. lia. }
  split_and!; simpl.
  - intros ch buf. rewrite lookup_insert. case_decide; intros ?; simplify_eq/=; [lia|].
    destruct (Hc ch buf); [done|lia].
  - intros id' t. rewrite lookup_insert. case_decide; intros Ht; simplify_eq/=.
    + exists []. by rewrite lookup_insert_eq.
    + destruct (Hp _ _ Ht) as (buf & Hb & Hf). exists buf.
      by rewrite lookup_insert_ne by exact (not_eq_sym (Hfresh _ _ Ht)).
  - intros id1 id2 t1 t2. rewrite !lookup_insert. repeat case_decide; naive_solver.
Qed.

Lemma Unregister_ok r id : registry_ok r -> registry_ok (Unregister r id).
Proof.
  intros (Hc & Hp & Hd). split_and!; simpl; [done| |].
  - intros id' t Ht. apply lookup_delete_Some in Ht as [_ Ht]. by eapply Hp.
  - intros id1 id2 t1 t2 [_ H1]%lookup_delete_Some [_ H2]%lookup_delete_Some. by apply Hd.
Qed.

Lemma try_recv_ok r ch : registry_ok r -> registry_ok (try_recv r ch).1.
Proof.
  intros (Hc & Hp & Hd). unfold try_recv.
  destruct (chans r !! ch) as [[|p rest]|] eqn:Hch; simpl; [done| |done].
  destruct (Hc _ _ Hch) as [Hlt Hl]. simpl in Hl. split_and!; simpl.
  - intros ch' buf. rewrite lookup_insert. case_decide; intros ?; simplify_eq/=; [lia|by apply Hc].
  - intros id t Ht. destruct (Hp _ _ Ht) as (buf & Hb & Hf). rewrite lookup_insert.
    case_decide; simplify_eq; [|eauto]. exists rest. split; [done|].
    by inversion Hf.
  - done.
Qed.

Lemma route_ok r src b : bytes_ok b -> registry_ok r -> registry_ok (route r src b).1.
Proof.
  intros Hbytes (Hc & Hp & Hd). unfold route. destruct (_ && _); [done|].
  destruct (pending r !! slice b 8 stunHeaderLen) as [t|] eqn:Ht; [|done].
  destruct (negb _); [done|].
  destruct (ParseResponse _ _) as [ep|] eqn:Hpr; [|done].
  destruct (Hp _ _ Ht) as (buf & Hb & Hf). unfold try_send. rewrite Hb.
  destruct buf as [|]; simpl; [|done]. split_and!; simpl; [| |done].
  - intros ch buf. rewrite lookup_insert. case_decide; intros ?; simplify_eq/=; [|by apply Hc].
    destruct (Hc _ _ Hb). simpl. lia.
  - intros id t' Ht'. rewrite lookup_insert. case_decide as E; [|by apply Hp].
    exists [b]. split; [done|]. rewrite <-(Hd _ _ _ _ Ht Ht' E). constructor; [|done].
    split; [done|by rewrite Hpr].
Qed.

Lemma Classify_registry d src b : bytes_ok b -> registry_ok (txns d) -> registry_ok (txns (Classify d src b).1).
Proof.
  intros Hb Hr. unfold Classify. destruct (isSTUNShaped b).
  - pose proof (route_ok (txns d) src b Hb Hr). by destruct (route _ _ _).
  - by destruct (peerBySrc d !! normalize src).
Qed.

Lemma reachable_inv d : demux_reachable d -> demux_inv d.
Proof.
  induction 1 as [|d d' _ [Hm Hr] Hs].
  { split; [intros ??; simpl; by rewrite !lookup_empty|].
    split_and!; simpl; intros *; by rewrite ?lookup_empty. }
  destruct Hs; (split; [|simpl]).
  - by apply Program_maps.
  - by rewrite Program_txns.
  - by apply Unprogram_maps.
  - by rewrite Unprogram_txns.
  - destruct (Classify_maps d src b) as [H1 H2]. intros p s. rewrite H1, H2. apply Hm.
  - by apply Classify_registry.
  - done.
  - by apply Register_ok.
  - done.
  - by apply Unregister_ok.
  - done.
  - by apply try_recv_ok.
Qed.

(** C10: In every state the packet classifier can reach, under any interleaving
    of programming, classification, registration and reply delivery, the source
    and peer maps are inverse bijections (no two peers share an endpoint, no
    stale source survives), and every pending STUN transaction owns its own
    channel, which holds at most one packet and only a packet that parses as
    the answer to that very transaction. *)
Theorem demux_invariant d : demux_reachable d -> demux_inv d.
Proof. apply reachable_inv. Qed.

(** Attribution.  A packet that is not STUN-shaped is relayed to a peer
    exactly when its (unmapped) source is the endpoint last programmed for that
    peer, it is dropped when no peer owns the source, and classifying any packet
    leaves the programmed mappings as they were. *)
Theorem Classify_attribution d src b :
  demux_reachable d -> isSTUNShaped b = false ->
  let '(d', dec) := Classify d src b in
  (forall peer, dec = mkDecision BucketRelay peer <-> srcByPeer d !! peer = Some (normalize src)) /\
  (d_bucket dec = BucketDrop <-> forall peer, srcByPeer d !! peer <> Some (normalize src)) /\
  srcByPeer d' = srcByPeer d /\ peerBySrc d' = peerBySrc d.
Proof.
  intros [Hm _]%reachable_inv Hb. unfold Classify. rewrite Hb.
  destruct (peerBySrc d !! normalize src) as [q|] eqn:Hq; split_and!; simpl; try done.
  - intros peer. rewrite (Hm peer), Hq. naive_solver.
  - split; [done|]. intros H. exfalso. by apply (H q), Hm.
  - intros peer. rewrite (Hm peer), Hq. naive_solver.
  - split; [|done]. intros _ peer. rewrite (Hm peer), Hq. naive_solver.
Qed.

(** Programming a peer endpoint is all or nothing and touches nobody else.
    It is refused, with no change at all, exactly when another peer owns the
    endpoint; otherwise the peer owns it afterwards, and every other peer keeps
    its endpoint and its inbound attribution. *)
Theorem Program_isolated d peer remote :
  demux_reachable d ->
  let '(d', res) := Program d peer remote in
  (is_ok res = false <-> exists q, q <> peer /\ srcByPeer d !! q = Some (normalize remote)) /\
  (is_ok res = false -> d' = d) /\
  (is_ok res = true -> srcByPeer d' !! peer = Some (normalize remote) /\
                       peerBySrc d' !! normalize remote = Some peer) /\
  (forall q, q <> peer -> srcByPeer d' !! q = srcByPeer d !! q /\
     forall s, peerBySrc d' !! s = Some q <-> peerBySrc d !! s = Some q).
Proof.
  intros [Hm _]%reachable_inv.
  destruct (Program_cases d peer remote) as [(owner&e&Ho&Hne&->)|[Hr ->]]; split_and!; simpl; try done.
  - split; [|done]. intros _. exists owner. split; [done|]. by apply Hm.
  - split; [done|]. intros (q & Hq & Hs). apply Hm in Hs. naive_solver.
  - intros _. by rewrite !lookup_insert_eq.
  - intros q Hq. split; [by rewrite lookup_insert_ne|]. intros s.
    rewrite lookup_insert. pose proof (drop_old_lookup _ _ Hm peer s q) as Hd.
    case_decide; subst; [|naive_solver]. naive_solver.
Qed.

(** A packet reaches a waiting STUN transaction only if it is a success
    response that parses for that transaction, comes from the server the
    request was sent to, and finds the reply slot empty; then it is what the
    waiter reads, and every other channel is untouched.  In particular a binding
    error response is never delivered. *)
Theorem route_delivers r src b r' :
  route r src b = (r', true) ->
  exists txn ep, pending r !! TxnIDOf b = Some txn /\ pt_server txn = normalize src /\
    ParseResponse b (TxnIDOf b) = Ok ep /\ be16 (slice b 0 2) = stunBindingSuccess /\
    chans r !! pt_reply txn = Some [] /\
    chans r' = <[pt_reply txn := [b]]> (chans r) /\ pending r' = pending r.
Proof.
  unfold route. intros H. destruct (_ && _); [done|].
  destruct (pending r !! slice b 8 stunHeaderLen) as [t|] eqn:Ht; [|done].
  destruct (bool_decide (pt_server t = normalize src)) eqn:Hs; simpl in H; [|done].
  apply bool_decide_eq_true in Hs.
  destruct (ParseResponse _ _) as [ep|] eqn:Hp; [|done].
  unfold try_send in H. destruct (chans r !! pt_reply t) as [[|]|] eqn:Hch; simplify_eq.
  assert (TxnIDOf b = slice b 8 stunHeaderLen /\ be16 (slice b 0 2) = stunBindingSuccess) as [Hid Hty].
  { unfold ParseResponse in Hp. destruct (_ || _) eqn:Hc in Hp; [done|].
    apply orb_false_iff in Hc as [[_ Hid]%orb_false_iff Hty].
    apply negb_false_iff, bool_decide_eq_true in Hid.
    by apply negb_false_iff, Z.eqb_eq in Hty. }
  rewrite Hid. by exists t, ep.
Qed.

(** ** Where the shape test is too weak

    [isSTUNShaped] omits the length test of [stunwire.IsSTUN], so a WireGuard
    transport message whose receiver index equals the magic cookie is taken for
    STUN and dropped, although its source is a programmed peer. *)

Definition cookie_transport_packet : list Z :=
  [4; 0; 0; 0] ++ put_be32 stunMagicCookie ++ replicate 24 0.

(** The relay's classifier swallows a WireGuard data packet of a programmed
    peer when the session's receiver index is the STUN magic cookie, whereas the
    strict test of [stunwire] would let it pass. *)
Theorem cookie_packet_dropped :
  exists d src peer,
    demux_reachable d /\ srcByPeer d !! peer = Some (normalize src) /\
    wireguard_shaped cookie_transport_packet /\ IsSTUN cookie_transport_packet = false /\
    d_bucket (Classify d src cookie_transport_packet).2 = BucketSTUN.
Proof.
  exists (Program NewDemux zero_key w_ep).1, w_ep, zero_key. split_and!; try by vm_compute.
  eapply reach_step; [apply reach_new|apply step_Program].
Qed.

(** ** Witnesses *)

Definition w_peer : PeerKey := replicate 32 7.
Definition w_demux : Demux := (Program NewDemux w_peer w_ep).1.

Lemma w_demux_reachable : demux_reachable w_demux.
Proof. eapply reach_step; [apply reach_new|apply step_Program]. Qed.

Lemma demux_invariant_witness : demux_inv w_demux /\ srcByPeer w_demux !! w_peer = Some w_ep.
Proof. split; [apply (demux_invariant w_demux), w_demux_reachable|reflexivity]. Defined.

Lemma Classify_attribution_witness :
  let '(d', dec) := Classify w_demux w_ep [4; 0; 0; 0] in
  (forall peer, dec = mkDecision BucketRelay peer <-> srcByPeer w_demux !! peer = Some (normalize w_ep)) /\
  (d_bucket dec = BucketDrop <-> forall peer, srcByPeer w_demux !! peer <> Some (normalize w_ep)) /\
  srcByPeer d' = srcByPeer w_demux /\ peerBySrc d' = peerBySrc w_demux.
Proof.
  exact (Classify_attribution w_demux w_ep [4; 0; 0; 0] w_demux_reachable eq_refl).
Defined.

Lemma Program_isolated_witness :
  is_ok (Program w_demux zero_key w_ep).2 = false /\ (Program w_demux zero_key w_ep).1 = w_demux.
Proof.
  pose proof (Program_isolated w_demux zero_key w_ep w_demux_reachable) as H.
  split; [reflexivity|]. exact (proj1 (proj2 H) eq_refl).
Defined.

Lemma route_delivers_witness :
  exists txn ep,
    pending (Register NewTxnRegistry w_txn w_ep).1 !! w_txn = Some txn /\
    ParseResponse (encode_success w_txn [w_attr]) w_txn = Ok ep.
Proof.
  destruct (route_delivers (Register NewTxnRegistry w_txn w_ep).1 w_ep
    (encode_success w_txn [w_attr]) _ eq_refl) as (txn & ep & H1 & _ & H2 & _).
  exists txn, ep. split; [exact H1|exact H2].
Defined.
