(* ===== verification/Json.v ===== *)
(** * encoding/json: the values, reader and writer the program relies on

    [parse_json] reads exactly the documents [encoding/json] accepts, with
    strings unquoted the way the decoder does it (escapes, surrogate pairs,
    invalid UTF-8 replaced by U+FFFD); numbers keep their literal. *)

From S2P Require Import Prelude GoStr.

Inductive json : Type :=
| JNull
| JBool (b : bool)
| JNum (lit : string)
| JStr (s : string)
| JArr (l : list json)
| JObj (l : list (string * json)).

(** ** Reading *)

Definition is_ws (c : ascii) : bool :=
  (bz c =? 32) || (bz c =? 9) || (bz c =? 10) || (bz c =? 13).
Fixpoint skip_ws (s : string) : string :=
  match s with
  | "" => ""
  | String c s' => if is_ws c then skip_ws s' else s
  end.

Fixpoint take_digits (s : string) : string * string :=
  match s with
  | "" => ("", "")
  | String c s' =>
      if is_digit c then let '(d, r) := take_digits s' in (String c d, r) else ("", s)
  end.

(** int = 0 | [1-9][0-9]*, optional fraction, optional exponent *)
Definition parse_frac (s : string) : option (string * string) :=
  match s with
  | String "." s' => match take_digits s' with
                     | ("", _) => None
                     | (d, r) => Some (String "." d, r)
                     end
  | _ => Some ("", s)
  end.
Definition parse_exp (s : string) : option (string * string) :=
  match s with
  | String c s' =>
      if Ascii.eqb c "e" || Ascii.eqb c "E" then
        let '(sign, s2) := match s' with
                           | String "+" r => ("+", r)
                           | String "-" r => ("-", r)
                           | _ => ("", s')
                           end in
        match take_digits s2 with
        | ("", _) => None
        | (d, r) => Some (String c (sign +:+ d), r)
        end
      else Some ("", s)
  | "" => Some ("", s)
  end.
Definition parse_number (s : string) : option (string * string) :=
  let '(sign, s1) := match s with String "-" r => ("-", r) | _ => ("", s) end in
  let int := match s1 with
             | String "0" r => Some ("0", r)
             | _ => match take_digits s1 with ("", _) => None | (d, r) => Some (d, r) end
             end in
  match int with
  | None => None
  | Some (i, s2) =>
      match parse_frac s2 with
      | None => None
      | Some (f, s3) =>
          match parse_exp s3 with
          | None => None
          | Some (e, s4) => Some (sign +:+ i +:+ f +:+ e, s4)
          end
      end
  end.

(** Four hexadecimal digits. *)
Definition hex4 (s : string) : option (Z * string) :=
  match s with
  | String a (String b (String c (String d r))) =>
      match hex_val a, hex_val b, hex_val c, hex_val d with
      | Some x, Some y, Some z, Some w => Some (((x * 16 + y) * 16 + z) * 16 + w, r)
      | _, _, _, _ => None
      end
  | _ => None
  end.
Definition is_surrogate (r : Z) : bool := (55296 <=? r) && (r <? 57344).
(** A second [\uXXXX] that completes a surrogate pair. *)
Definition low_surrogate (hi : Z) (s : string) : option (Z * string) :=
  if negb (hi <? 56320) then None
  else match s with
       | String "\" (String "u" s') =>
           match hex4 s' with
           | Some (lo, r) =>
               if (56320 <=? lo) && (lo <? 57344)
               then Some (Z.lor (Z.shiftl (hi - 55296) 10) (lo - 56320) + 65536, r)
               else None
           | None => None
           end
       | _ => None
       end.

(** The body of a string literal, up to its closing quote, as raw pieces:
    escapes become UTF-8, other bytes are kept. *)
Fixpoint string_body (fuel : nat) (s : string) : option (string * string) :=
  match fuel with
  | O => None
  | S f =>
      match s with
      | "" => None
      | String c s' =>
          if bz c =? 34 then Some ("", s')
          else if bz c =? 92 then
            match s' with
            | "" => None
            | String e s2 =>
                let simple v :=
                  match string_body f s2 with
                  | Some (t, r) => Some (String v t, r)
                  | None => None
                  end in
                if (bz e =? 34) || Ascii.eqb e "\" || Ascii.eqb e "/" then simple e
                else if Ascii.eqb e "b" then simple (zb 8)
                else if Ascii.eqb e "f" then simple (zb 12)
                else if Ascii.eqb e "n" then simple (zb 10)
                else if Ascii.eqb e "r" then simple (zb 13)
                else if Ascii.eqb e "t" then simple (zb 9)
                else if Ascii.eqb e "u" then
                  match hex4 s2 with
                  | None => None
                  | Some (r1, s3) =>
                      let '(r, s4) :=
                        if is_surrogate r1 then
                          match low_surrogate r1 s3 with
                          | Some (full, s5) => (full, s5)
                          | None => (rune_error, s3)
                          end
                        else (r1, s3) in
                      match string_body f s4 with
                      | Some (t, rest) => Some (utf8_encode r +:+ t, rest)
                      | None => None
                      end
                  end
                else None
            end
          else if bz c <? 32 then None
          else match string_body f s' with
               | Some (t, r) => Some (String c t, r)
               | None => None
               end
      end
  end.

(** Invalid UTF-8 becomes U+FFFD. *)
Definition fix_utf8 (s : string) : string :=
  if is_ascii s then s
  else fold_right (fun r acc => utf8_encode r.1 +:+ acc) "" (runes s).

(** [s] is what follows the opening quote. *)
Definition parse_string (s : string) : option (string * string) :=
  match string_body (S (String.length s)) s with
  | Some (t, r) => Some (fix_utf8 t, r)
  | None => None
  end.

(** A literal word, then the rest. *)
Fixpoint strip_word (w s : string) : option string :=
  match w, s with
  | "", _ => Some s
  | String a w', String b s' => if Ascii.eqb a b then strip_word w' s' else None
  | String _ _, "" => None
  end.

(** Values, members and elements; every call consumes a byte before the next,
    so the length of the document bounds the recursion. *)
Fixpoint parse_value (fuel : nat) (s : string) : option (json * string) :=
  match fuel with
  | O => None
  | S f =>
      match skip_ws s with
      | "" => None
      | String c r =>
          if bz c =? 34 then
            match parse_string r with
            | Some (t, r') => Some (JStr t, r')
            | None => None
            end
          else if Ascii.eqb c "{" then
            match skip_ws r with
            | String "}" r' => Some (JObj [], r')
            | r' => parse_members f r' []
            end
          else if Ascii.eqb c "[" then
            match skip_ws r with
            | String "]" r' => Some (JArr [], r')
            | r' => parse_elements f r' []
            end
          else if Ascii.eqb c "t" then
            match strip_word "rue" r with Some r' => Some (JBool true, r') | None => None end
          else if Ascii.eqb c "f" then
            match strip_word "alse" r with Some r' => Some (JBool false, r') | None => None end
          else if Ascii.eqb c "n" then
            match strip_word "ull" r with Some r' => Some (JNull, r') | None => None end
          else match parse_number (String c r) with
               | Some (l, r') => Some (JNum l, r')
               | None => None
               end
      end
  end
with parse_members (fuel : nat) (s : string) (acc : list (string * json)) : option (json * string) :=
  match fuel with
  | O => None
  | S f =>
      match skip_ws s with
      | "" => None
      | String q r =>
          if negb (bz q =? 34) then None
          else match parse_string r with
               | None => None
               | Some (k, r1) =>
                   match skip_ws r1 with
                   | String ":" r2 =>
                       match parse_value f r2 with
                       | None => None
                       | Some (v, r3) =>
                           match skip_ws r3 with
                           | String "," r4 => parse_members f r4 (acc ++ [(k, v)])
                           | String "}" r4 => Some (JObj (acc ++ [(k, v)]), r4)
                           | _ => None
                           end
                       end
                   | _ => None
                   end
               end
      end
  end
with parse_elements (fuel : nat) (s : string) (acc : list json) : option (json * string) :=
  match fuel with
  | O => None
  | S f =>
      match parse_value f s with
      | None => None
      | Some (v, r) =>
          match skip_ws r with
          | String "," r' => parse_elements f r' (acc ++ [v])
          | String "]" r' => Some (JArr (acc ++ [v]), r')
          | _ => None
          end
      end
  end.

(** A complete document: one value and nothing but white space after it. *)
Definition parse_json (s : string) : option json :=
  match parse_value (S (S (String.length s))) s with
  | Some (v, r) => if skip_ws r =s "" then Some v else None
  | None => None
  end.

(** ** Writing: json.Marshal, with its HTML-safe escaping *)

Definition dquote : ascii := zb 34.
Definition backslash : ascii := zb 92.
Definition u_escape (r : Z) : string :=
  let d n := hex_digit (Z.shiftr r n mod 16) in
  String backslash (String "u" (String (d 12) (String (d 8) (String (d 4) (String (d 0) ""))))).
(** Printable ASCII other than the quote, the backslash and the HTML specials. *)
Definition json_safe (c : ascii) : bool :=
  (32 <=? bz c) && (bz c <? 128) &&
  negb ((bz c =? 34) || (bz c =? 92) || (bz c =? 60) || (bz c =? 62) || (bz c =? 38)).
Definition escape_rune (r : Z * string) : string :=
  let b := r.1 in
  if b <? 128 then
    if json_safe (zb b) then r.2
    else if b =? 34 then String backslash (String dquote "")
    else if b =? 92 then String backslash (String backslash "")
    else if b =? 8 then String backslash "b"
    else if b =? 12 then String backslash "f"
    else if b =? 10 then String backslash "n"
    else if b =? 13 then String backslash "r"
    else if b =? 9 then String backslash "t"
    else u_escape b
  else if (b =? rune_error) && (String.length r.2 =? 1)%nat then u_escape rune_error
  else if (b =? 8232) || (b =? 8233) then u_escape b
  else r.2.
Definition json_string (s : string) : string :=
  String dquote (fold_right (fun r acc => escape_rune r +:+ acc) "" (runes s)) +:+ String dquote "".

(** A field name, which needs no escaping. *)
Definition quoted (s : string) : string := String dquote (s +:+ String dquote "").

(** ** Matching an object key with a struct field

    A key selects a field when it is equal under Unicode simple folding.  Field
    names are ASCII, and the only runes outside ASCII that fold into it are
    U+017F (long s) and U+212A (Kelvin sign). *)
Definition fold_rune (r : Z) : Z :=
  if (97 <=? r) && (r <=? 122) then r - 32
  else if r =? 383 then 83
  else if r =? 8490 then 75
  else r.
Definition field_match (name key : string) : bool :=
  bool_decide (map (fun r => fold_rune r.1) (runes name) = map (fun r => fold_rune r.1) (runes key)).
