(* ===== verification/JsonFacts.v ===== *)
(** * Writing JSON and reading it back

    Strings of printable ASCII, and objects member by member. *)

From S2P Require Import Prelude GoStr Codec Json.

Lemma sforall_impl P Q s :
  (forall c, P c = true -> Q c = true) -> sforall P s = true -> sforall Q s = true.
Proof.
  intros HPQ. induction s as [|c s IH]; cbn [sforall]; [done|].
  intros [? ?]%andb_true_iff. rewrite HPQ, IH by done. done.
Qed.

Lemma sforall_app P s t : sforall P (s +:+ t) = sforall P s && sforall P t.
Proof. induction s as [|c s IH]; [done|]. cbn. by rewrite IH, andb_assoc. Qed.

Lemma json_safe_range c : json_safe c = true -> 32 <= bz c < 128 /\ bz c <> 34 /\ bz c <> 92.
Proof.
  unfold json_safe. intros H. repeat (apply andb_true_iff in H as [H ?]).
  match goal with E : negb _ = true |- _ => apply negb_true_iff in E end.
  repeat match goal with E : _ || _ = false |- _ => apply orb_false_iff in E as [E ?] end.
  lia.
Qed.

Lemma runes_safe s : sforall json_safe s = true ->
  fold_right (fun r acc => escape_rune r +:+ acc) "" (runes s) = s.
Proof.
  induction s as [|c s IH]; cbn [sforall]; [done|]. intros [Hc Hs]%andb_true_iff.
  pose proof (json_safe_range c Hc) as (Hr & _). cbn [runes].
  rewrite (proj2 (Z.ltb_lt (bz c) 128)) by lia. cbn [fold_right]. rewrite IH by done.
  unfold escape_rune. cbn [fst snd]. rewrite (proj2 (Z.ltb_lt (bz c) 128)) by lia.
  by rewrite zb_bz, Hc.
Qed.

Lemma json_string_safe s : sforall json_safe s = true -> json_string s = quoted s.
Proof. intros H. unfold json_string, quoted. by rewrite runes_safe. Qed.

Lemma string_body_safe f s r :
  sforall json_safe s = true -> (String.length s < f)%nat ->
  string_body f (s +:+ String dquote r) = Some (s, r).
Proof.
  revert f. induction s as [|c s IH]; intros f Hs Hf; (destruct f as [|f]; [cbn in Hf; lia|]).
  - done.
  - cbn [sforall] in Hs. apply andb_true_iff in Hs as [Hc Hs].
    pose proof (json_safe_range c Hc) as (Hr & H1 & H2). cbn [String.append string_body].
    rewrite (proj2 (Z.eqb_neq (bz c) 34)), (proj2 (Z.eqb_neq (bz c) 92)),
      (proj2 (Z.ltb_ge (bz c) 32)) by lia.
    rewrite IH; [done|done|]. cbn in Hf. lia.
Qed.

Lemma is_ascii_safe s : sforall json_safe s = true -> is_ascii s = true.
Proof.
  unfold is_ascii. induction s as [|c s IH]; [done|]. cbn. intros [Hc Hs]%andb_true_iff.
  apply json_safe_range in Hc as (Hr & _). rewrite (proj2 (Z.ltb_lt (bz c) 128)) by lia. by apply IH.
Qed.

Lemma parse_string_safe s r : sforall json_safe s = true ->
  parse_string (s +:+ String dquote r) = Some (s, r).
Proof.
  intros Hs. unfold parse_string. rewrite string_body_safe; [|done|].
  - unfold fix_utf8. by rewrite is_ascii_safe.
  - rewrite slength_app. lia.
Qed.

Lemma parse_value_string f s r : sforall json_safe s = true ->
  parse_value (S f) (quoted s +:+ r) = Some (JStr s, r).
Proof.
  intros Hs. unfold quoted. cbn [String.append]. rewrite sapp_assoc. cbn [parse_value].
  change (skip_ws (String dquote ?x)) with (String dquote x).
  change (bz dquote =? 34) with true. cbn iota beta.
  change ((String dquote "") +:+ r) with (String dquote r). by rewrite parse_string_safe.
Qed.

(** One member, followed by the next one or by the end of the object. *)
Lemma parse_members_step f k v vt r acc :
  sforall json_safe k = true -> parse_value f (vt +:+ String "," r) = Some (v, String "," r) ->
  parse_members (S f) (quoted k +:+ ":" +:+ vt +:+ String "," r) acc = parse_members f r (acc ++ [(k, v)]).
Proof.
  intros Hk Hv. unfold quoted. cbn [String.append]. rewrite sapp_assoc. cbn [parse_members].
  change (skip_ws (String dquote ?x)) with (String dquote x).
  change (negb (bz dquote =? 34)) with false. cbn iota beta.
  change ((String dquote "") +:+ ?r) with (String dquote r). rewrite parse_string_safe by done.
  cbn [String.append skip_ws is_ws]. change (is_ws ":") with false. cbn iota. rewrite Hv. done.
Qed.

Lemma parse_members_last f k v vt acc :
  sforall json_safe k = true -> parse_value f (vt +:+ "}") = Some (v, "}") ->
  parse_members (S f) (quoted k +:+ ":" +:+ vt +:+ "}") acc = Some (JObj (acc ++ [(k, v)]), "").
Proof.
  intros Hk Hv. unfold quoted. cbn [String.append]. rewrite sapp_assoc. cbn [parse_members].
  change (skip_ws (String dquote ?x)) with (String dquote x).
  change (negb (bz dquote =? 34)) with false. cbn iota beta.
  change ((String dquote "") +:+ ?r) with (String dquote r). rewrite parse_string_safe by done.
  cbn [String.append skip_ws is_ws]. change (is_ws ":") with false. cbn iota. rewrite Hv. done.
Qed.

Lemma parse_json_object x v :
  (3 <= String.length x)%nat ->
  (forall n, parse_members (5 + n) (String dquote x) [] = Some (v, "")) ->
  parse_json (String "{" (String dquote x)) = Some v.
Proof.
  intros Hlen Hm. unfold parse_json. cbn [String.length parse_value].
  change (skip_ws (String "{" ?y)) with (String "{" y). cbn iota beta.
  change (bz "{" =? 34) with false. cbn [Ascii.eqb Bool.eqb].
  change (skip_ws (String dquote x)) with (String dquote x). unfold dquote at 1. cbn iota.
  specialize (Hm (String.length x - 2)%nat).
  replace (5 + (String.length x - 2))%nat with (S (S (S (String.length x)))) in Hm by lia.
  unfold zb. cbn. unfold dquote, zb in Hm. cbn in Hm |- *. by rewrite Hm.
Qed.


(** ** Strings with quotes: [json.Marshal] escapes each with a backslash *)

Definition quotable (c : ascii) : bool := json_safe c || (bz c =? 34).

Fixpoint esc (s : string) : string :=
  match s with
  | "" => ""
  | String c s' => if bz c =? 34 then String backslash (String c (esc s')) else String c (esc s')
  end.

Lemma bz_34 c : bz c = 34 -> c = dquote.
Proof. intros H. rewrite <-(zb_bz c), H. done. Qed.

Lemma runes_quotable s : sforall quotable s = true ->
  fold_right (fun r acc => escape_rune r +:+ acc) "" (runes s) = esc s.
Proof.
  induction s as [|c s IH]; cbn [sforall]; [done|]. intros [Hc Hs]%andb_true_iff.
  assert (bz c < 128) as Hr.
  { apply orb_true_iff in Hc as [Hc|Hc]; [apply json_safe_range in Hc; lia|lia]. }
  cbn [runes esc]. rewrite (proj2 (Z.ltb_lt (bz c) 128)) by lia. cbn [fold_right]. rewrite IH by done.
  unfold escape_rune. cbn [fst snd]. rewrite (proj2 (Z.ltb_lt (bz c) 128)), zb_bz by lia.
  unfold quotable in Hc. destruct (Z.eqb_spec (bz c) 34) as [E|E].
  - apply bz_34 in E as ->. done.
  - rewrite orb_false_r in Hc. by rewrite Hc.
Qed.

Lemma json_string_quotable s : sforall quotable s = true -> json_string s = quoted (esc s).
Proof. intros H. unfold json_string, quoted. by rewrite runes_quotable. Qed.

Lemma string_body_quotable f s r :
  sforall quotable s = true -> (String.length (esc s) < f)%nat ->
  string_body f (esc s +:+ String dquote r) = Some (s, r).
Proof.
  revert f. induction s as [|c s IH]; intros f Hs Hf; (destruct f as [|f]; [cbn in Hf; lia|]).
  - done.
  - cbn [sforall] in Hs. apply andb_true_iff in Hs as [Hc Hs]. cbn [esc] in *.
    unfold quotable in Hc. destruct (Z.eqb_spec (bz c) 34) as [E|E].
    + apply bz_34 in E as ->. cbn [String.append string_body].
      change (bz backslash =? 34) with false. change (bz backslash =? 92) with true. cbn iota.
      change ((bz dquote =? 34) || _) with true. cbn iota.
      rewrite IH; [done|done|]. cbn in Hf. lia.
    + rewrite orb_false_r in Hc. pose proof (json_safe_range c Hc) as (Hr & H1 & H2).
      cbn [String.append string_body].
      rewrite (proj2 (Z.eqb_neq (bz c) 34)), (proj2 (Z.eqb_neq (bz c) 92)),
        (proj2 (Z.ltb_ge (bz c) 32)) by lia.
      rewrite IH; [done|done|]. cbn in Hf. lia.
Qed.

Lemma is_ascii_quotable s : sforall quotable s = true -> is_ascii s = true.
Proof.
  unfold is_ascii. induction s as [|c s IH]; [done|]. cbn. intros [Hc Hs]%andb_true_iff.
  assert (bz c < 128).
  { apply orb_true_iff in Hc as [Hc|Hc]; [apply json_safe_range in Hc; lia|lia]. }
  rewrite (proj2 (Z.ltb_lt (bz c) 128)) by lia. by apply IH.
Qed.

Lemma parse_string_quotable s r : sforall quotable s = true ->
  parse_string (esc s +:+ String dquote r) = Some (s, r).
Proof.
  intros Hs. unfold parse_string. rewrite string_body_quotable; [|done|].
  - unfold fix_utf8. by rewrite is_ascii_quotable.
  - rewrite slength_app. lia.
Qed.

Lemma parse_value_quotable f s r : sforall quotable s = true ->
  parse_value (S f) (quoted (esc s) +:+ r) = Some (JStr s, r).
Proof.
  intros Hs. unfold quoted. cbn [String.append]. rewrite sapp_assoc. cbn [parse_value].
  change (skip_ws (String dquote ?x)) with (String dquote x).
  change (bz dquote =? 34) with true. cbn iota beta.
  change ((String dquote "") +:+ r) with (String dquote r). by rewrite parse_string_quotable.
Qed.

(** A one-member object, and a two-member object, whose values are strings. *)
Lemma parse_object1 k s :
  sforall json_safe k = true -> sforall quotable s = true ->
  parse_json ("{" +:+ quoted k +:+ ":" +:+ json_string s +:+ "}") = Some (JObj [(k, JStr s)]).
Proof.
  intros Hk Hs. rewrite json_string_quotable by done.
  change ("{" +:+ quoted k +:+ ?x) with (String "{" (String dquote ((k +:+ String dquote "") +:+ x))).
  apply parse_json_object; [rewrite !slength_app; cbn; lia|]. intros n.
  by apply (parse_members_last _ k (JStr s) (quoted (esc s))); [|apply parse_value_quotable].
Qed.

Lemma parse_object2 k1 s1 k2 s2 :
  sforall json_safe k1 = true -> sforall json_safe k2 = true ->
  sforall quotable s1 = true -> sforall quotable s2 = true ->
  parse_json ("{" +:+ quoted k1 +:+ ":" +:+ json_string s1 +:+ "," +:+
                quoted k2 +:+ ":" +:+ json_string s2 +:+ "}") =
  Some (JObj [(k1, JStr s1); (k2, JStr s2)]).
Proof.
  intros Hk1 Hk2 Hs1 Hs2. rewrite !json_string_quotable by done.
  change ("{" +:+ quoted k1 +:+ ?x) with (String "{" (String dquote ((k1 +:+ String dquote "") +:+ x))).
  apply parse_json_object; [rewrite !slength_app; cbn; lia|]. intros n.
  etrans.
  { apply (parse_members_step _ k1 (JStr s1) (quoted (esc s1)));
      [done|by apply parse_value_quotable]. }
  by apply (parse_members_last _ k2 (JStr s2) (quoted (esc s2))); [|apply parse_value_quotable].
Qed.
