(* ===== verification/Validation.v ===== *)
(** * internal/validation/validation.go: the shared input boundary

    Keys, numeric endpoints, prefixes, server names and the strict JSON
    decoder, with the theorems on what passes the boundary. *)

From S2P Require Import Prelude GoStr Codec Netip NetipFacts Json.

Definition MaxConfigBytes : Z := 256 * 1024.
Definition MaxPeers : Z := 32.
Definition MaxStores : Z := 8.
Definition MaxRoutes : Z := 64.
Definition MaxServers : Z := 8.

Definition Key (text : string) : result (list Z) :=
  if negb (slen text =? 44) then Err (ENew "key must be canonical base64 for 32 bytes")
  else match b64_decode true text with
       | None => Err (ENew "invalid key encoding")
       | Some b =>
           if negb (length b =? 32)%nat || (b64_encode b <>s text)
           then Err (ENew "invalid key encoding")
           else Ok b
       end.

(** [ecdh.X25519().NewPublicKey] accepts every 32-byte value, so only the probe
    with the fixed scalar can fail. *)
Definition PublicKey (text : string) : result (list Z) :=
  let? k := Key text in
  if ecdh_ok (42 :: replicate 31 0) k then Ok k else Err (ENew "low-order public key").

Definition Endpoint (text : string) : result AddrPort :=
  if 256 <? slen text then Err (ENew "endpoint too long")
  else match ParseAddrPort text with
       | None => Err (ENew "invalid numeric endpoint")
       | Some ep =>
           let a := ap_addr ep in
           if (ap_port ep =? 0) || (Zone a <>s "") || IsUnspecified a || IsMulticast a
              || IsLinkLocalUnicast a
           then Err (ENew "invalid numeric endpoint")
           else Ok (mkAP (Unmap a) (ap_port ep))
       end.

Definition HostPort (host : string) (port : Z) : result AddrPort :=
  if (port <? 1) || (65535 <? port) then Err (ENew "endpoint port outside 1-65535")
  else Endpoint (join_host_port host (itoa port)).

Definition ValidPrefix (text : string) : result Prefix :=
  if 64 <? slen text then Err (ENew "prefix too long")
  else match ParsePrefix text with
       | None => Err (ENew "invalid prefix")
       | Some p =>
           let a := pf_addr p in
           if Is4In6 a || IsMulticast a || IsUnspecified a || IsLoopback a || IsLinkLocalUnicast a
           then Err (ENew "invalid prefix")
           else Ok p
       end.

Definition ServiceRoute (text : string) : result Prefix :=
  let? p := ValidPrefix text in
  let minBits := if Is4 (pf_addr p) then 24 else 64 in
  if pf_bits p <? minBits then Err (ENew "service route must be /24 or narrower for IPv4, /64 for IPv6")
  else Ok (Masked p).

(** The characters refused in a server address: CR LF TAB space / ? # @ *)
Definition server_forbidden : string :=
  String (zb 13) (String (zb 10) (String (zb 9) " /?#@")).

Definition Server (text : string) : result unit :=
  if (256 <? slen text) || contains_any text server_forbidden
  then Err (ENew "invalid STUN server")
  else match split_host_port text with
       | None => Err (ENew "invalid STUN server address/port")
       | Some (host, port) =>
           match atoi port with
           | None => Err (ENew "invalid STUN server address/port")
           | Some p =>
               if (host =s "") || (p <? 1) || (65535 <? p)
               then Err (ENew "invalid STUN server address/port")
               else Ok tt
           end
       end.

(** ** DecodeJSON

    The first pass walks the token stream; here it is [check] on the parsed
    value, so a malformed document is reported before a duplicate that precedes
    the malformed part (both are errors).  [depth] counts the nesting, [seen]
    the lower-cased keys of the object at hand. *)

Section decode.
Context `{UnicodeTables}.

Fixpoint check (depth : Z) (v : json) : result unit :=
  if 16 <? depth then Err (ENew "configuration nesting too deep")
  else match v with
       | JNull => Err (ENew "invalid JSON value")
       | JObj l =>
           (fix members (seen : list string) (l : list (string * json)) : result unit :=
              match l with
              | [] => Ok tt
              | (k, x) :: l' =>
                  let name := to_lower k in
                  require negb (bool_decide (name ∈ seen))
                    else ENew "duplicate or invalid JSON field";
                  let? _ := check (depth + 1) x in
                  members (name :: seen) l'
              end) [] l
       | JArr l =>
           (fix elements (l : list json) : result unit :=
              match l with
              | [] => Ok tt
              | x :: l' => let? _ := check (depth + 1) x in elements l'
              end) l
       | _ => Ok tt
       end.

(** [decode] is the second pass: [json.Decoder.Decode] into the target. *)
Definition DecodeJSON {A} (decode : json -> option A) (raw : string) : result A :=
  if (slen raw =? 0) || (MaxConfigBytes <? slen raw)
  then Err (ENew "configuration size outside bounds")
  else match parse_json raw with
       | None => Err (ENew "invalid JSON value")
       | Some v =>
           let? _ := check 0 v in
           match decode v with
           | Some a => Ok a
           | None => Err (ENew "configuration schema mismatch")
           end
       end.
End decode.


(** ** Keys *)

Lemma Key_ok_iff text k :
  Key text = Ok k <-> length k = 32%nat /\ bytes_ok k /\ text = b64_encode k.
Proof.
  unfold Key. split.
  - intros H. go_inv H.
    repeat match goal with E : _ || _ = false |- _ => apply orb_false_iff in E as [? ?] end.
    repeat match goal with E : negb _ = false |- _ => apply negb_false_iff in E end.
    rewrite ?Nat.eqb_eq, ?String.eqb_eq in *. split_and!; [done|by eapply b64_decode_bytes|done].
  - intros (Hlen & Hb & ->). rewrite b64_roundtrip, Hlen, String.eqb_refl by done.
    assert (slen (b64_encode k) = 44) as ->; [|done].
    do 33 (destruct k as [|? k]; try done).
Qed.

(** [Key] accepts exactly the canonical base64 text of 32 bytes: whatever it
    accepts decodes to a key whose encoding is the text, and every 32-byte key's
    encoding is accepted and decodes to that key. *)
Theorem Key_canonical text k :
  Key text = Ok k <-> length k = 32%nat /\ bytes_ok k /\ text = b64_encode k.
Proof. apply Key_ok_iff. Qed.

(** ** Two keys to evaluate with

    The X25519 base point u = 9, and the text of the same point with the bit set
    that the ladder masks out.  The ladder is evaluated once, here. *)
Definition base_key : list Z := 9 :: replicate 31 0.
Definition masked_key : list Z := 9 :: replicate 30 0 ++ [128].

Lemma ecdh_ok_base : ecdh_ok (42 :: replicate 31 0) base_key = true.
Proof. vm_compute. reflexivity. Qed.
Lemma ecdh_ok_mask scalar a b :
  Z.land (le_val a) (2 ^ 255 - 1) = Z.land (le_val b) (2 ^ 255 - 1) -> ecdh_ok scalar a = ecdh_ok scalar b.
Proof. unfold ecdh_ok. by intros ->. Qed.
Lemma PublicKey_probe k :
  length k = 32%nat -> bytes_ok k -> ecdh_ok (42 :: replicate 31 0) k = true -> PublicKey (b64_encode k) = Ok k.
Proof.
  intros Hl Hb Hk. unfold PublicKey. rewrite (proj2 (Key_ok_iff _ k) (conj Hl (conj Hb eq_refl))), Hk. reflexivity.
Qed.
Lemma base_key_bytes : bytes_ok base_key.
Proof. repeat (constructor; [unfold is_byte; lia|]). constructor. Qed.
Lemma masked_key_bytes : bytes_ok masked_key.
Proof. repeat (constructor; [unfold is_byte; lia|]). constructor. Qed.
Lemma PublicKey_base : PublicKey (b64_encode base_key) = Ok base_key.
Proof.
  exact (PublicKey_probe base_key eq_refl base_key_bytes ecdh_ok_base).
Qed.
Lemma PublicKey_masked : PublicKey (b64_encode masked_key) = Ok masked_key.
Proof.
  apply (PublicKey_probe masked_key eq_refl masked_key_bytes).
  rewrite (ecdh_ok_mask _ masked_key base_key); [exact ecdh_ok_base|vm_compute; reflexivity].
Qed.

(** ** Endpoints *)

(** What every accepted endpoint satisfies. *)
Definition endpoint_ok (ep : AddrPort) : Prop :=
  addr_wf (ap_addr ep) /\ 1 <= ap_port ep <= 65535 /\ Zone (ap_addr ep) = "" /\
  Is4In6 (ap_addr ep) = false /\ IsMulticast (ap_addr ep) = false /\
  IsLinkLocalUnicast (ap_addr ep) = false.

Lemma Unmap_idem a : Unmap (Unmap a) = Unmap a.
Proof. destruct a as [| |v z]; [done..|]. cbn. destruct (_ =? _) eqn:E; [done|]. cbn. by rewrite E. Qed.

Lemma Unmap_not4In6 a : Is4In6 (Unmap a) = false.
Proof. destruct a as [| |v z]; [done..|]. cbn. destruct (_ =? _) eqn:E; [done|]. cbn. done. Qed.

Lemma Unmap_fixed a : Is4In6 a = false -> Unmap a = a.
Proof. destruct a as [| |v z]; [done..|]. cbn. by intros ->. Qed.

Lemma Zone_Unmap a : Zone a = "" -> Zone (Unmap a) = "".
Proof. destruct a as [| |v z]; [done..|]. cbn. by destruct (_ =? _). Qed.

Lemma IsMulticast_Unmap a : IsMulticast (Unmap a) = IsMulticast a.
Proof. unfold IsMulticast. by rewrite Unmap_idem. Qed.

Lemma IsLinkLocalUnicast_Unmap a : IsLinkLocalUnicast (Unmap a) = IsLinkLocalUnicast a.
Proof. unfold IsLinkLocalUnicast. by rewrite Unmap_idem. Qed.

Lemma digits_val_nonneg s acc n :
  0 <= acc -> digits_val digit_val 10 acc s = Some n -> 0 <= n.
Proof.
  revert acc. induction s as [|c s IH]; cbn; intros acc Ha H; [by simplify_eq|].
  destruct (digit_val c) as [d|] eqn:E; [|done]. apply digit_val_range in E.
  eapply IH; [|exact H]. lia.
Qed.

Lemma parse_uint10_range bits s n : parse_uint10 bits s = Some n -> 0 <= n < 2 ^ bits.
Proof.
  unfold parse_uint10, parse_uint. intros H.
  destruct (s =s ""); [done|]. destruct (digits_val _ _ _ _) as [v|] eqn:E; [|done].
  destruct (Z.ltb_spec v (2 ^ bits)); [|done]. simplify_eq.
  apply digits_val_nonneg in E; lia.
Qed.

Lemma ParseAddrPort_wf s ep : ParseAddrPort s = Some ep -> addr_wf (ap_addr ep) /\ is_u16 (ap_port ep).
Proof.
  unfold ParseAddrPort. intros H. go_inv H. cbn.
  split; [by eapply ParseAddr_wf|]. by eapply parse_uint10_range.
Qed.

Lemma Endpoint_endpoint_ok text ep : Endpoint text = Ok ep -> endpoint_ok ep.
Proof.
  unfold Endpoint. destruct (256 <? slen text); [done|].
  destruct (ParseAddrPort text) as [e|] eqn:E; [|done]. cbn zeta.
  destruct (_ || _) eqn:C; [done|]. intros H. simplify_eq.
  apply ParseAddrPort_wf in E as [Hwf Hp].
  repeat (apply orb_false_iff in C as [C ?]).
  repeat match goal with Hn : negb _ = false |- _ => apply negb_false_iff, String.eqb_eq in Hn end.
  unfold endpoint_ok. cbn. rewrite Unmap_not4In6, IsMulticast_Unmap, IsLinkLocalUnicast_Unmap.
  unfold is_u16 in Hp. apply Z.eqb_neq in C.
  split_and!; try done; try lia.
  - by apply Unmap_wf.
  - by apply Zone_Unmap.
Qed.

(** Every endpoint that passes the boundary is a numeric, zone-free, unmapped
    address that is neither multicast nor link-local, with a port in 1..65535,
    so rendering it cannot need a lookup or an interface name. *)
Theorem Endpoint_safe text ep : Endpoint text = Ok ep -> endpoint_ok ep.
Proof. apply Endpoint_endpoint_ok. Qed.

Lemma Endpoint_safe_witness :
  endpoint_ok (mkAP (Addr4 (203 * 2 ^ 24 + 113 * 2 ^ 8 + 7)) 51820).
Proof. apply (Endpoint_safe "203.0.113.7:51820"). vm_compute. reflexivity. Defined.

(** The printed form of an address is short. *)
Lemma slength_dec_byte b : is_byte b -> (String.length (dec_nonneg b) <= 3)%nat.
Proof.
  revert b. apply (range_check_P (fun b => (String.length (dec_nonneg b) <= 3)%nat) 256). by vm_compute.
Qed.

Lemma slength_hex16 g : (String.length (hex16 g) <= 4)%nat.
Proof. unfold hex16. repeat case_match; cbn; lia. Qed.

Lemma slength_groups l : (String.length (groups_string l) <= 5 * length l)%nat.
Proof.
  induction l as [|g l IH]; [done|]. destruct l as [|g' l].
  - pose proof (slength_hex16 g). change (groups_string [g]) with (hex16 g). cbn. lia.
  - rewrite groups_string_cons, !slength_app by done. pose proof (slength_hex16 g).
    cbn [String.length length] in *. lia.
Qed.

Lemma slength_Addr_String a : addr_wf a -> Zone a = "" -> Is4In6 a = false ->
  (String.length (Addr_String a) <= 90)%nat.
Proof.
  destruct a as [|v|v z]; cbn [addr_wf Zone]; intros Hwf Hz H4; [done| |].
  - cbn [Addr_String]. unfold v4_string. rewrite !slength_app.
    pose proof (fun n => slength_dec_byte (n mod 256) (Z.mod_pos_bound n 256 ltac:(lia))) as Hd.
    pose proof (Hd (Z.shiftr v 24)). pose proof (Hd (Z.shiftr v 16)).
    pose proof (Hd (Z.shiftr v 8)). pose proof (Hd v). cbn [String.length]. lia.
  - subst. unfold Addr_String. rewrite H4. cbn [String.eqb]. rewrite sapp_nil_r.
    unfold v6_string. destruct (longest_zeros _ _ _) as [st n]. destruct (st =? 255).
    + pose proof (slength_groups (v6_groups v)) as Hl.
      change (length (v6_groups v)) with 8%nat in Hl. unfold groups_string in Hl. lia.
    + rewrite !slength_app. pose proof (slength_groups (take (Z.to_nat st) (v6_groups v))) as H1.
      pose proof (slength_groups (drop (Z.to_nat (st + n)) (v6_groups v))) as H2.
      rewrite length_take in H1. rewrite length_drop in H2.
      change (length (v6_groups v)) with 8%nat in *. unfold groups_string in *. cbn [String.length]. lia.
Qed.

Lemma slength_dec_go f n acc : (String.length (dec_go f n acc) <= f + String.length acc)%nat.
Proof.
  revert n acc. induction f as [|f IH]; intros n acc; cbn [dec_go]; [lia|].
  destruct (n <? 10); cbn [String.length]; [lia|].
  specialize (IH (n / 10) (String (dec_digit (n mod 10)) acc)). cbn [String.length] in IH. lia.
Qed.

Lemma slength_itoa_port p : is_u16 p -> (String.length (itoa p) <= 17)%nat.
Proof.
  intros Hp. unfold is_u16 in Hp. unfold itoa, dec_nonneg. destruct (Z.ltb_spec p 0); [lia|].
  pose proof (slength_dec_go (S (Z.to_nat (Z.log2 p))) p "") as Hl. cbn [String.length] in Hl.
  assert (Z.log2 p < 16); [|lia]. apply log2_lt; lia.
Qed.

Lemma Endpoint_accepts a port :
  endpoint_ok (mkAP a port) -> IsUnspecified a = false ->
  Endpoint (join_host_port (Addr_String a) (itoa port)) = Ok (mkAP a port).
Proof.
  intros (Hwf & Hp & Hz & H4 & Hm & Hl) Hu. cbn in *.
  assert (is_u16 port) as Hp16 by (unfold is_u16; lia).
  unfold Endpoint. rewrite ParseAddrPort_join by done. cbn.
  rewrite Hz, Hu, Hm, Hl, Unmap_fixed by done. cbn.
  destruct (Z.eqb_spec port 0); [lia|]. cbn.
  destruct (Z.ltb_spec 256 (slen (join_host_port (Addr_String a) (itoa port)))) as [C|]; [|done].
  pose proof (slength_Addr_String a Hwf Hz H4). pose proof (slength_itoa_port port Hp16).
  unfold slen, join_host_port in C. destruct (smem _ _); rewrite !slength_app in C; cbn [String.length] in C; lia.
Qed.

(** An accepted endpoint survives printing and [HostPort]: the address the code
    renders into WireGuard configuration or a discovery record is read back as
    the same endpoint, for IPv4 and for IPv6 with its compressed zero run. *)
Theorem Endpoint_print_roundtrip text ep :
  Endpoint text = Ok ep -> IsUnspecified (ap_addr ep) = false ->
  HostPort (Addr_String (ap_addr ep)) (ap_port ep) = Ok ep.
Proof.
  intros He Hu. pose proof (Endpoint_endpoint_ok _ _ He) as Hok. destruct ep as [a port]. cbn in *.
  destruct Hok as (? & Hp & ?). cbn in Hp. unfold HostPort.
  destruct (Z.ltb_spec port 1); [lia|]. destruct (Z.ltb_spec 65535 port); [lia|]. cbn [orb].
  apply Endpoint_accepts; [|done]. by eapply Endpoint_endpoint_ok.
Qed.

Lemma Endpoint_print_roundtrip_witness :
  HostPort "2001:db8::7" 51820 = Ok (mkAP (Addr6 (8193 * 2 ^ 112 + 3512 * 2 ^ 96 + 7) "") 51820).
Proof.
  apply (Endpoint_print_roundtrip "[2001:0db8:0:0:0:0:0:7]:51820" (mkAP (Addr6 (8193 * 2 ^ 112 + 3512 * 2 ^ 96 + 7) "") 51820));
    vm_compute; reflexivity.
Defined.

(** The unspecified test precedes the unmapping, so the IPv4-mapped form of
    0.0.0.0 passes the boundary as the unspecified IPv4 address. *)
Theorem Endpoint_mapped_unspecified :
  Endpoint "[::ffff:0.0.0.0]:9" = Ok (mkAP (Addr4 0) 9) /\
  is_ok (Endpoint "0.0.0.0:9") = false.
Proof. by vm_compute. Qed.

(** ** Service routes *)

Lemma ParsePrefix_wf s p : ParsePrefix s = Some p ->
  addr_wf (pf_addr p) /\ Zone (pf_addr p) = "" /\ 0 <= pf_bits p <= BitLen (pf_addr p).
Proof.
  unfold ParsePrefix. destruct (cut_last "/" s) as [[ip bs]|]; [|done].
  destruct (ParseAddr ip) as [a|] eqn:Ea; [|done]. apply ParseAddr_wf in Ea.
  destruct (_ && _); [done|]. destruct (match bs with "" => _ | _ => _ end); [done|].
  destruct (atoi bs) as [b|]; [|done]. destruct (_ || _) eqn:C; [done|]. intros H. simplify_eq.
  apply orb_false_iff in C as [C1%Z.ltb_ge C2%Z.ltb_ge]. unfold PrefixFrom.
  destruct a as [|v|v z]; [done|..]; cbn in *;
    (destruct (_ && _) eqn:C; [by cbn|]);
    apply andb_false_iff in C as [C|C]; apply Z.leb_gt in C; lia.
Qed.

(** The block of a service route: /24 for IPv4 and /64 for IPv6. *)
Definition block (a : Addr) : Z :=
  match a with AddrZ => 0 | Addr4 v => Z.shiftr v 8 | Addr6 v _ => Z.shiftr v 64 end.

Lemma shiftr_lxor_0 a b n k :
  0 <= n <= k -> Z.shiftr (Z.lxor a b) n = 0 -> Z.shiftr a k = Z.shiftr b k.
Proof.
  intros Hn H. rewrite Z.shiftr_lxor in H. apply Z.lxor_eq in H.
  replace k with (n + (k - n)) by lia. rewrite <-!Z.shiftr_shiftr by lia. by rewrite H.
Qed.

(** A service route covers addresses of one block only. *)
Lemma ServiceRoute_block text p a :
  ServiceRoute text = Ok p -> Contains p a = true -> block a = block (pf_addr p).
Proof.
  unfold ServiceRoute, ValidPrefix.
  destruct (64 <? slen text); [done|]. destruct (ParsePrefix text) as [q|] eqn:E; [|done].
  destruct (_ || _); [done|]. cbn zeta. apply ParsePrefix_wf in E as (Hwf & Hz & Hbits).
  destruct q as [qa qb]. cbn [pf_addr pf_bits] in *.
  destruct (Z.ltb_spec qb (if Is4 qa then 24 else 64)); [done|]. intros H0. simplify_eq.
  unfold Masked. cbn [pf_addr pf_bits].
  destruct ((qb <? 0) || (BitLen qa <? qb)) eqn:C.
  { apply orb_true_iff in C as [C|C]; apply Z.ltb_lt in C; lia. }
  destruct qa as [|v|v z]; [done|..]; cbn [Is4 BitLen] in *; unfold Contains, block; cbn [pf_addr pf_bits];
    destruct a as [|w|w z']; rewrite ?andb_false_r; try done; intros [_ Hc]%andb_true_iff.
  - apply Z.eqb_eq in Hc. eapply (shiftr_lxor_0 _ _ _ 8) in Hc; [|lia]. exact Hc.
  - apply andb_true_iff in Hc as [_ Hc]. apply Z.eqb_eq in Hc.
    eapply (shiftr_lxor_0 _ _ _ 64) in Hc; [|lia]. exact Hc.
Qed.

(** A list of integers misses one of the first [length l + 1] naturals. *)
Lemma pigeonhole (l : list Z) : exists n, 0 <= n <= Z.of_nat (length l) /\ ~ In n l.
Proof.
  destruct (decide (Forall (fun n => n ∈ l) (seqZ 0 (Z.of_nat (length l) + 1)))) as [H|H].
  - exfalso. assert (incl (seqZ 0 (Z.of_nat (length l) + 1)) l) as Hi.
    { intros x Hx. rewrite Forall_forall in H. by apply list_elem_of_In, H. }
    apply NoDup_incl_length in Hi; [|apply NoDup_ListNoDup, NoDup_seqZ].
    rewrite length_seqZ in Hi. lia.
  - apply not_Forall_Exists, Exists_exists in H as (n & Hn & Hl); [|apply _].
    apply list_elem_of_In, elem_of_seqZ in Hn. exists n. rewrite <-list_elem_of_In. split; [lia|done].
Qed.

(** With at most [MaxPeers] peers of at most [MaxRoutes] service routes each, the
    accepted routes never assemble a catch-all: some IPv4 and some IPv6 address
    is covered by none of them. *)
Theorem ServiceRoute_no_catch_all (routes : list Prefix) :
  Forall (fun p => exists text, ServiceRoute text = Ok p) routes ->
  Z.of_nat (length routes) <= MaxPeers * MaxRoutes ->
  exists v4 v6, 0 <= v4 < 2 ^ 32 /\ 0 <= v6 < 2 ^ 128 /\
    Forall (fun p => Contains p (Addr4 v4) = false /\ Contains p (Addr6 v6 "") = false) routes.
Proof.
  intros Hr Hlen. destruct (pigeonhole (map (fun p => block (pf_addr p)) routes)) as (n & Hn & Hnot).
  rewrite length_map in Hn. change (MaxPeers * MaxRoutes) with 2048 in Hlen.
  exists (n * 2 ^ 8), (n * 2 ^ 64). split_and!; [lia..|].
  assert (forall a p, block a = n -> In p routes -> Contains p a = false) as Hc.
  { intros a p Ha Hp. apply not_true_iff_false. intros Hc.
    rewrite Forall_forall in Hr. destruct (Hr p Hp) as [text Ht].
    apply (ServiceRoute_block _ _ _ Ht) in Hc. apply Hnot, in_map_iff. exists p. split; [congruence|done]. }
  apply Forall_forall. intros p Hp.
  assert (forall k, 0 <= k -> Z.shiftr (n * 2 ^ k) k = n) as Hs.
  { intros k Hk. rewrite Z.shiftr_div_pow2 by done. apply Z.div_mul.
    pose proof (Z.pow_pos_nonneg 2 k). lia. }
  split; apply Hc; try done; by apply Hs.
Qed.

Lemma ServiceRoute_no_catch_all_witness : exists v4 v6, 0 <= v4 < 2 ^ 32 /\ 0 <= v6 < 2 ^ 128 /\
  Forall (fun p => Contains p (Addr4 v4) = false /\ Contains p (Addr6 v6 "") = false)
    [mkPrefix (Addr4 (10 * 2 ^ 24 + 77 * 2 ^ 16)) 24].
Proof.
  apply (ServiceRoute_no_catch_all [mkPrefix (Addr4 (10 * 2 ^ 24 + 77 * 2 ^ 16)) 24]).
  - repeat constructor. exists "10.77.0.9/24". vm_compute. reflexivity.
  - vm_compute. discriminate.
Defined.

(** ** The strict decoder *)

(** [within d v w]: [w] occurs in [v] below [d] levels of nesting. *)
Inductive within : Z -> json -> json -> Prop :=
| within_self v : within 0 v v
| within_obj d l k x w : In (k, x) l -> within d x w -> within (d + 1) (JObj l) w
| within_arr d l x w : In x l -> within d x w -> within (d + 1) (JArr l) w.

Lemma within_nonneg d v w : within d v w -> 0 <= d.
Proof. induction 1; lia. Qed.

Definition is_leaf (v : json) : bool :=
  match v with JBool _ | JNum _ | JStr _ => true | _ => false end.

Lemma within_leaf d v w : is_leaf v = true -> within d v w -> d = 0 /\ w = v.
Proof. intros Hv Hw. destruct Hw; done. Qed.

(** Induction over JSON values through their lists. *)
Fixpoint json_size (v : json) : nat :=
  match v with
  | JArr l => S ((fix go (l : list json) := match l with [] => 0 | x :: l' => json_size x + go l' end) l)
  | JObj l => S ((fix go (l : list (string * json)) :=
                    match l with [] => 0 | (_, x) :: l' => json_size x + go l' end) l)
  | _ => 1
  end%nat.

Lemma json_size_pos v : (1 <= json_size v)%nat.
Proof. destruct v; cbn; lia. Qed.

Lemma json_size_elem l x : In x l -> (json_size x < json_size (JArr l))%nat.
Proof.
  cbn. induction l as [|y l IH]; [done|]. intros [->|H]; [lia|]. specialize (IH H). lia.
Qed.

Lemma json_size_member l k x : In (k, x) l -> (json_size x < json_size (JObj l))%nat.
Proof.
  cbn. induction l as [|[k' y] l IH]; [done|]. intros [H|H].
  - simplify_eq. lia.
  - specialize (IH H). lia.
Qed.

Section check_spec.
Context `{UnicodeTables}.

(** What the first pass enforces, position by position. *)
Definition clean_at (depth : Z) (v : json) : Prop :=
  forall d w, within d v w ->
    depth + d <= 16 /\ w <> JNull /\
    forall l, w = JObj l -> NoDup (map (fun m => to_lower m.1) l).

Fixpoint members (depth : Z) (seen : list string) (l : list (string * json)) : result unit :=
  match l with
  | [] => Ok tt
  | (k, x) :: l' =>
      require negb (bool_decide (to_lower k ∈ seen)) else ENew "duplicate or invalid JSON field";
      let? _ := check (depth + 1) x in members depth (to_lower k :: seen) l'
  end.
Fixpoint elements (depth : Z) (l : list json) : result unit :=
  match l with
  | [] => Ok tt
  | x :: l' => let? _ := check (depth + 1) x in elements depth l'
  end.

Lemma check_obj depth l :
  check depth (JObj l) =
  if 16 <? depth then Err (ENew "configuration nesting too deep") else members depth [] l.
Proof.
  cbn. destruct (16 <? depth); [done|]. generalize (@nil string).
  induction l as [|[k x] l IH]; intros seen; [done|]. cbn.
  destruct (negb _); [|done]. destruct (check _ x); [|done]. apply IH.
Qed.

Lemma check_arr depth l :
  check depth (JArr l) =
  if 16 <? depth then Err (ENew "configuration nesting too deep") else elements depth l.
Proof.
  cbn. destruct (16 <? depth); [done|].
  induction l as [|x l IH]; [done|]. cbn. destruct (check _ x); [|done]. apply IH.
Qed.

Lemma elements_ok depth l :
  elements depth l = Ok tt <-> forall x, In x l -> check (depth + 1) x = Ok tt.
Proof.
  induction l as [|x l IH]; cbn [elements]; [split; done|].
  destruct (check (depth + 1) x) as [[]|] eqn:E.
  - rewrite IH. split; [intros Hl y [<-|Hy]; auto|]. intros Hl y Hy. apply Hl. by right.
  - split; [done|]. intros Hl. specialize (Hl x (or_introl eq_refl)). congruence.
Qed.

Lemma members_ok depth seen l :
  members depth seen l = Ok tt <->
  (forall k x, In (k, x) l -> check (depth + 1) x = Ok tt) /\
  NoDup (map (fun m => to_lower m.1) l) /\
  forall m, In m l -> to_lower m.1 ∉ seen.
Proof.
  revert seen. induction l as [|[k x] l IH]; intros seen; cbn [members map fst].
  { split; [|done]. intros _. split_and!; [done|constructor|done]. }
  rewrite list.NoDup_cons. destruct (bool_decide_reflect (to_lower k ∈ seen)) as [Hin|Hin]; cbn [negb].
  { split; [done|]. intros (_ & _ & Hs). by destruct (Hs (k, x) (or_introl eq_refl)). }
  destruct (check (depth + 1) x) as [[]|] eqn:E.
  - rewrite IH. split.
    + intros (Hc & Hd & Hs). split_and!.
      * intros k' x' [?|?]; [by simplify_eq|by eapply Hc].
      * intros (m & Hm & Hml)%list_elem_of_fmap. apply list_elem_of_In in Hml.
        apply (Hs m Hml). rewrite Hm. left.
      * done.
      * intros m [<-|Hm]; [done|]. intros ?. apply (Hs m Hm). by right.
    + intros (Hc & [Hk Hd] & Hs). split_and!; [|done|].
      * intros k' x' ?. eapply Hc. by right.
      * intros m Hm [Heq|?]%elem_of_cons; [|by apply (Hs m (or_intror Hm))].
        apply Hk. rewrite <-Heq. apply list_elem_of_fmap. exists m. split; [done|].
        by apply list_elem_of_In.
  - split; [done|]. intros (Hc & _). specialize (Hc k x (or_introl eq_refl)). congruence.
Qed.

Lemma check_clean_at n v depth : (json_size v <= n)%nat -> check depth v = Ok tt <-> clean_at depth v.
Proof.
  revert v depth. induction n as [|n IH]; intros v depth Hn.
  { pose proof (json_size_pos v). lia. }
  destruct (Z.ltb_spec 16 depth) as [Hd|Hd].
  { split.
    - destruct v; cbn; rewrite (proj2 (Z.ltb_lt 16 depth)) by done; done.
    - intros Hc. destruct (Hc 0 v (within_self v)). lia. }
  assert (is_leaf v = true -> check depth v = Ok tt <-> clean_at depth v) as Hleaf.
  { intros Hv. split.
    - intros _ d w Hw. apply within_leaf in Hw as [-> ->]; [|done].
      split_and!; [lia|by destruct v|by intros l ->].
    - intros _. destruct v; cbn; rewrite ?(proj2 (Z.ltb_ge 16 depth)) by done; done. }
  destruct v as [| b| t | s | l | l]; try by apply Hleaf.
  - split.
    + cbn. by rewrite (proj2 (Z.ltb_ge 16 depth)) by done.
    + intros Hc. by destruct (Hc 0 JNull (within_self JNull)) as (_ & ? & _).
  - rewrite check_arr, (proj2 (Z.ltb_ge 16 depth)), elements_ok by done. split.
    + intros Hl d w Hw. inversion Hw as [| |d' l' x w' Hx Hw']; subst.
      { split_and!; [lia|done|done]. }
      specialize (Hl x Hx). apply IH in Hl; [|pose proof (json_size_elem l x Hx); lia].
      replace (depth + (d' + 1)) with (depth + 1 + d') by lia. by apply Hl.
    + intros Hc x Hx. apply IH; [pose proof (json_size_elem l x Hx); lia|].
      intros d w Hw. replace (depth + 1 + d) with (depth + (d + 1)) by lia.
      apply Hc. by eapply within_arr.
  - rewrite check_obj, (proj2 (Z.ltb_ge 16 depth)), members_ok by done. split.
    + intros (Hl & Hnd & _) d w Hw. inversion Hw as [|d' l' k x w' Hx Hw'|]; subst.
      { split_and!; [lia|done|]. intros l' ?. by simplify_eq. }
      specialize (Hl k x Hx). apply IH in Hl; [|pose proof (json_size_member l k x Hx); lia].
      replace (depth + (d' + 1)) with (depth + 1 + d') by lia. by apply Hl.
    + intros Hc. split_and!.
      * intros k x Hx. apply IH; [pose proof (json_size_member l k x Hx); lia|].
        intros d w Hw. replace (depth + 1 + d) with (depth + (d + 1)) by lia.
        apply Hc. by eapply within_obj.
      * by destruct (Hc 0 (JObj l) (within_self _)) as (_ & _ & Hnd); apply Hnd.
      * intros m _. apply not_elem_of_nil.
Qed.

(** The strict decoder accepts a document exactly when it is a single JSON value
    within the size bounds that has, at every position, nesting of at most
    16, no null and no two keys of an object equal when lower-cased, and
    that the target type accepts; and it then returns the decoded value. *)
Theorem DecodeJSON_spec {A} (decode : json -> option A) raw a :
  DecodeJSON decode raw = Ok a <->
  0 < slen raw <= MaxConfigBytes /\
  exists v, parse_json raw = Some v /\ clean_at 0 v /\ decode v = Some a.
Proof.
  unfold DecodeJSON. destruct ((slen raw =? 0) || (MaxConfigBytes <? slen raw)) eqn:C.
  { split; [done|]. intros [Hs _]. apply orb_true_iff in C as [C|C]; lia. }
  apply orb_false_iff in C as [C1%Z.eqb_neq C2%Z.ltb_ge].
  assert (0 <= slen raw) by (unfold slen; lia).
  destruct (parse_json raw) as [v|]; [|naive_solver].
  pose proof (check_clean_at (json_size v) v 0 (le_n _)) as Hc.
  destruct (check 0 v) as [[]|]; [|naive_solver].
  destruct (decode v) as [a'|] eqn:Ed; [|naive_solver].
  split; [|naive_solver]. intros. simplify_eq. split; [lia|]. naive_solver.
Qed.
End check_spec.
