(* ===== verification/Discovery.v ===== *)
(** * internal/discovery: endpoint hints

    The public record and its codec (record.go), the protocol preference
    (endpoint_select.go), the discovery policy (discover.go) and the per-peer
    selection state (selection.go). *)

From S2P Require Import Prelude GoStr Codec Netip NetipFacts Json JsonFacts Validation.

(** Instants are nanoseconds, [0] the zero [time.Time]; [now.Sub(t)] saturates. *)
Definition time_IsZero (t : Z) : bool := t =? 0.
Definition time_After (t u : Z) : bool := u <? t.
Definition time_Sub (t u : Z) : Z := Z.max (- 2 ^ 63) (Z.min (2 ^ 63 - 1) (t - u)).
Definition Second : Z := 1000000000.
Definition Minute : Z := 60 * Second.

(** ** record.go *)

Definition Namespace : string := "stunmesh-hints-v2".
Definition MaxRecordBytes : Z := 1024.

Record Record_ := mkRecord { Version : Z; rIPv4 : string; rIPv6 : string }.
Definition Record0 : Record_ := mkRecord 0 "" "".

(** [json.Decoder.Decode] into a [Record] with unknown fields disallowed: a null
    leaves the field alone, and any mismatch fails the whole decode. *)
Definition decode_int (v : json) (old : Z) : option Z :=
  match v with
  | JNum l => parse_int64 l
  | JNull => Some old
  | _ => None
  end.
Definition decode_string (v : json) (old : string) : option string :=
  match v with
  | JStr s => Some s
  | JNull => Some old
  | _ => None
  end.
Definition decode_record_field (r : Record_) (m : string * json) : option Record_ :=
  let '(k, v) := m in
  if field_match "version" k then
    option_map (fun n => mkRecord n (rIPv4 r) (rIPv6 r)) (decode_int v (Version r))
  else if field_match "ipv4" k then
    option_map (fun s => mkRecord (Version r) s (rIPv6 r)) (decode_string v (rIPv4 r))
  else if field_match "ipv6" k then
    option_map (fun s => mkRecord (Version r) (rIPv4 r) s) (decode_string v (rIPv6 r))
  else None.
Fixpoint decode_record_fields (r : Record_) (l : list (string * json)) : option Record_ :=
  match l with
  | [] => Some r
  | m :: l' =>
      match decode_record_field r m with
      | Some r' => decode_record_fields r' l'
      | None => None
      end
  end.
Definition decode_record (v : json) : option Record_ :=
  match v with
  | JObj l => decode_record_fields Record0 l
  | JNull => Some Record0
  | _ => None
  end.

(** One family of [validate]; [family] is 4 or 6. *)
Definition validate_family (family : Z) (raw : string) : result unit :=
  if raw =s "" then Ok tt
  else match Endpoint raw with
       | Err _ => Err (ENew "invalid discovery endpoint")
       | Ok ep =>
           if IsLoopback (ap_addr ep) || negb (IsGlobalUnicast (ap_addr ep))
              || negb (Bool.eqb (Is4 (ap_addr ep)) (family =? 4))
           then Err (ENew "invalid discovery endpoint")
           else Ok tt
       end.

(** The families are visited in the order of a map iteration, but the error does
    not tell them apart. *)
Definition validate (r : Record_) : result unit :=
  if negb (Version r =? 2) || ((rIPv4 r =s "") && (rIPv6 r =s ""))
  then Err (ENew "unsupported or empty discovery record")
  else let? _ := validate_family 4 (rIPv4 r) in
       let? _ := validate_family 6 (rIPv6 r) in
       Ok tt.

(** [json.Marshal] of a [Record]: fields in order, empty strings omitted. *)
Definition marshal_field (name value : string) : string :=
  if value =s "" then "" else "," +:+ quoted name +:+ ":" +:+ json_string value.
Definition marshal_record (r : Record_) : string :=
  "{" +:+ quoted "version" +:+ ":" +:+ itoa (Version r) +:+
  marshal_field "ipv4" (rIPv4 r) +:+ marshal_field "ipv6" (rIPv6 r) +:+ "}".

Definition Encode (r : Record_) : result string :=
  let r := mkRecord 2 (rIPv4 r) (rIPv6 r) in
  let? _ := validate r in
  Ok (marshal_record r).

Definition Decode `{UnicodeTables} (raw : string) : result Record_ :=
  if MaxRecordBytes <? slen raw then Err (ENew "discovery record too large")
  else match DecodeJSON decode_record raw with
       | Err _ => Err (ENew "invalid discovery schema")
       | Ok r => let? _ := validate r in Ok r
       end.

(** 100.64.0.0/10 *)
Definition cgnat : Prefix := mkPrefix (Addr4 (100 * 2 ^ 24 + 64 * 2 ^ 16)) 10.

Definition Allowed (endpoint : string) (localLAN : list Prefix) : bool :=
  match Endpoint endpoint with
  | Err _ => false
  | Ok ep =>
      let a := ap_addr ep in
      if IsLoopback a || negb (IsGlobalUnicast a) then false
      else if negb (IsPrivate a) && negb (Contains cgnat a) then true
      else existsb (fun p => Contains p a) localLAN
  end.

Record LocalStatus := mkStatus { sIPv4 : string; sIPv6 : string; DiscoveredAt : Z }.

(** ** endpoint_select.go *)

Definition usable (local : option LocalStatus) (candidate : string)
    (localHas : LocalStatus -> bool) : bool :=
  if candidate =s "" then false
  else match local with None => true | Some s => localHas s end.
Definition hasIPv4 (s : LocalStatus) : bool := sIPv4 s <>s "".
Definition hasIPv6 (s : LocalStatus) : bool := sIPv6 s <>s "".

Definition SelectEndpoint (data : Record_) (protocol : string) (local : option LocalStatus)
  : result string :=
  if (protocol =s "") || (protocol =s "ipv4") then
    if rIPv4 data =s "" then Err (ENew "no ipv4 endpoint in record") else Ok (rIPv4 data)
  else if protocol =s "ipv6" then
    if rIPv6 data =s "" then Err (ENew "no ipv6 endpoint in record") else Ok (rIPv6 data)
  else if protocol =s "prefer_ipv4" then
    if (rIPv4 data =s "") && (rIPv6 data =s "") then Err (ENew "record has no endpoints")
    else if usable local (rIPv4 data) hasIPv4 then Ok (rIPv4 data)
    else if usable local (rIPv6 data) hasIPv6 then Ok (rIPv6 data)
    else Err (ENew "no endpoint reachable from the local address families")
  else if protocol =s "prefer_ipv6" then
    if (rIPv4 data =s "") && (rIPv6 data =s "") then Err (ENew "record has no endpoints")
    else if usable local (rIPv6 data) hasIPv6 then Ok (rIPv6 data)
    else if usable local (rIPv4 data) hasIPv4 then Ok (rIPv4 data)
    else Err (ENew "no endpoint reachable from the local address families")
  else Err (ENew "unknown peer protocol").

(** ** discover.go

    A [FamilyResolver] returns an endpoint and an error independently, as the Go
    function type does; [resolve4] and [resolve6] are its outcomes.  The second
    component is the families [warn] was called with, in order. *)
Definition DiscoverEndpoints (protocol : string) (resolve4 resolve6 : string * option error)
  : result (string * string) * list string :=
  let want4 := (protocol =s "ipv4") || (protocol =s "dualstack") in
  let want6 := (protocol =s "ipv6") || (protocol =s "dualstack") in
  if negb (want4 || want6) then (Err (ENew "unknown protocol"), [])
  else
    let '(ep4, err4) := if want4 then resolve4 else ("", None) in
    let '(ep6, err6) := if want6 then resolve6 else ("", None) in
    if protocol =s "ipv4" then
      match err4 with Some e => (Err e, []) | None => (Ok (ep4, ep6), []) end
    else if protocol =s "ipv6" then
      match err6 with Some e => (Err e, []) | None => (Ok (ep4, ep6), []) end
    else
      let warned := match err4 with Some _ => ["ipv4"] | None => [] end ++
                    match err6 with Some _ => ["ipv6"] | None => [] end in
      if (ep4 =s "") && (ep6 =s "")
      then (Err (ENew "both IPv4 and IPv6 STUN discovery failed"), warned)
      else (Ok (ep4, ep6), warned).

(** ** selection.go *)

Record Health := mkHealth { hEndpoint : string; Handshake : Z; Received : Z }.

Record Selection := mkSel {
  s_received : Z;        (* uint64 *)
  s_handshake : Z;
  s_observed : bool;
  s_next : Z             (* uint64 *)
}.
Definition Selection0 : Selection := mkSel 0 0 false 0.

Definition Working (s : Selection) (h : Health) (now : Z) : Selection * bool :=
  let known := negb (time_IsZero (Handshake h)) && negb (time_After (Handshake h) now) in
  let fresh := known && (time_Sub now (Handshake h) <? 5 * Minute) in
  let handshook := fresh && (negb (s_observed s) || time_After (Handshake h) (s_handshake s)) in
  let advanced := s_observed s && (s_received s <? Received h) in
  (mkSel (Received h) (Handshake h) true (s_next s),
   (hEndpoint h <>s "") && known && (handshook || advanced)).

Definition Next (s : Selection) (endpoints : list string) : Selection * string :=
  match endpoints with
  | [] => (s, "")
  | _ =>
      let eps := take 4 endpoints in
      let i := s_next s mod Z.of_nat (length eps) in
      (mkSel (s_received s) (s_handshake s) (s_observed s) (wrapU64 (s_next s + 1)),
       nth (Z.to_nat i) eps "")
  end.

Definition Reset_ (s : Selection) (h : Health) : Selection :=
  mkSel (Received h) (Handshake h) true 0.

(** ** The characters of a numeric endpoint *)

Definition addr_char (c : ascii) : bool :=
  match hex_val c with
  | Some _ => true
  | None => Ascii.eqb c "." || Ascii.eqb c ":"
  end.

Lemma digit_addr_char c d : digit_val c = Some d -> addr_char c = true.
Proof.
  unfold digit_val, addr_char, hex_val, is_digit. intros H.
  destruct (_ && _) eqn:E; [|done]. done.
Qed.

Lemma v4_fields_chars s val dl pos acc l :
  v4_fields s val dl pos acc = Some l -> sforall addr_char s = true.
Proof.
  revert val dl pos acc. induction s as [|c s IH]; intros val dl pos acc H; [done|].
  cbn [v4_fields sforall] in *. destruct (digit_val c) as [d|] eqn:E.
  - rewrite (digit_addr_char c d E). go_inv H. eauto.
  - destruct (Ascii.eqb c ".") eqn:Ec; [|done]. apply Ascii.eqb_eq in Ec as ->.
    destruct (_ || _); [done|]. destruct (pos =? 3); [done|]. apply IH in H. by rewrite H.
Qed.

Lemma hex_group_chars s acc off g n r :
  hex_group s acc off = Some (g, n, r) -> sforall addr_char r = true -> sforall addr_char s = true.
Proof.
  revert acc off. induction s as [|c s IH]; cbn [hex_group sforall]; intros acc off H Hr.
  { by simplify_eq. }
  destruct (hex_val c) as [d|] eqn:E; [|by simplify_eq].
  destruct (3 <? off); [done|]. destruct (65535 <? _); [done|].
  rewrite (IH _ _ H Hr). unfold addr_char. by rewrite E.
Qed.

Lemma v6_loop_chars fuel s ip ell ip' ell' :
  v6_loop fuel s ip ell = Some ("", ip', ell') -> sforall addr_char s = true.
Proof.
  revert s ip ell. induction fuel as [|fuel IH]; intros s ip ell H; cbn [v6_loop] in H; [by simplify_eq|].
  destruct (hex_group s 0 0) as [[[g n] r]|] eqn:Eg; [|done].
  destruct (n =? 0); [done|]. destruct r as [|c r]; [by eapply hex_group_chars|].
  destruct (Ascii.eqb c ".") eqn:Ed.
  { destruct (match ell with None => _ | Some _ => _ end); [done|]. destruct (_ <? _)%nat; [done|].
    destruct (v4_fields s 0 0 0 []) eqn:Ev; [|done]. by eapply v4_fields_chars. }
  destruct (Ascii.eqb c ":") eqn:Ec; [|done]. apply Ascii.eqb_eq in Ec as ->. cbn [negb] in H.
  destruct r as [|c2 r]; [done|]. eapply hex_group_chars; [done|].
  destruct (Ascii.eqb c2 ":") eqn:Ec2.
  - apply Ascii.eqb_eq in Ec2 as ->. destruct ell; [done|].
    destruct (r =s "") eqn:Er.
    + apply String.eqb_eq in Er as ->. done.
    + apply IH in H. cbn [sforall]. by rewrite H.
  - apply IH in H. cbn [sforall] in *. by rewrite H.
Qed.

Lemma v6_finish_rest z r a : v6_finish z r = Some a -> r.1.1 = "" /\ Zone a = z.
Proof.
  destruct r as [[s ip] ell]. unfold v6_finish. cbn [fst snd]. intros H.
  destruct (s =s "") eqn:E; [|done]. apply String.eqb_eq in E. split; [done|].
  cbn [negb] in H. by go_inv H.
Qed.

Lemma parse_v6_body_chars s z a :
  parse_v6_body s z = Some a -> sforall addr_char s = true /\ Zone a = z.
Proof.
  assert (forall t ell r, v6_loop 8 t [] ell = Some r -> v6_finish z r = Some a ->
    sforall addr_char t = true /\ Zone a = z) as Hgo.
  { intros t ell [[s2 ip] e] E H. apply v6_finish_rest in H as [Hr Hz]. cbn [fst] in Hr. subst s2.
    by apply v6_loop_chars in E. }
  unfold parse_v6_body. intros H.
  repeat (case_match; simplify_eq; try by eapply Hgo).
  - match goal with E : (_ =s "") = true |- _ => apply String.eqb_eq in E as -> end. done.
  - match goal with E : v6_loop _ _ _ _ = _ |- _ => destruct (Hgo _ _ _ E H) as [Hs ->] end.
    split; [|done]. cbn [sforall]. by rewrite Hs.
Qed.

Lemma ParseAddr_chars s a : ParseAddr s = Some a -> Zone a = "" -> sforall addr_char s = true.
Proof.
  unfold ParseAddr, parse_v4, parse_v6. intros H Hz. go_inv H.
  - by eapply v4_fields_chars.
  - apply parse_v6_body_chars in H as [_ Hz']. rewrite Hz in Hz'. subst.
    match goal with E : ("" =s "") = false |- _ => by cbn in E end.
  - by apply parse_v6_body_chars in H as [? _].
Qed.

Lemma addr_char_safe c : addr_char c = true -> json_safe c = true.
Proof. destruct c as [[] [] [] [] [] [] [] []]; vm_compute; done. Qed.

Lemma digits_val_chars acc s n : digits_val digit_val 10 acc s = Some n -> sforall json_safe s = true.
Proof.
  revert acc. induction s as [|c s IH]; cbn [digits_val sforall]; intros acc H; [done|].
  destruct (digit_val c) as [d|] eqn:E; [|done]. apply digit_addr_char, addr_char_safe in E.
  rewrite E. by eapply IH.
Qed.

Lemma cut_last_spec c s x y : cut_last c s = Some (x, y) -> s = x +:+ String c y.
Proof.
  revert x y. induction s as [|a s IH]; intros x y H; cbn [cut_last] in H; [done|].
  destruct (cut_last c s) as [[x' y']|] eqn:E.
  - simplify_eq. cbn. f_equal. by apply IH.
  - destruct (Ascii.eqb a c) eqn:Ea; [|done]. apply Ascii.eqb_eq in Ea as ->. by simplify_eq.
Qed.

Lemma unsnoc_spec s x c : unsnoc s = Some (x, c) -> s = x +:+ String c "".
Proof.
  revert x c. induction s as [|a s IH]; intros x c H; [done|]. cbn [unsnoc] in H.
  destruct s as [|b s]; [by simplify_eq|].
  destruct (unsnoc (String b s)) as [[x' c']|] eqn:E; [|done]. simplify_eq.
  cbn. f_equal. by apply IH.
Qed.

Lemma ParseAddrPort_chars s ep :
  ParseAddrPort s = Some ep -> Zone (ap_addr ep) = "" -> sforall json_safe s = true.
Proof.
  unfold ParseAddrPort, split_addr_port. intros H Hz.
  destruct (cut_last ":" s) as [[x port]|] eqn:Ec; [|done]. apply cut_last_spec in Ec as ->.
  destruct (_ || _); [done|].
  assert (forall ip v6, match parse_uint10 16 port with None => None | Some p =>
      match ParseAddr ip with None => None | Some a =>
        if Bool.eqb v6 (Is6 a) then Some (mkAP a p) else None end end = Some ep ->
      sforall json_safe ip = true /\ sforall json_safe port = true) as Hgo.
  { intros ip v6 Hm. unfold parse_uint10, parse_uint in Hm.
    destruct (port =s ""); [done|]. destruct (digits_val _ _ _ port) as [v|] eqn:Ep; [|done].
    destruct (v <? 2 ^ 16); [|done]. destruct (ParseAddr ip) as [a|] eqn:Ea; [|done].
    destruct (Bool.eqb v6 (Is6 a)); [|done]. simplify_eq. cbn in Hz. split.
    - eapply sforall_impl; [apply addr_char_safe|]. by eapply ParseAddr_chars.
    - by eapply digits_val_chars. }
  rewrite sforall_app. cbn [sforall].
  assert (forall ip v6, x = ip -> match parse_uint10 16 port with None => None | Some p =>
      match ParseAddr ip with None => None | Some a =>
        if Bool.eqb v6 (Is6 a) then Some (mkAP a p) else None end end = Some ep ->
      sforall json_safe x && (json_safe ":" && sforall json_safe port) = true) as Hplain.
  { intros ip v6 -> Hm. destruct (Hgo _ _ Hm) as [-> ->]. done. }
  destruct x as [|c x]; [exact (Hplain "" false eq_refl H)|].
  destruct (Ascii.eqb c "[") eqn:Eb.
  - apply Ascii.eqb_eq in Eb as ->. destruct (unsnoc x) as [[ip2 cc]|] eqn:Eu; [|done].
    destruct (Ascii.eqb cc "]") eqn:Ecc; [|done]. apply Ascii.eqb_eq in Ecc as ->.
    apply unsnoc_spec in Eu as ->. destruct (Hgo _ _ H) as [H1 H2]. cbn [sforall].
    rewrite sforall_app, H1, H2. done.
  - apply (Hplain (String c x) false); [done|].
    revert Eb H. destruct c as [[] [] [] [] [] [] [] []]; done.
Qed.

Lemma Endpoint_chars text ep : Endpoint text = Ok ep -> sforall json_safe text = true.
Proof.
  unfold Endpoint. destruct (256 <? slen text); [done|].
  destruct (ParseAddrPort text) as [e|] eqn:E; [|done]. cbn zeta.
  destruct (_ || _) eqn:C; [done|]. intros _.
  repeat (apply orb_false_iff in C as [C ?]).
  eapply ParseAddrPort_chars; [done|].
  by match goal with Hn : negb (_ =s "") = false |- _ => apply negb_false_iff, String.eqb_eq in Hn end.
Qed.

(** ** Writing a record and reading it back *)

(** The document of a record, as members. *)
Definition record_members (r : Record_) : list (string * json) :=
  ("version", JNum (itoa (Version r))) ::
  (if rIPv4 r =s "" then [] else [("ipv4", JStr (rIPv4 r))]) ++
  (if rIPv6 r =s "" then [] else [("ipv6", JStr (rIPv6 r))]).

Lemma parse_marshal_record s4 s6 :
  sforall json_safe s4 = true -> sforall json_safe s6 = true ->
  parse_json (marshal_record (mkRecord 2 s4 s6)) = Some (JObj (record_members (mkRecord 2 s4 s6))).
Proof.
  intros H4 H6. unfold marshal_record. cbn [Version rIPv4 rIPv6]. change (itoa 2) with "2".
  apply parse_json_object.
  { cbn. lia. }
  intros n. unfold marshal_field, record_members. cbn [Version rIPv4 rIPv6].
  rewrite !json_string_safe by done.
  change (String dquote (("version" +:+ String dquote "") +:+ ?x)) with (quoted "version" +:+ x).
  change (itoa 2) with "2".
  assert (forall f r, parse_value (S f) ("2" +:+ String "," r) = Some (JNum "2", String "," r)) as Hn by done.
  assert (forall f, parse_value (S f) ("2" +:+ "}") = Some (JNum "2", "}")) as Hn' by done.
  destruct (s4 =s ""), (s6 =s ""); cbn [String.append Nat.add app]; rewrite ?sapp_assoc.
  - by apply (parse_members_last _ "version" (JNum "2") "2").
  - etrans; [by apply (parse_members_step _ "version" (JNum "2") "2")|].
    apply (parse_members_last _ "ipv6" (JStr s6) (quoted s6)); [done|by apply parse_value_string].
  - etrans; [by apply (parse_members_step _ "version" (JNum "2") "2")|].
    apply (parse_members_last _ "ipv4" (JStr s4) (quoted s4)); [done|by apply parse_value_string].
  - etrans; [by apply (parse_members_step _ "version" (JNum "2") "2")|].
    etrans; [apply (parse_members_step _ "ipv4" (JStr s4) (quoted s4)); [done|by apply parse_value_string]|].
    apply (parse_members_last _ "ipv6" (JStr s6) (quoted s6)); [done|by apply parse_value_string].
Qed.

(** The members of a printed record pass the first pass and decode to it. *)
Lemma check_record_members `{UnicodeTables} s4 s6 :
  check 0 (JObj (record_members (mkRecord 2 s4 s6))) = Ok tt.
Proof.
  rewrite check_obj. cbn. unfold record_members. cbn [rIPv4 rIPv6].
  destruct (s4 =s ""), (s6 =s ""); reflexivity.
Qed.

Lemma decode_record_members s4 s6 :
  decode_record (JObj (record_members (mkRecord 2 s4 s6))) = Some (mkRecord 2 s4 s6).
Proof.
  unfold record_members. cbn [rIPv4 rIPv6].
  destruct (s4 =s "") eqn:E4, (s6 =s "") eqn:E6; rewrite ?String.eqb_eq in *; subst; reflexivity.
Qed.

Lemma validate_family_chars family raw :
  validate_family family raw = Ok tt -> sforall json_safe raw = true /\ slen raw <= 256.
Proof.
  unfold validate_family. destruct (raw =s "") eqn:E.
  { apply String.eqb_eq in E as ->. split; [done|]. unfold slen. cbn. lia. }
  destruct (Endpoint raw) as [ep|] eqn:Ee; [|done]. intros _. split; [by eapply Endpoint_chars|].
  unfold Endpoint in Ee. destruct (Z.ltb_spec 256 (slen raw)); [done|lia].
Qed.

Lemma validate_ok r : validate r = Ok tt <->
  Version r = 2 /\ (rIPv4 r <> "" \/ rIPv6 r <> "") /\
  validate_family 4 (rIPv4 r) = Ok tt /\ validate_family 6 (rIPv6 r) = Ok tt.
Proof.
  unfold validate. destruct (Z.eqb_spec (Version r) 2); cbn [negb orb]; [|split; [done|naive_solver]].
  destruct ((rIPv4 r =s "") && (rIPv6 r =s "")) eqn:E.
  - apply andb_true_iff in E as [?%String.eqb_eq ?%String.eqb_eq]. split; [done|naive_solver].
  - apply andb_false_iff in E. rewrite !String.eqb_neq in E.
    destruct (validate_family 4 (rIPv4 r)) as [[]|], (validate_family 6 (rIPv6 r)) as [[]|]; naive_solver.
Qed.

Lemma slen_marshal s4 s6 :
  sforall json_safe s4 = true -> sforall json_safe s6 = true ->
  slen (marshal_record (mkRecord 2 s4 s6)) <= 33 + slen s4 + slen s6.
Proof.
  intros H4 H6. unfold slen, marshal_record, marshal_field. cbn [Version rIPv4 rIPv6].
  rewrite !json_string_safe by done. unfold quoted.
  destruct (s4 =s ""), (s6 =s ""); repeat (rewrite ?slength_app; cbn [String.length]);
    cbn; lia.
Qed.

Lemma Encode_decodes `{UnicodeTables} r s :
  Encode r = Ok s -> Decode s = Ok (mkRecord 2 (rIPv4 r) (rIPv6 r)).
Proof.
  unfold Encode. destruct (validate _) as [[]|] eqn:Ev; [|done]. intros [= <-].
  pose proof (proj1 (validate_ok _) Ev) as (_ & _ & H4 & H6). cbn [rIPv4 rIPv6] in *.
  apply validate_family_chars in H4 as [H4 L4]. apply validate_family_chars in H6 as [H6 L6].
  pose proof (slen_marshal _ _ H4 H6) as Hlen.
  assert (slen (marshal_record (mkRecord 2 (rIPv4 r) (rIPv6 r))) <> 0) as Hne by done.
  unfold Decode, DecodeJSON.
  rewrite (proj2 (Z.ltb_ge MaxRecordBytes _)) by (unfold MaxRecordBytes; lia).
  rewrite (proj2 (Z.ltb_ge MaxConfigBytes _)) by (unfold MaxConfigBytes; lia).
  rewrite (proj2 (Z.eqb_neq _ 0)) by done. cbn [orb].
  rewrite parse_marshal_record, check_record_members, decode_record_members by done.
  by rewrite Ev.
Qed.

(** A record that encodes is read back by [Decode] on the other side: the same
    endpoints, and the version the encoder stamps. *)
Theorem Encode_Decode `{UnicodeTables} r s :
  Encode r = Ok s -> Decode s = Ok (mkRecord 2 (rIPv4 r) (rIPv6 r)).
Proof. apply Encode_decodes. Qed.

Lemma Encode_Decode_witness :
  @Decode {| lower_rune := fun r => r |}
    (marshal_record (mkRecord 2 "203.0.113.7:51820" "[2001:db8::7]:51820")) =
  Ok (mkRecord 2 "203.0.113.7:51820" "[2001:db8::7]:51820").
Proof.
  apply (@Encode_Decode {| lower_rune := fun r => r |}
           (mkRecord 0 "203.0.113.7:51820" "[2001:db8::7]:51820")).
  vm_compute. reflexivity.
Defined.

(** ** What a decoded or allowed endpoint can be *)

(** A public endpoint of [family]: 4 or 6. *)
Definition hint_ok (family : Z) (raw : string) : Prop :=
  exists ep, Endpoint raw = Ok ep /\ endpoint_ok ep /\ IsLoopback (ap_addr ep) = false /\
    IsUnspecified (ap_addr ep) = false /\ Is4 (ap_addr ep) = (family =? 4).

Lemma IsGlobalUnicast_not_unspecified a :
  Is4In6 a = false -> IsGlobalUnicast a = true -> IsUnspecified a = false.
Proof.
  intros H4 H. unfold IsGlobalUnicast in H. rewrite Unmap_fixed in H by done.
  destruct a as [|v|v z]; [done|..]; cbn [IsUnspecified];
    repeat (apply andb_true_iff in H as [H ?]); apply negb_true_iff in H; [|done].
  by apply orb_false_iff in H as [? _].
Qed.

Lemma validate_family_hint family raw :
  validate_family family raw = Ok tt -> raw = "" \/ hint_ok family raw.
Proof.
  unfold validate_family. destruct (raw =s "") eqn:E; [left; by apply String.eqb_eq|].
  destruct (Endpoint raw) as [ep|] eqn:Ee; [|done]. destruct (_ || _) eqn:C; [done|]. intros _.
  repeat (apply orb_false_iff in C as [C ?]).
  repeat match goal with Hn : negb _ = false |- _ => apply negb_false_iff in Hn end.
  right. exists ep. pose proof (Endpoint_endpoint_ok _ _ Ee) as Hok. split_and!; try done.
  - destruct Hok as (_ & _ & _ & H4 & _). by apply IsGlobalUnicast_not_unspecified.
  - by apply Bool.eqb_prop.
Qed.

(** A record taken from a store is acted on only if it has version 2, at least
    one endpoint, and every endpoint present is a unicast, non-loopback,
    specified numeric address of the family its field names. *)
Theorem Decode_sound `{UnicodeTables} raw r :
  Decode raw = Ok r ->
  Version r = 2 /\ (rIPv4 r <> "" \/ rIPv6 r <> "") /\
  (rIPv4 r = "" \/ hint_ok 4 (rIPv4 r)) /\ (rIPv6 r = "" \/ hint_ok 6 (rIPv6 r)).
Proof.
  unfold Decode. destruct (MaxRecordBytes <? slen raw); [done|].
  destruct (DecodeJSON decode_record raw) as [r'|]; [|done].
  destruct (validate r') as [[]|] eqn:Ev; [|done]. intros [= <-].
  apply validate_ok in Ev as (Hv & Hne & H4 & H6).
  split_and!; try done; by apply validate_family_hint.
Qed.

Lemma Decode_sound_witness :
  Version (mkRecord 2 "203.0.113.7:51820" "") = 2 /\
  ("203.0.113.7:51820" <> "" \/ "" <> "") /\
  ("203.0.113.7:51820" = "" \/ hint_ok 4 "203.0.113.7:51820") /\ ("" = "" \/ hint_ok 6 "").
Proof.
  apply (@Decode_sound {| lower_rune := fun r => r |}
           (marshal_record (mkRecord 2 "203.0.113.7:51820" "")) (mkRecord 2 "203.0.113.7:51820" "")).
  vm_compute. reflexivity.
Defined.

(** A public address: what an unsolicited hint must be. *)
Definition public_ep (ep : AddrPort) : Prop :=
  endpoint_ok ep /\ IsUnspecified (ap_addr ep) = false /\ IsLoopback (ap_addr ep) = false /\
  IsPrivate (ap_addr ep) = false /\ Contains cgnat (ap_addr ep) = false.

Lemma Allowed_endpoint endpoint : Allowed endpoint [] = true -> exists ep, Endpoint endpoint = Ok ep /\ public_ep ep.
Proof.
  unfold Allowed. destruct (Endpoint endpoint) as [ep|] eqn:E; [|done]. cbn zeta.
  destruct (_ || _) eqn:C; [done|]. apply orb_false_iff in C as [C1 C2%negb_false_iff].
  destruct (_ && _) eqn:C; [|done]. apply andb_true_iff in C as [C3%negb_true_iff C4%negb_true_iff].
  intros _. exists ep. pose proof (Endpoint_endpoint_ok _ _ E) as Hok. unfold public_ep. split_and!; try done.
  destruct Hok as (_ & _ & _ & H4 & _). by apply IsGlobalUnicast_not_unspecified.
Qed.

(** An unsolicited hint (no local subnet configured) is allowed only when it is a
    public address: specified, unicast, neither loopback, link-local nor
    multicast, outside the private ranges and outside 100.64.0.0/10. *)
Theorem Allowed_public endpoint :
  Allowed endpoint [] = true ->
  exists ep, Endpoint endpoint = Ok ep /\ endpoint_ok ep /\
    IsUnspecified (ap_addr ep) = false /\ IsLoopback (ap_addr ep) = false /\
    IsPrivate (ap_addr ep) = false /\ Contains cgnat (ap_addr ep) = false.
Proof. intros (ep & E & H)%Allowed_endpoint. by exists ep. Qed.

Lemma Allowed_public_witness :
  exists ep, Endpoint "198.51.100.9:41000" = Ok ep /\ endpoint_ok ep /\
    IsUnspecified (ap_addr ep) = false /\ IsLoopback (ap_addr ep) = false /\
    IsPrivate (ap_addr ep) = false /\ Contains cgnat (ap_addr ep) = false.
Proof. apply (Allowed_public "198.51.100.9:41000"). vm_compute. reflexivity. Defined.

(** The first pass compares lower-cased keys, the second folds them: the long s
    (U+017F) lowers to itself but folds to s, so a second "version" key passes
    the duplicate check and overrides the first. *)
Definition long_s : string := utf8_encode 383.
Definition folded_duplicate : string :=
  "{" +:+ quoted "version" +:+ ":1," +:+ quoted ("ver" +:+ long_s +:+ "ion") +:+ ":2," +:+
  quoted "ipv4" +:+ ":" +:+ quoted "203.0.113.7:51820" +:+ "}".

Theorem Decode_folded_duplicate `{UnicodeTables} :
  lower_rune 383 = 383 -> Decode folded_duplicate = Ok (mkRecord 2 "203.0.113.7:51820" "").
Proof.
  intros Hl. unfold Decode, DecodeJSON.
  assert (parse_json folded_duplicate = Some (JObj [("version", JNum "1");
    ("ver" +:+ long_s +:+ "ion", JNum "2"); ("ipv4", JStr "203.0.113.7:51820")])) as -> by (by vm_compute).
  rewrite check_obj.
  assert (to_lower ("ver" +:+ long_s +:+ "ion") = "ver" +:+ long_s +:+ "ion") as Hlow.
  { unfold to_lower. replace (is_ascii _) with false by done.
    assert (runes ("ver" +:+ long_s +:+ "ion") = [(118, "v"); (101, "e"); (114, "r"); (383, long_s);
      (105, "i"); (111, "o"); (110, "n")]) as -> by (by vm_compute).
    cbn [fold_right fst snd]. rewrite Hl. by vm_compute. }
  cbn [members]. rewrite Hlow. by vm_compute.
Qed.

(** ** Selecting an endpoint *)

Lemma usable_ne local c f : usable local c f = true -> c <> "".
Proof. unfold usable. destruct (c =s "") eqn:E; [done|]. by rewrite String.eqb_neq in E. Qed.

(** Both preferences follow one pattern: [a] first, then [b]. *)
Lemma prefer_spec local a fa b fb m1 m2 e :
  (if (a =s "") && (b =s "") then Err m1
   else if usable local a fa then Ok a
   else if usable local b fb then Ok b
   else Err m2) = Ok e <->
  e <> "" /\ (e = a /\ usable local e fa = true \/
              e = b /\ usable local e fb = true /\ usable local a fa = false).
Proof.
  assert (usable local "" fa = false /\ usable local "" fb = false) as [Ha Hb] by done.
  destruct (usable local a fa) eqn:Ua; [|destruct (usable local b fb) eqn:Ub].
  - apply usable_ne in Ua as Hne. rewrite (proj2 (String.eqb_neq a "") Hne). cbn [andb].
    split; [intros [= <-]; auto|]. intros (? & [[-> ?]|(? & ? & ?)]); [done|congruence].
  - apply usable_ne in Ub as Hne. rewrite (proj2 (String.eqb_neq b "") Hne), andb_false_r.
    split; [intros [= <-]; auto 6|]. intros (? & [[-> ?]|(-> & ? & ?)]); [congruence|done].
  - split; [by destruct (_ && _)|]. intros (? & [[-> ?]|(-> & ? & ?)]); congruence.
Qed.

(** The selected endpoint is a non-empty endpoint of the record, of the family the
    protocol requires; under a preference the preferred family wins whenever
    the record has it and the local host can reach it (or its reach is
    unknown), and the other family is used only then, under the same test. *)
Theorem SelectEndpoint_spec data protocol local e :
  SelectEndpoint data protocol local = Ok e <->
  e <> "" /\
  ((protocol = "" \/ protocol = "ipv4") /\ e = rIPv4 data \/
   protocol = "ipv6" /\ e = rIPv6 data \/
   protocol = "prefer_ipv4" /\
     (e = rIPv4 data /\ usable local e hasIPv4 = true \/
      e = rIPv6 data /\ usable local e hasIPv6 = true /\ usable local (rIPv4 data) hasIPv4 = false) \/
   protocol = "prefer_ipv6" /\
     (e = rIPv6 data /\ usable local e hasIPv6 = true \/
      e = rIPv4 data /\ usable local e hasIPv4 = true /\ usable local (rIPv6 data) hasIPv6 = false)).
Proof.
  unfold SelectEndpoint.
  destruct (String.eqb_spec protocol ""); [subst; cbn|].
  { destruct (String.eqb_spec (rIPv4 data) ""); split; intuition (congruence || discriminate). }
  destruct (String.eqb_spec protocol "ipv4"); [subst; cbn|].
  { destruct (String.eqb_spec (rIPv4 data) ""); split; intuition (congruence || discriminate). }
  cbn [orb]. destruct (String.eqb_spec protocol "ipv6"); [subst|].
  { destruct (String.eqb_spec (rIPv6 data) ""); split; intuition (congruence || discriminate). }
  destruct (String.eqb_spec protocol "prefer_ipv4"); [subst|].
  { rewrite prefer_spec. split; intuition discriminate. }
  destruct (String.eqb_spec protocol "prefer_ipv6"); [subst|].
  { rewrite andb_comm, prefer_spec. split; intuition discriminate. }
  split; [done|]. intuition congruence.
Qed.

(** ** Discovery policy *)

Lemma DiscoverEndpoints_ok protocol r4 r6 ep4 ep6 w :
  DiscoverEndpoints protocol r4 r6 = (Ok (ep4, ep6), w) ->
  protocol = "ipv4" /\ (ep4, None) = r4 /\ ep6 = "" \/
  protocol = "ipv6" /\ ep4 = "" /\ (ep6, None) = r6 \/
  protocol = "dualstack" /\ ep4 = r4.1 /\ ep6 = r6.1 /\ (ep4 <> "" \/ ep6 <> "").
Proof.
  unfold DiscoverEndpoints. destruct r4 as [a e4], r6 as [b e6].
  destruct (String.eqb_spec protocol "ipv4"); [subst; cbn|].
  { destruct e4; intros; simplify_eq. auto. }
  destruct (String.eqb_spec protocol "ipv6"); [subst; cbn|].
  { destruct e6; intros; simplify_eq. auto. }
  destruct (String.eqb_spec protocol "dualstack"); [subst; cbn|done].
  destruct (String.eqb_spec a ""), (String.eqb_spec b ""); cbn; intros; simplify_eq; auto 10.
Qed.

(** Discovery follows the policy: a single-family protocol fails exactly when its
    own family fails, dual stack fails exactly when both families come back
    empty, warning once for each family that failed. *)
Theorem DiscoverEndpoints_policy a e4 b e6 :
  let run p := DiscoverEndpoints p (a, e4) (b, e6) in
  (is_ok (run "ipv4").1 = true <-> e4 = None) /\
  (is_ok (run "ipv6").1 = true <-> e6 = None) /\
  (is_ok (run "dualstack").1 = true <-> a <> "" \/ b <> "") /\
  (("ipv4" ∈ (run "dualstack").2 <-> e4 <> None) /\ ("ipv6" ∈ (run "dualstack").2 <-> e6 <> None)) /\
  forall p, p <> "ipv4" -> p <> "ipv6" -> p <> "dualstack" -> is_ok (run p).1 = false.
Proof.
  cbn zeta. split_and!.
  - cbn. destruct e4; cbn; split; done.
  - cbn. destruct e6; cbn; split; done.
  - cbn. destruct (String.eqb_spec a ""), (String.eqb_spec b ""); subst; cbn; split; intuition done.
  - cbn. destruct e4, e6, (a =s ""), (b =s ""); cbn; split; rewrite ?elem_of_cons, ?elem_of_nil; intuition done.
  - cbn. destruct e4, e6, (a =s ""), (b =s ""); cbn; split; rewrite ?elem_of_cons, ?elem_of_nil; intuition done.
  - intros p H1 H2 H3. unfold DiscoverEndpoints.
    by rewrite !(proj2 (String.eqb_neq p _)).
Qed.

(** ** The selection state *)

(** [k] consecutive selections. *)
Fixpoint Next_n (k : nat) (s : Selection) (endpoints : list string) : list string :=
  match k with
  | O => []
  | S k' => let '(s', e) := Next s endpoints in e :: Next_n k' s' endpoints
  end.

Lemma Next_n_map k s endpoints :
  endpoints <> [] -> 0 <= s_next s -> s_next s + Z.of_nat k < 2 ^ 64 ->
  let eps := take 4 endpoints in
  Next_n k s endpoints =
  map (fun i => nth (Z.to_nat ((s_next s + Z.of_nat i) mod Z.of_nat (length eps))) eps "") (seq 0 k).
Proof.
  intros Hne. cbn zeta. revert s. induction k as [|k IH]; intros s H0 Hk; [done|].
  cbn [Next_n seq map]. unfold Next at 1. destruct endpoints as [|e l]; [done|].
  cbv zeta beta iota. f_equal; [by rewrite Z.add_0_r|].
  rewrite IH; cbn [s_next]; rewrite wrapU64_id by lia; [|lia|lia].
  rewrite <-seq_shift, map_map. apply map_ext. intros i.
  by replace (s_next s + 1 + Z.of_nat i) with (s_next s + Z.of_nat (S i)) by lia.
Qed.

(** Selection is fair: over as many consecutive calls as there are candidates (at
    most four are considered) every candidate is returned once, in a rotation
    of the candidate order that starts where the previous call stopped. *)
Theorem Next_rotation s endpoints :
  endpoints <> [] -> 0 <= s_next s -> s_next s < 2 ^ 64 - 4 ->
  let eps := take 4 endpoints in
  let r := Z.to_nat (s_next s mod Z.of_nat (length eps)) in
  Next_n (length eps) s endpoints = drop r eps ++ take r eps.
Proof.
  intros Hne H0 Hmax. cbn zeta.
  assert (length (take 4 endpoints) <= 4)%nat as Hlen by (rewrite length_take; lia).
  rewrite Next_n_map by (done || lia).
  assert (length (take 4 endpoints) <> 0)%nat as Hnz by (by destruct endpoints).
  revert Hlen Hnz. generalize (take 4 endpoints) as eps. intros eps Hlen Hnz.
  assert (forall i, (s_next s + i) mod Z.of_nat (length eps) =
    (s_next s mod Z.of_nat (length eps) + i) mod Z.of_nat (length eps)) as Hmod.
  { intros i. by rewrite Zplus_mod_idemp_l. }
  assert (map (fun i => nth (Z.to_nat ((s_next s + Z.of_nat i) mod Z.of_nat (length eps))) eps "")
            (seq 0 (length eps)) =
          map (fun i => nth (Z.to_nat ((s_next s mod Z.of_nat (length eps) + Z.of_nat i)
                 mod Z.of_nat (length eps))) eps "") (seq 0 (length eps))) as ->.
  { apply map_ext. intros i. by rewrite Hmod. }
  clear Hmod. pose proof (Z.mod_pos_bound (s_next s) (Z.of_nat (length eps)) ltac:(lia)) as Hr.
  revert Hr. generalize (s_next s mod Z.of_nat (length eps)) as r. intros r Hr.
  assert (r = 0 \/ r = 1 \/ r = 2 \/ r = 3) as [->|[->|[->| ->]]] by lia;
    destruct eps as [|x1 [|x2 [|x3 [|x4 [|]]]]]; cbn [length] in *; try lia; reflexivity.
Qed.

Lemma Next_rotation_witness :
  Next_n 2 (mkSel 0 0 true 3) ["a"; "b"] = ["b"; "a"].
Proof. apply (Next_rotation (mkSel 0 0 true 3) ["a"; "b"]); [done|cbn; lia|cbn; lia]. Defined.

(** The selection last saw the health report [h]. *)
Definition observed_as (s : Selection) (h : Health) : Prop :=
  s_observed s = true /\ s_received s = Received h /\ s_handshake s = Handshake h.

(** Evidence is never counted twice: after a report has been sampled, or recorded
    at an underlay change, a later report keeps the endpoint only if it has an
    endpoint, a handshake in the past, and either more received bytes or a
    newer handshake less than five minutes old. *)
Theorem Working_needs_progress s h h' now now' :
  observed_as (Working s h now).1 h /\ observed_as (Reset_ s h) h /\
  (observed_as s h -> (Working s h' now').2 = true ->
   hEndpoint h' <> "" /\ Handshake h' <> 0 /\ Handshake h' <= now' /\
   (Received h < Received h' \/ Handshake h < Handshake h' /\ now' - Handshake h' < 5 * Minute)).
Proof.
  split_and!; [done..|]. intros (Ho & Hr & Hh) Hw. unfold Working in Hw. cbn [snd] in Hw.
  rewrite Ho in Hw. unfold time_IsZero, time_After in Hw.
  apply andb_true_iff in Hw as [Hw Hor]. apply andb_true_iff in Hw as [He Hk].
  apply andb_true_iff in Hk as [Hz Hn].
  apply negb_true_iff in He, Hz, Hn. apply String.eqb_neq in He. apply Z.eqb_neq in Hz.
  apply Z.ltb_ge in Hn. split_and!; [done|done|done|].
  apply orb_true_iff in Hor as [Hf|Hf].
  - right. cbn [negb orb] in Hf. apply andb_true_iff in Hf as [Hf Hlt].
    apply andb_true_iff in Hf as [_ Hf]. apply Z.ltb_lt in Hlt, Hf. rewrite <-Hh. split; [done|].
    unfold time_Sub, Minute, Second in *. lia.
  - left. apply Z.ltb_lt in Hf. lia.
Qed.
