(* ===== verification/Entity.v ===== *)
(** * internal/entity, internal/repo, internal/queue

    Peers and their rendezvous keys, devices, the filter of configured peers by
    the device's own, the in-memory repositories and the bounded trigger
    queues. *)

From S2P Require Import Prelude GoStr Codec Discovery.

(** ** Keys and peer identities (peer_id.go) *)

Definition PeerKeyLength : nat := 32.
(** A [PeerKey]: 32 bytes. *)
Notation PeerKey := (list Z).

(** [copy(dst[:], src)] into a zeroed 32-byte array *)
Definition copy32 (src : list Z) : PeerKey :=
  take PeerKeyLength src ++ replicate (PeerKeyLength - length src) 0.

Record PeerId := mkPeerId { devicePublicKey : PeerKey; peerPublicKey : PeerKey }.
#[export] Instance PeerId_eq_dec : EqDecision PeerId.
Proof. solve_decision. Defined.
#[export] Instance PeerId_countable : Countable PeerId.
Proof.
  refine (inj_countable' (fun i => (devicePublicKey i, peerPublicKey i)) (fun p => mkPeerId p.1 p.2) _).
  by intros [].
Defined.

Definition NewPeerId (dev peer : list Z) : PeerId := mkPeerId (copy32 dev) (copy32 peer).

(** What is hashed: the name space, a zero byte, and the two keys. *)
Definition endpoint_preimage (src dest : PeerKey) : list Z :=
  bytes_of Namespace ++ [0] ++ copy32 src ++ copy32 dest.
Definition EndpointKey (p : PeerId) : string :=
  hex_encode (sha1_sum (endpoint_preimage (devicePublicKey p) (peerPublicKey p))).
Definition RemoteEndpointKey (p : PeerId) : string :=
  hex_encode (sha1_sum (endpoint_preimage (peerPublicKey p) (devicePublicKey p))).
Definition PeerPublicKeyString (p : PeerId) : string := b64_encode (peerPublicKey p).

(** ** Peers and devices (peer.go, device.go) *)

Definition ErrPeerNotFound : string := "peer not found".
Definition ErrDeviceNotFound : string := "device not found".

(** Durations are int64 nanoseconds. *)
Record PeerPingConfig := mkPing { Enabled : bool; Target : string; Interval : Z; Timeout : Z }.
Definition PeerPingConfig0 : PeerPingConfig := mkPing false "" 0 0.

Record Peer := NewPeer {
  Id : PeerId;
  DeviceName : string;
  PublicKey : PeerKey;
  Plugin : string;
  Protocol : string;
  PingConfig : PeerPingConfig
}.
Definition LocalId (p : Peer) : string := EndpointKey (Id p).
Definition RemoteId (p : Peer) : string := RemoteEndpointKey (Id p).

Record Device := NewDevice {
  dName : string;
  dListenPort : Z;
  dProtocol : string;
  dFirewallMark : Z
}.
Notation DeviceStatus := LocalStatus.

(** ** Filtering configured peers by the device (filter_peer.go)

    The two providers the service is built from. *)
Class ConfigPeerProvider := {
  GetConfigPeers : string -> list Z -> result (list Peer)
}.
Class DevicePeerChecker := {
  GetDevicePeerMap : string -> result (gset PeerKey)
}.

Definition FilterPeers_Execute `{ConfigPeerProvider} `{DevicePeerChecker}
    (deviceName : string) (publicKey : list Z) : result (list Peer) :=
  let? configPeers := GetConfigPeers deviceName publicKey in
  let? devicePeerMap := GetDevicePeerMap deviceName in
  Ok (List.filter (fun p => bool_decide (PublicKey p ∈ devicePeerMap)) configPeers).

(** ** Repositories (devices.go, peers.go)

    A map iteration has no fixed order; [List] here is one of its orders, and
    nothing below depends on which. *)

Record Devices := mkDevices {
  dv_items : gmap string Device;
  dv_status : gmap string DeviceStatus
}.
Definition NewDevices : Devices := mkDevices ∅ ∅.
Definition Devices_List (r : Devices) : list Device := (map_to_list (dv_items r)).*2.
Definition Devices_Find (r : Devices) (name : string) : result Device :=
  match dv_items r !! name with
  | Some d => Ok d
  | None => Err (ENew ErrDeviceNotFound)
  end.
Definition Devices_Save (r : Devices) (d : Device) : Devices :=
  mkDevices (<[dName d := d]> (dv_items r)) (dv_status r).
Definition Devices_UpdateStatus (r : Devices) (name : string) (s : DeviceStatus) : Devices :=
  mkDevices (dv_items r) (<[name := s]> (dv_status r)).
Definition Devices_Status (r : Devices) (name : string) : option DeviceStatus := dv_status r !! name.

Notation Peers := (gmap PeerId Peer).
Definition NewPeers : Peers := ∅.
Definition Peers_List (r : Peers) : list Peer := (map_to_list r).*2.
Definition Peers_ListByDevice (r : Peers) (deviceName : string) : list Peer :=
  List.filter (fun p => DeviceName p =s deviceName) (Peers_List r).
Definition Peers_Find (r : Peers) (id : PeerId) : result Peer :=
  match r !! id with
  | Some p => Ok p
  | None => Err (ENew ErrPeerNotFound)
  end.
Definition Peers_Save (r : Peers) (p : Peer) : Peers := <[Id p := p]> r.
(** [keys] is what the WireGuard client's [Device] returned for the device. *)
Definition Peers_GetDevicePeerMap (keys : result (list PeerKey)) : result (gset PeerKey) :=
  let? ks := keys in Ok (list_to_set ks).

(** ** Bounded queues (queue.go) *)

Definition TriggerQueueSize : nat := 1.
Definition PeerQueueSize : nat := 100.

Record Queue (A : Type) := mkQueue { q_size : nat; q_items : list A; q_closed : bool }.
Arguments mkQueue {A}. Arguments q_size {A}. Arguments q_items {A}. Arguments q_closed {A}.

Section queue.
Context {A : Type}.
Definition NewBuffered (size : nat) : Queue A := mkQueue size [] false.
(** The send completes at once only when there is room; [None] blocks. *)
Definition Enqueue (q : Queue A) (x : A) : option (Queue A) :=
  if (length (q_items q) <? q_size q)%nat
  then Some (mkQueue (q_size q) (q_items q ++ [x]) (q_closed q)) else None.
Definition TryEnqueue (q : Queue A) (x : A) : Queue A * bool :=
  match Enqueue q x with
  | Some q' => (q', true)
  | None => (q, false)
  end.
(** A receive from [Dequeue()]: [None] when it would block. *)
Definition Dequeue (q : Queue A) : option (A * Queue A) :=
  match q_items q with
  | [] => None
  | x :: l => Some (x, mkQueue (q_size q) l (q_closed q))
  end.
Definition Len (q : Queue A) : nat := length (q_items q).
Definition Queue_Close (q : Queue A) : Queue A := mkQueue (q_size q) (q_items q) true.

Definition queue_ok (q : Queue A) : Prop := (length (q_items q) <= q_size q)%nat.

Lemma TryEnqueue_ok q x : queue_ok q -> queue_ok (TryEnqueue q x).1.
Proof.
  unfold queue_ok, TryEnqueue, Enqueue. intros. destruct (Nat.ltb_spec (length (q_items q)) (q_size q)); cbn; [|done].
  rewrite length_app. cbn. lia.
Qed.

Lemma TryEnqueue_items q x q' b :
  TryEnqueue q x = (q', b) ->
  q_size q' = q_size q /\
  (b = true /\ (length (q_items q) < q_size q)%nat /\ q_items q' = q_items q ++ [x] \/
   b = false /\ (q_size q <= length (q_items q))%nat /\ q' = q).
Proof.
  unfold TryEnqueue, Enqueue. destruct (Nat.ltb_spec (length (q_items q)) (q_size q)); intros [= <- <-]; cbn; auto.
Qed.
End queue.

(** ** Theorems *)

Lemma copy32_length l : length (copy32 l) = 32%nat.
Proof.
  unfold copy32, PeerKeyLength. rewrite length_app, length_take, length_replicate. lia.
Qed.

Lemma copy32_id l : length l = 32%nat -> copy32 l = l.
Proof.
  intros H. unfold copy32, PeerKeyLength. rewrite H, take_ge by lia. by rewrite app_nil_r.
Qed.

Lemma endpoint_preimage_inj a b c d :
  length a = 32%nat -> length b = 32%nat -> length c = 32%nat -> length d = 32%nat ->
  endpoint_preimage a b = endpoint_preimage c d -> a = c /\ b = d.
Proof.
  intros Ha Hb Hc Hd. unfold endpoint_preimage. rewrite !copy32_id by done.
  intros H%app_inv_head. apply app_inv_head in H. by apply app_inj_1 in H; [|congruence].
Qed.

(** Rendezvous: the store key a host publishes under is the key its peer looks
    up, and the hashed text determines the ordered pair of keys, so the two
    directions of a link share a record only when both keys are the same. *)
Theorem rendezvous a b c d :
  length a = 32%nat -> length b = 32%nat -> length c = 32%nat -> length d = 32%nat ->
  EndpointKey (NewPeerId a b) = RemoteEndpointKey (NewPeerId b a) /\
  RemoteEndpointKey (NewPeerId a b) = EndpointKey (NewPeerId b a) /\
  (endpoint_preimage a b = endpoint_preimage c d -> NewPeerId a b = NewPeerId c d).
Proof.
  intros Ha Hb Hc Hd. split_and!; [done..|].
  intros H. by apply endpoint_preimage_inj in H as [-> ->].
Qed.

Lemma rendezvous_witness :
  let a := 0 :: replicate 31 0 in let b := 1 :: replicate 31 0 in
  EndpointKey (NewPeerId a b) = RemoteEndpointKey (NewPeerId b a) /\
  RemoteEndpointKey (NewPeerId a b) = EndpointKey (NewPeerId b a) /\
  (endpoint_preimage a b = endpoint_preimage a b -> NewPeerId a b = NewPeerId a b).
Proof. apply (rendezvous (0 :: replicate 31 0) (1 :: replicate 31 0)); reflexivity. Defined.

(** The keys of the source's own tests. *)
Example EndpointKey_known :
  EndpointKey (NewPeerId [0] [1]) = "b3384f16283d28558bf8d231cdd8a22fbb4bb982" /\
  RemoteEndpointKey (NewPeerId [0] [1]) = "355e04c1ce320c35f6ca08590911e6bf8bffa850".
Proof. by vm_compute. Qed.

Lemma FilterPeers_ok `{ConfigPeerProvider} `{DevicePeerChecker} name key l p :
  FilterPeers_Execute name key = Ok l ->
  In p l <->
  exists cfg dev, GetConfigPeers name key = Ok cfg /\ GetDevicePeerMap name = Ok dev /\
    In p cfg /\ PublicKey p ∈ dev.
Proof.
  unfold FilterPeers_Execute. destruct (GetConfigPeers name key) as [cfg|]; [|done].
  destruct (GetDevicePeerMap name) as [dev|]; [|done]. intros [= <-].
  rewrite filter_In, bool_decide_eq_true. naive_solver.
Qed.

Lemma Peers_Find_Save r p id :
  Peers_Find (Peers_Save r p) id = if decide (Id p = id) then Ok p else Peers_Find r id.
Proof.
  unfold Peers_Find, Peers_Save. destruct (decide (Id p = id)) as [->|].
  - by rewrite lookup_insert_eq.
  - by rewrite lookup_insert_ne.
Qed.

Lemma Peers_List_elem r p : In p (Peers_List r) <-> exists id, r !! id = Some p.
Proof.
  unfold Peers_List. rewrite <-list_elem_of_In, list_elem_of_fmap. split.
  - intros ([id q] & -> & H). apply elem_of_map_to_list in H. by exists id.
  - intros [id H]. exists (id, p). split; [done|]. by apply elem_of_map_to_list.
Qed.
