(* ===== verification/GoTime.v ===== *)
(** * [time.ParseDuration]

    Durations are int64 nanoseconds; sums are kept in uint64 and checked against
    2^63 as the library does.  The fraction goes through float64, here the
    bit-exact [SpecFloat] with 53 bits of precision. *)

From Stdlib Require Import SpecFloat.
From S2P Require Import Prelude GoStr.

(** float64 arithmetic *)
Definition f64_of_Z (z : Z) : spec_float := binary_normalize 53 1024 z 0 false.
Definition f64_mul : spec_float -> spec_float -> spec_float := SFmul 53 1024.
Definition f64_div : spec_float -> spec_float -> spec_float := SFdiv 53 1024.
(** Conversion to an integer truncates; a value that does not fit is
    implementation-defined in Go and is 0 here. *)
Definition f64_trunc (f : spec_float) : Z :=
  match f with
  | S754_finite s m e =>
      let a := if 0 <=? e then Z.pos m * 2 ^ e else Z.pos m / 2 ^ (- e) in
      if s then - a else a
  | _ => 0
  end.

(** [strconv.ParseFloat] on a JSON number: the exact rational, rounded once;
    [None] when it is out of range.  Exponents beyond any float64 are cut off
    before the power is computed. *)
Definition f64_ratio (neg : bool) (m e10 : Z) : spec_float :=
  let sign z := if neg then - z else z in
  if 0 <=? e10 then binary_normalize 53 1024 (sign (m * 10 ^ e10)) 0 neg
  else
    let k := 10 ^ (- e10) in
    let s := Z.max 0 (66 + Z.log2 k - Z.log2 m) in
    let q := m * 2 ^ s / k in
    let sticky := if m * 2 ^ s mod k =? 0 then 0 else 1 in
    binary_normalize 53 1024 (sign (2 * q + sticky)) (- (s + 1)) neg.
Definition f64_of_decimal (neg : bool) (m e10 : Z) : option spec_float :=
  if m =? 0 then Some (S754_zero neg)
  else if 400 <? e10 + Z.log2 m * 3 / 10 then None
  else if e10 + Z.log2 m <? - 800 then Some (S754_zero neg)
  else match f64_ratio neg m e10 with
       | S754_infinity _ | S754_nan => None
       | f => Some f
       end.
Definition exponent (s : string) : option Z :=
  match s with
  | String "-" r => option_map Z.opp (digits_val digit_val 10 0 r)
  | String "+" r => digits_val digit_val 10 0 r
  | _ => digits_val digit_val 10 0 s
  end.
Definition ParseFloat (lit : string) : option spec_float :=
  let '(neg, s) := match lit with String "-" r => (true, r) | _ => (false, lit) end in
  let lower := ascii_lower s in
  let '(mant, e) := match cut "e" lower with Some (x, y) => (x, exponent y) | None => (lower, Some 0) end in
  let '(int, frac) := match cut "." mant with Some (x, y) => (x, y) | None => (mant, "") end in
  match digits_val digit_val 10 0 (int +:+ frac), e with
  | Some m, Some e => f64_of_decimal neg m (e - slen frac)
  | _, _ => None
  end.

(** Digits at the head, as an integer bounded by 2^63. *)
Fixpoint leadingInt (x : Z) (s : string) : option (Z * string) :=
  match s with
  | "" => Some (x, s)
  | String c s' =>
      match digit_val c with
      | None => Some (x, s)
      | Some d =>
          if 2 ^ 63 / 10 <? x then None
          else let y := x * 10 + d in
               if 2 ^ 63 <? y then None else leadingInt y s'
      end
  end.
(** Digits of a fraction: the value, the scale and the rest; digits beyond the
    precision are skipped. *)
Fixpoint leadingFraction (x : Z) (scale : spec_float) (over : bool) (s : string)
  : Z * spec_float * string :=
  match s with
  | "" => (x, scale, s)
  | String c s' =>
      match digit_val c with
      | None => (x, scale, s)
      | Some d =>
          if over then leadingFraction x scale true s'
          else if (2 ^ 63 - 1) / 10 <? x then leadingFraction x scale true s'
          else let y := x * 10 + d in
               if 2 ^ 63 <? y then leadingFraction x scale true s'
               else leadingFraction y (f64_mul scale (f64_of_Z 10)) false s'
      end
  end.

Fixpoint take_unit (s : string) : string * string :=
  match s with
  | "" => ("", "")
  | String c s' =>
      if Ascii.eqb c "." || is_digit c then ("", s)
      else let '(u, r) := take_unit s' in (String c u, r)
  end.
Definition micro1 : string := utf8_encode 181 +:+ "s".
Definition micro2 : string := utf8_encode 956 +:+ "s".
Definition unitMap (u : string) : option Z :=
  if u =s "ns" then Some 1
  else if (u =s "us") || (u =s micro1) || (u =s micro2) then Some 1000
  else if u =s "ms" then Some 1000000
  else if u =s "s" then Some 1000000000
  else if u =s "m" then Some 60000000000
  else if u =s "h" then Some 3600000000000
  else None.

(** One "number unit" group: its nanoseconds and the rest. *)
Definition duration_group (s : string) : option (Z * string) :=
  match s with
  | "" => None
  | String c _ =>
      if negb (Ascii.eqb c "." || is_digit c) then None
      else
        match leadingInt 0 s with
        | None => None
        | Some (v, s1) =>
            let pre := negb (String.length s1 =? String.length s)%nat in
            let '(f, scale, post, s2) :=
              match s1 with
              | String "." r =>
                  let '(f, scale, r') := leadingFraction 0 (f64_of_Z 1) false r in
                  (f, scale, negb (String.length r' =? String.length r)%nat, r')
              | _ => (0, f64_of_Z 1, false, s1)
              end in
            if negb pre && negb post then None
            else
              let '(u, s3) := take_unit s2 in
              if u =s "" then None
              else match unitMap u with
                   | None => None
                   | Some unit =>
                       if 2 ^ 63 / unit <? v then None
                       else
                         let v := v * unit in
                         let v :=
                           if 0 <? f
                           then v + f64_trunc (f64_mul (f64_of_Z f) (f64_div (f64_of_Z unit) scale))
                           else v in
                         if 2 ^ 63 <? v then None else Some (v, s3)
                   end
        end
  end.

(** Every group consumes a byte, so the length of the text bounds the loop. *)
Fixpoint duration_loop (fuel : nat) (d : Z) (s : string) : option Z :=
  if s =s "" then Some d
  else match fuel with
       | O => None
       | S f =>
           match duration_group s with
           | None => None
           | Some (v, s') =>
               let d := d + v in
               if 2 ^ 63 <? d then None else duration_loop f d s'
           end
       end.

Definition ParseDuration (s : string) : option Z :=
  let '(neg, s) :=
    match s with
    | String "-" r => (true, r)
    | String "+" r => (false, r)
    | _ => (false, s)
    end in
  if s =s "0" then Some 0
  else if s =s "" then None
  else match duration_loop (String.length s) 0 s with
       | None => None
       | Some d => if neg then Some (- d) else if 2 ^ 63 - 1 <? d then None else Some d
       end.

Example ParseDuration_1 : ParseDuration "1h15m30.918273645s" = Some 4530918273645.
Proof. by vm_compute. Qed.
Example ParseDuration_2 :
  (ParseDuration "-1.5h", ParseDuration "20s", ParseDuration ".5s", ParseDuration "3", ParseDuration "1.s")
  = (Some (-5400000000000), Some 20000000000, Some 500000000, None, Some 1000000000).
Proof. by vm_compute. Qed.
Example ParseDuration_3 :
  (ParseDuration "9223372036.854775807s", ParseDuration "9223372036.854775808s",
   ParseDuration "0.000000000001s", ParseDuration "9223372036854775808ns", ParseDuration "-9223372036854775808ns")
  = (Some 9223372036854775807, None, Some 0, None, Some (- 9223372036854775808)).
Proof. by vm_compute. Qed.

Example ParseFloat_1 : (ParseFloat "5", ParseFloat "-0.5", ParseFloat "1e3") =
  (Some (f64_of_Z 5), Some (f64_div (f64_of_Z (-1)) (f64_of_Z 2)), Some (f64_of_Z 1000)).
Proof. by vm_compute. Qed.
Example ParseFloat_2 : (ParseFloat "0.1", ParseFloat "1e400", ParseFloat "2.5e-1") =
  (Some (f64_div (f64_of_Z 1) (f64_of_Z 10)), None, Some (f64_div (f64_of_Z 1) (f64_of_Z 4))).
Proof. by vm_compute. Qed.
