(* ===== verification/TextFacts.v ===== *)
(** * Plain text: words, lines and numbers the [wg] tool prints *)

From S2P Require Import Prelude GoStr Codec Netip NetipFacts Json JsonFacts Validation Discovery.

(** Printable ASCII without the space. *)
Definition graph (c : ascii) : bool := (33 <=? bz c) && (bz c <? 127).
Definition ascii_char (c : ascii) : bool := bz c <? 128.
Definition word (w : string) : Prop := w <> "" /\ sforall graph w = true.

Lemma graph_ascii c : graph c = true -> ascii_char c = true.
Proof. unfold graph, ascii_char. lia. Qed.

Lemma graph_not_space c : graph c = true -> is_space (bz c) = false.
Proof. unfold graph, is_space. lia. Qed.

(** ** Runes of ASCII text *)

Fixpoint singles (s : string) : list (Z * string) :=
  match s with "" => [] | String a s' => (bz a, String a "") :: singles s' end.

Lemma runes_cons a s : ascii_char a = true -> runes (String a s) = (bz a, String a "") :: runes s.
Proof. unfold ascii_char. intros Ha. cbn [runes]. by rewrite Ha. Qed.

Lemma runes_app s t : sforall ascii_char s = true -> runes (s +:+ t) = singles s ++ runes t.
Proof.
  induction s as [|a s IH]; [done|]. cbn [sforall]. intros [Ha Hs]%andb_true_iff.
  change (String a s +:+ t) with (String a (s +:+ t)). rewrite runes_cons by done. cbn. by rewrite IH.
Qed.

Lemma runes_ascii s : sforall ascii_char s = true -> runes s = singles s.
Proof. intros Hs. rewrite <-(sapp_nil_r s) at 1. rewrite runes_app by done. cbn. by rewrite app_nil_r. Qed.

Lemma singles_app s t : singles (s +:+ t) = singles s ++ singles t.
Proof. induction s as [|a s IH]; [done|]. cbn. by rewrite IH. Qed.

Lemma of_runes_singles s : of_runes (singles s) = s.
Proof. unfold of_runes. induction s as [|a s IH]; [done|]. cbn. by rewrite IH. Qed.

Lemma word_ascii w : sforall graph w = true -> sforall ascii_char w = true.
Proof. apply sforall_impl, graph_ascii. Qed.

(** ** strings.Fields *)

Lemma fields_go_word w u l : sforall graph w = true -> fields_go (Some u) (singles w ++ l) = fields_go (Some (u +:+ w)) l.
Proof.
  revert u. induction w as [|a w IH]; intros u; [by rewrite sapp_nil_r|].
  cbn [sforall]. intros [Ha Hw]%andb_true_iff. cbn [singles app fields_go fst snd].
  rewrite graph_not_space by done. rewrite IH by done. by rewrite sapp_assoc.
Qed.

Lemma fields_go_start w l : word w -> fields_go None (singles w ++ l) = fields_go (Some w) l.
Proof.
  intros [Hne Hw]. destruct w as [|a w]; [done|]. cbn [sforall] in Hw. apply andb_true_iff in Hw as [Ha Hw].
  cbn [singles app fields_go fst snd]. rewrite graph_not_space by done. by rewrite fields_go_word.
Qed.

Lemma fields_word w : word w -> fields w = [w].
Proof.
  intros Hw. pose proof Hw as [_ Hg]. unfold fields. rewrite runes_ascii by (by apply word_ascii).
  rewrite <-(app_nil_r (singles w)), fields_go_start by done. done.
Qed.

Lemma fields_cons w c s :
  word w -> ascii_char c = true -> is_space (bz c) = true -> fields (w +:+ String c s) = w :: fields s.
Proof.
  intros Hw Hc Hs. pose proof Hw as [_ Hg]. unfold fields. rewrite runes_app by (by apply word_ascii).
  rewrite runes_cons by done. rewrite fields_go_start by done. cbn [fields_go fst]. by rewrite Hs.
Qed.

Lemma join_cons c x y l : join (String c "") (x :: y :: l) = x +:+ String c (join (String c "") (y :: l)).
Proof. done. Qed.

Lemma fields_join_tab l : Forall word l -> fields (join (String (zb 9) "") l) = l.
Proof.
  induction 1 as [|w l Hw Hl IH]; [done|]. destruct l as [|w' l]; [by apply fields_word|].
  rewrite join_cons. rewrite fields_cons by done.
  by rewrite IH.
Qed.

Lemma fields_join_nl l : Forall word l -> fields (join (String (zb 10) "") l) = l.
Proof.
  induction 1 as [|w l Hw Hl IH]; [done|]. destruct l as [|w' l]; [by apply fields_word|].
  rewrite join_cons. rewrite fields_cons by done.
  by rewrite IH.
Qed.

(** ** strings.TrimSpace *)

(** ASCII text that neither starts nor ends with a space. *)
Definition tight (s : string) : Prop :=
  sforall ascii_char s = true /\
  (exists a r, s = String a r /\ is_space (bz a) = false) /\
  (exists r z, s = r +:+ String z "" /\ is_space (bz z) = false).

Lemma trim_space_tight s : tight s -> trim_space (s +:+ String (zb 10) "") = s.
Proof.
  intros (Hs & (a & r & Ea & Ha) & (q & z & Ez & Hz)). unfold trim_space. rewrite runes_app by done.
  assert (drop_spaces (singles s ++ runes (String (zb 10) "")) = singles s ++ [(10, String (zb 10) "")]) as ->.
  { rewrite Ea. cbn [singles app drop_spaces fst]. rewrite Ha. done. }
  rewrite rev_app_distr. cbn [rev app drop_spaces fst]. change (is_space 10) with true. cbv iota.
  assert (drop_spaces (rev (singles s)) = rev (singles s)) as ->.
  { rewrite Ez, singles_app, rev_app_distr. cbn [singles rev app drop_spaces fst]. by rewrite Hz. }
  by rewrite rev_involutive, of_runes_singles.
Qed.

Lemma word_last w : word w -> exists r z, w = r +:+ String z "" /\ graph z = true.
Proof.
  intros [Hne Hw]. induction w as [|a w IH]; [done|]. cbn in Hw. apply andb_true_iff in Hw as [Ha Hw].
  destruct w as [|b w]; [by exists "", a|]. destruct IH as (r & z & E & Hz); [done|done|].
  exists (String a r), z. split; [|done]. cbn. by rewrite E.
Qed.

Lemma word_tight w : word w -> tight w.
Proof.
  intros Hw. pose proof Hw as [Hne Hg]. split_and!.
  - by apply word_ascii.
  - destruct w as [|a w]; [done|]. cbn in Hg. apply andb_true_iff in Hg as [Ha _].
    exists a, w. split; [done|by apply graph_not_space].
  - destruct (word_last w Hw) as (r & z & E & Hz). exists r, z. split; [done|by apply graph_not_space].
Qed.

Lemma tight_app s c t : tight s -> ascii_char c = true -> tight t -> tight (s +:+ String c t).
Proof.
  intros (Hs & (a & r & Ea & Ha) & _) Hc (Ht & _ & (q & z & Ez & Hz)). split_and!.
  - rewrite sforall_app, Hs. cbn. by rewrite Hc, Ht.
  - exists a, (r +:+ String c t). split; [by rewrite Ea|done].
  - exists (s +:+ String c q), z. split; [|done]. rewrite sapp_assoc. cbn. by rewrite Ez.
Qed.

Lemma tight_join sep l :
  ascii_char sep = true -> l <> [] -> Forall tight l -> tight (join (String sep "") l).
Proof.
  intros Hsep Hne. induction 1 as [|w l Hw Hl IH]; [done|]. destruct l as [|w' l]; [done|].
  rewrite join_cons. apply tight_app; [done..|by apply IH].
Qed.

(** ** Lines *)

Fixpoint unlines (l : list string) : string :=
  match l with [] => "" | x :: l' => x +:+ String (zb 10) (unlines l') end.

Lemma unlines_join l : l <> [] -> unlines l = join (String (zb 10) "") l +:+ String (zb 10) "".
Proof.
  induction l as [|x l IH]; [done|]. intros _. destruct l as [|y l]; [done|].
  rewrite join_cons. change (unlines (x :: y :: l)) with (x +:+ String (zb 10) (unlines (y :: l))).
  rewrite IH by done. by rewrite sapp_assoc.
Qed.

Lemma split_on_app c s t : smem c s = false -> split_on c (s +:+ String c t) = s :: split_on c t.
Proof.
  induction s as [|a s IH]; cbn; intros H; [by rewrite Ascii.eqb_refl|].
  apply orb_false_iff in H as [Ha Hs]. by rewrite Ha, IH.
Qed.

Lemma split_on_none c s : smem c s = false -> split_on c s = [s].
Proof. induction s as [|a s IH]; [done|]. cbn. intros [-> Hs]%orb_false_iff. by rewrite IH. Qed.

Lemma split_on_join l : l <> [] -> Forall (fun s => smem (zb 10) s = false) l ->
  split_on (zb 10) (join (String (zb 10) "") l) = l.
Proof.
  intros Hne. induction 1 as [|x l Hx Hl IH]; [done|]. destruct l as [|y l]; [by apply split_on_none|].
  rewrite join_cons.
  rewrite split_on_app by done. by rewrite IH.
Qed.

(** Lines put together and taken apart. *)
Lemma unlines_app a b : unlines (a ++ b) = unlines a +:+ unlines b.
Proof. induction a as [|x a IH]; [done|]. cbn [unlines app]. rewrite IH. by rewrite sapp_assoc. Qed.
Definition one_line (s : string) : Prop := smem (zb 10) s = false.
Lemma split_unlines ls : Forall one_line ls -> split_on (zb 10) (unlines ls) = ls ++ [""].
Proof.
  induction 1 as [|x ls Hx _ IH]; [done|]. cbn [unlines app].
  rewrite split_on_app by exact Hx. by rewrite IH.
Qed.

(** A word line: words separated by tabs. *)
Definition wline (l : list string) : string := join (String (zb 9) "") l.

Lemma smem_word c w : graph c = false -> sforall graph w = true -> smem c w = false.
Proof.
  intros Hc. induction w as [|a w IH]; [done|]. cbn. intros [Ha Hw]%andb_true_iff.
  rewrite IH by done. destruct (Ascii.eqb_spec a c); [congruence|done].
Qed.

Lemma wline_ok l : l <> [] -> Forall word l -> tight (wline l) /\ smem (zb 10) (wline l) = false.
Proof.
  intros Hne Hl. split.
  - apply tight_join; [done|done|]. eapply Forall_impl; [apply word_tight|done].
  - clear Hne. induction Hl as [|w l [_ Hw] Hl IH]; [done|]. destruct l as [|w' l]; [by apply smem_word|].
    unfold wline in *. rewrite join_cons, smem_app. cbn [smem]. rewrite IH, smem_word by done. done.
Qed.

(** What the readers of the tool's output get back. *)
Lemma lines_of_unlines ls :
  Forall (fun l => l <> [] /\ Forall word l) ls ->
  map fields (split_on (zb 10) (trim_space (unlines (map wline ls)))) = if decide (ls = []) then [[]] else ls.
Proof.
  intros Hls. destruct (decide (ls = [])) as [->|Hne]; [done|].
  assert (map wline ls <> []) as Hne' by (by destruct ls).
  rewrite unlines_join by done. rewrite trim_space_tight.
  - rewrite split_on_join; [|done|].
    + clear Hne Hne'. induction Hls as [|l ls [_ Hl] Hls IH]; [done|]. cbn. unfold wline at 1.
      by rewrite fields_join_tab, IH.
    + apply List.Forall_map. eapply Forall_impl; [|done]. cbn. intros l [H1 H2]. by apply wline_ok.
  - apply tight_join; [done..|]. apply List.Forall_map. eapply Forall_impl; [|done]. cbn.
    intros l [H1 H2]. by apply wline_ok.
Qed.

Lemma trim_space_word w : word w -> trim_space (w +:+ String (zb 10) "") = w.
Proof. intros Hw. by apply trim_space_tight, word_tight. Qed.

Lemma fields_unlines ws : Forall word ws -> fields (trim_space (unlines ws)) = ws.
Proof.
  intros Hw. destruct (decide (ws = [])) as [->|Hne]; [done|]. rewrite unlines_join by done.
  rewrite trim_space_tight; [by apply fields_join_nl|].
  apply tight_join; [done..|]. eapply Forall_impl; [apply word_tight|done].
Qed.

(** ** Words: keys, numbers, addresses *)

Lemma b64_encode_forall P l : P "="%char = true -> (forall v, 0 <= v < 64 -> P (b64_char v) = true) ->
  bytes_ok l -> sforall P (b64_encode l) = true.
Proof.
  intros Hp Hc. induction l as [|a|a b|a b c l IH] using list_ind3; intros Hl; [done|..];
    repeat match goal with
           | Hf : bytes_ok (_ :: _) |- _ => inversion_clear Hf
           | Hf : Forall is_byte (_ :: _) |- _ => inversion_clear Hf
           end; unfold is_byte in *; cbn [b64_encode sforall];
    rewrite !Hc, ?Hp by div_mod_lia; [done..|]. by rewrite IH.
Qed.

Lemma b64_word l : bytes_ok l -> l <> [] -> word (b64_encode l).
Proof.
  intros Hl Hne. split; [by destruct l as [|? [|? [|? ?]]]|].
  apply b64_encode_forall; [done| |done]. intros v. revert v. apply (range_check _ 64). by vm_compute.
Qed.

Lemma digit_graph c d : digit_val c = Some d -> graph c = true.
Proof. unfold digit_val, is_digit, graph. destruct (_ && _) eqn:E; [|done]. intros _. lia. Qed.

Lemma digits_graph acc s n : digits_val digit_val 10 acc s = Some n -> sforall graph s = true.
Proof.
  revert acc. induction s as [|c s IH]; cbn [digits_val sforall]; intros acc H; [done|].
  destruct (digit_val c) as [d|] eqn:E; [|done]. apply digit_graph in E. rewrite E. by eapply IH.
Qed.

Lemma itoa_word n : 0 <= n -> word (itoa n).
Proof.
  intros Hn. split; [by apply itoa_ne|]. unfold itoa. destruct (Z.ltb_spec n 0); [lia|].
  eapply digits_graph. by apply dec_nonneg_val.
Qed.

Lemma parse_int64_itoa n : 0 <= n < 2 ^ 63 -> parse_int64 (itoa n) = Some n.
Proof.
  intros Hn. pose proof (itoa_ne n ltac:(lia)) as Hne.
  pose proof (smem_itoa "-" n ltac:(lia) eq_refl) as H1.
  pose proof (smem_itoa "+" n ltac:(lia) eq_refl) as H2.
  pose proof (parse_uint10_itoa 64 n ltac:(lia)) as Hp.
  unfold parse_int64. destruct (itoa n) as [|c s]; [done|]. cbn [smem] in *.
  apply orb_false_iff in H1 as [-> _], H2 as [-> _]. rewrite Hp. destruct (Z.ltb_spec n (2 ^ 63)); [done|lia].
Qed.

Lemma addr_char_graph c : addr_char c = true -> graph c = true.
Proof. destruct c as [[] [] [] [] [] [] [] []]; vm_compute; done. Qed.

Lemma AddrPort_join ep : Zone (ap_addr ep) = "" -> addr_wf (ap_addr ep) ->
  Is4In6 (ap_addr ep) = false ->
  AddrPort_String ep = join_host_port (Addr_String (ap_addr ep)) (itoa (ap_port ep)).
Proof.
  intros Hz Hwf H4. unfold AddrPort_String, join_host_port.
  pose proof (Addr_String_colon (ap_addr ep) Hwf Hz H4) as Hc. destruct (ap_addr ep) as [|v|v z]; [done|..].
  - by rewrite Hc.
  - by rewrite Hc.
Qed.

(** The texts of addresses, endpoints and prefixes the parsers accept, once
    they name no zone. *)
Definition prefix_char (c : ascii) : bool := addr_char c || Ascii.eqb c "/" || Ascii.eqb c "+" || Ascii.eqb c "-".
Lemma prefix_char_graph c : prefix_char c = true -> graph c = true.
Proof. destruct c as [[] [] [] [] [] [] [] []]; vm_compute; done. Qed.
Lemma addr_prefix_char c : addr_char c = true -> prefix_char c = true.
Proof. unfold prefix_char. by intros ->. Qed.
Lemma ParseAddr_graph s a : ParseAddr s = Some a -> Zone a = "" -> sforall graph s = true.
Proof. intros H Hz. eapply sforall_impl; [exact addr_char_graph|]. by eapply ParseAddr_chars. Qed.
Lemma parse_uint10_chars bits s n : parse_uint10 bits s = Some n -> sforall addr_char s = true.
Proof.
  unfold parse_uint10, parse_uint. destruct (s =s ""); [done|].
  destruct (digits_val _ _ _ s) as [v|] eqn:E; [|done]. intros _. revert E. generalize 0 at 1. intros acc E.
  revert acc E. induction s as [|c s IH]; cbn [digits_val sforall]; intros acc E; [done|].
  destruct (digit_val c) as [d|] eqn:Ed; [|done]. rewrite (digit_addr_char _ _ Ed). by eapply IH.
Qed.
Lemma parse_uint10_graph bits s n : parse_uint10 bits s = Some n -> sforall graph s = true.
Proof. intros H. eapply sforall_impl; [exact addr_char_graph|]. by eapply parse_uint10_chars. Qed.
Lemma atoi_chars s n : atoi s = Some n -> sforall prefix_char s = true.
Proof.
  assert (forall u v, parse_uint10 64 u = Some v -> sforall prefix_char u = true) as Hu.
  { intros u v E. eapply sforall_impl; [exact addr_prefix_char|]. by eapply parse_uint10_chars. }
  unfold atoi, parse_int64. destruct s as [|c s]; [done|].
  destruct (Ascii.eqb_spec c "-") as [->|_].
  { destruct (parse_uint10 64 s) as [v|] eqn:E; [|done]. intros _. cbn. by eapply Hu. }
  destruct (Ascii.eqb_spec c "+") as [->|_].
  { destruct (parse_uint10 64 s) as [v|] eqn:E; [|done]. intros _. cbn. by eapply Hu. }
  destruct (parse_uint10 64 (String c s)) as [v|] eqn:E; [|done]. intros _. by eapply Hu.
Qed.
Lemma ParsePrefix_chars s p : ParsePrefix s = Some p -> sforall prefix_char s = true.
Proof.
  unfold ParsePrefix. destruct (cut_last "/" s) as [[ip bits]|] eqn:Ec; [|done].
  destruct (ParseAddr ip) as [a|] eqn:Ea; [|done]. destruct (Is6 a && _) eqn:Ez; [done|].
  destruct (match bits with String _ (String _ _) => _ | _ => _ end); [done|].
  destruct (atoi bits) as [n|] eqn:En; [|done]. intros _. apply cut_last_spec in Ec as ->.
  rewrite sforall_app. cbn [sforall]. rewrite (atoi_chars _ _ En), andb_true_r.
  rewrite (sforall_impl _ _ ip addr_prefix_char (ParseAddr_chars _ _ Ea ltac:(destruct a as [|v|v z]; [done..|]; cbn in Ez |- *;
    by apply negb_false_iff, String.eqb_eq in Ez))). done.
Qed.
Lemma ParsePrefix_graph s p : ParsePrefix s = Some p -> sforall graph s = true.
Proof. intros H. eapply sforall_impl; [exact prefix_char_graph|]. by eapply ParsePrefix_chars. Qed.
Lemma ParseAddrPort_graph s ep : ParseAddrPort s = Some ep -> Zone (ap_addr ep) = "" -> sforall graph s = true.
Proof.
  unfold ParseAddrPort. destruct (split_addr_port s) as [[[ip port] v6]|] eqn:Es; [|done].
  destruct (parse_uint10 16 port) as [p|] eqn:Ep; [|done]. destruct (ParseAddr ip) as [a|] eqn:Ea; [|done].
  destruct (Bool.eqb v6 (Is6 a)); [|done]. intros [= <-] Hz. cbn [ap_addr] in Hz.
  apply parse_uint10_graph in Ep. apply (fun H => ParseAddr_graph _ _ H Hz) in Ea.
  unfold split_addr_port in Es. destruct (cut_last ":" s) as [[x y]|] eqn:Ec; [|done]. apply cut_last_spec in Ec as ->.
  destruct ((x =s "") || _); [done|]. rewrite sforall_app. cbn [sforall].
  assert (y = port /\ sforall graph x = true) as [-> ->]; [|by rewrite Ep].
  destruct x as [|c x]; [by simplify_eq|].
  destruct (Ascii.eqb_spec c "[") as [->|Hc].
  - destruct (unsnoc x) as [[x' d]|] eqn:Eu; [|done]. destruct (Ascii.eqb_spec d "]") as [->|]; [|done].
    simplify_eq. apply unsnoc_spec in Eu as ->. split; [done|]. cbn [sforall]. by rewrite sforall_app, Ea.
  - assert (Some (String c x, y, false) = Some (ip, port, v6)) as [= <- <- <-]; [|done].
    rewrite <-Es. by destruct c as [[] [] [] [] [] [] [] []].
Qed.

(** A printed endpoint is read back. *)
Lemma Endpoint_reads ep : endpoint_ok ep -> IsUnspecified (ap_addr ep) = false ->
  Endpoint (AddrPort_String ep) = Ok ep.
Proof.
  intros Hok Hu. pose proof Hok as (Hwf & Hp & Hz & H4 & _). rewrite AddrPort_join by done.
  destruct ep as [a port]. by apply Endpoint_accepts.
Qed.
