(* ===== verification/Plugin.v ===== *)
(** * The store plugin: pluginapi, internal/plugin/builtin, internal/plugin/builtin/opendht,
    internal/plugin/manager.go

    The definition check, the typed accessors, the OpenDHT client over an
    abstract HTTP transport, and the manager that owns the stores. *)

From Stdlib Require Import SpecFloat.
From S2P Require Import Prelude GoStr GoTime Codec Json JsonFacts Netip NetipFacts Validation Discovery Entity.

(** ** Plugin configuration values: Go's [interface{}] as YAML delivers it *)

Inductive any : Type :=
| ANil
| ABool (b : bool)
| AInt (z : Z)
| AFloat (f : spec_float)
| AStr (s : string)
| AStrs (l : list string)         (* []string *)
| AList (l : list any)            (* []interface{} *)
| AMap (l : list (string * any)).

Notation PluginConfig := (gmap string any).
Record PluginDefinition := mkDef { Type_ : string; PConfig : PluginConfig }.

(** ** pluginapi/types.go *)

Definition config_key_ok (name : string) (v : any) : result unit :=
  if (name =s "name") || (name =s "endpoint") || (name =s "endpoints") || (name =s "timeout") then Ok tt
  else if name =s "dedup" then
    match v with
    | ABool false => Ok tt
    | _ => Err (ENew "OpenDHT publication dedup must be disabled")
    end
  else Err (ENew "unsupported OpenDHT configuration field").
Fixpoint config_keys_ok (l : list (string * any)) : result unit :=
  match l with
  | [] => Ok tt
  | (k, v) :: l' => let? _ := config_key_ok k v in config_keys_ok l'
  end.

Definition ValidateDefinition (def : PluginDefinition) : result unit :=
  if (Type_ def <>s "builtin") ||
     negb match PConfig def !! "name" with Some (AStr s) => s =s "opendht" | _ => false end
  then Err (ENew "only built-in OpenDHT is supported")
  else config_keys_ok (map_to_list (PConfig def)).

(** ** internal/plugin/builtin/config.go *)

Definition GetString (c : PluginConfig) (key : string) : string * bool :=
  match c !! key with
  | Some (AStr s) => (s, true)
  | _ => ("", false)
  end.
Definition GetStringRequired (c : PluginConfig) (key : string) : result string :=
  let '(s, ok) := GetString c key in
  if ok then Ok s else Err (ENew "is required").
Fixpoint all_strings (l : list any) : option (list string) :=
  match l with
  | [] => Some []
  | AStr s :: l' => option_map (cons s) (all_strings l')
  | _ :: _ => None
  end.
Definition GetStringSlice (c : PluginConfig) (key : string) : result (list string) :=
  match c !! key with
  | None => Ok []
  | Some (AStrs l) => Ok l
  | Some (AList l) =>
      match all_strings l with
      | Some l' => Ok l'
      | None => Err (ENew "must be a list of strings")
      end
  | Some _ => Err (ENew "must be a list of strings")
  end.
(** The second component of the result reports presence. *)
Definition GetDuration (c : PluginConfig) (key : string) : result (Z * bool) :=
  match c !! key with
  | None => Ok (0, false)
  | Some (AStr s) =>
      match ParseDuration s with
      | Some d => Ok (d, true)
      | None => Err (ENew "is not a valid duration")
      end
  | Some (AInt v) => Ok (wrap64 (v * Second), true)
  | Some (AFloat v) => Ok (f64_trunc (f64_mul v (f64_of_Z Second)), true)
  | Some _ => Err (ENew "must be a duration or a number of seconds")
  end.

(** ** internal/plugin/builtin/opendht *)

Definition MaxResponseBytes : Z := 256 * 1024.
Definition MaxRecords : Z := 64.
Definition MaxCandidates : nat := 4.
Definition defaultTimeout : Z := 10 * Second.

(** ^[0-9a-f]{40}$ *)
Definition keyPattern (key : string) : bool :=
  (String.length key =? 40)%nat && sforall is_lower_hex key.
Definition errUnavailable : string := "OpenDHT has no usable hint".

(** [net/url]: parsing and printing are the library's; [Hostname] and [Port]
    split [Host] the way it does. *)
Record URL := mkURL {
  Scheme : string; Host : string; HasUser : bool; RawQuery : string; Fragment : string;
  RawPath : string; Path : string
}.
Class UrlLib := { url_Parse : string -> option URL; URL_String : URL -> string }.

Definition url_split (hostPort : string) : string * string :=
  let '(host, port) :=
    match cut_last ":" hostPort with
    | Some (h, p) => if sforall is_digit p then (h, p) else (hostPort, "")
    | None => (hostPort, "")
    end in
  match host with
  | String "[" h =>
      match unsnoc h with
      | Some (h', c) => if Ascii.eqb c "]" then (h', port) else (host, port)
      | None => (host, port)
      end
  | _ => (host, port)
  end.
Definition Hostname (u : URL) : string := (url_split (Host u)).1.
Definition Port (u : URL) : string := (url_split (Host u)).2.

Definition endpoint_error : error :=
  ENew "OpenDHT endpoint must be an HTTPS origin without credentials, path, query or fragment".
Definition normalizeEndpoint `{UrlLib} (endpoint : string) : result string :=
  match url_Parse endpoint with
  | None => Err endpoint_error
  | Some u =>
      if (1024 <? slen endpoint) || (Scheme u <>s "https") || (Hostname u =s "") || HasUser u
         || (RawQuery u <>s "") || (Fragment u <>s "") || (RawPath u <>s "")
         || ((Path u <>s "") && (Path u <>s "/"))
      then Err endpoint_error
      else
        if (Port u <>s "") && negb (is_ok (Server (Host u)))
        then Err (ENew "invalid OpenDHT endpoint port")
        else Ok (trim_suffix (URL_String u) "/")
  end.

(** The HTTP client: its timeout, and whether its idle connections were closed. *)
Record OpenDHTPlugin := mkDHT { endpoints : list string; client_Timeout : Z }.

Fixpoint normalize_all `{UrlLib} (acc : list string) (l : list string) : result (list string) :=
  match l with
  | [] => Ok acc
  | s :: l' =>
      let? e := normalizeEndpoint s in
      normalize_all (if bool_decide (e ∈ acc) then acc else acc ++ [e]) l'
  end.

Definition NewOpenDHTPlugin `{UrlLib} (config : PluginConfig) : result OpenDHTPlugin :=
  let? _ := ValidateDefinition (mkDef "builtin" config) in
  match GetStringSlice config "endpoints" with
  | Err _ => Err (ENew "invalid OpenDHT endpoints")
  | Ok list =>
      let single := (GetString config "endpoint").1 in
      let list := if single =s "" then list else single :: list in
      if (length list =? 0)%nat || (8 <? length list)%nat
      then Err (ENew "OpenDHT requires one to eight proxy endpoints")
      else
        let? eps := normalize_all [] list in
        match GetDuration config "timeout" with
        | Err _ => Err (ENew "invalid OpenDHT timeout")
        | Ok (timeout, ok) =>
            let timeout := if ok then timeout else defaultTimeout in
            if (timeout <? Second) || (20 * Second <? timeout)
            then Err (ENew "OpenDHT timeout must be between 1s and 20s")
            else Ok (mkDHT eps timeout)
        end
  end.

(** The transport: one call per request, numbered from 0.  [None] is a failed
    exchange; otherwise the status and the body, [None] when reading it fails.
    [ctx_alive n] is [ctx.Err() == nil] after request [n]. *)
Record HttpRequest := mkReq { rq_method : string; rq_url : string; rq_body : string }.
Class Transport := {
  client_Do : nat -> HttpRequest -> option (Z * option string);
  ctx_alive : nat -> bool
}.

Definition request `{Transport} (n : nat) (endpoint method key body : string) : result string :=
  match client_Do n (mkReq method (endpoint +:+ "/key/" +:+ key) body) with
  | None => Err (ENew errUnavailable)
  | Some (status, resp) =>
      if (status <? 200) || (300 <=? status) then Err (ENew errUnavailable)
      else match resp with
           | None => Err (ENew errUnavailable)
           | Some b => if MaxResponseBytes <? slen b then Err (ENew errUnavailable) else Ok b
           end
  end.

(** Decoding targets.  A map of raw messages takes any object, and a repeated
    key keeps its last value; a struct matches fields by folding. *)
Definition decode_outer (v : json) : option (list (string * json)) :=
  match v with
  | JObj l => Some l
  | JNull => Some []
  | _ => None
  end.
Fixpoint lookup_last (k : string) (l : list (string * json)) : option json :=
  match l with
  | [] => None
  | (k', v) :: l' =>
      match lookup_last k l' with
      | Some w => Some w
      | None => if k' =s k then Some v else None
      end
  end.

Record envelope := mkEnv { Magic : string; Data : string }.
Fixpoint decode_envelope_fields (e : envelope) (l : list (string * json)) : option envelope :=
  match l with
  | [] => Some e
  | (k, v) :: l' =>
      if field_match "magic" k then
        match decode_string v (Magic e) with
        | Some s => decode_envelope_fields (mkEnv s (Data e)) l'
        | None => None
        end
      else if field_match "data" k then
        match decode_string v (Data e) with
        | Some s => decode_envelope_fields (mkEnv (Magic e) s) l'
        | None => None
        end
      else None
  end.
Definition decode_envelope (v : json) : option envelope :=
  match v with
  | JObj l => decode_envelope_fields (mkEnv "" "") l
  | JNull => Some (mkEnv "" "")
  | _ => None
  end.

(** The byte order of [sort.Strings]. *)
Fixpoint string_lt (s t : string) : bool :=
  match s, t with
  | _, "" => false
  | "", String _ _ => true
  | String a s', String b t' =>
      if bz a <? bz b then true else if bz b <? bz a then false else string_lt s' t'
  end.
(** A set of strings kept sorted: insertion of an element already there is idle. *)
Fixpoint sorted_insert (s : string) (l : list string) : list string :=
  match l with
  | [] => [s]
  | t :: l' =>
      if s =s t then l
      else if string_lt s t then s :: l
      else t :: sorted_insert s l'
  end.

Section opendht.
Context `{UnicodeTables}.

(** One line of a response: the canonical record it carries, if any. *)
Definition candidate_of (line : string) : option string :=
  match DecodeJSON decode_outer line with
  | Err _ => None
  | Ok outer =>
      match lookup_last "data" outer with
      | Some (JStr encoded) =>
          if 4096 <? slen encoded then None
          else match b64_decode true encoded with
               | None => None
               | Some raw =>
                   match DecodeJSON decode_envelope (string_of raw) with
                   | Err _ => None
                   | Ok e =>
                       if Magic e <>s Namespace then None
                       else match Decode (Data e) with
                            | Err _ => None
                            | Ok record =>
                                match Encode record with
                                | Err _ => None
                                | Ok canonical => Some canonical
                                end
                            end
                   end
               end
      | _ => None
      end
  end.

(** The loop over the lines: [count] records so far, [found] the set; [None]
    when there are too many. *)
Fixpoint candidate_loop (count : Z) (found : list string) (lines : list string)
  : option (list string) :=
  match lines with
  | [] => Some found
  | line :: lines' =>
      if trim_space line =s "" then candidate_loop count found lines'
      else
        let count := count + 1 in
        if MaxRecords <? count then None
        else candidate_loop count
               (match candidate_of line with Some c => sorted_insert c found | None => found end)
               lines'
  end.

Definition candidates (data : string) : list string :=
  if MaxResponseBytes <? slen data then []
  else match candidate_loop 0 [] (split_on (zb 10) data) with
       | None => []
       | Some result => take MaxCandidates result
       end.

Context `{Transport}.

(** The endpoints are tried in order; [n] numbers the requests. *)
Fixpoint get_loop (n : nat) (key : string) (eps : list string) : result (list string) :=
  match eps with
  | [] => Err (ENew errUnavailable)
  | ep :: eps' =>
      let next := if ctx_alive n then get_loop (S n) key eps' else Err (ENew errUnavailable) in
      match request n ep "GET" key "" with
      | Ok data => match candidates data with [] => next | r => Ok r end
      | Err _ => next
      end
  end.
Definition Get (p : OpenDHTPlugin) (key : string) : result (list string) :=
  if keyPattern key then get_loop 0 key (endpoints p) else Err (ENew "invalid discovery key").

Definition marshal_envelope (e : envelope) : string :=
  "{" +:+ quoted "magic" +:+ ":" +:+ json_string (Magic e) +:+ "," +:+
  quoted "data" +:+ ":" +:+ json_string (Data e) +:+ "}".
Definition marshal_value (data : string) : string :=
  "{" +:+ quoted "data" +:+ ":" +:+ json_string data +:+ "}".

(** The body that is posted for a canonical record. *)
Definition set_body (canonical : string) : string :=
  marshal_value (b64_encode (bytes_of (marshal_envelope (mkEnv Namespace canonical)))).

Fixpoint set_loop (n : nat) (key body : string) (eps : list string) : result unit :=
  match eps with
  | [] => Err (ENew errUnavailable)
  | ep :: eps' =>
      match request n ep "POST" key body with
      | Ok _ => Ok tt
      | Err _ => if ctx_alive n then set_loop (S n) key body eps' else Err (ENew errUnavailable)
      end
  end.
Definition Set_ (p : OpenDHTPlugin) (key record : string) : result unit :=
  if negb (keyPattern key) then Err (ENew "invalid discovery key")
  else match Decode record with
       | Err _ => Err (ENew "invalid discovery record")
       | Ok r =>
           let canonical := match Encode r with Ok s => s | Err _ => "" end in
           set_loop 0 key (set_body canonical) (endpoints p)
       end.
End opendht.

(** ** internal/plugin/manager.go *)

Definition Manager : Type := gmap string OpenDHTPlugin.
Definition NewManager : Manager := ∅.

(** Close empties the plugin set; closing a store cannot fail.  The second
    component is the names closed, in sorted order. *)
Definition Manager_Close (m : Manager) : Manager * list string :=
  (∅, foldr sorted_insert [] (map_to_list (m : gmap string OpenDHTPlugin)).*1).

Definition createPlugin `{UrlLib} (def : PluginDefinition) : result OpenDHTPlugin :=
  let? _ := ValidateDefinition def in NewOpenDHTPlugin (PConfig def).

Fixpoint create_all `{UrlLib} (next : Manager) (l : list (string * PluginDefinition)) : result Manager :=
  match l with
  | [] => Ok next
  | (name, def) :: l' =>
      match createPlugin def with
      | Err e => Err (EWrap "store initialization failed" [e])
      | Ok store => create_all (<[name := store]> (next : gmap string OpenDHTPlugin)) l'
      end
  end.
(** The manager after the call, with the call's result. *)
Definition LoadPlugins `{UrlLib} (m : Manager) (definitions : gmap string PluginDefinition)
  : Manager * result unit :=
  if (8 <? size definitions)%nat then (m, Err (ENew "too many OpenDHT stores"))
  else match create_all NewManager (map_to_list definitions) with
       | Err e => (m, Err e)
       | Ok next => (next, Ok tt)
       end.
Definition GetPlugin (m : Manager) (name : string) : result OpenDHTPlugin :=
  match (m : gmap string OpenDHTPlugin) !! name with
  | Some s => Ok s
  | None => Err (ENew "store not configured")
  end.
