(* ===== verification/PluginFacts.v ===== *)
(** * Theorems on the store plugin *)

From S2P Require Import Prelude GoStr Codec Json JsonFacts Netip NetipFacts Validation Discovery Entity Plugin.

(** ** Sorted sets of strings *)

Lemma string_lt_irrefl s : string_lt s s = false.
Proof. induction s as [|c s IH]; [done|]. cbn. by rewrite Z.ltb_irrefl. Qed.

Lemma bz_inj a b : bz a = bz b -> a = b.
Proof. intros H. by rewrite <-(zb_bz a), <-(zb_bz b), H. Qed.

Lemma string_lt_total s t : s <> t -> string_lt s t = false -> string_lt t s = true.
Proof.
  revert t. induction s as [|a s IH]; intros [|b t] Hne H; try done. cbn in *.
  destruct (Z.ltb_spec (bz a) (bz b)); [done|]. destruct (Z.ltb_spec (bz b) (bz a)); [done|].
  apply IH; [|done]. intros ->. apply Hne. f_equal. apply bz_inj. lia.
Qed.

Lemma string_lt_trans s t u : string_lt s t = true -> string_lt t u = true -> string_lt s u = true.
Proof.
  revert t u. induction s as [|a s IH]; intros [|b t] [|c u]; cbn; try done.
  destruct (Z.ltb_spec (bz a) (bz b)), (Z.ltb_spec (bz b) (bz c)), (Z.ltb_spec (bz b) (bz a)),
    (Z.ltb_spec (bz c) (bz b)), (Z.ltb_spec (bz a) (bz c)), (Z.ltb_spec (bz c) (bz a));
    try done; try lia. apply IH.
Qed.

Inductive sorted_strings : list string -> Prop :=
| sorted_nil : sorted_strings []
| sorted_cons s l : Forall (fun t => string_lt s t = true) l -> sorted_strings l -> sorted_strings (s :: l).

Lemma sorted_insert_In s t l : In t (sorted_insert s l) <-> t = s \/ In t l.
Proof.
  induction l as [|u l IH]; cbn; [naive_solver|].
  destruct (String.eqb_spec s u); [subst; cbn; naive_solver|].
  destruct (string_lt s u); cbn; [naive_solver|]. rewrite IH. naive_solver.
Qed.

Lemma sorted_insert_sorted s l : sorted_strings l -> sorted_strings (sorted_insert s l).
Proof.
  induction 1 as [|u l Hu Hl IH]; cbn; [repeat constructor|].
  destruct (String.eqb_spec s u); [by constructor|].
  destruct (string_lt s u) eqn:E; constructor; try done.
  - constructor; [done|]. eapply Forall_impl; [|exact Hu]. intros t. by apply string_lt_trans.
  - by constructor.
  - apply Forall_forall. intros t [->|Ht]%sorted_insert_In; [by apply string_lt_total|].
    rewrite Forall_forall in Hu. by apply Hu.
Qed.

Lemma sorted_strings_take n l : sorted_strings l -> sorted_strings (take n l).
Proof.
  intros H. revert n. induction H as [|u l Hu Hl IH]; intros [|n]; cbn; try constructor; try done.
  by apply Forall_take.
Qed.

(** ** What a store returns *)

Section candidates.
Context `{UnicodeTables}.

(** A canonical record: the encoding of a valid one, which decodes to it. *)
Definition canonical_record (c : string) : Prop := exists r, Encode r = Ok c.

Lemma candidate_of_canonical line c : candidate_of line = Some c -> canonical_record c.
Proof.
  unfold candidate_of. intros H0.
  destruct (DecodeJSON decode_outer line) as [outer|]; [|done].
  destruct (lookup_last "data" outer) as [[| | |encoded| |]|]; try done.
  destruct (4096 <? slen encoded); [done|]. destruct (b64_decode true encoded) as [raw|]; [|done].
  destruct (DecodeJSON decode_envelope (string_of raw)) as [e|]; [|done].
  destruct (Magic e <>s Namespace); [done|]. destruct (Decode (Data e)) as [r|]; [|done].
  destruct (Encode r) as [s|] eqn:E; [|done]. simplify_eq. by exists r.
Qed.

Lemma candidate_loop_ok lines count found result :
  sorted_strings found -> Forall canonical_record found ->
  candidate_loop count found lines = Some result ->
  sorted_strings result /\ Forall canonical_record result.
Proof.
  revert count found. induction lines as [|line lines IH]; intros count found Hs Hf Hr; cbn in Hr; [by simplify_eq|].
  destruct (trim_space line =s ""); [by eapply IH|]. destruct (MaxRecords <? count + 1); [done|].
  eapply IH; [| |exact Hr]; destruct (candidate_of line) as [c|] eqn:E; try done.
  - by apply sorted_insert_sorted.
  - apply candidate_of_canonical in E. apply Forall_forall. intros t [->|Ht]%sorted_insert_In; [done|].
    rewrite Forall_forall in Hf. by apply Hf.
Qed.

Lemma candidates_ok data :
  (length (candidates data) <= 4)%nat /\ sorted_strings (candidates data) /\
  Forall canonical_record (candidates data).
Proof.
  unfold candidates. destruct (MaxResponseBytes <? slen data); [repeat constructor; cbn; lia|].
  destruct (candidate_loop 0 [] (split_on (zb 10) data)) as [l|] eqn:E; [|repeat constructor; cbn; lia].
  apply candidate_loop_ok in E as [Hs Hf]; [|constructor|constructor].
  rewrite length_take. unfold MaxCandidates. split_and!; [lia|by apply sorted_strings_take|].
  by apply Forall_take.
Qed.

Context `{Transport}.

Lemma get_loop_ok n key eps l :
  get_loop n key eps = Ok l ->
  l <> [] /\ exists k ep data, In ep eps /\ request k ep "GET" key "" = Ok data /\ l = candidates data.
Proof.
  revert n. induction eps as [|ep eps IH]; intros n Hg; cbn in Hg; [done|].
  assert ((if ctx_alive n then get_loop (S n) key eps else Err (ENew errUnavailable)) = Ok l ->
    l <> [] /\ exists k e data, In e (ep :: eps) /\ request k e "GET" key "" = Ok data /\
      l = candidates data) as Hnext.
  { destruct (ctx_alive n); [|done]. intros Hn. apply IH in Hn as (? & k & e & data & ? & ? & ?).
    split; [done|]. exists k, e, data. split_and!; [by right|done|done]. }
  destruct (request n ep "GET" key "") as [data|] eqn:Er; [|by apply Hnext].
  destruct (candidates data) as [|c cs] eqn:Ec; [by apply Hnext|]. simplify_eq.
  split; [done|]. exists n, ep, data. split_and!; [by left|done|done].
Qed.

(** Whatever the proxies answer, a lookup that succeeds returns between one and
    four records in increasing order without repetition, each the canonical
    encoding of a valid record, so each decodes again on the spot. *)
Theorem Get_sound p key l :
  Get p key = Ok l ->
  (1 <= length l <= 4)%nat /\ sorted_strings l /\
  Forall (fun c => exists r, Encode r = Ok c) l.
Proof.
  unfold Get. destruct (keyPattern key); [|done]. intros Hg.
  apply get_loop_ok in Hg as (Hne & k & ep & data & _ & _ & ->).
  destruct (candidates_ok data) as (? & ? & ?). split_and!; try done.
  destruct (candidates data); [done|]. cbn. lia.
Qed.
End candidates.

(** ** A published record is found again *)

Lemma string_of_bytes_of s : string_of (bytes_of s) = s.
Proof.
  unfold string_of, bytes_of. rewrite map_map.
  induction s as [|c s IH]; [done|]. cbn. by rewrite zb_bz, IH.
Qed.

Lemma b64_char_safe v : 0 <= v < 64 -> json_safe (b64_char v) = true.
Proof. revert v. apply (range_check _ 64). by vm_compute. Qed.

Lemma b64_encode_safe l : bytes_ok l -> sforall json_safe (b64_encode l) = true.
Proof.
  induction l as [|a|a b|a b c l IH] using list_ind3; intros Hl; [done|..];
    repeat match goal with
           | Hf : bytes_ok (_ :: _) |- _ => inversion_clear Hf
           | Hf : Forall is_byte (_ :: _) |- _ => inversion_clear Hf
           end; unfold is_byte in *; cbn [b64_encode sforall];
    rewrite !b64_char_safe by div_mod_lia; [done..|]. by rewrite IH.
Qed.

Lemma b64_encode_length l : (String.length (b64_encode l) <= 4 * (length l / 3) + 4)%nat.
Proof.
  induction l as [|a|a b|a b c l IH] using list_ind3; cbn [b64_encode String.length length]; try (cbn; lia).
  replace (S (S (S (length l)))) with (length l + 1 * 3)%nat by lia. rewrite Nat.div_add by lia. lia.
Qed.

Lemma split_on_single c s : smem c s = false -> split_on c s = [s].
Proof.
  induction s as [|a s IH]; [done|]. cbn. intros [-> Hs]%orb_false_iff. by rewrite IH.
Qed.

Lemma smem_sforall P c s : P c = false -> sforall P s = true -> smem c s = false.
Proof.
  intros Hc. induction s as [|a s IH]; [done|]. cbn. intros [Ha Hs]%andb_true_iff.
  rewrite IH by done. destruct (Ascii.eqb_spec a c); [congruence|done].
Qed.

(** Text that starts with a printable ASCII byte is not blank. *)
Lemma trim_space_head c s : 32 < bz c < 128 -> trim_space (String c s) <> "".
Proof.
  intros Hc. unfold trim_space. cbn [runes].
  rewrite (proj2 (Z.ltb_lt (bz c) 128)) by lia. cbn [drop_spaces fst].
  assert (is_space (bz c) = false) as Hsp.
  { unfold is_space. repeat (apply orb_false_iff; split); try (apply Z.eqb_neq; lia);
      apply andb_false_iff; (left; apply Z.leb_gt; lia) || (right; apply Z.leb_gt; lia). }
  rewrite Hsp. cbn [rev].
  assert (forall l, drop_spaces (l ++ [(bz c, String c "")]) = drop_spaces l ++ [(bz c, String c "")]) as Hd.
  { induction l as [|r l IH]; cbn; [by rewrite Hsp|]. destruct (is_space r.1); [done|done]. }
  rewrite Hd, rev_app_distr. done.
Qed.

Lemma quoted_quotable s : sforall quotable s = true -> sforall quotable (quoted s) = true.
Proof. intros Hs. unfold quoted. cbn. rewrite sforall_app, Hs. done. Qed.

Lemma safe_quotable s : sforall json_safe s = true -> sforall quotable s = true.
Proof. apply sforall_impl. intros c Hc. unfold quotable. by rewrite Hc. Qed.

Lemma marshal_record_quotable s4 s6 :
  sforall json_safe s4 = true -> sforall json_safe s6 = true ->
  sforall quotable (marshal_record (mkRecord 2 s4 s6)) = true.
Proof.
  intros H4 H6. unfold marshal_record, marshal_field. cbn [Version rIPv4 rIPv6].
  rewrite !json_string_safe by done.
  assert (sforall quotable (quoted s4) = true /\ sforall quotable (quoted s6) = true) as [Q4 Q6]
    by (split; by apply quoted_quotable, safe_quotable).
  destruct (s4 =s ""), (s6 =s ""); rewrite ?sforall_app, ?Q4, ?Q6; by vm_compute.
Qed.

Lemma slength_esc s : (String.length (esc s) <= 2 * String.length s)%nat.
Proof. induction s as [|c s IH]; cbn; [lia|]. destruct (bz c =? 34); cbn; lia. Qed.

Section publish.
Context `{UnicodeTables}.

Lemma check_flat l :
  NoDup (map (fun m => to_lower m.1) l) -> Forall (fun m => exists s, m.2 = JStr s) l ->
  check 0 (JObj l) = Ok tt.
Proof.
  intros Hnd Hl. rewrite check_obj. apply members_ok. split_and!; [|done|].
  - intros k x Hx. rewrite Forall_forall in Hl. destruct (Hl _ Hx) as [s Es]. cbn in Es. by subst.
  - intros m _. apply not_elem_of_nil.
Qed.

(** The envelope of a canonical record: its text, and its length. *)
Lemma parse_marshal_envelope c :
  sforall quotable c = true ->
  parse_json (marshal_envelope (mkEnv Namespace c)) =
  Some (JObj [("magic", JStr Namespace); ("data", JStr c)]).
Proof.
  intros Hq. unfold marshal_envelope. cbn [Magic Data].
  by apply (parse_object2 "magic" Namespace "data" c).
Qed.

Lemma slength_marshal_envelope c :
  sforall quotable c = true -> (String.length c <= 1024)%nat ->
  (1 <= String.length (marshal_envelope (mkEnv Namespace c)) <= 2100)%nat.
Proof.
  intros Hq Hlen. unfold marshal_envelope. cbn [Magic Data].
  rewrite (json_string_quotable c) by done.
  rewrite (json_string_safe Namespace) by done. pose proof (slength_esc c) as He.
  revert He. generalize (esc c) as ec. intros ec He.
  unfold quoted. repeat (rewrite ?slength_app; cbn [String.length]). cbn. lia.
Qed.

Lemma length_bytes_of s : length (bytes_of s) = String.length s.
Proof. unfold bytes_of. rewrite length_map. induction s as [|? ? IH]; [done|]. cbn. by rewrite IH. Qed.

(** The encoded envelope: safe text of bounded length that decodes to it. *)
Lemma encoded_envelope env :
  (String.length env <= 2100)%nat ->
  let enc := b64_encode (bytes_of env) in
  sforall json_safe enc = true /\ (String.length enc <= 2804)%nat /\
  b64_decode true enc = Some (bytes_of env).
Proof.
  intros Henv. cbn zeta. pose proof (bytes_of_ok env) as Hb. split_and!.
  - by apply b64_encode_safe.
  - pose proof (b64_encode_length (bytes_of env)) as Hl. rewrite length_bytes_of in Hl.
    assert (String.length env / 3 <= 700)%nat by (apply Nat.Div0.div_le_upper_bound; lia). lia.
  - by apply b64_roundtrip.
Qed.

Lemma DecodeJSON_flat {A} (decode : json -> option A) raw l a :
  0 < slen raw <= MaxConfigBytes -> parse_json raw = Some (JObj l) ->
  NoDup (map (fun m => to_lower m.1) l) -> Forall (fun m => exists s, m.2 = JStr s) l ->
  decode (JObj l) = Some a -> DecodeJSON decode raw = Ok a.
Proof.
  intros Hs Hp Hnd Hl Hd. unfold DecodeJSON.
  rewrite (proj2 (Z.eqb_neq _ 0)), (proj2 (Z.ltb_ge MaxConfigBytes _)) by lia. cbn [orb].
  by rewrite Hp, check_flat, Hd.
Qed.

Lemma slength_marshal_value enc :
  sforall json_safe enc = true -> slen (marshal_value enc) = 11 + slen enc.
Proof.
  intros Hs. unfold marshal_value. rewrite json_string_safe by done. clear Hs.
  unfold slen, quoted. repeat (rewrite ?slength_app; cbn [String.length]). cbn. lia.
Qed.

Lemma candidate_of_set_body c :
  sforall quotable c = true -> (String.length c <= 1024)%nat ->
  (exists r, Decode c = Ok r /\ Encode r = Ok c) ->
  candidate_of (set_body c) = Some c.
Proof.
  intros Hq Hlen (r & Hd & He). unfold candidate_of, set_body.
  pose proof (slength_marshal_envelope c Hq Hlen) as Hel.
  pose proof (parse_marshal_envelope c Hq) as Hp.
  revert Hel Hp. generalize (marshal_envelope (mkEnv Namespace c)) as env. intros env Hel Hp.
  destruct (encoded_envelope env) as (Hs & Hl & Hdec); [lia|]. cbn zeta in *.
  revert Hs Hl Hdec. generalize (b64_encode (bytes_of env)) as enc. intros enc Hs Hl Hdec.
  rewrite (DecodeJSON_flat decode_outer _ [("data", JStr enc)] [("data", JStr enc)]).
  - cbn [lookup_last]. change ("data" =s "data") with true. cbn iota.
    rewrite (proj2 (Z.ltb_ge 4096 _)) by (unfold slen; lia). rewrite Hdec, string_of_bytes_of.
    rewrite (DecodeJSON_flat decode_envelope env _ (mkEnv Namespace c)
               ltac:(unfold slen, MaxConfigBytes; lia) Hp).
    + cbn [Magic Data]. change (Namespace <>s Namespace) with false. cbn iota. by rewrite Hd, He.
    + cbn. apply list.NoDup_cons. split; [|repeat constructor; apply not_elem_of_nil].
      intros Hin. apply list_elem_of_singleton in Hin. done.
    + repeat constructor; by eexists.
    + reflexivity.
  - rewrite slength_marshal_value by done. unfold slen, MaxConfigBytes. lia.
  - unfold marshal_value. apply parse_object1; [done|by apply safe_quotable].
  - repeat constructor. apply not_elem_of_nil.
  - repeat constructor. by eexists.
  - done.
Qed.

Lemma Encode_canonical r s : Encode r = Ok s ->
  s = marshal_record (mkRecord 2 (rIPv4 r) (rIPv6 r)) /\
  sforall quotable s = true /\ (String.length s <= 1024)%nat /\
  exists r', Decode s = Ok r' /\ Encode r' = Ok s.
Proof.
  intros He. pose proof He as He'. unfold Encode in He'.
  destruct (validate _) as [[]|] eqn:Ev; [|done]. injection He' as <-.
  pose proof (proj1 (validate_ok _) Ev) as (_ & _ & H4 & H6). cbn [rIPv4 rIPv6] in *.
  apply validate_family_chars in H4 as [H4 L4]. apply validate_family_chars in H6 as [H6 L6].
  pose proof (slen_marshal _ _ H4 H6) as Hlen. split_and!.
  - done.
  - by apply marshal_record_quotable.
  - unfold slen in *. lia.
  - exists (mkRecord 2 (rIPv4 r) (rIPv6 r)). split; [by apply Encode_decodes|].
    unfold Encode. cbn [rIPv4 rIPv6]. by rewrite Ev.
Qed.

Lemma b64_no_newline s : sforall quotable s = true -> smem (zb 10) s = false.
Proof. by apply smem_sforall. Qed.

(** The posted body is one line of bounded length that opens an object. *)
Lemma set_body_shape c :
  sforall quotable c = true -> (String.length c <= 1024)%nat ->
  smem (zb 10) (set_body c) = false /\ slen (set_body c) <= 4000 /\
  exists x, set_body c = String "{" x.
Proof.
  intros Hq Hlen. unfold set_body. pose proof (slength_marshal_envelope c Hq Hlen) as Hel.
  destruct (encoded_envelope (marshal_envelope (mkEnv Namespace c))) as (Hs & Hl & _); [lia|].
  cbn zeta in *. revert Hs Hl. generalize (b64_encode (bytes_of (marshal_envelope (mkEnv Namespace c)))) as enc.
  intros enc Hs Hl. split_and!.
  - unfold marshal_value. rewrite json_string_safe, !smem_app by done.
    assert (smem (zb 10) (quoted enc) = false) as ->.
    { apply b64_no_newline, quoted_quotable, safe_quotable, Hs. }
    reflexivity.
  - rewrite slength_marshal_value by done. unfold slen. lia.
  - by eexists.
Qed.

(** Publication meets lookup: when a proxy answers a lookup with the very body
    that publishing a record posted, the lookup's candidate is that record. *)
Theorem publish_then_candidates r s :
  Encode r = Ok s -> candidates (set_body s) = [s].
Proof.
  intros He. apply Encode_canonical in He as (_ & Hq & Hlen & Hr).
  pose proof (candidate_of_set_body s Hq Hlen Hr) as Hc.
  pose proof (set_body_shape s Hq Hlen) as (Hn & Hl & (x & Hx)).
  unfold candidates. rewrite (proj2 (Z.ltb_ge _ _)) by (unfold MaxResponseBytes; lia).
  rewrite split_on_single by done. cbn [candidate_loop].
  destruct (trim_space (set_body s) =s "") eqn:Et.
  { apply String.eqb_eq in Et. rewrite Hx in Et. by apply trim_space_head in Et. }
  change (MaxRecords <? 0 + 1) with false. cbn iota. rewrite Hc. done.
Qed.

End publish.

Lemma publish_then_candidates_witness :
  @candidates {| lower_rune := fun r => r |}
    (set_body (marshal_record (mkRecord 2 "203.0.113.7:51820" ""))) =
  [marshal_record (mkRecord 2 "203.0.113.7:51820" "")].
Proof.
  apply (@publish_then_candidates {| lower_rune := fun r => r |} (mkRecord 0 "203.0.113.7:51820" "")).
  vm_compute. reflexivity.
Defined.

(** A proxy that answers every request with one published record. *)
Definition sample_body : string := set_body (marshal_record (mkRecord 2 "203.0.113.7:51820" "")).
Definition sample_transport : Transport :=
  {| client_Do := fun _ _ => Some (200, Some sample_body); ctx_alive := fun _ => true |}.
Definition sample_key : string := "b3384f16283d28558bf8d231cdd8a22fbb4bb982".

Lemma Get_sound_witness :
  let l := [marshal_record (mkRecord 2 "203.0.113.7:51820" "")] in
  (1 <= length l <= 4)%nat /\ sorted_strings l /\ Forall (fun c => exists r, Encode r = Ok c) l.
Proof.
  apply (@Get_sound {| lower_rune := fun r => r |} sample_transport
           (mkDHT ["https://dht.example"] (10 * Second)) sample_key).
  vm_compute. reflexivity.
Defined.

(** ** Store keys *)

Lemma hex_digit_lower d : 0 <= d < 16 -> is_lower_hex (hex_digit d) = true.
Proof. revert d. apply (range_check _ 16). by vm_compute. Qed.

Lemma hex_encode_shape l : bytes_ok l ->
  String.length (hex_encode l) = (2 * length l)%nat /\ sforall is_lower_hex (hex_encode l) = true.
Proof.
  induction l as [|b l IH]; intros Hl; [done|]. apply Forall_cons_iff in Hl as [Hb Hl].
  destruct (IH Hl) as [IH1 IH2]. unfold is_byte in Hb. cbn [hex_encode String.length sforall length].
  rewrite IH2, !hex_digit_lower by div_mod_lia. split; [lia|done].
Qed.

Lemma sha1_sum_shape m : length (sha1_sum m) = 20%nat /\ bytes_ok (sha1_sum m).
Proof.
  unfold sha1_sum. destruct (sha1_blocks _ _ _) as [[[[a b] c] d] e]. split; [done|].
  repeat (apply bytes_ok_app; [apply put_be32_bytes|]). apply put_be32_bytes.
Qed.

(** The keys the program derives are the ones the store accepts: forty lower-case
    hexadecimal digits, for both directions of every link, so neither a
    publication nor a lookup is ever refused for its key. *)
Theorem keys_accepted id :
  keyPattern (EndpointKey id) = true /\ keyPattern (RemoteEndpointKey id) = true.
Proof.
  assert (forall m, keyPattern (hex_encode (sha1_sum m)) = true) as Hk.
  { intros m. destruct (sha1_sum_shape m) as [Hl Hb]. unfold keyPattern.
    destruct (hex_encode_shape _ Hb) as [-> ->]. by rewrite Hl. }
  split; apply Hk.
Qed.

(** ** Stores and their manager *)

Section manager.
Context `{UrlLib}.

(** A store as the constructor leaves it. *)
Definition store_ok (p : OpenDHTPlugin) : Prop :=
  (1 <= length (endpoints p) <= 8)%nat /\ NoDup (endpoints p) /\
  Second <= client_Timeout p <= 20 * Second.

Lemma normalize_all_ok acc l r :
  NoDup acc -> normalize_all acc l = Ok r ->
  NoDup r /\ (length acc <= length r <= length acc + length l)%nat /\ (l <> [] -> r <> []).
Proof.
  revert acc. induction l as [|s l IH]; intros acc Hacc Hr; cbn in Hr.
  { simplify_eq. split_and!; [done|lia|cbn; lia|done]. }
  destruct (normalizeEndpoint s) as [e|]; [|done].
  destruct (bool_decide_reflect (e ∈ acc)) as [Hin|Hin].
  - apply IH in Hr as (Hnd & Hlen & _); [|done]. split_and!; [done|lia|cbn; lia|].
    intros _ ->. destruct acc; [by apply not_elem_of_nil in Hin|cbn in Hlen; lia].
  - apply IH in Hr as (Hnd & Hlen & _).
    + rewrite length_app in Hlen. cbn in Hlen. split_and!; [done|lia|cbn; lia|]. intros _ ->. cbn in Hlen. lia.
    + apply list.NoDup_app. split_and!; [done| |apply list.NoDup_singleton].
      intros x Hx ->%list_elem_of_singleton. done.
Qed.

Lemma NewOpenDHTPlugin_ok config p : NewOpenDHTPlugin config = Ok p -> store_ok p.
Proof.
  unfold NewOpenDHTPlugin. destruct (ValidateDefinition _); [|done].
  destruct (GetStringSlice config "endpoints") as [l|]; [|done]. cbn zeta.
  generalize (if (GetString config "endpoint").1 =s "" then l else (GetString config "endpoint").1 :: l).
  intros k Hk. destruct (Nat.eqb_spec (length k) 0), (Nat.ltb_spec 8 (length k)); try done. cbn [orb] in Hk.
  destruct (normalize_all [] k) as [eps|] eqn:E; [|done].
  destruct (GetDuration config "timeout") as [[t ok]|]; [|done].
  destruct (Z.ltb_spec (if ok then t else defaultTimeout) Second),
    (Z.ltb_spec (20 * Second) (if ok then t else defaultTimeout)); try done.
  cbn [orb] in Hk. simplify_eq. apply normalize_all_ok in E as (Hnd & Hlen & Hne); [|constructor].
  unfold store_ok. cbn. cbn in Hlen. split_and!; try done; try lia.
  destruct eps; [|cbn; lia]. destruct k; [done|]. by destruct Hne.
Qed.

Lemma create_all_ok next l r :
  map_Forall (fun _ => store_ok) (next : gmap string OpenDHTPlugin) ->
  create_all next l = Ok r ->
  map_Forall (fun _ => store_ok) (r : gmap string OpenDHTPlugin) /\
  dom (r : gmap string OpenDHTPlugin) = dom (next : gmap string OpenDHTPlugin) ∪ list_to_set l.*1.
Proof.
  revert next. induction l as [|[name def] l IH]; intros next Hn Hr; cbn in Hr.
  { simplify_eq. split; [done|]. set_solver. }
  destruct (createPlugin def) as [store|] eqn:E; [|done]. apply IH in Hr as [Hok Hdom].
  - split; [done|]. rewrite Hdom, dom_insert_L. set_solver.
  - apply map_Forall_insert_2; [|done]. unfold createPlugin in E.
    destruct (ValidateDefinition def); [|done]. by eapply NewOpenDHTPlugin_ok.
Qed.

(** Loading the stores is all or nothing: a failure leaves the manager's stores as
    they were, and a success installs exactly the configured names, each a
    store with one to eight distinct endpoints and a timeout of 1 to 20
    seconds. *)
Theorem LoadPlugins_atomic m defs m' r :
  LoadPlugins m defs = (m', r) ->
  match r with
  | Err _ => m' = m
  | Ok _ => (size defs <= 8)%nat /\ dom (m' : gmap string OpenDHTPlugin) = dom defs /\
            map_Forall (fun _ => store_ok) (m' : gmap string OpenDHTPlugin)
  end.
Proof.
  unfold LoadPlugins. destruct (Nat.ltb_spec 8 (size defs)); [by intros; simplify_eq|].
  destruct (create_all NewManager (map_to_list defs)) as [next|] eqn:E; [|by intros; simplify_eq].
  intros [= <- <-]. apply create_all_ok in E as [Hok Hdom]; [|apply map_Forall_empty].
  split_and!; [done| |done]. rewrite Hdom.
  change (dom (NewManager : gmap string OpenDHTPlugin)) with (dom (∅ : gmap string OpenDHTPlugin)).
  rewrite dom_empty_L, left_id_L by apply _. unfold_leibniz. by rewrite dom_alt.
Qed.
End manager.

(** A URL library that knows one origin. *)
Definition sample_urls : UrlLib :=
  {| url_Parse := fun s => if s =s "https://d" then Some (mkURL "https" "d" false "" "" "" "") else None;
     URL_String := fun u => Scheme u +:+ "://" +:+ Host u +:+ Path u |}.
Definition sample_def : PluginDefinition :=
  mkDef "builtin" {[ "name" := AStr "opendht"; "endpoint" := AStr "https://d"; "timeout" := AStr "20s" ]}.

Lemma LoadPlugins_atomic_witness :
  let m' : gmap string OpenDHTPlugin := {[ "s" := mkDHT ["https://d"] (20 * Second) ]} in
  let defs : gmap string PluginDefinition := {[ "s" := sample_def ]} in
  (size defs <= 8)%nat /\ dom m' = dom defs /\ map_Forall (fun _ => store_ok) m'.
Proof.
  apply (@LoadPlugins_atomic sample_urls ∅ {[ "s" := sample_def ]}
           {[ "s" := mkDHT ["https://d"] (20 * Second) ]} (Ok tt)).
  vm_compute. reflexivity.
Defined.
