(* ===== verification/JsonDecode.v ===== *)
(** * JSON documents of structs: decoding into them and printing them

    encoding/json, for the structs of the mobile library and of provisioning:
    a struct is decoded field by field, and printed as the tree of its members.
    What is printed is read back. *)

From Stdlib Require Import SpecFloat.
From S2P Require Import Prelude GoStr Codec GoTime Json JsonFacts Discovery Plugin.

(** ** Decoding: [json.Decoder.Decode] into a struct, unknown fields refused

    A field takes its old value along, as the decoder writes in place; an array
    starts afresh. *)

Section fields.
Context {A : Type}.
Variable field : A -> string * json -> option A.
Fixpoint decode_members (a : A) (l : list (string * json)) : option A :=
  match l with
  | [] => Some a
  | m :: l' => match field a m with Some a' => decode_members a' l' | None => None end
  end.
Definition decode_struct (v : json) (old : A) : option A :=
  match v with
  | JObj l => decode_members old l
  | JNull => Some old
  | _ => None
  end.
End fields.
Fixpoint decode_all {A} (dec : json -> option A) (l : list json) : option (list A) :=
  match l with
  | [] => Some []
  | v :: l' => match dec v, decode_all dec l' with Some a, Some r => Some (a :: r) | _, _ => None end
  end.
Definition decode_slice {A} (dec : json -> option A) (v : json) : option (list A) :=
  match v with
  | JArr l => decode_all dec l
  | JNull => Some []
  | _ => None
  end.
Definition decode_strings (v : json) : option (list string) := decode_slice (fun x => decode_string x "") v.

(** A value of type [any]: numbers are float64. *)
Fixpoint decode_any (v : json) : option any :=
  match v with
  | JNull => Some ANil
  | JBool b => Some (ABool b)
  | JNum l => option_map AFloat (ParseFloat l)
  | JStr s => Some (AStr s)
  | JArr l =>
      option_map AList
        ((fix elements (l : list json) : option (list any) :=
            match l with
            | [] => Some []
            | x :: l' => match decode_any x, elements l' with Some a, Some r => Some (a :: r) | _, _ => None end
            end) l)
  | JObj l =>
      option_map AMap
        ((fix members (l : list (string * json)) : option (list (string * any)) :=
            match l with
            | [] => Some []
            | (k, x) :: l' => match decode_any x, members l' with Some a, Some r => Some ((k, a) :: r) | _, _ => None end
            end) l)
  end.
Definition decode_any_map (v : json) (old : gmap string any) : option (gmap string any) :=
  match v with
  | JObj l => fold_left (fun acc m => match acc, decode_any m.2 with
                                      | Some acc, Some a => Some (<[m.1 := a]> acc)
                                      | _, _ => None
                                      end) l (Some old)
  | JNull => Some ∅
  | _ => None
  end.

(** ** Printing: [json.Marshal] on a tree *)

Fixpoint marshal (v : json) : string :=
  match v with
  | JNull => "null"
  | JBool b => if b then "true" else "false"
  | JNum l => l
  | JStr s => json_string s
  | JArr l =>
      "[" +:+ join "," ((fix elements (l : list json) : list string :=
                           match l with [] => [] | x :: l' => marshal x :: elements l' end) l) +:+ "]"
  | JObj l =>
      "{" +:+ join "," ((fix members (l : list (string * json)) : list string :=
                           match l with [] => [] | (k, x) :: l' => (json_string k +:+ ":" +:+ marshal x) :: members l' end) l) +:+ "}"
  end.
Definition marshal_member (m : string * json) : string := json_string m.1 +:+ ":" +:+ marshal m.2.
Lemma marshal_arr l : marshal (JArr l) = "[" +:+ join "," (map marshal l) +:+ "]".
Proof. reflexivity. Qed.
Lemma marshal_obj l : marshal (JObj l) = "{" +:+ join "," (map marshal_member l) +:+ "}".
Proof. cbn [marshal]. do 3 f_equal. induction l as [|[k x] l IH]; [done|]. cbn [map]. by rewrite <-IH. Qed.

(** ** Reading back what was printed

    Trees of strings of printable characters, arrays and objects. *)
Inductive printable : json -> Prop :=
| pr_str s : sforall quotable s = true -> printable (JStr s)
| pr_arr l : Forall printable l -> printable (JArr l)
| pr_obj l : Forall (fun m => sforall quotable m.1 = true /\ printable m.2) l -> printable (JObj l).

Fixpoint depth_of (v : json) : nat :=
  match v with
  | JArr l => S ((fix sum (l : list json) : nat := match l with [] => 0 | x :: l' => S (depth_of x) + sum l' end) l)
  | JObj l => S ((fix sum (l : list (string * json)) : nat :=
                    match l with [] => 0 | (_, x) :: l' => S (depth_of x) + sum l' end) l)
  | _ => 1
  end%nat.
Definition depths (l : list json) : nat := fold_right (fun x n => S (depth_of x) + n)%nat 0%nat l.
Lemma depth_arr l : depth_of (JArr l) = S (depths l).
Proof. reflexivity. Qed.
Lemma depth_obj l : depth_of (JObj l) = S (depths (map snd l)).
Proof. cbn [depth_of]. f_equal. induction l as [|[k x] l IH]; [done|]. cbn [map depths fold_right]. by rewrite IH. Qed.

Lemma skip_ws_printed v r : printable v -> exists c t, marshal v = String c t /\ is_ws c = false /\
  Ascii.eqb c "]" = false /\ skip_ws (marshal v +:+ r) = marshal v +:+ r.
Proof.
  destruct 1 as [s Hs|l _|l _].
  - exists dquote, (esc s +:+ String dquote ""). cbn [marshal]. rewrite json_string_quotable by done. done.
  - rewrite marshal_arr. by eexists _, _.
  - rewrite marshal_obj. by eexists _, _.
Qed.
Lemma join_cons_sep sep x y l : join sep (x :: y :: l) = x +:+ sep +:+ join sep (y :: l).
Proof. reflexivity. Qed.

Lemma skip_comma t : skip_ws ("," +:+ t) = String "," t.
Proof. reflexivity. Qed.

(** The elements of an array, given that each value reads back. *)
Lemma parse_elements_printed l : l <> [] ->
  Forall (fun x => printable x /\ forall f r, (depth_of x <= f)%nat -> parse_value f (marshal x +:+ r) = Some (x, r)) l ->
  forall f r acc, (depths l <= f)%nat ->
  parse_elements f (join "," (map marshal l) +:+ String "]" r) acc = Some (JArr (acc ++ l), r).
Proof.
  intros Hne. induction l as [|x l IH]; [done|]. intros [[Hp Hx] Hl]%Forall_cons_iff f r acc Hf.
  cbn [depths fold_right] in Hf. fold (depths l) in Hf. destruct f as [|f]; [lia|].
  destruct l as [|y l].
  - cbn [map join parse_elements]. rewrite Hx by lia. done.
  - cbn [map]. rewrite join_cons_sep. change (marshal y :: map marshal l) with (map marshal (y :: l)).
    rewrite !sapp_assoc. cbn [parse_elements]. rewrite Hx by lia.
    rewrite skip_comma.
    rewrite IH; [|done|done|lia]. by rewrite <-app_assoc.
Qed.
Lemma parse_members_printed l : l <> [] ->
  Forall (fun m => sforall quotable m.1 = true /\
            forall f r, (depth_of m.2 <= f)%nat -> parse_value f (marshal m.2 +:+ r) = Some (m.2, r)) l ->
  forall f r acc, (depths (map snd l) <= f)%nat ->
  parse_members f (join "," (map marshal_member l) +:+ String "}" r) acc = Some (JObj (acc ++ l), r).
Proof.
  intros Hne. induction l as [|[k x] l IH]; [done|]. intros [[Hk Hx] Hl]%Forall_cons_iff f r acc Hf.
  cbn [map depths fold_right fst snd] in *. fold (depths (map snd l)) in Hf. destruct f as [|f]; [lia|].
  assert (forall t, parse_members (S f) (marshal_member (k, x) +:+ t) acc =
                    match skip_ws t with
                    | String "," r4 => parse_members f r4 (acc ++ [(k, x)])
                    | String "}" r4 => Some (JObj (acc ++ [(k, x)]), r4)
                    | _ => None
                    end) as Hstep.
  { intros t. unfold marshal_member. cbn [fst snd]. rewrite json_string_quotable by done. unfold quoted.
    rewrite !sapp_assoc. cbn [String.append parse_members]. rewrite !sapp_assoc.
    change (skip_ws (String dquote ?y)) with (String dquote y). change (negb (bz dquote =? 34)) with false. cbn iota.
    change ((String dquote "") +:+ ?y) with (String dquote y). rewrite parse_string_quotable by done.
    cbn [String.append]. change (negb (bz dquote =? 34)) with false. cbn iota.
    change (skip_ws (String ":" ?y)) with (String ":" y). cbn iota. by rewrite Hx by lia. }
  destruct l as [|y l].
  - cbn [map join]. by rewrite Hstep.
  - cbn [map]. rewrite join_cons_sep. change (marshal_member y :: map marshal_member l) with (map marshal_member (y :: l)).
    rewrite !sapp_assoc, Hstep, skip_comma. rewrite IH; [|done|done|lia]. by rewrite <-app_assoc.
Qed.

Lemma parse_printed n : forall v f r, printable v -> (depth_of v <= n)%nat -> (depth_of v <= f)%nat ->
  parse_value f (marshal v +:+ r) = Some (v, r).
Proof.
  induction n as [|n IH]; intros v f r Hp Hn Hf; [by destruct v; cbn in Hn; lia|].
  destruct f as [|f]; [by destruct v; cbn in Hf; lia|].
  assert (forall l, (depths l <= n)%nat -> Forall (fun x => (depth_of x <= n)%nat) l) as Hdep.
  { clear. induction l as [|x l IHl]; [constructor|]. cbn [depths fold_right]. fold (depths l). intros.
    constructor; [lia|apply IHl; lia]. }
  destruct Hp as [s Hs|l Hl|l Hl].
  - cbn [marshal]. rewrite json_string_quotable by done. by apply parse_value_quotable.
  - rewrite depth_arr in Hn, Hf. rewrite marshal_arr, !sapp_assoc.
    change ("[" +:+ ?t) with (String "[" t). cbn [parse_value]. change (skip_ws (String "[" ?t)) with (String "[" t).
    cbn iota. change (bz "[" =? 34) with false. cbn iota. cbn [Ascii.eqb Bool.eqb].
    change ("]" +:+ r) with (String "]" r). destruct l as [|x l]; [done|].
    assert (Forall (fun x => printable x /\ forall f r, (depth_of x <= f)%nat -> parse_value f (marshal x +:+ r) = Some (x, r)) (x :: l)) as Hall.
    { specialize (Hdep (x :: l) ltac:(lia)). rewrite List.Forall_forall in *. intros y Hy. split; [by apply Hl|].
      intros. apply IH; auto. }
    etrans; [|exact (parse_elements_printed (x :: l) ltac:(done) Hall f r [] ltac:(lia))].
    pose proof (Forall_inv Hall) as [Hx _].
    destruct (skip_ws_printed x (match l with [] => String "]" r | _ => "," +:+ join "," (map marshal l) +:+ String "]" r end) Hx)
      as (c & t & Ec & _ & Hc & Hskip).
    assert (join "," (map marshal (x :: l)) +:+ String "]" r =
            marshal x +:+ (match l with [] => String "]" r | _ => "," +:+ join "," (map marshal l) +:+ String "]" r end)) as ->.
    { destruct l; [done|]. cbn [map]. rewrite join_cons_sep, !sapp_assoc. done. }
    rewrite Hskip, Ec. cbn [String.append]. destruct (Ascii.eqb_spec c "]") as [->|Hne]; [done|].
    clear -Hne. destruct c as [[] [] [] [] [] [] [] []]; try done.
  - rewrite depth_obj in Hn, Hf. rewrite marshal_obj, !sapp_assoc.
    change ("{" +:+ ?t) with (String "{" t). cbn [parse_value]. change (skip_ws (String "{" ?t)) with (String "{" t).
    cbn iota. change (bz "{" =? 34) with false. cbn iota. cbn [Ascii.eqb Bool.eqb].
    change ("}" +:+ r) with (String "}" r). destruct l as [|[k x] l]; [done|].
    assert (Forall (fun m => sforall quotable m.1 = true /\
              forall f r, (depth_of m.2 <= f)%nat -> parse_value f (marshal m.2 +:+ r) = Some (m.2, r)) ((k, x) :: l)) as Hall.
    { specialize (Hdep (map snd ((k, x) :: l)) ltac:(lia)). rewrite List.Forall_forall in *. intros m Hm.
      destruct (Hl m Hm) as [? ?]. split; [done|]. intros. apply IH; auto. apply Hdep, in_map, Hm. }
    etrans; [|exact (parse_members_printed ((k, x) :: l) ltac:(done) Hall f r [] ltac:(lia))].
    pose proof (Forall_inv Hall) as [Hk _]. cbn [fst] in Hk.
    assert (exists t, join "," (map marshal_member ((k, x) :: l)) +:+ String "}" r = String dquote t) as [t ->].
    { destruct l; cbn [map]; rewrite ?join_cons_sep; unfold marshal_member; cbn [fst snd join];
        rewrite json_string_quotable by done; unfold quoted; cbn [String.append]; by eexists. }
    reflexivity.
Qed.

Lemma depth_length n : forall v, printable v -> (depth_of v <= n)%nat -> (depth_of v <= String.length (marshal v))%nat.
Proof.
  induction n as [|n IH]; intros v Hp Hn; [by destruct v; cbn in Hn; lia|].
  destruct Hp as [s Hs|l Hl|l Hl].
  - cbn [marshal depth_of]. rewrite json_string_quotable by done. unfold quoted. cbn. lia.
  - rewrite depth_arr in *. rewrite marshal_arr, !slength_app. cbn [String.length].
    assert (depths l <= S (String.length (join "," (map marshal l))))%nat; [|lia].
    assert (depths l <= n)%nat as Hd by lia. clear Hn.
    induction l as [|x l IHl]; [cbn; lia|]. apply Forall_cons_iff in Hl as [Hx Hl].
    cbn [depths fold_right] in *. fold (depths l) in *. specialize (IH x Hx ltac:(lia)). specialize (IHl Hl ltac:(lia)).
    destruct l as [|y l]; [cbn in *; lia|]. cbn [map] in *. rewrite join_cons_sep, !slength_app. cbn [String.length] in *. lia.
  - rewrite depth_obj in *. rewrite marshal_obj, !slength_app. cbn [String.length].
    assert (depths (map snd l) <= S (String.length (join "," (map marshal_member l))))%nat; [|lia].
    assert (depths (map snd l) <= n)%nat as Hd by lia. clear Hn.
    induction l as [|[k x] l IHl]; [cbn; lia|]. apply Forall_cons_iff in Hl as [[_ Hx] Hl]. cbn [snd] in Hx.
    cbn [map depths fold_right snd] in *. fold (depths (map snd l)) in *. specialize (IH x Hx ltac:(lia)). specialize (IHl Hl ltac:(lia)).
    assert (String.length (marshal x) < String.length (marshal_member (k, x)))%nat.
    { unfold marshal_member. rewrite !slength_app. cbn. lia. }
    destruct l as [|y l]; [cbn in *; lia|]. cbn [map] in *. rewrite join_cons_sep, !slength_app. cbn [String.length] in *. lia.
Qed.

(** A printed tree is the document that is read back, white space after it
    or not. *)
Lemma parse_json_tail v t : printable v -> skip_ws t = "" -> parse_json (marshal v +:+ t) = Some v.
Proof.
  intros Hp Ht. unfold parse_json. rewrite (parse_printed (depth_of v)); [by rewrite Ht|done|done|].
  pose proof (depth_length _ v Hp (le_n _)). rewrite slength_app. lia.
Qed.
Lemma parse_json_marshal v : printable v -> parse_json (marshal v) = Some v.
Proof. intros Hp. rewrite <-(sapp_nil_r (marshal v)). by apply parse_json_tail. Qed.
