(* ===== verification/Config.v ===== *)
(** * internal/config: the configuration file

    The data (device.go, config.go), the accessors the controllers use, the
    YAML tree check, defaults, the STUN server list, the validation, and how a
    configuration becomes peers.

    The YAML reader, mapstructure's decoder, zerolog's level parser and the
    file system are third-party or I/O: they are the fields of [ConfigEnv]. *)

From S2P Require Import Prelude GoStr Codec Json Netip NetipFacts Validation Discovery Entity Plugin.

(** ** Data (device.go, config.go) *)

Record CfgPingConfig := mkPingConfig { pcEnabled : bool; pcTarget : string; pcInterval : Z; pcTimeout : Z }.
Record CfgPeer := mkCfgPeer {
  cpDescription : string; cpPublicKey : string; cpPlugin : string; cpProtocol : string;
  cpPing : option CfgPingConfig
}.
Record Proxy := mkProxy { pxListen : Z; pxEnabled : option bool; pxFib : Z }.
Record Interface := mkInterface {
  ifProtocol : string; ifProxy : Proxy; ifListenInterfaces : list string;
  ifListenDefaultRoute : bool; ifPeers : gmap string CfgPeer
}.
Notation Interfaces := (gmap string Interface).
Record Logger := mkLogger { Level : string; Format : string }.
(** [Addresses]: [None] is the nil slice of an absent key. *)
Record Stun := mkStun { Address : string; Addresses : option (list string) }.
Record PingMonitor := mkPingMonitor { pmInterval : Z; pmTimeout : Z; pmFixedRetries : Z }.
Record Config := mkConfig {
  cInterfaces : Interfaces;
  cPlugins : gmap string PluginDefinition;
  cRefreshInterval : Z;
  cLog : Logger;
  cStun : Stun;
  cPingMonitor : PingMonitor
}.

(** ** Accessors (device.go) *)

Definition Peer_GetProtocol (p : CfgPeer) : string :=
  if cpProtocol p =s "" then "ipv4" else cpProtocol p.
Definition Interface_GetProtocol (i : Interface) : string :=
  if ifProtocol i =s "" then "ipv4" else ifProtocol i.
Definition IsEnabled (p : Proxy) : bool :=
  match pxEnabled p with Some b => b | None => true end.

Section device_config.
(** [c.interfaces] *)
Variable interfaces : Interfaces.

Definition GetInterfaceProtocol (name : string) : string :=
  match interfaces !! name with Some d => Interface_GetProtocol d | None => "ipv4" end.
Definition GetListenConfig (name : string) : list string * bool :=
  match interfaces !! name with
  | Some d => (ifListenInterfaces d, ifListenDefaultRoute d)
  | None => ([], false)
  end.
Definition GetProxyListenPort (name : string) : Z :=
  match interfaces !! name with Some d => wrap16 (pxListen (ifProxy d)) | None => 0 end.
Definition GetProxyFib (name : string) : Z :=
  match interfaces !! name with Some d => pxFib (ifProxy d) | None => 0 end.
Definition GetProxyEnabled (name : string) : bool :=
  match interfaces !! name with Some d => IsEnabled (ifProxy d) | None => true end.
Definition TunnelInterfaceNames : list string := (map_to_list interfaces).*1.

(** One entry of the loop of [GetConfigPeers]; [None] is a skipped entry. *)
Definition config_peer (deviceName : string) (localPublicKey : list Z) (c : CfgPeer) : option Peer :=
  match b64_decode false (cpPublicKey c) with
  | None => None
  | Some key =>
      if negb (length key =? 32)%nat then None
      else
        let ping := match cpPing c with
                    | Some p => mkPing (pcEnabled p) (pcTarget p) (pcInterval p) (pcTimeout p)
                    | None => PeerPingConfig0
                    end in
        Some (NewPeer (NewPeerId localPublicKey key) deviceName (copy32 key) (cpPlugin c)
                (Peer_GetProtocol c) ping)
  end.
Definition DeviceConfig_GetConfigPeers (deviceName : string) (localPublicKey : list Z)
  : result (list Peer) :=
  match interfaces !! deviceName with
  | None => Ok []
  | Some d => Ok (omap (fun c => config_peer deviceName localPublicKey c.2) (map_to_list (ifPeers d)))
  end.
End device_config.

(** A device configuration is a provider of configured peers. *)
Definition DeviceConfig_provider (interfaces : Interfaces) : ConfigPeerProvider :=
  {| GetConfigPeers := DeviceConfig_GetConfigPeers interfaces |}.

(** ** Constants and errors (config.go) *)

Definition DefaultRefreshInterval : Z := 3 * Minute.
Definition DefaultStunServer : string := "stun.l.google.com:19302".
Definition DefaultPingInterval : Z := Second.
Definition DefaultPingTimeout : Z := Second.
Definition DefaultPingFixedRetries : Z := 3.
Definition DefaultLogFormat : string := "console".
Definition DefaultLogLevel : string := "info".
Definition LogFormats : list string := ["console"; "json"].
(** The names zerolog has for its levels, from trace (-1) to disabled (7). *)
Definition logLevels (level_String : Z -> string) : list string :=
  List.filter (fun name => name <>s "") (map (fun i => level_String (Z.of_nat i - 1)) (seq 0 9)).
Definition defaultSearchPaths : list string := ["$STUNMESH_CONFIG_DIR"; "/etc/stunmesh"; "$HOME/.stunmesh"; "."].
Definition ErrReadConfig : string := "failed to read config".
Definition ErrUnmarshalConfig : string := "failed to unmarshal config".
Definition ErrNoStunServers : string := "stun.addresses has no usable entries".
Definition ConfigFileNames : list string := ["config.yaml"; "config.yml"].

(** ** The STUN server list *)

Fixpoint dedup_nonempty (seen : list string) (l : list string) : list string :=
  match l with
  | [] => []
  | a :: l' =>
      if (a =s "") || bool_decide (a ∈ seen) then dedup_nonempty seen l'
      else a :: dedup_nonempty (a :: seen) l'
  end.
Definition GetServers (s : Stun) : list string :=
  match dedup_nonempty [] (Address s :: default [] (Addresses s)) with
  | [] => [DefaultStunServer]
  | l => l
  end.

(** ** YAML nodes: what yaml.v3 hands over *)

Inductive YamlKind : Type := DocumentNode | SequenceNode | MappingNode | ScalarNode | AliasNode.
#[export] Instance YamlKind_eq_dec : EqDecision YamlKind.
Proof. solve_decision. Defined.
Inductive YamlNode : Type :=
| mkNode (kind : YamlKind) (tag anchor value : string) (content : list YamlNode).
Definition nKind (n : YamlNode) : YamlKind := match n with mkNode k _ _ _ _ => k end.
Definition nTag (n : YamlNode) : string := match n with mkNode _ t _ _ _ => t end.
Definition nAnchor (n : YamlNode) : string := match n with mkNode _ _ a _ _ => a end.
Definition nValue (n : YamlNode) : string := match n with mkNode _ _ _ v _ => v end.
Definition nContent (n : YamlNode) : list YamlNode := match n with mkNode _ _ _ _ c => c end.

(** The third-party and operating-system side of loading. *)
Class ConfigEnv := {
  Raw : Type;                                      (* map[string]interface{} *)
  yaml_first : string -> option YamlNode;          (* the first Decode *)
  yaml_trailing_eof : string -> bool;              (* the second Decode returns io.EOF *)
  yaml_Unmarshal : string -> option Raw;
  mapstructure_Decode : Raw -> Config -> option Config;
  zerolog_ParseLevel : string -> bool;
  os_Stat : string -> bool;
  os_ExpandEnv : string -> string;
  filepath_Join : string -> string -> string;
  os_ReadFile : string -> option (option string)   (* open, then read *)
}.

(** ** Validation *)

Definition protocol_one_of (l : list string) (p : string) : bool :=
  (p =s "") || existsb (fun q => p =s q) l.

Definition validate_peer (p : CfgPeer) : result unit :=
  match Validation.PublicKey (cpPublicKey p) with
  | Err _ => Err (ENew "invalid peer public_key")
  | Ok _ =>
      let bad := match cpPing p with
                 | Some q => (pcInterval q <? 0) || (5 * Minute <? pcInterval q)
                             || (pcTimeout q <? 0) || (Minute <? pcTimeout q)
                 | None => false
                 end in
      if bad then Err (ENew "invalid peer ping limits")
      else if protocol_one_of ["ipv4"; "ipv6"; "prefer_ipv4"; "prefer_ipv6"] (cpProtocol p) then Ok tt
      else Err (ENew "invalid peer protocol")
  end.

(** NUL CR LF slash space TAB *)
Definition ifname_forbidden : string :=
  String (zb 0) (String (zb 13) (String (zb 10) (String "/" (String " " (String (zb 9) ""))))).

(** Range over a map, stopping at the first error. *)
Fixpoint for_all {A} (f : A -> result unit) (l : list A) : result unit :=
  match l with
  | [] => Ok tt
  | x :: l' => let? _ := f x in for_all f l'
  end.

Definition validate_interface (named : string * Interface) : result unit :=
  let '(ifaceName, iface) := named in
  if (15 <? slen ifaceName) || contains_any ifaceName ifname_forbidden
  then Err (ENew "invalid interface name")
  else if MaxPeers <? Z.of_nat (size (ifPeers iface)) then Err (ENew "too many interface peers")
  else if (pxListen (ifProxy iface) <? 0) || (65535 <? pxListen (ifProxy iface))
  then Err (ENew "invalid proxy listen port")
  else if (pxFib (ifProxy iface) <? 0) || (65535 <? pxFib (ifProxy iface))
  then Err (ENew "invalid proxy fib")
  else if match pxEnabled (ifProxy iface) with Some false => true | _ => false end
  then Err (ENew "invalid proxy.enabled 'false'")
  else if negb (protocol_one_of ["ipv4"; "ipv6"; "dualstack"] (ifProtocol iface))
  then Err (ENew "invalid interface protocol")
  else for_all (fun p => validate_peer p.2) (map_to_list (ifPeers iface)).

Definition validateConfigForGOOS `{ConfigEnv} (cfg : Config) : result unit :=
  let pm := cPingMonitor cfg in
  if (cRefreshInterval cfg <? Second) || (240 * Second <? cRefreshInterval cfg)
  then Err (ENew "refresh_interval must be within 1-240 seconds")
  else if (pmInterval pm <=? 0) || (5 * Minute <? pmInterval pm) || (pmTimeout pm <=? 0)
          || (Minute <? pmTimeout pm) || (pmFixedRetries pm <? 1) || (10 <? pmFixedRetries pm)
  then Err (ENew "invalid ping monitor limits")
  else if (8 <? Z.of_nat (size (cInterfaces cfg))) || (MaxStores <? Z.of_nat (size (cPlugins cfg)))
          || (MaxServers <? Z.of_nat (length (default [] (Addresses (cStun cfg)))))
  then Err (ENew "configuration count limit exceeded")
  else
    let? _ := for_all Server (default [] (Addresses (cStun cfg))) in
    let? _ := for_all (fun d => ValidateDefinition d.2) (map_to_list (cPlugins cfg)) in
    let log := cLog cfg in
    if (Format log <>s "") && negb (existsb (fun f => Format log =s f) LogFormats)
    then Err (ENew "invalid log format")
    else if (Level log <>s "") && negb (zerolog_ParseLevel (Level log))
    then Err (ENew "invalid log level")
    else for_all validate_interface (map_to_list (cInterfaces cfg)).

(** ** The YAML tree check *)

Section yaml.
Context `{UnicodeTables}.

(** The keys of a mapping sit at the even positions. *)
Fixpoint mapping_keys_ok (seen : list string) (content : list YamlNode) : bool :=
  match content with
  | [] => true
  | k :: rest =>
      let name := to_lower (nValue k) in
      if negb (bool_decide (nKind k = ScalarNode)) || (nTag k <>s "!!str") || bool_decide (name ∈ seen)
      then false
      else match rest with
           | [] => true
           | _ :: rest' => mapping_keys_ok (name :: seen) rest'
           end
  end.
Definition scalar_tag_ok (tag : string) : bool :=
  (tag =s "!!str") || (tag =s "!!bool") || (tag =s "!!int").

Fixpoint visit (n : YamlNode) (depth : Z) : bool :=
  match n with
  | mkNode kind tag anchor _ content =>
      if (16 <? depth) || bool_decide (kind = AliasNode) || (anchor <>s "") then false
      else if bool_decide (kind = ScalarNode) && negb (scalar_tag_ok tag) then false
      else if bool_decide (kind = MappingNode) && negb (mapping_keys_ok [] content) then false
      else forallb (fun child => visit child (depth + 1)) content
  end.

Definition validateYAML `{ConfigEnv} (data : string) : result unit :=
  match yaml_first data with
  | None => Err (ENew ErrUnmarshalConfig)
  | Some root =>
      if negb (yaml_trailing_eof data) then Err (ENew ErrUnmarshalConfig)
      else if visit root 0 then Ok tt else Err (ENew ErrUnmarshalConfig)
  end.
End yaml.

(** ** Finding and loading *)

Section load.
Context `{UnicodeTables} `{ConfigEnv}.

Definition first_existing (dir : string) : option string :=
  List.find os_Stat (map (filepath_Join dir) ConfigFileNames).

Fixpoint search_paths (paths : list string) : string :=
  match paths with
  | [] => ""
  | path :: paths' =>
      let expanded := os_ExpandEnv path in
      if expanded =s "" then search_paths paths'
      else match first_existing expanded with
           | Some c => c
           | None => search_paths paths'
           end
  end.

Definition findConfigFile (configFile configDir : string) (paths : list string) : string :=
  if configFile <>s "" then configFile
  else if configDir <>s "" then
    match first_existing configDir with
    | Some c => c
    | None => filepath_Join configDir "config.yaml"
    end
  else search_paths paths.

Definition default_config : Config :=
  mkConfig ∅ ∅ DefaultRefreshInterval (mkLogger "info" "console") (mkStun "" None)
    (mkPingMonitor DefaultPingInterval DefaultPingTimeout DefaultPingFixedRetries).

(** Reading and decoding the file at [path]. *)
Definition read_config (path : string) (cfg : Config) : result Config :=
  match os_ReadFile path with
  | None => Err (EWrap "" [ENew ErrReadConfig; ENew "open"])
  | Some None => Err (ENew ErrReadConfig)
  | Some (Some data) =>
      if MaxConfigBytes <? slen data then Err (ENew ErrReadConfig)
      else
        let? _ := validateYAML data in
        match yaml_Unmarshal data with
        | None => Err (ENew ErrUnmarshalConfig)
        | Some raw =>
            match mapstructure_Decode raw cfg with
            | None => Err (ENew ErrUnmarshalConfig)
            | Some cfg' => Ok cfg'
            end
        end
  end.

(** The STUN semantics: an absent key means the default server, a list without
    a usable entry is an error. *)
Definition stun_defaults (s : Stun) : result Stun :=
  let effective := length (List.filter (fun a => a <>s "") (default [] (Addresses s))) in
  match Addresses s with
  | None =>
      if Address s =s "" then Ok (mkStun (Address s) (Some [DefaultStunServer])) else Ok s
  | Some _ =>
      if (effective =? 0)%nat && (Address s =s "") then Err (ENew ErrNoStunServers) else Ok s
  end.

Definition log_defaults (l : Logger) : Logger :=
  mkLogger (if Level l =s "" then DefaultLogLevel else Level l) (if Format l =s "" then DefaultLogFormat else Format l).

Definition load (configFile configDir : string) (paths : list string) : result Config :=
  let path := findConfigFile configFile configDir paths in
  let? cfg := if path =s "" then Ok default_config else read_config path default_config in
  let? s := stun_defaults (cStun cfg) in
  let cfg := mkConfig (cInterfaces cfg) (cPlugins cfg) (cRefreshInterval cfg) (log_defaults (cLog cfg))
               (mkStun "" (Some (GetServers s))) (cPingMonitor cfg) in
  let? _ := validateConfigForGOOS cfg in
  Ok cfg.
Definition Load (configFile configDir : string) : result Config := load configFile configDir defaultSearchPaths.
End load.
