(* ===== verification/ConfigFacts.v ===== *)
(** * Theorems on the configuration *)

From S2P Require Import Prelude GoStr Codec Json Netip NetipFacts Validation Discovery Entity Plugin Config.

Lemma for_all_ok {A} (f : A -> result unit) l :
  for_all f l = Ok tt <-> forall x, In x l -> f x = Ok tt.
Proof.
  induction l as [|x l IH]; cbn; [split; done|].
  destruct (f x) as [[]|] eqn:E.
  - rewrite IH. split; [intros Hl y [<-|Hy]; auto|auto].
  - split; [done|]. intros Hl. specialize (Hl x (or_introl eq_refl)). congruence.
Qed.

(** ** The server list *)

Lemma dedup_nonempty_ok seen l a :
  a ∈ dedup_nonempty seen l <-> a ∈ l /\ a <> "" /\ a ∉ seen.
Proof.
  revert seen. induction l as [|b l IH]; intros seen; cbn [dedup_nonempty]; [set_solver|].
  destruct (String.eqb_spec b ""); cbn [orb]; [subst; rewrite IH; set_solver|].
  destruct (bool_decide_reflect (b ∈ seen)).
  - rewrite IH. set_solver.
  - rewrite elem_of_cons, IH. destruct (decide (a = b)); set_solver.
Qed.

Lemma dedup_nonempty_NoDup seen l : NoDup (dedup_nonempty seen l).
Proof.
  revert seen. induction l as [|b l IH]; intros seen; cbn [dedup_nonempty]; [constructor|].
  destruct (_ || _); [done|]. apply list.NoDup_cons. split; [|done].
  rewrite dedup_nonempty_ok. set_solver.
Qed.

Lemma dedup_nonempty_sublist seen l : dedup_nonempty seen l `sublist_of` l.
Proof.
  revert seen. induction l as [|b l IH]; intros seen; cbn [dedup_nonempty]; [constructor|].
  destruct (_ || _); by constructor.
Qed.

Lemma GetServers_usable s : GetServers s <> [] /\ NoDup (GetServers s).
Proof.
  unfold GetServers. pose proof (dedup_nonempty_NoDup [] (Address s :: default [] (Addresses s))) as Hnd.
  destruct (dedup_nonempty _ _); [|done]. split; [done|apply list.NoDup_singleton].
Qed.

(** The server list is never empty, has no repetition and no empty entry, keeps
    the configured order, and is exactly the configured addresses, the default
    server standing in when there is none. *)
Theorem GetServers_spec s :
  let configured := Address s :: default [] (Addresses s) in
  GetServers s <> [] /\ NoDup (GetServers s) /\ "" ∉ GetServers s /\
  (GetServers s `sublist_of` configured /\ (forall a, a ∈ configured -> a <> "" -> a ∈ GetServers s) \/
   (forall a, a ∈ configured -> a = "") /\ GetServers s = [DefaultStunServer]).
Proof.
  cbn zeta. unfold GetServers. set (l := Address s :: default [] (Addresses s)).
  pose proof (dedup_nonempty_NoDup [] l) as Hnd. pose proof (dedup_nonempty_sublist [] l) as Hsub.
  pose proof (fun a => dedup_nonempty_ok [] l a) as Hin.
  destruct (dedup_nonempty [] l) as [|a k].
  - split_and!; [done|apply list.NoDup_singleton|by intros ?%list_elem_of_singleton|].
    right. split; [|done]. intros a Ha. destruct (decide (a = "")); [done|].
    destruct (not_elem_of_nil a). apply Hin. split_and!; [done|done|apply not_elem_of_nil].
  - split_and!; [done|done| |].
    + intros H. apply Hin in H. naive_solver.
    + left. split; [done|]. intros b Hb Hne. apply Hin. split_and!; [done|done|apply not_elem_of_nil].
Qed.

(** ** Peers of a validated interface *)

Lemma validate_peer_key p : validate_peer p = Ok tt ->
  exists k, length k = 32%nat /\ bytes_ok k /\ cpPublicKey p = b64_encode k /\
  protocol_one_of ["ipv4"; "ipv6"; "prefer_ipv4"; "prefer_ipv6"] (cpProtocol p) = true.
Proof.
  unfold validate_peer. intros H. destruct (Validation.PublicKey (cpPublicKey p)) as [k|] eqn:E; [|done].
  exists k. unfold Validation.PublicKey in E. destruct (Key (cpPublicKey p)) as [k'|] eqn:Ek; [|done].
  destruct (ecdh_ok _ k'); [|done]. simplify_eq. apply Key_ok_iff in Ek as (? & ? & ?).
  split_and!; try done. go_inv H; done.
Qed.

Lemma config_peer_validated name key p : validate_peer p = Ok tt ->
  exists q, config_peer name key p = Some q /\ length (PublicKey q) = 32%nat /\
    b64_encode (PublicKey q) = cpPublicKey p /\ DeviceName q = name /\
    Id q = NewPeerId key (PublicKey q) /\
    Protocol q ∈ ["ipv4"; "ipv6"; "prefer_ipv4"; "prefer_ipv6"].
Proof.
  intros Hv. destruct (validate_peer_key p Hv) as (k & Hk & Hb & Hp & Hproto).
  unfold config_peer. rewrite Hp, b64_roundtrip, Hk by done. cbn [Nat.eqb negb].
  eexists. split; [done|]. cbn [PublicKey DeviceName Id Protocol]. rewrite copy32_id by done. split_and!; try done.
  unfold Peer_GetProtocol, protocol_one_of in *. apply orb_true_iff in Hproto as [He|He].
  - rewrite He. set_solver.
  - apply existsb_exists in He as (q & Hq & ->%String.eqb_eq). apply list_elem_of_In in Hq.
    destruct (q =s ""); [set_solver|done].
Qed.

Lemma omap_total {A B} (f : A -> option B) l :
  (forall x, In x l -> exists y, f x = Some y) -> length (omap f l) = length l.
Proof.
  induction l as [|x l IH]; intros Hl; [done|]. cbn.
  destruct (Hl x (or_introl eq_refl)) as [y ->]. cbn. f_equal. apply IH. intros. apply Hl. by right.
Qed.

(** What a configuration that passed validation guarantees. *)
Definition interface_ok (name : string) (i : Interface) : Prop :=
  slen name <= 15 /\ contains_any name ifname_forbidden = false /\
  Z.of_nat (size (ifPeers i)) <= MaxPeers /\
  0 <= pxListen (ifProxy i) <= 65535 /\ 0 <= pxFib (ifProxy i) <= 65535 /\
  IsEnabled (ifProxy i) = true /\ Interface_GetProtocol i ∈ ["ipv4"; "ipv6"; "dualstack"] /\
  forall n p, ifPeers i !! n = Some p -> validate_peer p = Ok tt.

Lemma validate_interface_ok name i : validate_interface (name, i) = Ok tt -> interface_ok name i.
Proof.
  unfold validate_interface. intros H.
  destruct (_ || _) eqn:C1 in H; [done|]. destruct (_ <? _) eqn:C2 in H; [done|].
  destruct (_ || _) eqn:C3 in H; [done|]. destruct (_ || _) eqn:C4 in H; [done|].
  destruct (pxEnabled (ifProxy i)) as [[]|] eqn:Ce; cbn in H; try done.
  all: destruct (negb _) eqn:C5 in H; [done|];
    apply orb_false_iff in C1 as [C1 C1'], C3 as [C3 C3'], C4 as [C4 C4'];
    apply negb_false_iff in C5; unfold interface_ok, IsEnabled; rewrite Ce;
    split_and!; try lia; try done;
    [unfold Interface_GetProtocol, protocol_one_of in *; apply orb_true_iff in C5 as [He|He];
       [rewrite He; set_solver|];
       apply existsb_exists in He as (q & Hq & ->%String.eqb_eq); apply list_elem_of_In in Hq;
       destruct (q =s ""); [set_solver|done]
    |intros n p Hp; rewrite for_all_ok in H; apply (H (n, p));
       apply list_elem_of_In, elem_of_map_to_list, Hp].
Qed.

Section loaded.
Context `{UnicodeTables} `{ConfigEnv}.

Definition config_ok (cfg : Config) : Prop :=
  Second <= cRefreshInterval cfg <= 240 * Second /\
  0 < pmInterval (cPingMonitor cfg) <= 5 * Minute /\
  0 < pmTimeout (cPingMonitor cfg) <= Minute /\
  1 <= pmFixedRetries (cPingMonitor cfg) <= 10 /\
  (size (cInterfaces cfg) <= 8)%nat /\
  map_Forall interface_ok (cInterfaces cfg) /\
  map_Forall (fun _ d => ValidateDefinition d = Ok tt) (cPlugins cfg) /\
  exists servers, Addresses (cStun cfg) = Some servers /\ Address (cStun cfg) = "" /\
    (1 <= length servers <= 8)%nat /\ NoDup servers /\ Forall (fun a => Server a = Ok tt) servers.

Lemma validateConfig_ok cfg : validateConfigForGOOS cfg = Ok tt ->
  Second <= cRefreshInterval cfg <= 240 * Second /\
  0 < pmInterval (cPingMonitor cfg) <= 5 * Minute /\
  0 < pmTimeout (cPingMonitor cfg) <= Minute /\
  1 <= pmFixedRetries (cPingMonitor cfg) <= 10 /\
  (size (cInterfaces cfg) <= 8)%nat /\
  map_Forall interface_ok (cInterfaces cfg) /\
  map_Forall (fun _ d => ValidateDefinition d = Ok tt) (cPlugins cfg) /\
  (length (default [] (Addresses (cStun cfg))) <= 8)%nat /\
  Forall (fun a => Server a = Ok tt) (default [] (Addresses (cStun cfg))).
Proof.
  unfold validateConfigForGOOS. cbn zeta. intros Hv.
  destruct (_ || _) eqn:C1 in Hv; [done|]. destruct (_ || _) eqn:C2 in Hv; [done|].
  destruct (_ || _) eqn:C3 in Hv; [done|].
  destruct (for_all Server _) as [[]|] eqn:Es; [|done].
  destruct (for_all _ (map_to_list (cPlugins cfg))) as [[]|] eqn:Ep; [|done].
  destruct (_ && _) in Hv; [done|]. destruct (_ && _) in Hv; [done|].
  repeat match goal with E : _ || _ = false |- _ => apply orb_false_iff in E as [E ?] end.
  unfold MaxServers in *. rewrite for_all_ok in Es; rewrite for_all_ok in Ep; rewrite for_all_ok in Hv. split_and!; try lia.
  - intros name i Hi. apply validate_interface_ok, Hv, list_elem_of_In, elem_of_map_to_list, Hi.
  - intros name d Hd. apply (Ep (name, d)), list_elem_of_In, elem_of_map_to_list, Hd.
  - by apply Forall_forall.
Qed.

End loaded.

(** An environment whose one file holds one interface with one peer. *)
Definition sample_peer : CfgPeer :=
  mkCfgPeer "" (b64_encode base_key) "dht" "" None.
Definition sample_interface : Interface :=
  mkInterface "dualstack" (mkProxy 0 None 0) [] false {[ "p" := sample_peer ]}.
Definition sample_config : Config :=
  mkConfig {[ "wg0" := sample_interface ]} ∅ DefaultRefreshInterval (mkLogger "info" "console")
    (mkStun "" (Some ["stun.example:3478"]))
    (mkPingMonitor DefaultPingInterval DefaultPingTimeout DefaultPingFixedRetries).
Definition sample_env : ConfigEnv := {|
  Raw := unit;
  yaml_first := fun _ => Some (mkNode DocumentNode "" "" "" []);
  yaml_trailing_eof := fun _ => true;
  yaml_Unmarshal := fun _ => Some tt;
  mapstructure_Decode := fun _ _ => Some sample_config;
  zerolog_ParseLevel := fun _ => true;
  os_Stat := fun _ => false;
  os_ExpandEnv := fun s => s;
  filepath_Join := fun a b => a +:+ "/" +:+ b;
  os_ReadFile := fun _ => Some (Some "interfaces: {}")
|}.

Lemma sample_interface_valid : validate_interface ("wg0", sample_interface) = Ok tt.
Proof.
  unfold validate_interface. do 6 eval_head.
  unfold sample_interface. cbn [ifPeers]. rewrite map_to_list_singleton. cbn [for_all snd].
  unfold validate_peer. unfold sample_peer at 1. cbn [cpPublicKey]. rewrite PublicKey_base. vm_compute. reflexivity.
Qed.
Lemma sample_valid : @validateConfigForGOOS sample_env sample_config = Ok tt.
Proof.
  unfold validateConfigForGOOS. cbv zeta. do 7 eval_head.
  unfold sample_config. cbn [cInterfaces]. rewrite map_to_list_singleton. cbn [for_all].
  rewrite sample_interface_valid. reflexivity.
Qed.


(** ** The YAML tree *)

(** [node_within d n m]: [m] occurs in the tree [n] at depth [d]. *)
Inductive node_within : Z -> YamlNode -> YamlNode -> Prop :=
| nw_self n : node_within 0 n n
| nw_child d n c m : In c (nContent n) -> node_within d c m -> node_within (d + 1) n m.

Fixpoint node_size (n : YamlNode) : nat :=
  match n with
  | mkNode _ _ _ _ content =>
      S ((fix go (l : list YamlNode) := match l with [] => 0 | c :: l' => node_size c + go l' end) content)
  end%nat.

Lemma node_size_child n c : In c (nContent n) -> (node_size c < node_size n)%nat.
Proof.
  destruct n as [k t a v l]. cbn. induction l as [|d l IH]; [done|].
  intros [->|Hc]; [lia|]. specialize (IH Hc). lia.
Qed.

(** The nodes at the even positions: the keys of a mapping. *)
Fixpoint even_nodes (l : list YamlNode) : list YamlNode :=
  match l with
  | [] => []
  | [k] => [k]
  | k :: _ :: l' => k :: even_nodes l'
  end.

Section yaml_spec.
Context `{UnicodeTables}.

Definition node_ok (n : YamlNode) : Prop :=
  nKind n <> AliasNode /\ nAnchor n = "" /\
  (nKind n = ScalarNode -> nTag n ∈ ["!!str"; "!!bool"; "!!int"]) /\
  (nKind n = MappingNode ->
     Forall (fun k => nKind k = ScalarNode /\ nTag k = "!!str") (even_nodes (nContent n)) /\
     NoDup (map (fun k => to_lower (nValue k)) (even_nodes (nContent n)))).

Lemma mapping_keys_ok_iff m seen l :
  (length l <= m)%nat ->
  mapping_keys_ok seen l = true <->
  Forall (fun k => nKind k = ScalarNode /\ nTag k = "!!str") (even_nodes l) /\
  NoDup (map (fun k => to_lower (nValue k)) (even_nodes l)) /\
  forall k, In k (even_nodes l) -> to_lower (nValue k) ∉ seen.
Proof.
  revert seen l. induction m as [|m IH]; intros seen l Hl.
  { destruct l; [|cbn in Hl; lia]. split; [intros _; split_and!; constructor || done|done]. }
  destruct l as [|k l]; [split; [intros _; split_and!; constructor || done|done]|].
  assert (forall b rest, (b = true <-> Forall (fun k => nKind k = ScalarNode /\ nTag k = "!!str") rest /\
      NoDup (map (fun k => to_lower (nValue k)) rest) /\
      forall k', In k' rest -> to_lower (nValue k') ∉ (to_lower (nValue k) :: seen)) ->
    (if negb (bool_decide (nKind k = ScalarNode)) || (nTag k <>s "!!str") ||
        bool_decide (to_lower (nValue k) ∈ seen) then false else b) = true <->
    Forall (fun k => nKind k = ScalarNode /\ nTag k = "!!str") (k :: rest) /\
    NoDup (map (fun k => to_lower (nValue k)) (k :: rest)) /\
    forall k', In k' (k :: rest) -> to_lower (nValue k') ∉ seen) as Hstep.
  { intros b rest Hb. rewrite Forall_cons_iff. cbn [map]. rewrite list.NoDup_cons.
    destruct (bool_decide_reflect (nKind k = ScalarNode)), (String.eqb_spec (nTag k) "!!str"),
      (bool_decide_reflect (to_lower (nValue k) ∈ seen)); cbn [negb orb];
      try (split; [done|]; intros ([[? ?] _] & _ & Hs);
           first [congruence|by destruct (Hs k (or_introl eq_refl))]).
    rewrite Hb. split.
    - intros (Hf & Hnd & Hs). split_and!; try done.
      + intros (k' & E & Hk')%list_elem_of_fmap. apply list_elem_of_In in Hk'.
        apply (Hs k' Hk'). rewrite E. left.
      + intros k' [<-|Hk'] Hin; [done|]. apply (Hs k' Hk'). by right.
    - intros ((_ & Hf) & (Hk & Hnd) & Hs). split_and!; try done.
      intros k' Hk' [E|Hin]%elem_of_cons; [|by apply (Hs k' (or_intror Hk'))].
      apply Hk. rewrite <-E. apply list_elem_of_fmap. exists k'. split; [done|by apply list_elem_of_In]. }
  cbn [mapping_keys_ok]. destruct l as [|v l]; cbn [even_nodes].
  - apply Hstep. split; [intros _; split_and!; constructor || done|done].
  - apply Hstep. apply IH. cbn in Hl. lia.
Qed.

Lemma visit_iff m n depth : (node_size n <= m)%nat ->
  visit n depth = true <-> forall d w, node_within d n w -> depth + d <= 16 /\ node_ok w.
Proof.
  revert n depth. induction m as [|m IH]; intros n depth Hm; [destruct n; cbn in Hm; lia|].
  assert (visit n depth = true <->
    depth <= 16 /\ node_ok n /\ forall c, In c (nContent n) -> visit c (depth + 1) = true) as ->.
  { destruct n as [kind tag anchor value content]. unfold node_ok. cbn [nKind nTag nAnchor nContent visit].
    pose proof (mapping_keys_ok_iff (length content) [] content (le_n _)) as Hk.
    assert (scalar_tag_ok tag = true <-> tag ∈ ["!!str"; "!!bool"; "!!int"]) as Ht.
    { unfold scalar_tag_ok. rewrite !orb_true_iff, !String.eqb_eq. set_solver. }
    destruct (Z.ltb_spec 16 depth), (bool_decide_reflect (kind = AliasNode)),
      (String.eqb_spec anchor ""); cbn [orb negb]; try (split; [done|intros (?&(?&?&?)&?); (lia || congruence)]).
    destruct (bool_decide_reflect (kind = ScalarNode)) as [Hs|Hs]; cbn [andb].
    - destruct (scalar_tag_ok tag) eqn:Es; cbn [negb].
      + rewrite bool_decide_eq_false_2 by congruence. cbn [andb]. rewrite forallb_forall.
        split; [intros Hc; split_and!; try done; [by intros; apply Ht|by subst]|by intros (_&_&?)].
      + split; [done|]. intros (_ & (_ & _ & Hbad & _) & _). apply Hbad, Ht in Hs. congruence.
    - destruct (bool_decide_reflect (kind = MappingNode)) as [Hmp|Hmp]; cbn [andb].
      + destruct (mapping_keys_ok [] content) eqn:Em; cbn [negb].
        * rewrite forallb_forall. destruct (proj1 Hk eq_refl) as (? & ? & _).
          split; [intros Hc; split_and!; done|by intros (_&_&?)].
        * split; [done|]. intros (_ & (_ & _ & _ & Hbad) & _). destruct (Hbad Hmp) as [Hb1 Hb2].
          assert (false = true) by (apply Hk; split_and!; [done|done|intros; apply not_elem_of_nil]). done.
      + rewrite forallb_forall. split; [intros Hc; split_and!; done|by intros (_&_&?)]. }
  split.
  - intros (Hd & Hn & Hc) d w Hw. destruct Hw as [n|d n c w Hin Hw]; [split; [lia|done]|].
    specialize (Hc c Hin). pose proof (node_size_child n c Hin).
    pose proof (proj1 (IH c (depth + 1) ltac:(lia)) Hc) as Hall. destruct (Hall d w Hw). split; [lia|done].
  - intros Hall. destruct (Hall 0 n (nw_self n)) as [Hd Hn]. split_and!; [lia|done|].
    intros c Hin. pose proof (node_size_child n c Hin). apply IH; [lia|]. intros d w Hw.
    replace (depth + 1 + d) with (depth + (d + 1)) by lia. apply Hall. by eapply nw_child.
Qed.

(** The YAML check accepts a document exactly when it is the only one in the file
    and every node of its tree, at whatever depth, is at most 16 deep, is no
    alias and has no anchor, is a string, boolean or integer if a scalar, and
    has only string keys that differ when lower-cased if a mapping. *)
Theorem validateYAML_spec `{ConfigEnv} data :
  validateYAML data = Ok tt <->
  exists root, yaml_first data = Some root /\ yaml_trailing_eof data = true /\
    forall d w, node_within d root w -> d <= 16 /\ node_ok w.
Proof.
  unfold validateYAML. destruct (yaml_first data) as [root|]; [|split; [done|by intros (?&?&_)]].
  pose proof (visit_iff (node_size root) root 0 (le_n _)) as Hv.
  destruct (yaml_trailing_eof data); cbn [negb]; [|split; [done|by intros (?&_&?&_)]].
  destruct (visit root 0).
  - split; [|done]. intros _. exists root. split_and!; [done|done|by apply Hv].
  - split; [done|]. intros (r & [= <-] & _ & Hall). by apply Hv in Hall.
Qed.
End yaml_spec.

(** ** Settings *)

(** The level names offered are the library's own, in its order, without empty ones. *)
Lemma logLevels_in level_String name :
  In name (logLevels level_String) <-> name <> "" /\ exists level, -1 <= level <= 7 /\ level_String level = name.
Proof.
  unfold logLevels. rewrite filter_In, in_map_iff, negb_true_iff, String.eqb_neq. split.
  - intros [(i & <- & Hi%in_seq) Hn]. split; [done|]. exists (Z.of_nat i - 1). split; [lia|done].
  - intros [Hn (l & Hl & <-)]. split; [|done]. exists (Z.to_nat (l + 1)). rewrite in_seq. split; [f_equal; lia|lia].
Qed.
