(* ===== verification/PingMonitor.v ===== *)
(** * internal/ctrl/ping_monitor.go: health pings and their retry policy

    One device monitor holds a state per peer; the sender, the reader and the
    timeout checker are the events [Send], [Reply] and [Check].  A handler runs
    at one instant [now] > 0; a map iteration visits every state, in no
    particular order.  ICMP encoding (golang.org/x/net/icmp), the socket, name
    resolution and the random source are parameters. *)

From S2P Require Import Prelude GoStr Netip Discovery Entity Config.

Definition PeerSpecificRetryThreshold : Z := 3.
Definition PingMonitorStartupDelay : Z := 10 * Second.

Record PeerPingState := mkPPS {
  pp_peerId : PeerId;
  pp_target : string;
  pp_targetIP : Addr;
  pp_interval : Z;
  pp_timeout : Z;
  isHealthy : bool;
  failureCount : Z;
  lastPingTime : Z;
  lastSentTime : Z;
  icmpId : Z;
  lastRetryTime : Z;
  nextRetryTime : Z;
  retryCount : Z;
  backoffMultiplier : Z;
  handedOverToRefresh : bool
}.

(** What the controllers are asked to do, in order. *)
Inductive Trigger : Type :=
| PublishFor (id : PeerId)
| EstablishFor (id : PeerId).

Section policy.
(** [config.PingMonitor.FixedRetries] and [config.RefreshInterval] *)
Variables fixedRetries refreshInterval : Z.

Definition shouldRetryPublishEstablish (s : PeerPingState) (now : Z) : bool :=
  if retryCount s =? 0 then true
  else if handedOverToRefresh s then false
  else time_After now (nextRetryTime s) || time_IsZero (nextRetryTime s).

Definition set_retry (s : PeerPingState) (last next count : Z) (handed : bool) : PeerPingState :=
  mkPPS (pp_peerId s) (pp_target s) (pp_targetIP s) (pp_interval s) (pp_timeout s) (isHealthy s)
    (failureCount s) (lastPingTime s) (lastSentTime s) (icmpId s) last next count
    (backoffMultiplier s) handed.

Definition scheduleNextRetry (s : PeerPingState) (now : Z) : PeerPingState :=
  let count := wrap64 (retryCount s + 1) in
  if count <=? fixedRetries
  then set_retry s now (now + 2 * Second) count (handedOverToRefresh s)
  else
    let baseInterval := 5 in
    let increment := 5 in
    let retryAfterfixed := wrap64 (count - fixedRetries) in
    let intervalSeconds := wrap64 (baseInterval + (retryAfterfixed - 1) * increment) in
    let backoffInterval := wrap64 (intervalSeconds * Second) in
    if refreshInterval <=? backoffInterval
    then set_retry s now 0 count true
    else set_retry s now (now + backoffInterval) count (handedOverToRefresh s).

Definition handlePingResult (s : PeerPingState) (now : Z) (success : bool)
  : PeerPingState * list Trigger :=
  if success then
    (mkPPS (pp_peerId s) (pp_target s) (pp_targetIP s) (pp_interval s) (pp_timeout s)
       true 0 now 0 (icmpId s) (lastRetryTime s) 0 0 1 false, [])
  else
    let s := mkPPS (pp_peerId s) (pp_target s) (pp_targetIP s) (pp_interval s) (pp_timeout s)
               false (wrap64 (failureCount s + 1)) now (lastSentTime s) (icmpId s)
               (lastRetryTime s) (nextRetryTime s) (retryCount s) (backoffMultiplier s)
               (handedOverToRefresh s) in
    if shouldRetryPublishEstablish s now
    then (scheduleNextRetry s now, [PublishFor (pp_peerId s); EstablishFor (pp_peerId s)])
    else (s, []).

Definition with_lastSent (s : PeerPingState) (t : Z) : PeerPingState :=
  mkPPS (pp_peerId s) (pp_target s) (pp_targetIP s) (pp_interval s) (pp_timeout s) (isHealthy s)
    (failureCount s) (lastPingTime s) t (icmpId s) (lastRetryTime s) (nextRetryTime s)
    (retryCount s) (backoffMultiplier s) (handedOverToRefresh s).

(** One state of [checkForTimeouts]. *)
Definition check_state (s : PeerPingState) (now : Z) : PeerPingState * list Trigger :=
  if negb (time_IsZero (lastSentTime s)) && (pp_timeout s <? time_Sub now (lastSentTime s))
  then handlePingResult (with_lastSent s 0) now false
  else (s, []).
End policy.

(** ** Device monitors *)

Record DevicePingMonitor := mkDPM {
  pm_deviceName : string;
  peerStates : gmap PeerId PeerPingState;
  usedIcmpIds : gset Z;
  icmpIdToPeer : gmap Z PeerId
}.
Definition NewDevicePingMonitor (deviceName : string) : DevicePingMonitor :=
  mkDPM deviceName ∅ ∅ ∅.

(** The loop draws from [rand.Intn(65535)] until an unused identifier comes up;
    [draws] are the numbers drawn, [None] when they run out. *)
Fixpoint generateUniqueIcmpId (used : gset Z) (draws : list Z) : option (Z * list Z) :=
  match draws with
  | [] => None
  | r :: draws' =>
      let id := wrap16 (r + 1) in
      if bool_decide (id ∈ used) then generateUniqueIcmpId used draws' else Some (id, draws')
  end.

(** golang.org/x/net/icmp: a parsed message is its type and its body. *)
Inductive IcmpBody : Type :=
| Echo (ID Seq : Z) (Data : list Z)
| OtherBody.
Class IcmpLib := {
  icmp_Marshal_echo : Z -> Z -> list Z -> option (list Z);   (* ID, Seq, Data *)
  icmp_ParseMessage : list Z -> option (Z * IcmpBody)
}.

(** A source address as the socket reports it: an IP address or another type. *)
Inductive NetAddr : Type :=
| IPAddr (a : Addr)
| OtherAddr.

(** [net.IP.Equal]: an IPv4 address and its mapped form are the same. *)
Definition IP_Equal (a b : Addr) : bool := bool_decide (Unmap (withoutZone a) = Unmap (withoutZone b)).

Definition ping_data : list Z := Codec.bytes_of "stunmesh-ping".

Section monitor.
Context `{IcmpLib}.
Variables fixedRetries refreshInterval defaultInterval defaultTimeout : Z.
(** [net.ResolveIPAddr("ip4", target)] *)
Variable ResolveIPAddr : string -> option Addr.

(** [None]: the identifier loop has not ended with these draws. *)
Definition AddPeer (m : DevicePingMonitor) (peerId : PeerId) (pc : PeerPingConfig) (draws : list Z)
  : option DevicePingMonitor :=
  if negb (Enabled pc) || (Target pc =s "") then Some m
  else
    let interval := if Interval pc =? 0 then defaultInterval else Interval pc in
    let timeout := if Timeout pc =? 0 then defaultTimeout else Timeout pc in
    match generateUniqueIcmpId (usedIcmpIds m) draws with
    | None => None
    | Some (id, _) =>
        let used := {[ id ]} ∪ usedIcmpIds m in
        match ResolveIPAddr (Target pc) with
        | None => Some (mkDPM (pm_deviceName m) (peerStates m) used (icmpIdToPeer m))
        | Some ip =>
            let st := mkPPS peerId (Target pc) ip interval timeout true 0 0 0 id 0 0 0 1 false in
            Some (mkDPM (pm_deviceName m) (<[peerId := st]> (peerStates m)) used
                    (<[id := peerId]> (icmpIdToPeer m)))
        end
    end.

(** [send data ip]: the socket accepts the packet. *)
Definition sendPingForPeer (send : list Z -> Addr -> bool) (now : Z) (s : PeerPingState)
  : PeerPingState :=
  match icmp_Marshal_echo (icmpId s) 1 ping_data with
  | None => s
  | Some data => if send data (pp_targetIP s) then with_lastSent s now else s
  end.
Definition sendPingsToAllPeers (send : list Z -> Addr -> bool) (now : Z) (m : DevicePingMonitor)
  : DevicePingMonitor :=
  mkDPM (pm_deviceName m) (sendPingForPeer send now <$> peerStates m) (usedIcmpIds m) (icmpIdToPeer m).

Definition checkForTimeouts (now : Z) (m : DevicePingMonitor) : DevicePingMonitor * list Trigger :=
  let chk s := check_state fixedRetries refreshInterval s now in
  (mkDPM (pm_deviceName m) ((fun s => (chk s).1) <$> peerStates m) (usedIcmpIds m) (icmpIdToPeer m),
   concat (map (fun p => (chk p.2).2) (map_to_list (peerStates m)))).

Definition validateReply (addr : NetAddr) (s : PeerPingState) (id : Z) : bool :=
  match addr with
  | OtherAddr => false
  | IPAddr source => IP_Equal source (pp_targetIP s) && (id =? icmpId s)
  end.

(** The body's type is tested, not the message's. *)
Definition dispatchReply (now : Z) (m : DevicePingMonitor) (reply : list Z) (addr : NetAddr)
  : DevicePingMonitor :=
  match icmp_ParseMessage reply with
  | None => m
  | Some (_, OtherBody) => m
  | Some (_, Echo ID _ _) =>
      let id := wrap16 ID in
      match icmpIdToPeer m !! id with
      | None => m
      | Some peerId =>
          match peerStates m !! peerId with
          | None => m
          | Some s =>
              if validateReply addr s id
              then mkDPM (pm_deviceName m)
                     (<[peerId := (handlePingResult fixedRetries refreshInterval s now true).1]> (peerStates m))
                     (usedIcmpIds m) (icmpIdToPeer m)
              else m
          end
      end
  end.

(** The events of a monitor's life. *)
Inductive Event : Type :=
| EvAdd (id : PeerId) (pc : PeerPingConfig) (draws : list Z)
| EvSend (now : Z) (send : list Z -> Addr -> bool)
| EvCheck (now : Z)
| EvReply (now : Z) (reply : list Z) (addr : NetAddr).

Definition monitor_step (m : DevicePingMonitor) (e : Event) : DevicePingMonitor * list Trigger :=
  match e with
  | EvAdd id pc draws => (default m (AddPeer m id pc draws), [])
  | EvSend now send => (sendPingsToAllPeers send now m, [])
  | EvCheck now => checkForTimeouts now m
  | EvReply now reply addr => (dispatchReply now m reply addr, [])
  end.
Fixpoint monitor_run (m : DevicePingMonitor) (es : list Event) : DevicePingMonitor * list Trigger :=
  match es with
  | [] => (m, [])
  | e :: es' =>
      let '(m1, t1) := monitor_step m e in
      let '(m2, t2) := monitor_run m1 es' in (m2, t1 ++ t2)
  end.
End monitor.

(** ** The controller: which peers are monitored, and the lookup of a state *)

(** The peers of [Execute] grouped by device: only those with pings enabled and a
    target. *)
Definition monitored_peers (peers : list Peer) (deviceName : string) : list Peer :=
  List.filter (fun p => Enabled (PingConfig p) && (Target (PingConfig p) <>s "") &&
                        (DeviceName p =s deviceName)) peers.

(** The devices that get a monitor: a connection must open for each. *)
Definition monitored_devices (peers : list Peer) (conn_opens : string -> bool) : gset string :=
  list_to_set (List.filter conn_opens
    (map DeviceName (List.filter (fun p => Enabled (PingConfig p) && (Target (PingConfig p) <>s "")) peers))).

(** [monitors]: the device monitors in an iteration order. *)
Fixpoint GetPeerState (monitors : list DevicePingMonitor) (id : PeerId) : bool * Z :=
  match monitors with
  | [] => (true, 0)
  | m :: ms =>
      match peerStates m !! id with
      | Some s => (isHealthy s, failureCount s)
      | None => GetPeerState ms id
      end
  end.

(** ** Theorems *)

Section retry.
Variables fixedRetries refreshInterval : Z.
(** The limits [validateConfigForGOOS] enforces. *)
Context (HF : 1 <= fixedRetries <= 10) (HR : Second <= refreshInterval <= 240 * Second).

(** The retry counter never passes the first back-off step that reaches the
    refresh interval, and only a failing peer is handed over. *)
Definition retry_inv (s : PeerPingState) : Prop :=
  0 <= retryCount s /\
  (retryCount s <= fixedRetries \/ 5 * Second * (retryCount s - fixedRetries - 1) < refreshInterval) /\
  (handedOverToRefresh s = false ->
     retryCount s <= fixedRetries \/ 5 * Second * (retryCount s - fixedRetries) < refreshInterval) /\
  (handedOverToRefresh s = true -> fixedRetries < retryCount s) /\
  (isHealthy s = true -> retryCount s = 0 /\ failureCount s = 0 /\ handedOverToRefresh s = false).

(** [F + R/5s + 1] retries at most. *)
Definition retry_bound : Z := fixedRetries + refreshInterval / (5 * Second) + 1.

Lemma retry_inv_bound s : retry_inv s -> retryCount s <= retry_bound.
Proof.
  unfold retry_inv, retry_bound, Second in *. intros (H0 & H & _).
  destruct H as [H|H]; [pose proof (Z.div_pos refreshInterval (5 * 1000000000)); lia|].
  assert (retryCount s - fixedRetries - 1 <= refreshInterval / (5 * 1000000000)); [|lia].
  apply Z.div_le_lower_bound; lia.
Qed.

Lemma schedule_inv s now :
  retry_inv s -> handedOverToRefresh s = false \/ retryCount s = 0 -> isHealthy s = false ->
  retry_inv (scheduleNextRetry fixedRetries refreshInterval s now) /\
  retryCount (scheduleNextRetry fixedRetries refreshInterval s now) = retryCount s + 1.
Proof.
  intros Hi Hh Hu. pose proof (retry_inv_bound s Hi) as Hb.
  destruct Hi as (H0 & H1 & H2 & H3 & H4).
  assert (handedOverToRefresh s = false) as Hho.
  { destruct Hh as [Hh|Hh]; [done|]. destruct (handedOverToRefresh s); [|done].
    specialize (H3 eq_refl). lia. }
  specialize (H2 Hho). unfold retry_bound, Second in *.
  assert (refreshInterval / (5 * 1000000000) <= 48) by (apply Z.div_le_upper_bound; lia).
  unfold scheduleNextRetry. cbv zeta. rewrite (wrap64_id (retryCount s + 1)) by lia.
  rewrite (wrap64_id (retryCount s + 1 - fixedRetries)) by lia.
  rewrite (wrap64_id (5 + _)) by lia. unfold Second. rewrite wrap64_id by lia.
  destruct (Z.leb_spec (retryCount s + 1) fixedRetries) as [C|C]; [|
    destruct (Z.leb_spec refreshInterval ((5 + (retryCount s + 1 - fixedRetries - 1) * 5) * 1000000000))
      as [D|D]]; unfold retry_inv, Second; cbn [retryCount failureCount handedOverToRefresh isHealthy set_retry];
    rewrite ?Hho, ?Hu; (split; [|done]); split_and!; try done; try lia; intros; try done; lia.
Qed.

(** A failure before the retry decision. *)
Definition failed (s : PeerPingState) (now : Z) : PeerPingState :=
  mkPPS (pp_peerId s) (pp_target s) (pp_targetIP s) (pp_interval s) (pp_timeout s)
    false (wrap64 (failureCount s + 1)) now (lastSentTime s) (icmpId s)
    (lastRetryTime s) (nextRetryTime s) (retryCount s) (backoffMultiplier s) (handedOverToRefresh s).

Lemma handle_false s now :
  handlePingResult fixedRetries refreshInterval s now false =
  if shouldRetryPublishEstablish (failed s now) now
  then (scheduleNextRetry fixedRetries refreshInterval (failed s now) now,
        [PublishFor (pp_peerId s); EstablishFor (pp_peerId s)])
  else (failed s now, []).
Proof. done. Qed.

Lemma failed_inv s now : retry_inv s -> retry_inv (failed s now).
Proof. unfold retry_inv. cbn. intros (?&?&?&?&_). split_and!; done. Qed.

Lemma should_retry_open s now :
  shouldRetryPublishEstablish s now = true -> handedOverToRefresh s = false \/ retryCount s = 0.
Proof.
  unfold shouldRetryPublishEstablish. destruct (Z.eqb_spec (retryCount s) 0); [by right|].
  left. by destruct (handedOverToRefresh s).
Qed.

Lemma handle_inv s now b :
  retry_inv s -> retry_inv (handlePingResult fixedRetries refreshInterval s now b).1.
Proof.
  intros Hi. destruct b.
  { unfold retry_inv, Second in *. cbn. split_and!; try done; try lia; auto. }
  rewrite handle_false. destruct (shouldRetryPublishEstablish _ _) eqn:E; cbn [fst]; [|by apply failed_inv].
  by apply schedule_inv; [apply failed_inv|eapply should_retry_open|].
Qed.

(** A sequence of failures observed at the given instants. *)
Fixpoint failures (s : PeerPingState) (nows : list Z) : PeerPingState * list Trigger :=
  match nows with
  | [] => (s, [])
  | now :: nows' =>
      let '(s1, t1) := handlePingResult fixedRetries refreshInterval s now false in
      let '(s2, t2) := failures s1 nows' in (s2, t1 ++ t2)
  end.

Lemma handle_retry_count s now :
  retry_inv s ->
  let r := handlePingResult fixedRetries refreshInterval s now false in
  2 * (retryCount r.1 - retryCount s) = Z.of_nat (length r.2).
Proof.
  intros Hi. cbn zeta. rewrite handle_false.
  destruct (shouldRetryPublishEstablish _ _) eqn:E; cbn [fst snd length].
  - destruct (schedule_inv (failed s now) now) as [_ ->];
      [by apply failed_inv|by eapply should_retry_open|done|]. cbn [retryCount failed]. lia.
  - cbn [retryCount failed]. lia.
Qed.

Lemma failures_count s nows :
  retry_inv s ->
  retry_inv (failures s nows).1 /\
  2 * (retryCount (failures s nows).1 - retryCount s) = Z.of_nat (length (failures s nows).2).
Proof.
  revert s. induction nows as [|now nows IH]; intros s Hi; cbn [failures]; [split; [done|cbn; lia]|].
  pose proof (handle_inv s now false Hi) as Hi1.
  pose proof (handle_retry_count s now Hi) as Hr. cbn zeta in Hr.
  destruct (handlePingResult fixedRetries refreshInterval s now false) as [s1 t1]. cbn [fst snd] in *.
  destruct (IH s1 Hi1) as [Hi2 Hr2].
  destruct (failures s1 nows) as [s2 t2]. cbn [fst snd] in *. split; [done|].
  rewrite length_app. lia.
Qed.

(** A peer that stays down is retried a bounded number of times: whatever the
    number and timing of its failures, it causes at most
    fixed_retries + refresh_interval/5s + 1 pairs of publish and establish
    triggers before the refresh cycle takes over. *)
Theorem failing_peer_triggers_bounded s nows :
  retry_inv s -> retryCount s = 0 ->
  Z.of_nat (length (failures s nows).2) <= 2 * retry_bound.
Proof.
  intros Hi H0. destruct (failures_count s nows Hi) as [Hi2 Hr].
  pose proof (retry_inv_bound _ Hi2). lia.
Qed.

(** No trigger before the time set for the next retry. *)
Lemma failures_quiet s nows t :
  retryCount s <> 0 -> nextRetryTime s = t \/ handedOverToRefresh s = true ->
  t <> 0 -> Forall (fun now => now <= t) nows -> (failures s nows).2 = [].
Proof.
  revert s. induction nows as [|now nows IH]; intros s Hr Hn Ht Hall; [done|].
  apply Forall_cons_iff in Hall as [Hnow Hall]. cbn [failures]. rewrite handle_false.
  assert (shouldRetryPublishEstablish (failed s now) now = false) as ->.
  { unfold shouldRetryPublishEstablish, failed, time_After, time_IsZero.
    cbn [retryCount handedOverToRefresh nextRetryTime].
    destruct (Z.eqb_spec (retryCount s) 0); [done|]. destruct (handedOverToRefresh s) eqn:Eh; [done|].
    destruct Hn as [->|?]; [|done]. apply orb_false_iff. split; [apply Z.ltb_ge; lia|apply Z.eqb_neq; lia]. }
  pose proof (IH (failed s now) Hr Hn Ht Hall) as Hq.
  destruct (failures (failed s now) nows) as [s2 t2]. done.
Qed.

(** Retries are spaced: once a failure has triggered, no failure seen in the next
    two seconds triggers again, however many there are; and the first failure
    of a healthy peer triggers at once, publication before establishment. *)
Theorem retry_spacing s now nows :
  retry_inv s -> 0 < now ->
  Forall (fun t => t <= now + 2 * Second) nows ->
  let r := handlePingResult fixedRetries refreshInterval s now false in
  (r.2 <> [] -> (failures r.1 nows).2 = []) /\
  (isHealthy s = true -> r.2 = [PublishFor (pp_peerId s); EstablishFor (pp_peerId s)]).
Proof.
  intros Hi Hnow Hall. cbn zeta. rewrite handle_false. split.
  - destruct (shouldRetryPublishEstablish _ _) eqn:E; cbn [fst snd]; [intros _|done].
    pose proof (schedule_inv (failed s now) now (failed_inv _ _ Hi) (should_retry_open _ _ E) eq_refl) as [_ Hc].
    assert (0 <= retryCount s) as H0 by apply Hi.
    pose proof (retry_inv_bound s Hi) as Hb. unfold retry_bound, Second in *.
    assert (refreshInterval / (5 * 1000000000) <= 48) by (apply Z.div_le_upper_bound; lia).
    cbn [retryCount failed] in Hc.
    unfold scheduleNextRetry, Second in *. cbv zeta in *. cbn [retryCount failed] in *.
    rewrite (wrap64_id (retryCount s + 1)) in * by lia.
    rewrite (wrap64_id (retryCount s + 1 - fixedRetries)) in * by lia.
    rewrite (wrap64_id (5 + _)) in * by lia. rewrite (wrap64_id (_ * 1000000000)) in * by lia.
    destruct (Z.leb_spec (retryCount s + 1) fixedRetries) as [C|C]; [|
      destruct (Z.leb_spec refreshInterval ((5 + (retryCount s + 1 - fixedRetries - 1) * 5) * 1000000000))
        as [D|D]].
    + eapply (failures_quiet _ _ (now + 2 * 1000000000)); [cbn; lia|by left|lia|done].
    + eapply (failures_quiet _ _ (now + 2 * 1000000000)); [cbn; lia|by right|lia|done].
    + eapply (failures_quiet _ _ (now + (5 + (retryCount s + 1 - fixedRetries - 1) * 5) * 1000000000));
        [cbn; lia|by left|lia|].
      eapply Forall_impl; [|exact Hall]. intros t Ht. cbn beta in *. lia.
  - intros Hh. destruct Hi as (_ & _ & _ & _ & Hi). destruct (Hi Hh) as (Hr & _).
    unfold shouldRetryPublishEstablish. cbn [retryCount failed]. by rewrite Hr.
Qed.
End retry.

(** A healthy state, as [AddPeer] makes it. *)
Definition sample_state : PeerPingState :=
  mkPPS (NewPeerId [0] [1]) "10.0.0.2" (Addr4 167772162) Second Second true 0 0 0 7 0 0 0 1 false.

Lemma sample_state_inv : retry_inv 3 (180 * Second) sample_state.
Proof. unfold retry_inv, Second. cbn. split_and!; try done; try lia; auto. Defined.

Lemma failing_peer_triggers_bounded_witness :
  Z.of_nat (length (failures 3 (180 * Second) sample_state [1; 2; 3 * Second; 9 * Second]).2) <= 80.
Proof.
  apply (failing_peer_triggers_bounded 3 (180 * Second) ltac:(lia) ltac:(unfold Second; lia) sample_state
           [1; 2; 3 * Second; 9 * Second] sample_state_inv eq_refl).
Defined.

Lemma retry_spacing_witness :
  let r := handlePingResult 3 (180 * Second) sample_state 1 false in
  (r.2 <> [] -> (failures 3 (180 * Second) r.1 [2; Second]).2 = []) /\
  (isHealthy sample_state = true ->
   r.2 = [PublishFor (pp_peerId sample_state); EstablishFor (pp_peerId sample_state)]).
Proof.
  apply (retry_spacing 3 (180 * Second) ltac:(lia) ltac:(unfold Second; lia) sample_state 1 [2; Second]
           sample_state_inv); [lia|repeat constructor; vm_compute; discriminate].
Defined.
