(* ===== verification/PingMonitorFacts.v ===== *)
(** * The device monitor: attribution of replies, and detection of loss *)

From S2P Require Import Prelude GoStr Netip Discovery Entity Config PingMonitor.

Section monitor_facts.
Context `{IcmpLib}.
Variables fixedRetries refreshInterval defaultInterval defaultTimeout : Z.
Variable ResolveIPAddr : string -> option Addr.
Local Abbreviation run := (monitor_run fixedRetries refreshInterval defaultInterval defaultTimeout ResolveIPAddr).
Local Abbreviation step := (monitor_step fixedRetries refreshInterval defaultInterval defaultTimeout ResolveIPAddr).

(** What never changes about a state. *)
Definition same_identity (s t : PeerPingState) : Prop :=
  pp_peerId t = pp_peerId s /\ icmpId t = icmpId s /\ pp_targetIP t = pp_targetIP s /\
  pp_timeout t = pp_timeout s.

Lemma same_identity_refl s : same_identity s s.
Proof. done. Qed.

Lemma handle_identity s now b :
  same_identity s (handlePingResult fixedRetries refreshInterval s now b).1.
Proof.
  unfold handlePingResult. destruct b; [done|]. cbv zeta.
  destruct (shouldRetryPublishEstablish _ _); [|done]. cbn [fst].
  unfold scheduleNextRetry. cbv zeta. repeat case_match; done.
Qed.

Lemma check_identity s now : same_identity s (check_state fixedRetries refreshInterval s now).1.
Proof.
  unfold check_state. destruct (_ && _); [|done].
  apply (handle_identity (with_lastSent s 0) now false).
Qed.

Lemma send_identity send now s : same_identity s (sendPingForPeer send now s).
Proof. unfold sendPingForPeer. by repeat case_match. Qed.

(** Every monitored peer owns one identifier, and the identifier names it. *)
Definition monitor_inv (m : DevicePingMonitor) : Prop :=
  (forall id s, peerStates m !! id = Some s ->
     pp_peerId s = id /\ icmpIdToPeer m !! icmpId s = Some id /\ 1 <= icmpId s <= 65535) /\
  (forall k id, icmpIdToPeer m !! k = Some id -> k ∈ usedIcmpIds m).

Lemma generate_ok used draws id rest :
  Forall (fun r => 0 <= r < 65535) draws ->
  generateUniqueIcmpId used draws = Some (id, rest) -> id ∉ used /\ 1 <= id <= 65535.
Proof.
  induction draws as [|r draws IH]; cbn [generateUniqueIcmpId]; [done|].
  intros [Hr Hd]%Forall_cons_iff. rewrite wrap16_id by (unfold is_u16; lia).
  destruct (bool_decide_reflect (r + 1 ∈ used)); [by apply IH|].
  intros [= <- <-]. split; [done|lia].
Qed.

Lemma fmap_inv m f :
  (forall s, same_identity s (f s)) -> monitor_inv m ->
  monitor_inv (mkDPM (pm_deviceName m) (f <$> peerStates m) (usedIcmpIds m) (icmpIdToPeer m)).
Proof.
  intros Hf [H1 H2]. split; [|done]. cbn. intros id s Hs. apply lookup_fmap_Some in Hs as (s0 & <- & Hs).
  destruct (Hf s0) as (-> & -> & _). by apply H1.
Qed.

(** The random source stays in range. *)
Definition event_ok (e : Event) : Prop :=
  match e with EvAdd _ _ draws => Forall (fun r => 0 <= r < 65535) draws | _ => True end.

Lemma step_inv m e : event_ok e -> monitor_inv m -> monitor_inv (step m e).1.
Proof.
  intros He Hm. destruct e as [id pc draws|now send|now|now reply addr]; cbn [monitor_step fst].
  - unfold AddPeer. destruct (_ || _); [done|]. cbv zeta.
    destruct (generateUniqueIcmpId (usedIcmpIds m) draws) as [[k rest]|] eqn:E; [|done].
    apply generate_ok in E as [Hk Hr]; [|done]. destruct Hm as [H1 H2].
    destruct (ResolveIPAddr (Target pc)) as [ip|]; cbn [default]; (split; cbn).
    + intros id' s Hs. destruct (decide (id' = id)) as [->|Hne].
      * rewrite lookup_insert_eq in Hs. simplify_eq. cbn. rewrite lookup_insert_eq. done.
      * rewrite lookup_insert_ne in Hs by done. destruct (H1 _ _ Hs) as (? & Hi & ?).
        split; [done|split; [|done]]. rewrite lookup_insert_ne; [done|]. intros ->. apply Hk. by eapply H2.
    + intros k' id' Hs. destruct (decide (k' = k)) as [->|Hne]; [set_solver|].
      rewrite lookup_insert_ne in Hs by done. apply H2 in Hs. set_solver.
    + done.
    + intros k' id' Hs. apply H2 in Hs. set_solver.
  - apply fmap_inv; [|done]. apply send_identity.
  - unfold checkForTimeouts. cbn [fst]. apply fmap_inv; [|done]. intros s. apply check_identity.
  - unfold dispatchReply. destruct (icmp_ParseMessage reply) as [[ty [ID sq dt|]]|]; try done. cbv zeta.
    destruct (icmpIdToPeer m !! wrap16 ID) as [id|]; [|done].
    destruct (peerStates m !! id) as [s|] eqn:Es; [|done].
    destruct (validateReply addr s (wrap16 ID)); [|done]. destruct Hm as [H1 H2]. split; [|done]. cbn.
    intros id' s' Hs. destruct (decide (id' = id)) as [->|Hne].
    + rewrite lookup_insert_eq in Hs. simplify_eq. apply (H1 _ _ Es).
    + rewrite lookup_insert_ne in Hs by done. by apply H1.
Qed.

Lemma run_inv m es : Forall event_ok es -> monitor_inv m -> monitor_inv (run m es).1.
Proof.
  revert m. induction es as [|e es IH]; intros m He Hm; cbn [monitor_run]; [done|].
  apply Forall_cons_iff in He as [He Hes]. pose proof (step_inv m e He Hm) as H1.
  destruct (step m e) as [m1 t1]. specialize (IH m1 Hes H1). by destruct (run m1 es) as [m2 t2].
Qed.

(** Replies are attributed safely: in every reachable monitor state a received
    packet changes at most one peer, the only one that owns the packet's
    identifier, and only when it comes from that peer's target address; that
    peer becomes healthy and its retries are reset. *)
Theorem reply_attribution dev es now reply addr :
  Forall event_ok es ->
  let m := (run (NewDevicePingMonitor dev) es).1 in
  let m' := dispatchReply fixedRetries refreshInterval now m reply addr in
  m' = m \/
  exists id s s' a, peerStates m !! id = Some s /\ addr = IPAddr a /\ IP_Equal a (pp_targetIP s) = true /\
    peerStates m' = <[id := s']> (peerStates m) /\
    isHealthy s' = true /\ retryCount s' = 0 /\ handedOverToRefresh s' = false /\
    forall id2 s2, peerStates m !! id2 = Some s2 -> icmpId s2 = icmpId s -> id2 = id.
Proof.
  intros Hes. cbn zeta.
  assert (monitor_inv (run (NewDevicePingMonitor dev) es).1) as [Hinv _].
  { apply run_inv; [done|]. split; cbn; intros ? ?; by rewrite lookup_empty. }
  revert Hinv. generalize (run (NewDevicePingMonitor dev) es).1 as m. intros m Hinv.
  unfold dispatchReply. destruct (icmp_ParseMessage reply) as [[ty [ID sq dt|]]|]; [|by left..].
  cbv zeta. destruct (icmpIdToPeer m !! wrap16 ID) as [id|] eqn:Ei; [|by left].
  destruct (peerStates m !! id) as [s|] eqn:Es; [|by left].
  destruct (validateReply addr s (wrap16 ID)) eqn:Ev; [|by left]. right.
  unfold validateReply in Ev. destruct addr as [a|]; [|done].
  apply andb_true_iff in Ev as [Ea Eid%Z.eqb_eq].
  eexists id, s, _, a. split_and!; try done.
  intros id2 s2 Hs2 Heq. destruct (Hinv _ _ Hs2) as (_ & Hi2 & _). rewrite Heq, <-Eid, Ei in Hi2. congruence.
Qed.

(** ** Loss is not always seen *)

(** One tick of the sender at [t], then timeout checks at the instants [cs]. *)
Definition round (r : Z * list Z) : list Event :=
  EvSend r.1 (fun _ _ => true) :: map EvCheck r.2.

Lemma check_quiet m now cs :
  (forall id s, peerStates m !! id = Some s -> lastSentTime s = now) ->
  Forall (fun c => now <= c < now + 2 ^ 63 /\ forall id s, peerStates m !! id = Some s -> c - now <= pp_timeout s) cs ->
  run m (map EvCheck cs) = (m, []).
Proof.
  intros Hsent Hcs. induction cs as [|c cs IH]; [done|]. apply Forall_cons_iff in Hcs as [[Hc Hto] Hcs].
  cbn [map monitor_run monitor_step].
  assert (forall id s, peerStates m !! id = Some s -> check_state fixedRetries refreshInterval s c = (s, [])) as Hq.
  { intros id s Hs. unfold check_state. rewrite (Hsent _ _ Hs).
    assert (pp_timeout s <? time_Sub c now = false) as ->; [|by rewrite andb_false_r].
    apply Z.ltb_ge. specialize (Hto _ _ Hs). unfold time_Sub. lia. }
  assert (checkForTimeouts fixedRetries refreshInterval c m = (m, [])) as ->.
  { unfold checkForTimeouts. f_equal.
    - destruct m as [dn ps us ip]. cbn in *. f_equal. apply map_eq. intros id. rewrite lookup_fmap.
      destruct (ps !! id) as [s|] eqn:E; [|done]. cbn. by rewrite (Hq _ _ E).
    - assert (forall l, (forall p, In p l -> peerStates m !! p.1 = Some p.2) ->
        concat (map (fun p => (check_state fixedRetries refreshInterval p.2 c).2) l) = @nil Trigger) as Hl.
      { induction l as [|p l IHl]; intros Hp; [done|]. cbn.
        rewrite (Hq p.1 p.2) by (apply Hp; by left). apply IHl. intros. apply Hp. by right. }
      apply Hl. intros [id s] Hp. by apply list_elem_of_In, elem_of_map_to_list in Hp. }
  by rewrite IH.
Qed.

Lemma run_app m es fs :
  run m (es ++ fs) =
  let '(m1, t1) := run m es in let '(m2, t2) := run m1 fs in (m2, t1 ++ t2).
Proof.
  revert m. induction es as [|e es IH]; intros m; cbn [app monitor_run].
  { by destruct (run m fs). }
  destruct (step m e) as [m1 t1]. rewrite IH. destruct (run m1 es) as [m2 t2].
  destruct (run m2 fs) as [m3 t3]. by rewrite app_assoc.
Qed.

Lemma send_all_lookup m t id :
  (forall n d, icmp_Marshal_echo n 1 d <> None) ->
  peerStates (sendPingsToAllPeers (fun _ _ => true) t m) !! id =
  (fun s => with_lastSent s t) <$> peerStates m !! id.
Proof.
  intros Hmar. unfold sendPingsToAllPeers, sendPingForPeer. cbn [peerStates]. rewrite lookup_fmap.
  destruct (peerStates m !! id) as [s|]; cbn [fmap option_fmap option_map]; [|done].
  destruct (icmp_Marshal_echo (icmpId s) 1 ping_data) as [l|] eqn:E; [done|]. by apply Hmar in E.
Qed.

(** Every send moves the deadline of every peer, so when the sender's interval is
    no longer than the peers' timeouts, no timeout ever expires: over any
    number of rounds without a single reply nothing is triggered and the
    health of the peers is untouched. *)
Theorem loss_unseen_when_interval_within_timeout m rounds interval :
  (forall n d, icmp_Marshal_echo n 1 d <> None) ->
  (forall id s, peerStates m !! id = Some s -> interval <= pp_timeout s) ->
  interval < 2 ^ 63 ->
  Forall (fun r => Forall (fun c => r.1 <= c <= r.1 + interval) r.2) rounds ->
  (run m (concat (map round rounds))).2 = [] /\
  forall id s, peerStates m !! id = Some s -> exists s',
    peerStates (run m (concat (map round rounds))).1 !! id = Some s' /\ isHealthy s' = isHealthy s.
Proof.
  intros Hmar Hto Hint Hr. revert m Hto.
  induction rounds as [|[t cs] rounds IH]; intros m Hto; cbn [map concat].
  { split; [done|]. intros id s Hs. by exists s. }
  apply Forall_cons_iff in Hr as [Hr Hrs]. cbn [fst snd] in Hr. specialize (IH Hrs).
  change (round (t, cs)) with ([EvSend t (fun _ _ => true)] ++ map EvCheck cs).
  rewrite <-app_assoc, run_app. cbn [monitor_run monitor_step].
  pose proof (fun id => send_all_lookup m t id Hmar) as Hm1.
  revert Hm1. generalize (sendPingsToAllPeers (fun _ _ => true) t m) as m1. intros m1 Hm1.
  assert (forall id s, peerStates m1 !! id = Some s ->
    exists s0, peerStates m !! id = Some s0 /\ s = with_lastSent s0 t) as Hback.
  { intros id s. rewrite Hm1. intros Hs. apply fmap_Some in Hs as (s0 & ? & ?). by exists s0. }
  rewrite run_app, (check_quiet m1 t cs).
  - cbn [app]. destruct (IH m1) as [Ht Hs].
    + intros id s Hs. apply Hback in Hs as (s0 & Hs0 & ->). by apply Hto in Hs0.
    + destruct (run m1 (concat (map round rounds))) as [m2 t2]. cbn [fst snd] in *. split; [done|].
      intros id s Hs1. apply (Hs id (with_lastSent s t)). by rewrite Hm1, Hs1.
  - intros id s Hs. by apply Hback in Hs as (s0 & _ & ->).
  - eapply Forall_impl; [|exact Hr]. intros c Hc. cbn beta in Hc. split; [lia|].
    intros id s Hs. apply Hback in Hs as (s0 & Hs0 & ->). apply Hto in Hs0. cbn. lia.
Qed.
End monitor_facts.

(** An ICMP library that writes the identifier and reads it back. *)
Definition sample_icmp : IcmpLib :=
  {| icmp_Marshal_echo := fun id _ _ => Some [id];
     icmp_ParseMessage := fun l => match l with [id] => Some (0, Echo id 1 []) | _ => None end |}.
Definition sample_ping : PeerPingConfig := mkPing true "10.0.0.2" Second (5 * Second).
Definition sample_events : list Event := [EvAdd (NewPeerId [0] [1]) sample_ping [6]].
Definition sample_resolve : string -> option Addr := fun _ => Some (Addr4 167772162).

Lemma reply_attribution_witness :
  let m := (@monitor_run sample_icmp 3 (180 * Second) Second Second sample_resolve
              (NewDevicePingMonitor "wg0") sample_events).1 in
  let m' := @dispatchReply sample_icmp 3 (180 * Second) 5 m [7] (IPAddr (Addr4 167772162)) in
  m' = m \/
  exists id s s' a, peerStates m !! id = Some s /\ IPAddr (Addr4 167772162) = IPAddr a /\
    IP_Equal a (pp_targetIP s) = true /\
    peerStates m' = <[id := s']> (peerStates m) /\
    isHealthy s' = true /\ retryCount s' = 0 /\ handedOverToRefresh s' = false /\
    forall id2 s2, peerStates m !! id2 = Some s2 -> icmpId s2 = icmpId s -> id2 = id.
Proof.
  apply (@reply_attribution sample_icmp 3 (180 * Second) Second Second sample_resolve "wg0" sample_events 5
           [7] (IPAddr (Addr4 167772162))).
  repeat constructor; lia.
Defined.

Lemma loss_unseen_when_interval_within_timeout_witness :
  let m := mkDPM "wg0" {[ NewPeerId [0] [1] := sample_state ]} ∅ ∅ in
  let rounds := [(Second, [Second + 500]); (2 * Second, [2 * Second + 500])] in
  (@monitor_run sample_icmp 3 (180 * Second) Second Second sample_resolve m (concat (map round rounds))).2 = [] /\
  forall id s, peerStates m !! id = Some s -> exists s',
    peerStates (@monitor_run sample_icmp 3 (180 * Second) Second Second sample_resolve m
      (concat (map round rounds))).1 !! id = Some s' /\ isHealthy s' = isHealthy s.
Proof.
  apply (@loss_unseen_when_interval_within_timeout sample_icmp 3 (180 * Second) Second Second sample_resolve
           (mkDPM "wg0" {[ NewPeerId [0] [1] := sample_state ]} ∅ ∅)
           [(Second, [Second + 500]); (2 * Second, [2 * Second + 500])] Second).
  - done.
  - intros id s Hs. cbn [peerStates] in Hs. apply lookup_singleton_Some in Hs as [_ <-]. vm_compute. discriminate.
  - vm_compute. reflexivity.
  - repeat constructor; vm_compute; discriminate.
Defined.
