(* ===== verification/IcmpConn.v ===== *)
(** * internal/ctrl/ping_monitor_{linux,darwinbsd,windows}.go: the ICMP sockets

    Opening, using and closing the socket of a device's ping monitor, on each
    platform, with the file descriptors it holds; and the monitor's reader loop
    over it.  What the kernel and golang.org/x/net answer are arguments. *)

From S2P Require Import Prelude GoStr GoTime Codec Netip NetipFacts Entity PingMonitor PingMonitorFacts.

(** ** Linux: opening *)

Definition Fds : Type := gset Z.
Record ICMPConn := mkICMPConn { ic_conn : option Z; ic_file : option Z; ic_deviceName : string }.
(** A new descriptor, or none; what closing one reports - it is closed either way. *)
Record IcmpOS := mkIcmpOS {
  os_socket : option Z;              (* syscall.Socket *)
  os_bind : bool;                    (* SO_BINDTODEVICE *)
  os_packet : option Z;              (* net.FilePacketConn: its own descriptor *)
  os_raw : bool;                     (* ipv4.NewRawConn *)
  os_close : Z -> bool
}.
Definition close_fd (os : IcmpOS) (fd : Z) (fds : Fds) : Fds * bool := (fds ∖ {[fd]}, os_close os fd).
Definition NewICMPConn (os : IcmpOS) (deviceName : string) (fds : Fds) : Fds * result ICMPConn :=
  match os_socket os with
  | None => (fds, Err (ENew "failed to create raw ICMP socket"))
  | Some fd =>
      let fds := {[fd]} ∪ fds in
      if (deviceName <>s "") && negb (os_bind os) then
        let '(fds, closed) := close_fd os fd fds in
        (fds, Err (ENew (if closed then "failed to bind socket to device" else "failed to close syscall socket")))
      else
        match os_packet os with
        | None =>
            let '(fds, closed) := close_fd os fd fds in
            (fds, Err (ENew (if closed then "failed to create PacketConn from file" else "failed to close filePacketConn")))
        | Some nfd =>
            let fds := {[nfd]} ∪ fds in
            if os_raw os then (fds, Ok (mkICMPConn (Some nfd) (Some fd) deviceName))
            else
              let '(fds, closed) := close_fd os nfd fds in
              if negb closed then (fds, Err (ENew "failed to close netConn"))
              else
                let '(fds, closed) := close_fd os fd fds in
                (fds, Err (ENew (if closed then "failed to create IPv4 raw connection" else "failed to close file")))
        end
  end.
(** Both are closed, and the first error is reported. *)
Definition close_opt (os : IcmpOS) (fd : option Z) (fds : Fds) : Fds * bool :=
  match fd with Some fd => close_fd os fd fds | None => (fds, true) end.
Definition ICMPConn_Close (os : IcmpOS) (c : ICMPConn) (fds : Fds) : Fds * result unit :=
  let '(fds, ok1) := close_opt os (ic_conn c) fds in
  let '(fds, ok2) := close_opt os (ic_file c) fds in
  (fds, if ok1 && ok2 then Ok tt else Err (ENew "close error")).
(** [SetReadDeadline] needs a connection; [set] is the socket's own answer. *)
Definition ICMPConn_SetReadDeadline (c : ICMPConn) (set : bool) : result unit :=
  match ic_conn c with
  | None => Err (ENew "connection not initialized")
  | Some _ => if set then Ok tt else Err (ENew "deadline error")
  end.

(** ** Linux: sending and receiving *)

Record Ip4Header := mkIp4Header {
  h_Version : Z; h_Len : Z; h_TotalLen : Z; h_TTL : Z; h_Protocol : Z; h_Dst : Addr
}.
Definition ICMPConn_Send (data : list Z) (addr : NetAddr) : result (Ip4Header * list Z) :=
  match addr with
  | OtherAddr => Err (ENew "address must be *net.IPAddr")
  | IPAddr ip => Ok (mkIp4Header 4 20 (20 + Z.of_nat (length data)) 64 1 ip, data)
  end.
(** [copy] into a buffer of its own size. *)
Definition copy_into (buffer payload : list Z) : list Z :=
  take (length buffer) payload ++ drop (length payload) buffer.
(** [read]: the source and the payload the raw connection reads, the payload
    being a part of the buffer.  What comes back is the buffer, and the number of
    bytes and the source. *)
Definition ICMPConn_Recv (c : ICMPConn) (buffer : list Z) (timeout : Z) (set : bool) (read : option (Addr * list Z))
    : list Z * result (nat * NetAddr) :=
  let go := match read with
            | None => (buffer, Err (ENew "read error"))
            | Some (src, payload) => (copy_into buffer payload, Ok (length payload, IPAddr src))
            end in
  if 0 <? timeout then match ICMPConn_SetReadDeadline c set with Err e => (buffer, Err e) | Ok _ => go end else go.

(** ** The other platforms *)

(** darwin and freebsd: one connection, the device ignored. *)
Definition NewICMPConn_bsd (listen : option Z) (deviceName : string) (fds : Fds) : Fds * result ICMPConn :=
  match listen with
  | None => (fds, Err (ENew "failed to create ICMP connection"))
  | Some fd => ({[fd]} ∪ fds, Ok (mkICMPConn (Some fd) None deviceName))
  end.
Definition ICMPConn_Send_bsd (data : list Z) (addr : NetAddr) (write : list Z -> NetAddr -> bool) : result unit :=
  if write data addr then Ok tt else Err (ENew "write error").
(** The packet is read straight into the buffer. *)
Definition ICMPConn_Recv_bsd (c : ICMPConn) (buffer : list Z) (timeout : Z) (set : bool) (read : option (NetAddr * list Z))
    : list Z * result (nat * NetAddr) :=
  let go := match read with
            | None => (buffer, Err (ENew "read error"))
            | Some (addr, packet) => (copy_into buffer packet, Ok (length packet, addr))
            end in
  if 0 <? timeout then match ICMPConn_SetReadDeadline c set with Err e => (buffer, Err e) | Ok _ => go end else go.
Definition ICMPConn_Close_bsd (os : IcmpOS) (c : ICMPConn) (fds : Fds) : Fds * result unit :=
  let '(fds, ok) := close_opt os (ic_conn c) fds in (fds, if ok then Ok tt else Err (ENew "close error")).
(** windows: never opened. *)
Definition ErrICMPNotImplemented : error := ENew "ICMP ping monitoring is not implemented on windows yet".
Definition NewICMPConn_windows (deviceName : string) : result ICMPConn := Err ErrICMPNotImplemented.
Definition ICMPConn_Send_windows (data : list Z) (addr : NetAddr) : result unit := Err ErrICMPNotImplemented.
Definition ICMPConn_Recv_windows (buffer : list Z) (timeout : Z) : result (nat * NetAddr) := Err ErrICMPNotImplemented.
Definition ICMPConn_Close_windows : result unit := Ok tt.
Definition ICMPConn_SetReadDeadline_windows : result unit := Err ErrICMPNotImplemented.

(** ** The loops of a monitor *)

Section loops.
Context `{IcmpLib}.
Variables fixedRetries refreshInterval : Z.

(** One round of the reader: whether the context is done by then, what the
    socket answers, and the time. *)
Record Round := mkRound { rd_done : bool; rd_set : bool; rd_read : option (Addr * list Z); rd_now : Z }.
(** The loop, over the buffer it keeps for its whole life. *)
Fixpoint deviceReaderLoop (c : ICMPConn) (rounds : list Round) (buffer : list Z) (m : DevicePingMonitor) : DevicePingMonitor :=
  match rounds with
  | [] => m
  | rd :: rounds' =>
      if rd_done rd then m
      else
        let '(buffer, r) := ICMPConn_Recv c buffer (500 * 1000000) (rd_set rd) (rd_read rd) in
        match r with
        | Err _ => deviceReaderLoop c rounds' buffer m
        | Ok (n, addr) =>
            deviceReaderLoop c rounds' buffer (dispatchReply fixedRetries refreshInterval (rd_now rd) m (take n buffer) addr)
        end
  end.
(** The two tickers: a tick, or the end of the context. *)
Fixpoint deviceSenderLoop (ticks : list (option (Z * (list Z -> Addr -> bool)))) (m : DevicePingMonitor) : DevicePingMonitor :=
  match ticks with
  | Some (now, send) :: ticks' => deviceSenderLoop ticks' (sendPingsToAllPeers send now m)
  | _ => m
  end.
Fixpoint deviceTimeoutChecker (ticks : list (option Z)) (m : DevicePingMonitor) : DevicePingMonitor * list Trigger :=
  match ticks with
  | Some now :: ticks' =>
      let '(m, t) := checkForTimeouts fixedRetries refreshInterval now m in
      let '(m, ts) := deviceTimeoutChecker ticks' m in (m, t ++ ts)
  | _ => (m, [])
  end.
End loops.

(** ** Descriptors *)

(** Nothing stays open when opening fails - short of an error while closing,
    which ends the clean-up early - and a connection that was opened gives back
    both of its descriptors when it is closed, whatever closing reports. *)
Lemma NewICMPConn_fds os dev fds fds' r fd nfd :
  os_socket os = Some fd -> os_packet os = Some nfd -> fd ∉ fds -> nfd ∉ fds -> fd <> nfd ->
  NewICMPConn os dev fds = (fds', r) ->
  match r with
  | Ok c => fds' = {[nfd]} ∪ ({[fd]} ∪ fds) /\ (ICMPConn_Close os c fds').1 = fds
  | Err _ => fds' = fds \/ (os_close os nfd = false /\ fds' = {[fd]} ∪ fds)
  end.
Proof.
  intros Hs Hp Hf Hn Hne. unfold NewICMPConn, close_fd. rewrite Hs, Hp.
  destruct (_ && negb (os_bind os)). { intros [<- <-]%pair_equal_spec. left. set_solver. }
  destruct (os_raw os).
  - intros [<- <-]%pair_equal_spec. split; [done|]. unfold ICMPConn_Close. cbn [ic_conn ic_file close_opt close_fd fst]. set_solver.
  - destruct (os_close os nfd) eqn:En; cbn [negb].
    + intros [<- <-]%pair_equal_spec. left. set_solver.
    + intros [<- <-]%pair_equal_spec. right. split; [done|]. set_solver.
Qed.

(** ** The reader sees exactly the packets *)

Lemma take_copy buffer payload : (length payload <= length buffer)%nat ->
  take (length payload) (copy_into buffer payload) = payload /\ length (copy_into buffer payload) = length buffer.
Proof.
  intros Hl. unfold copy_into. rewrite (take_ge payload) by done. split; [by rewrite take_app_length|].
  rewrite length_app, length_drop. lia.
Qed.
Section reader.
Context `{lib : IcmpLib}.
Variables fixedRetries refreshInterval : Z.

(** The packets of the rounds before the context ends. *)
Fixpoint packets (rounds : list Round) : list Event :=
  match rounds with
  | [] => []
  | rd :: rounds' =>
      if rd_done rd then []
      else match rd_set rd, rd_read rd with
           | true, Some (src, payload) => EvReply (rd_now rd) payload (IPAddr src) :: packets rounds'
           | _, _ => packets rounds'
           end
  end.
Lemma reader_run c fd di dt resolve rounds : ic_conn c = Some fd -> forall buffer m,
  Forall (fun rd => match rd_read rd with Some (_, p) => (length p <= length buffer)%nat | None => True end) rounds ->
  deviceReaderLoop fixedRetries refreshInterval c rounds buffer m =
  (monitor_run fixedRetries refreshInterval di dt resolve m (packets rounds)).1.
Proof.
  intros Hc. induction rounds as [|rd rounds IH]; intros buffer m Hl; [done|]. apply Forall_cons_iff in Hl as [Hl Hr].
  cbn [deviceReaderLoop packets]. destruct (rd_done rd); [done|].
  unfold ICMPConn_Recv, ICMPConn_SetReadDeadline. rewrite Hc. change (0 <? 500 * 1000000) with true. cbn iota.
  destruct (rd_set rd); [|by apply IH]. destruct (rd_read rd) as [[src payload]|]; [|by apply IH].
  destruct (take_copy buffer payload Hl) as [Ht Hlen]. rewrite Ht. cbn [monitor_run monitor_step].
  rewrite IH by (by rewrite Hlen). by destruct (monitor_run _ _ _ _ _ _ _).
Qed.
(** C29: The reader loop shares one buffer between packets, and no byte of one
    packet is ever taken for another's: as long as packets fit the buffer, the
    loop is the monitor's run on exactly the payloads received, in order, until
    the context ends. *)
Theorem reader_loop_exact c fd defaultInterval defaultTimeout resolve rounds buffer m : ic_conn c = Some fd ->
  Forall (fun rd => match rd_read rd with Some (_, p) => (length p <= length buffer)%nat | None => True end) rounds ->
  deviceReaderLoop fixedRetries refreshInterval c rounds buffer m =
  (monitor_run fixedRetries refreshInterval defaultInterval defaultTimeout resolve m (packets rounds)).1.
Proof. intros Hc. by eapply reader_run. Qed.
End reader.

(** ** Witnesses *)

#[local] Instance w_icmp : IcmpLib := {|
  icmp_Marshal_echo := fun id _ _ => Some [0; 0; id / 256; id mod 256];
  icmp_ParseMessage := fun b => match b with [0; 0; h; l] => Some (0, Echo (h * 256 + l) 1 []) | _ => None end |}.
Definition w_rounds : list Round :=
  [mkRound false true (Some (Addr4 1, [1; 2; 3; 4; 5])) 1; mkRound false true None 2; mkRound false true (Some (Addr4 1, [9])) 3; mkRound true true None 4].
Definition w_conn : ICMPConn := mkICMPConn (Some 5) (Some 4) "wg0".
Lemma reader_loop_exact_witness :
  deviceReaderLoop 3 0 w_conn w_rounds (replicate 8 0) (NewDevicePingMonitor "wg0") =
  (monitor_run 3 0 0 0 (fun _ => None) (NewDevicePingMonitor "wg0") (packets w_rounds)).1.
Proof. apply (reader_loop_exact 3 0 w_conn 5 0 0 (fun _ => None) w_rounds (replicate 8 0)); [done|]. repeat constructor. Defined.
