(* ===== verification/Routeprobe.v ===== *)
(** * internal/routeprobe: does a tunnel swallow our traffic?

    The portable rules (routeprobe.go, probe.go) and the readers of the route
    tables: Linux's files (probe_linux.go), the BSD route messages
    (probe_darwinbsd.go) and Windows' forwarding table (probe_windows.go).
    Reading the files and the kernel's tables is answered by the environment. *)

From S2P Require Import Prelude GoStr Codec Netip.

(** ** routeprobe.go *)

Inductive Family : Type := IPv4 | IPv6.
#[export] Instance Family_eq_dec : EqDecision Family.
Proof. solve_decision. Defined.

Record Route := mkRoute { rt_Prefix : Prefix; rt_Interface : string; rt_Index : Z }.

Definition halfV4Low : Prefix := mkPrefix (Addr4 0) 1.
Definition halfV4High : Prefix := mkPrefix (Addr4 (2 ^ 31)) 1.
Definition halfV6Low : Prefix := mkPrefix (Addr6 0 "") 1.
Definition halfV6High : Prefix := mkPrefix (Addr6 (2 ^ 127) "") 1.

Definition familyMatches (p : Prefix) (family : Family) : bool :=
  match family with
  | IPv4 => Is4 (pf_addr p)
  | IPv6 => Is6 (pf_addr p) && negb (Is4In6 (pf_addr p))
  end.

Definition low_half (family : Family) : Prefix := match family with IPv4 => halfV4Low | IPv6 => halfV6Low end.
Definition high_half (family : Family) : Prefix := match family with IPv4 => halfV4High | IPv6 => halfV6High end.

Fixpoint covering_loop (family : Family) (isTunnel : string -> bool) (sawLow sawHigh : bool)
    (routes : list Route) : bool :=
  match routes with
  | [] => false
  | r :: rest =>
      if negb (familyMatches (rt_Prefix r) family) then covering_loop family isTunnel sawLow sawHigh rest
      else if negb (isTunnel (rt_Interface r)) then covering_loop family isTunnel sawLow sawHigh rest
      else if pf_bits (rt_Prefix r) =? 0 then true
      else
        let p := Masked (rt_Prefix r) in
        let sawLow := sawLow || bool_decide (p = low_half family) in
        let sawHigh := sawHigh || bool_decide (p = high_half family) in
        if sawLow && sawHigh then true else covering_loop family isTunnel sawLow sawHigh rest
  end.
(** [None] is a nil [isTunnel]. *)
Definition HasCoveringDefault (routes : list Route) (family : Family) (isTunnel : option (string -> bool)) : bool :=
  match isTunnel with
  | None => false
  | Some f => covering_loop family f false false routes
  end.

Fixpoint chooseDefaultInterface (routes : list Route) (family : Family) (isTunnel : option (string -> bool))
  : option Route :=
  match routes with
  | [] => None
  | r :: rest =>
      if negb (familyMatches (rt_Prefix r) family) then chooseDefaultInterface rest family isTunnel
      else if negb (pf_bits (rt_Prefix r) =? 0) then chooseDefaultInterface rest family isTunnel
      else if match isTunnel with Some f => f (rt_Interface r) | None => false end
      then chooseDefaultInterface rest family isTunnel
      else Some r
  end.

(** ** probe.go *)

Definition TunnelInterfaces : Type := gset string.
Definition Contains_ (t : TunnelInterfaces) (name : string) : bool := bool_decide (name ∈ t).
Definition NewTunnelInterfaces (names : list string) : TunnelInterfaces := list_to_set names.

Definition Probe (currentRoutes : Family -> result (list Route)) (family : Family) (t : TunnelInterfaces)
  : result bool :=
  let? routes := currentRoutes family in Ok (HasCoveringDefault routes family (Some (Contains_ t))).
Definition DefaultRouteInterface (currentRoutes : Family -> result (list Route)) (family : Family)
    (t : TunnelInterfaces) : result (option Route) :=
  let? routes := currentRoutes family in Ok (chooseDefaultInterface routes family (Some (Contains_ t))).

(** ** probe_linux.go *)

(** [binary.LittleEndian.Uint32], then [binary.BigEndian.PutUint32]. *)
Definition decodeLEHexIPv4 (s : string) : result Addr :=
  match hex_decode s with
  | Some [a; b; c; d] => Ok (AddrFrom4 [d; c; b; a])
  | _ => Err (ENew "invalid IPv4 hex field")
  end.

(** The leading one bits of an octet other than 0xff; [octet <<= 1] on a byte. *)
Fixpoint octet_ones (fuel : nat) (octet : Z) : Z :=
  match fuel with
  | O => 0
  | S f => if negb (Z.land octet 0x80 =? 0) then 1 + octet_ones f (wrap8 (Z.shiftl octet 1)) else 0
  end.
Fixpoint mask_ones (octets : list Z) : Z :=
  match octets with
  | [] => 0
  | octet :: rest => if octet =? 0xff then 8 + mask_ones rest else octet_ones 8 octet
  end.
Definition ipv4MaskOnes (a : Addr) : Z :=
  match a with Addr4 v => mask_ones (val_bytes 4 v) | _ => 0 end.

(** [bufio.Scanner] with [ScanLines]: the lines without their terminator, and
    whether the scan stopped at a line beyond the 64 KiB buffer. *)
Definition MaxScanTokenSize : Z := 64 * 1024.
Fixpoint scan_lines (pieces : list string) : list string * bool :=
  match pieces with
  | [] => ([], true)
  | [last] => if last =s "" then ([], true)
              else if MaxScanTokenSize <=? slen last then ([], false)
              else ([trim_suffix last (String (zb 13) "")], true)
  | line :: rest =>
      if MaxScanTokenSize <=? slen line then ([], false)
      else let '(l, ok) := scan_lines rest in (trim_suffix line (String (zb 13) "") :: l, ok)
  end.
Definition scanner (data : string) : list string * bool := scan_lines (split_on (zb 10) data).

Definition route_line_v4 (line : string) : result (option Route) :=
  let f := fields line in
  if (length f <? 8)%nat then Ok None
  else
    let? dest := map_err (ENew "parse destination") (decodeLEHexIPv4 (nth 1 f "")) in
    let? mask := map_err (ENew "parse mask") (decodeLEHexIPv4 (nth 7 f "")) in
    Ok (Some (mkRoute (PrefixFrom dest (ipv4MaskOnes mask)) (nth 0 f "") 0)).

Definition route_line_v6 (line : string) : result (option Route) :=
  let f := fields line in
  if (length f <? 10)%nat then Ok None
  else
    match hex_decode (nth 0 f "") with
    | None => Err (ENew "parse destination")
    | Some addrBytes =>
        if negb (length addrBytes =? 16)%nat then Err (ENew "parse destination")
        else match parse_uint16 8 (nth 1 f "") with
             | None => Err (ENew "parse prefix length")
             | Some bits => Ok (Some (mkRoute (PrefixFrom (AddrFrom16 addrBytes) bits) (nth 9 f "") 0))
             end
    end.

Fixpoint route_lines (parse : string -> result (option Route)) (lines : list string) : result (list Route) :=
  match lines with
  | [] => Ok []
  | line :: rest =>
      let? r := parse line in
      let? rs := route_lines parse rest in
      Ok (match r with Some route => route :: rs | None => rs end)
  end.

Definition parse_table (header : bool) (parse : string -> result (option Route)) (data : string)
  : result (list Route) :=
  let '(lines, ok) := scanner data in
  let? routes := route_lines parse (if header then tail lines else lines) in
  if ok then Ok routes else Err (ENew "scan: token too long").
Definition parseProcNetRouteV4 : string -> result (list Route) := parse_table true route_line_v4.
Definition parseProcNetRouteV6 : string -> result (list Route) := parse_table false route_line_v6.

(** A file that cannot be read; [NotExist] is the missing file. *)
Inductive FileError : Type := NotExist | Unreadable.
Definition currentRoutes (read : string -> string + FileError) (family : Family) : result (list Route) :=
  match family with
  | IPv4 => match read "/proc/net/route" with
            | inl data => parseProcNetRouteV4 data
            | inr _ => Err (ENew "routeprobe: read")
            end
  | IPv6 => match read "/proc/net/ipv6_route" with
            | inl data => parseProcNetRouteV6 data
            | inr NotExist => Ok []
            | inr Unreadable => Err (ENew "routeprobe: read")
            end
  end.

(** ** resolve.go, probe_darwinbsd.go *)

(** [byIndex] is [net.InterfaceByIndex]: name and index, or an error. *)
Definition resolveRouteInterface (byIndex : Z -> result (string * Z)) (prefix : Prefix) (idx : Z) : option Route :=
  match byIndex idx with
  | Err _ => None
  | Ok (name, index) => Some (mkRoute prefix name index)
  end.

(** A [route.Addr] slot, nil as [None]. *)
Inductive RouteAddr : Type := Inet4Addr (ip : list Z) | Inet6Addr (ip : list Z) | OtherAddr.
Record RouteMessage := mkRouteMessage {
  rm_Err : bool; rm_Index : Z; rm_Flags : Z; rm_Addrs : list (option RouteAddr)
}.
Definition RTAX_DST : nat := 0.
Definition RTAX_NETMASK : nat := 2.
Definition RTF_HOST : Z := 0x4.

(** [net.IPMask.Size]: the ones of a mask, 0 unless they are contiguous. *)
Definition octet_canonical (octet : Z) : bool := wrap8 (Z.shiftl octet (octet_ones 8 octet)) =? 0.
Fixpoint simpleMaskLength (mask : list Z) : option Z :=
  match mask with
  | [] => Some 0
  | octet :: rest =>
      if octet =? 0xff then match simpleMaskLength rest with Some n => Some (8 + n) | None => None end
      else if octet_canonical octet && forallb (fun o => o =? 0) rest then Some (octet_ones 8 octet) else None
  end.
Definition IPMask_Size (mask : list Z) : Z := default 0 (simpleMaskLength mask).

Definition routeMessagePrefix (rm : RouteMessage) (family : Family) : option Prefix :=
  let addr :=
    match nth RTAX_DST (rm_Addrs rm) None with
    | Some (Inet4Addr ip) => match family with IPv4 => Some (AddrFrom4 ip) | IPv6 => None end
    | Some (Inet6Addr ip) => match family with IPv6 => Some (AddrFrom16 ip) | IPv4 => None end
    | _ => None
    end in
  match addr with
  | None => None
  | Some addr =>
      let bits := if negb (Z.land (rm_Flags rm) RTF_HOST =? 0) then BitLen addr else 0 in
      let bits := match nth RTAX_NETMASK (rm_Addrs rm) None with
                  | Some (Inet4Addr ip) | Some (Inet6Addr ip) => IPMask_Size ip
                  | _ => bits
                  end in
      Some (PrefixFrom addr bits)
  end.

(** [None] is a message of another type. *)
Fixpoint routesFromMessages (byIndex : Z -> result (string * Z)) (msgs : list (option RouteMessage))
    (family : Family) : list Route :=
  match msgs with
  | [] => []
  | m :: rest =>
      let routes := routesFromMessages byIndex rest family in
      match m with
      | None => routes
      | Some rm =>
          if rm_Err rm then routes
          else match routeMessagePrefix rm family with
               | None => routes
               | Some prefix => match resolveRouteInterface byIndex prefix (rm_Index rm) with
                                | None => routes
                                | Some r => r :: routes
                                end
               end
      end
  end.

(** ** probe_windows.go, unicastif.go *)

(** [MIB_IPFORWARD_ROW2]: the destination's family and address, its length and
    the interface.  [None] is a family other than the two. *)
Record ForwardRow := mkRow {
  row_Family : option Family; row_Addr : list Z; row_PrefixLength : Z; row_InterfaceIndex : Z
}.
Definition forwardPrefix (row : ForwardRow) (family : Family) : option Prefix :=
  match row_Family row with
  | Some IPv4 => match family with
                 | IPv4 => Some (PrefixFrom (AddrFrom4 (row_Addr row)) (row_PrefixLength row))
                 | IPv6 => None
                 end
  | Some IPv6 => match family with
                 | IPv6 => Some (PrefixFrom (AddrFrom16 (row_Addr row)) (row_PrefixLength row))
                 | IPv4 => None
                 end
  | None => None
  end.
Fixpoint routesFromRows (byIndex : Z -> result (string * Z)) (rows : list ForwardRow) (family : Family)
  : list Route :=
  match rows with
  | [] => []
  | row :: rest =>
      let routes := routesFromRows byIndex rest family in
      match forwardPrefix row family with
      | None => routes
      | Some prefix => match resolveRouteInterface byIndex prefix (row_InterfaceIndex row) with
                       | None => routes
                       | Some r => r :: routes
                       end
      end
  end.

(** The three tables of the moment: x/net/route's two calls and Windows' one
    answer, with the address family numbers of the platform. *)
Definition currentRoutes_bsd (af : Family -> Z) (FetchRIB : Z -> result (list Z))
    (ParseRIB : list Z -> result (list (option RouteMessage))) (byIndex : Z -> result (string * Z)) (family : Family)
  : result (list Route) :=
  match FetchRIB (af family) with
  | Err e => Err (EWrap "routeprobe: fetch route table" [e])
  | Ok rib => match ParseRIB rib with
              | Err e => Err (EWrap "routeprobe: parse route table" [e])
              | Ok msgs => Ok (routesFromMessages byIndex msgs family)
              end
  end.
Definition currentRoutes_windows (GetIpForwardTable2 : Z -> result (list ForwardRow)) (byIndex : Z -> result (string * Z))
    (family : Family) : result (list Route) :=
  match GetIpForwardTable2 (match family with IPv6 => 23 | IPv4 => 2 end) with
  | Err e => Err (EWrap "routeprobe: GetIpForwardTable2" [e])
  | Ok rows => Ok (routesFromRows byIndex rows family)
  end.

(** [bits.ReverseBytes32] *)
Definition UnicastIfNetworkOrder (index : Z) : Z := be32 (rev (put_be32 index)).
