(* ===== verification/Dialer.v ===== *)
(** * internal/plugin/dialer: plugin sockets and lookups outside the tunnel

    The escape a context carries, the nameserver rotation and name resolution
    (dialer.go), and what each platform does to a new socket (control_*.go).
    Lookups, dialing and setting socket options are answered by the
    environment. *)

From S2P Require Import Prelude GoStr Netip Routeprobe.

(** ** dialer.go *)

(** [Protector] is nil as [None], otherwise what [Protect] answers for the
    socket at hand. *)
Record Escape := mkEscapeOf {
  es_FirewallMark : Z; es_Fib : Z; es_TunnelIfaces : TunnelInterfaces;
  es_Protector : option bool; es_DNSServers : list string
}.
Definition Escape0 : Escape := mkEscapeOf 0 0 ∅ None [].

Definition family (network : string) : Family := if has_suffix network "6" then IPv6 else IPv4.
Definition ipNetwork (network : string) : string :=
  if (network =s "udp6") || (network =s "ip6") then "ip6" else "ip4".

(** [strings.Trim(s, "[]")] *)
Fixpoint trim_left (s : string) : string :=
  match s with
  | "" => ""
  | String a s' => if Ascii.eqb a "[" || Ascii.eqb a "]" then trim_left s' else s
  end.
Fixpoint trim_right (s : string) : string :=
  match s with
  | "" => ""
  | String a s' =>
      let r := trim_right s' in
      if (r =s "") && (Ascii.eqb a "[" || Ascii.eqb a "]") then "" else String a r
  end.
Definition trim_brackets (s : string) : string := trim_right (trim_left s).

Definition normalizeDNSAddr (s : string) : option string :=
  let '(host, port) := match split_host_port s with
                       | Some hp => hp
                       | None => (trim_brackets s, "")
                       end in
  let port' := if port =s "" then Some "53"
               else match atoi port with
                    | Some p => if (p <? 1) || (65535 <? p) then None else Some port
                    | None => None
                    end in
  match port' with
  | None => None
  | Some port =>
      match ParseAddr host with
      | None => None
      | Some _ => Some (join_host_port host port)
      end
  end.
Definition ValidNameserver (s : string) : bool := match normalizeDNSAddr s with Some _ => true | None => false end.

(** The first usable server from [start] on, cyclically. *)
Fixpoint pick_from (servers : list string) (start : Z) (i : nat) (n : nat) : option string :=
  match n with
  | O => None
  | S n' =>
      match normalizeDNSAddr (nth (Z.to_nat ((start + Z.of_nat i) mod Z.of_nat (length servers))) servers "") with
      | Some addr => Some addr
      | None => pick_from servers start (S i) n'
      end
  end.
(** [dnsRotation] is a uint32 counter; the new value and the choice. *)
Definition pickDNSServer (dnsRotation : Z) (servers : list string) : Z * option string :=
  match servers with
  | [] => (dnsRotation, None)
  | _ =>
      let rotation := wrap32 (dnsRotation + 1) in
      let start := wrap32 (rotation - 1) mod wrap32 (Z.of_nat (length servers)) in
      (rotation, pick_from servers start 0 (length servers))
  end.

(** The address the resolver's hook dials, and the rotation after it. *)
Definition dialDNS (dnsRotation : Z) (escape : Escape) (address : string) : Z * string :=
  match pickDNSServer dnsRotation (es_DNSServers escape) with
  | (r, Some server) => (r, server)
  | (r, None) => (r, address)
  end.

(** [lookup network host]: the addresses [LookupNetIP] returns, never empty. *)
Definition ResolveAddrPort (lookup : string -> string -> result (Addr * list Addr)) (network hostport : string)
  : result AddrPort :=
  match split_host_port hostport with
  | None => Err (ENew "resolve")
  | Some (host, portStr) =>
      match parse_uint10 16 portStr with
      | None => Err (ENew "resolve: port")
      | Some port =>
          match lookup (ipNetwork network) host with
          | Err e => Err (EWrap "resolve" [e])
          | Ok (ip, _) => Ok (mkAP (Unmap ip) port)
          end
      end
  end.

(** [None] is ok = false. *)
Definition boundInterface (currentRoutes : Family -> result (list Route)) (escape : Escape) (fam : Family)
  : result (option Z) :=
  let t := es_TunnelIfaces escape in
  if (size t =? 0)%nat then Ok None
  else
    let? covering := Probe currentRoutes fam t in
    if negb covering then Ok None
    else
      let? route := DefaultRouteInterface currentRoutes fam t in
      Ok (match route with
          | Some r => if rt_Index r =? 0 then None else Some (rt_Index r)
          | None => None
          end).

(** ** control_linux.go, control_freebsd.go, control_darwin.go, control_windows.go, control_default.go

    The one socket option a platform sets, or a call of the protector. *)

Inductive SockOpt : Type :=
| SO_MARK (mark : Z)
| SO_SETFIB (fib : Z)
| IP_BOUND_IF (index : Z)
| IPV6_BOUND_IF (index : Z)
| IP_UNICAST_IF (value : Z)
| IPV6_UNICAST_IF (index : Z).

(** [setsockopt] fails or not; nothing set is always fine. *)
Definition control_linux (setsockopt : SockOpt -> option error) (escape : Escape) : option SockOpt * option error :=
  if es_FirewallMark escape =? 0 then (None, None)
  else let o := SO_MARK (es_FirewallMark escape) in (Some o, setsockopt o).
Definition control_freebsd (setsockopt : SockOpt -> option error) (escape : Escape) : option SockOpt * option error :=
  if es_Fib escape =? 0 then (None, None)
  else let o := SO_SETFIB (es_Fib escape) in (Some o, setsockopt o).

Definition bound_if (fam : Family) (index : Z) : SockOpt :=
  match fam with IPv6 => IPV6_BOUND_IF index | IPv4 => IP_BOUND_IF index end.
Definition unicast_if (fam : Family) (index : Z) : SockOpt :=
  match fam with IPv6 => IPV6_UNICAST_IF index | IPv4 => IP_UNICAST_IF (UnicastIfNetworkOrder (wrap32 index)) end.
(** Darwin and Windows differ in the option only. *)
Definition control_interface (opt : Family -> Z -> SockOpt) (currentRoutes : Family -> result (list Route))
    (setsockopt : SockOpt -> option error) (escape : Escape) (network : string)
  : option SockOpt * option error :=
  let fam := family network in
  match boundInterface currentRoutes escape fam with
  | Err e => (None, Some e)
  | Ok None => (None, None)
  | Ok (Some index) => let o := opt fam index in (Some o, setsockopt o)
  end.
Definition control_darwin := control_interface bound_if.
Definition control_windows := control_interface unicast_if.
(** Android: the socket must be protected when there is a protector. *)
Definition control_default (escape : Escape) : option error :=
  match es_Protector escape with
  | None => None
  | Some true => None
  | Some false => Some (ENew "dialer: socket protect failed")
  end.
