(* ===== verification/DialNetFacts.v ===== *)
(** * Theorems on dialing with an escape *)

From S2P Require Import Prelude GoStr Netip NetipFacts Discovery Routeprobe Dialer DialNet.

(** ** Addresses *)

Lemma slen_sapp s t : String.length (s +:+ t) = (String.length s + String.length t)%nat.
Proof. induction s as [|c s IH]; cbn; [done|by rewrite IH]. Qed.
Lemma sapp_cancel_r s t u : s +:+ u = t +:+ u -> s = t.
Proof.
  revert t. induction s as [|c s IH]; intros [|d t] H; [done| | |].
  - apply (f_equal String.length) in H. cbn in H. rewrite slen_sapp in H. lia.
  - apply (f_equal String.length) in H. cbn in H. rewrite slen_sapp in H. lia.
  - cbn in H. injection H as -> H. by rewrite (IH t).
Qed.
Lemma cut_spec c s x y : cut c s = Some (x, y) -> s = x +:+ String c y.
Proof.
  revert x. induction s as [|a s IH]; intros x; cbn; [done|].
  destruct (Ascii.eqb_spec a c) as [->|]; [by intros [= <- <-]|].
  destruct (cut c s) as [[x' y']|]; [|done]. intros [= <- <-]. by rewrite (IH x').
Qed.
Lemma cut_last_tail c s x y : cut_last c s = Some (x, y) -> smem c y = false.
Proof.
  revert x. induction s as [|a s IH]; intros x; cbn; [done|].
  destruct (cut_last c s) as [[x' y']|] eqn:E; [intros [= <- <-]; by eapply IH|].
  destruct (Ascii.eqb_spec a c) as [->|]; [|done]. intros [= <- <-].
  clear IH. induction s as [|b s IH]; [done|]. cbn in *.
  destruct (cut_last c s) as [[]|]; [done|]. rewrite IH by done.
  by destruct (Ascii.eqb b c).
Qed.

Lemma ParseAddr_no_bracket s : ParseAddr (String "[" s) = None.
Proof.
  unfold ParseAddr. destruct (addr_kind _) as [k|]; [|done].
  destruct (Ascii.eqb k "."); [by cbn|]. destruct (Ascii.eqb k ":"); [|done].
  unfold parse_v6. cbn. destruct (cut "%" s) as [[b z]|]; [destruct (z =s "")|]; by cbn.
Qed.

(** [net.SplitHostPort] by its first character. *)
Lemma split_host_port_cons c s b q :
  cut_last ":" (String c s) = Some (b, q) ->
  split_host_port (String c s) =
    if Ascii.eqb c "[" then
      match cut "]" s with
      | None => None
      | Some (host, tail) =>
          if tail =s (":" +:+ q) then if smem "[" s || smem "]" tail then None else Some (host, q) else None
      end
    else if smem ":" b then None
    else if smem "[" (String c s) || smem "]" (String c s) then None else Some (b, q).
Proof.
  intros E. unfold split_host_port. rewrite E.
  set (x := match cut "]" s with Some _ => _ | None => _ end).
  set (y := if smem ":" b then _ else _). clearbody x y. clear.
  by destruct c as [[] [] [] [] [] [] [] []].
Qed.

(** What [net.JoinHostPort] makes of an address literal is split into the same
    host, or not at all. *)
Lemma split_join_literal host port h p a :
  ParseAddr host = Some a -> smem ":" port = false ->
  split_host_port (join_host_port host port) = Some (h, p) -> h = host.
Proof.
  intros Ha Hp. unfold join_host_port. destruct (smem ":" host) eqn:Hc.
  - unfold split_host_port.
    assert ("[" +:+ host +:+ "]:" +:+ port = ("[" +:+ host +:+ "]") +:+ String ":" port) as E
      by (by rewrite !sapp_assoc).
    rewrite E, cut_last_app by done. rewrite <-E. cbn [String.append].
    destruct (cut "]" _) as [[x y]|] eqn:Ec; [|done]. apply cut_spec in Ec.
    destruct (y =s _) eqn:Ey; [|done]. apply String.eqb_eq in Ey as ->. destruct (_ || _); [done|]. intros [= <- _].
    symmetry. by eapply (sapp_cancel_r _ _ ("]:" +:+ port)).
  - change (host +:+ ":" +:+ port) with (host +:+ String ":" port). 
    intros H. assert (cut_last ":" (host +:+ String ":" port) = Some (host, port)) as Ec by (by apply cut_last_app).
    destruct host as [|c host]; [done|]. cbn [String.append] in *.
    rewrite (split_host_port_cons _ _ _ _ Ec) in H. destruct (Ascii.eqb_spec c "[") as [->|].
    + by rewrite ParseAddr_no_bracket in Ha.
    + rewrite Hc in H. destruct (_ || _); [done|]. by injection H.
Qed.

(** An address a dial takes without a lookup. *)
Definition literal_target (t : string) : Prop :=
  forall h p, split_host_port t = Some (h, p) -> exists a, ParseAddr h = Some a.

Lemma split_port_no_colon s h p : split_host_port s = Some (h, p) -> smem ":" p = false.
Proof.
  destruct s as [|c s]; [done|]. destruct (cut_last ":" (String c s)) as [[b q]|] eqn:E;
    [|unfold split_host_port; by rewrite E].
  rewrite (split_host_port_cons _ _ _ _ E). apply cut_last_tail in E.
  destruct (Ascii.eqb c "[").
  - destruct (cut "]" s) as [[x t]|]; [|done]. destruct (t =s _); [|done]. destruct (_ || _); [done|].
    by intros [= _ <-].
  - destruct (smem ":" b); [done|]. destruct (_ || _); [done|]. by intros [= _ <-].
Qed.

Lemma normalizeDNSAddr_literal s t : normalizeDNSAddr s = Some t -> literal_target t.
Proof.
  unfold normalizeDNSAddr.
  set (hp := match split_host_port s with Some hp => hp | None => _ end).
  assert (smem ":" hp.2 = false) as Hp.
  { subst hp. destruct (split_host_port s) as [[h p]|] eqn:E; [by eapply split_port_no_colon|done]. }
  destruct hp as [host port]. cbn [snd] in Hp.
  set (po := if port =s "" then _ else _).
  assert (forall q, po = Some q -> smem ":" q = false) as Hq.
  { subst po. intros q. destruct (port =s ""); [by intros [= <-]|]. destruct (atoi port); [|done].
    destruct (_ || _); [done|]. by intros [= <-]. }
  destruct po as [q|]; [|done]. specialize (Hq q eq_refl).
  destruct (ParseAddr host) as [a|] eqn:Ea; [|done]. intros [= <-] h p Hs.
  apply (split_join_literal host q h p a) in Hs as ->; [|done..]. by exists a.
Qed.

(** ** The choice of a nameserver *)

Lemma pick_from_none servers start i n :
  pick_from servers start i n = None ->
  forall k, (i <= k < i + n)%nat ->
    normalizeDNSAddr (nth (Z.to_nat ((start + Z.of_nat k) mod Z.of_nat (length servers))) servers "") = None.
Proof.
  revert i. induction n as [|n IH]; intros i; cbn [pick_from]; [lia|].
  destruct (normalizeDNSAddr _) eqn:E; [done|]. intros H k Hk.
  destruct (decide (k = i)) as [->|]; [done|]. by apply (IH (S i)); [|lia].
Qed.
Lemma pick_from_in servers start i n t :
  servers <> [] -> pick_from servers start i n = Some t ->
  exists entry, In entry servers /\ normalizeDNSAddr entry = Some t.
Proof.
  intros Hne. revert i. induction n as [|n IH]; intros i; cbn [pick_from]; [done|].
  destruct (normalizeDNSAddr (nth _ servers "")) as [a|] eqn:E; [|apply IH]. intros [= <-].
  eexists. split; [|exact E]. apply nth_In.
  assert (0 < length servers)%nat by (destruct servers; [done|cbn; lia]).
  pose proof (Z.mod_pos_bound (start + Z.of_nat i) (Z.of_nat (length servers)) ltac:(lia)). lia.
Qed.
(** Every turn of the rotation finds a usable server when the list has one. *)
Lemma pick_from_all servers start :
  pick_from servers start 0 (length servers) = None -> forall entry, In entry servers -> normalizeDNSAddr entry = None.
Proof.
  intros H entry (j & Hj & <-)%(In_nth _ _ ""). pose proof (pick_from_none _ _ _ _ H) as Hn.
  set (l := Z.of_nat (length servers)) in *.
  pose proof (Z.mod_pos_bound (Z.of_nat j - start) l ltac:(lia)).
  specialize (Hn (Z.to_nat ((Z.of_nat j - start) mod l)) ltac:(lia)). rewrite Z2Nat.id in Hn by lia.
  rewrite Zplus_mod_idemp_r in Hn. replace (start + (Z.of_nat j - start)) with (Z.of_nat j) in Hn by lia.
  rewrite Z.mod_small, Nat2Z.id in Hn by lia. exact Hn.
Qed.

Section dial.
Context `{NetWorld}.

(** Where lookups may go: the escape's nameservers, or those of the system when
    the escape has no usable one. *)
Definition nameserver (escape : Escape) (t : string) : Prop :=
  (exists entry, In entry (es_DNSServers escape) /\ normalizeDNSAddr entry = Some t) \/
  ((forall entry, In entry (es_DNSServers escape) -> normalizeDNSAddr entry = None) /\ In t nw_conf).
Definition names (t : string) (dst : AddrPort) : Prop :=
  exists h p a, split_host_port t = Some (h, p) /\ ParseAddr h = Some a /\ ap_addr dst = Unmap a.

(** A socket that went through the control hook with the context's escape and
    the family of its destination, and is connected only if the hook agreed. *)
Definition attempt_event (ctx : Context) (e : NetEvent) : Prop :=
  exists network dst connected,
    e = Socket network dst (nw_control (escapeFrom ctx) network) connected /\
    has_suffix network (if Is4 (ap_addr dst) then "4" else "6") = true /\
    (connected = true -> (nw_control (escapeFrom ctx) network).2 = None).
Definition lookup_event (ctx : Context) (e : NetEvent) : Prop :=
  exists t dst, nameserver (escapeFrom ctx) t /\ names t dst /\
    ((exists name, e = Query dst name) \/
     (attempt_event ctx e /\ exists network c connected, e = Socket network dst c connected)).

Lemma dialDNS_target rotation escape address :
  In address nw_conf -> nameserver escape (dialDNS rotation escape address).2.
Proof.
  intros Hin. unfold dialDNS, pickDNSServer. destruct (es_DNSServers escape) as [|s l] eqn:Es.
  { right. by rewrite Es. }
  cbv zeta. destruct (pick_from (s :: l) _ 0 _) as [t|] eqn:Ep.
  - left. rewrite Es. by eapply pick_from_in.
  - right. rewrite Es. split; [by eapply pick_from_all|done].
Qed.

Lemma has_suffix_app s t : has_suffix (s +:+ t) t = true.
Proof.
  induction s as [|c s IH]; [destruct t; cbn [String.append has_suffix]; by rewrite String.eqb_refl|].
  cbn [String.append has_suffix]. rewrite IH. by destruct (_ =s _).
Qed.
Lemma attempt_family network a :
  fits network a = true -> has_suffix (attempt_network network a) (if Is4 (Unmap a) then "4" else "6") = true.
Proof.
  unfold fits, attempt_network. destruct (has_suffix network "4") eqn:E4; [by intros ->|].
  destruct (has_suffix network "6") eqn:E6; [by intros ->%negb_true_iff|].
  intros _. apply has_suffix_app.
Qed.

Lemma connect_first_ok ctx network port addrs events r :
  Forall (fun a => fits network a = true) addrs ->
  connect_first control ctx network port addrs = (events, r) ->
  Forall (attempt_event ctx) events /\
  Forall (fun e => exists a n c b, In a addrs /\ e = Socket n (mkAP (Unmap a) port) c b) events /\
  forall dst, r = Ok dst -> exists before n, events = before ++ [Socket n dst (nw_control (escapeFrom ctx) n) true] /\
    exists a, In a addrs /\ dst = mkAP (Unmap a) port.
Proof.
  intros Hf. revert events r. induction Hf as [|a addrs Ha Hf IH]; intros events r; cbn [connect_first].
  { intros [= <- <-]. split_and!; [constructor..|done]. }
  cbv zeta. set (c := control ctx _).
  assert (forall b, (b = true -> c.2 = None) ->
    attempt_event ctx (Socket (attempt_network network a) (mkAP (Unmap a) port) c b)) as Hat.
  { intros b Hb. exists (attempt_network network a), (mkAP (Unmap a) port), b. split_and!; [done|by apply attempt_family|done]. }
  destruct (match c.2 with None => _ | Some _ => false end) eqn:Ec.
  - intros [= <- <-]. split_and!.
    + repeat constructor. apply Hat. by destruct c.2.
    + repeat constructor. exists a, (attempt_network network a), c, true. split; [by left|done].
    + intros dst [= <-]. exists [], (attempt_network network a). split; [done|]. exists a. split; [by left|done].
  - destruct (connect_first control ctx network port addrs) as [ev r'] eqn:E. intros [= <- <-].
    destruct (IH _ _ eq_refl) as (H1 & H2 & H3). split_and!.
    + constructor; [by apply Hat|done].
    + constructor; [exists a, (attempt_network network a), c, false; split; [by left|done]|].
      eapply Forall_impl; [|exact H2]. intros e (a' & n & c' & b & Hin & ->). exists a', n, c', b. split; [by right|done].
    + intros dst Hd. destruct (H3 dst Hd) as (before & n & -> & a' & Hin & ->).
      exists (Socket (attempt_network network a) (mkAP (Unmap a) port) c false :: before), n. split; [done|].
      exists a'. split; [by right|done].
Qed.

Lemma fits_filter network l : Forall (fun a => fits network a = true) (filter (fun a => fits network a = true) l).
Proof. apply Forall_forall. intros x Hx. by apply list_elem_of_In, list_elem_of_filter in Hx as [? _]. Qed.

(** Dialing an address literal makes no lookup, at any fuel. *)
Lemma dial_literal rotation ctx network t :
  literal_target t ->
  exists events r,
    (forall m, DialContext (S m) rotation ctx network t = Some (rotation, events, r)) /\
    Forall (fun e => attempt_event ctx e /\ exists network dst c connected, e = Socket network dst c connected /\ names t dst) events /\
    forall dst, r = Ok dst -> names t dst.
Proof.
  intros Hl. cbn [DialContext]. unfold net_DialContext.
  destruct (split_host_port t) as [[h p]|] eqn:Es; [|by eexists _, _; split_and!].
  destruct (Hl _ _ Es) as [a Ha].
  destruct (match parse_uint10 16 p with Some _ => _ | None => _ end) as [port|]; [|by eexists _, _; split_and!].
  destruct (String.eqb_spec h "") as [->|Hne]; [done|].
  destruct (connect_first control ctx network port (filter (fun a => fits network a = true) [a])) as [ev r] eqn:Ec.
  exists ev, r. split.
  { intros m. unfold LookupNetIP. rewrite Ha. cbn [nd_ControlContext newDialer]. rewrite Ec. done. }
  apply connect_first_ok in Ec as (H1 & H2 & H3); [|apply fits_filter].
  assert (forall x, In x (filter (fun a => fits network a = true) [a]) -> x = a) as Hx.
  { intros x Hx. apply list_elem_of_In, list_elem_of_filter in Hx as [_ Hx]. by apply list_elem_of_singleton in Hx. }
  assert (names t (mkAP (Unmap a) port)) as Hn by (by exists h, p, a).
  split.
  - rewrite Forall_forall in *. intros e He. split; [by apply H1|].
    destruct (H2 e He) as (x & nw & c & b & ->%Hx & ->). by exists nw, (mkAP (Unmap a) port), c, b.
  - intros dst Hd. by destruct (H3 dst Hd) as (_ & _ & _ & x & ->%Hx & ->).
Qed.

Lemma dial_DNS rotation ctx network address :
  Forall literal_target nw_conf -> In address nw_conf ->
  exists rotation' events r,
    (forall m, dialDNS_hook (DialContext (S m)) rotation ctx network address = Some (rotation', events, r)) /\
    Forall (lookup_event ctx) events /\
    forall dst, r = Ok dst -> exists t, nameserver (escapeFrom ctx) t /\ names t dst.
Proof.
  intros Hconf Hin. unfold dialDNS_hook.
  pose proof (dialDNS_target rotation (escapeFrom ctx) address Hin) as Ht.
  destruct (dialDNS rotation (escapeFrom ctx) address) as [rotation' t]. cbn [snd] in Ht.
  assert (literal_target t) as Hl.
  { destruct Ht as [(entry & _ & Hn)|[_ Hc]]; [by eapply normalizeDNSAddr_literal|].
    rewrite List.Forall_forall in Hconf. by apply Hconf. }
  destruct (dial_literal rotation' ctx network t Hl) as (ev & r & H1 & H2 & H3).
  exists rotation', ev, r. split; [exact H1|]. split.
  - eapply Forall_impl; [|exact H2]. intros e (Ha & nw & dst & c & b & He & Hn).
    exists t, dst. split_and!; [done..|]. right. split; [done|]. eauto.
  - intros dst Hd. exists t. split; [done|by apply H3].
Qed.

Lemma ask_ok rotation ctx name server networks :
  Forall literal_target nw_conf -> In server nw_conf ->
  exists rotation' events r,
    (forall m, ask (dialDNS_hook (DialContext (S m))) rotation ctx name server networks = Some (rotation', events, r)) /\
    Forall (lookup_event ctx) events.
Proof.
  intros Hconf Hin. revert rotation. induction networks as [|network rest IH]; intros rotation; cbn [ask].
  { eexists _, _, _. split; [done|constructor]. }
  destruct (dial_DNS rotation ctx network server Hconf Hin) as (rot1 & ev1 & r1 & H1 & H2 & H3).
  destruct r1 as [conn|e].
  2: { exists rot1, ev1, None. split; [|done]. intros m. by rewrite H1. }
  destruct (H3 conn eq_refl) as (t & Ht & Hn).
  assert (Forall (lookup_event ctx) (ev1 ++ [Query conn name])) as Hev.
  { apply Forall_app. split; [done|]. repeat constructor. exists t, conn. split_and!; [done..|]. left. eauto. }
  destruct (nw_answer conn network name) eqn:Ea.
  - eexists _, _, _. split; [intros m; rewrite H1; cbv beta iota zeta; by rewrite Ea|done].
  - destruct (IH rot1) as (rot2 & ev2 & r2 & H4 & H5). exists rot2, ((ev1 ++ [Query conn name]) ++ ev2), r2.
    split; [intros m; rewrite H1; cbv beta iota zeta; by rewrite Ea, H4|]. by apply Forall_app.
  - eexists _, _, _. split; [intros m; rewrite H1; cbv beta iota zeta; by rewrite Ea|done].
Qed.

Lemma ask_all_ok rotation ctx name servers :
  Forall literal_target nw_conf -> incl servers nw_conf ->
  exists rotation' events l,
    (forall m, ask_all (dialDNS_hook (DialContext (S m))) rotation ctx name servers = Some (rotation', events, l)) /\
    Forall (lookup_event ctx) events.
Proof.
  intros Hconf. revert rotation. induction servers as [|server rest IH]; intros rotation Hin; cbn [ask_all].
  { eexists _, _, _. split; [done|constructor]. }
  destruct (ask_ok rotation ctx name server ["udp"; "tcp"] Hconf) as (rot1 & ev1 & r1 & H1 & H2); [apply Hin; by left|].
  destruct r1 as [l|].
  - eexists _, _, _. split; [intros m; by rewrite H1|done].
  - destruct (IH rot1) as (rot2 & ev2 & r2 & H4 & H5); [intros x Hx; apply Hin; by right|].
    exists rot2, (ev1 ++ ev2), r2. split; [intros m; by rewrite H1, H4|]. by apply Forall_app.
Qed.

Lemma lookup_ok rotation ctx network host :
  Forall literal_target nw_conf ->
  exists rotation' events l,
    (forall m, LookupNetIP (Resolver (DialContext (S m))) rotation ctx network host = Some (rotation', events, l)) /\
    Forall (lookup_event ctx) events.
Proof.
  intros Hconf. unfold LookupNetIP. destruct (ParseAddr host) as [a|]; [eexists _, _, _; split; [done|constructor]|].
  cbn [nr_PreferGo Resolver nr_Dial]. destruct (nw_hosts network host) as [|a l]; [|eexists _, _, _; split; [done|constructor]].
  apply ask_all_ok; [done|]. apply incl_app; apply incl_refl.
Qed.

Lemma dial_ok rotation ctx network address :
  Forall literal_target nw_conf ->
  exists rotation' lookups attempts r,
    (forall m, DialContext (2 + m) rotation ctx network address = Some (rotation', lookups ++ attempts, r)) /\
    Forall (lookup_event ctx) lookups /\ Forall (attempt_event ctx) attempts /\
    forall dst, r = Ok dst -> exists before network,
      attempts = before ++ [Socket network dst (nw_control (escapeFrom ctx) network) true].
Proof.
  intros Hconf.
  cbn [Nat.add DialContext]. unfold net_DialContext.
    destruct (split_host_port address) as [[h p]|]; [|eexists _, [], [], _; split_and!; by try constructor].
    destruct (match parse_uint10 16 p with Some _ => _ | None => _ end) as [port|];
      [|eexists _, [], [], _; split_and!; by try constructor].
    assert (exists rot1 ev1 l1,
      (forall m, (if h =s "" then Some (rotation, [], [Addr4 (127 * 2 ^ 24 + 1)])
         else LookupNetIP (nd_Resolver (newDialer (DialContext (S m)))) rotation ctx "ip" h) = Some (rot1, ev1, l1)) /\
      Forall (lookup_event ctx) ev1) as (rot1 & ev1 & l1 & E1 & Hl1).
    { destruct (h =s ""); [eexists _, _, _; split; [done|constructor]|]. cbn [nd_Resolver newDialer]. by apply lookup_ok. }
    destruct (connect_first control ctx network port (filter (fun a => fits network a = true) l1)) as [ev r] eqn:Ec.
    exists rot1, ev1, ev, r. split.
    { intros m. specialize (E1 m). cbn [DialContext] in E1. unfold net_DialContext in E1. rewrite E1. cbn [nd_ControlContext newDialer]. by rewrite Ec. }
    apply connect_first_ok in Ec as (Ha & _ & Hr); [|apply fits_filter].
    split_and!; [done..|]. intros dst Hd. destruct (Hr dst Hd) as (before & nw & Hb & _). eauto.
Qed.

(** C9: Whatever a plugin dials, and under whatever context: the dial ends, two
    levels of the recursion between dialing and resolving being enough; every
    socket it opens, for the lookup and for the connection, went through the
    platform's control hook with the escape the context carries and the family of
    the attempt, and was connected only if the hook succeeded; lookups only go to
    the nameservers of the escape, or to the system's when the escape names no
    usable one, and never through the C library; and the connection returned is
    the last socket opened. *)
Theorem dial_escapes n rotation ctx network address :
  Forall literal_target nw_conf ->
  exists rotation' lookups attempts r,
    DialContext (2 + n) rotation ctx network address = Some (rotation', lookups ++ attempts, r) /\
    DialContext 2 rotation ctx network address = Some (rotation', lookups ++ attempts, r) /\
    Forall (lookup_event ctx) lookups /\ Forall (attempt_event ctx) attempts /\
    forall dst, r = Ok dst -> exists before network,
      attempts = before ++ [Socket network dst (nw_control (escapeFrom ctx) network) true] /\
      (nw_control (escapeFrom ctx) network).2 = None.
Proof.
  intros Hconf. destruct (dial_ok rotation ctx network address Hconf) as (rot' & lk & at_ & r & H1 & H2 & H3 & H4).
  exists rot', lk, at_, r. split_and!; [apply H1|apply (H1 0%nat)|done|done|].
  intros dst Hd. destruct (H4 dst Hd) as (before & nw & Hb). exists before, nw. split; [done|].
  rewrite Hb in H3. apply Forall_app in H3 as [_ H3]. inversion_clear H3 as [|?? Hx _].
  destruct Hx as (nw' & dst' & b & He & _ & Hc). simplify_eq. by apply Hc.
Qed.
End dial.

(** On Linux, with a firewall mark in the escape, no connected socket is without
    it, that of a lookup included. *)
Corollary dial_marked `{NetWorld} setsockopt mark n rotation ctx network address rotation' events r :
  Forall literal_target nw_conf -> (forall e nw, nw_control e nw = control_linux setsockopt e) ->
  es_FirewallMark (escapeFrom ctx) = mark -> mark <> 0 ->
  DialContext (2 + n) rotation ctx network address = Some (rotation', events, r) ->
  forall nw dst c, In (Socket nw dst c true) events -> c = (Some (SO_MARK mark), None).
Proof.
  intros Hconf Hc Hm Hne Hd nw dst c Hin.
  assert (forall e, attempt_event ctx e -> e = Socket nw dst c true -> c = (Some (SO_MARK mark), None)) as Hat.
  { intros e (nw' & dst' & b & -> & _ & Hok) [= -> -> <- ->]. specialize (Hok eq_refl). rewrite Hc in *.
    unfold control_linux in *. rewrite Hm in *. destruct (Z.eqb_spec mark 0); [done|]. cbn [snd] in Hok. by rewrite Hok. }
  destruct (dial_ok rotation ctx network address Hconf) as (r1 & lk & at_ & r2 & E & H2 & H3 & _).
  rewrite (E n) in Hd. symmetry in Hd. rename Hd into E'. injection E' as _ -> _. rewrite List.Forall_forall in H2, H3.
  apply in_app_or in Hin as [Hin|Hin]; [|by eapply Hat; [by apply H3|]].
  destruct (H2 _ Hin) as (t & d & _ & _ & [[name He]|[Ha _]]); [done|by eapply Hat].
Qed.

(** ** Witnesses *)

Definition w_world : NetWorld := {|
  nw_conf := ["127.0.0.53:53"];
  nw_hosts := fun _ _ => [];
  nw_service := fun _ _ => None;
  nw_answer := fun server network name =>
    if network =s "udp" then Truncated else Addresses [Addr4 3325256711];
  nw_system := fun _ => [];
  nw_connect := fun _ _ => true;
  nw_control := fun e _ => control_linux (fun _ => None) e
|}.
Definition w_escape : Escape := mkEscapeOf 51820 0 ∅ None ["dns.example"; "1.1.1.1"].
Definition w_dial : Dialled := @DialContext w_world 2 0 (WithEscape [] w_escape) "tcp" "dht.example:443".

Lemma w_conf_literal : Forall literal_target (@nw_conf w_world).
Proof.
  repeat constructor. intros h p H. vm_compute in H. injection H as <- <-. eexists. vm_compute. reflexivity.
Defined.

Lemma dial_escapes_witness :
  exists rotation lookups attempts,
    w_dial = Some (rotation, lookups ++ attempts, Ok (mkAP (Addr4 3325256711) 443)) /\
    Forall (@lookup_event w_world [w_escape]) lookups /\ Forall (@attempt_event w_world [w_escape]) attempts.
Proof.
  destruct (@dial_escapes w_world 0 0 [w_escape] "tcp" "dht.example:443" w_conf_literal)
    as (rot & lk & at_ & r & E & _ & H2 & H3 & _).
  exists rot, lk, at_. split; [|split; [exact H2|exact H3]].
  change w_dial with (@DialContext w_world (2 + 0) 0 [w_escape] "tcp" "dht.example:443"). rewrite E. f_equal. f_equal.
  vm_compute in E. by injection E as _ _ <-.
Defined.

Lemma dial_marked_witness : forall nw dst c rot events r,
  w_dial = Some (rot, events, r) -> In (Socket nw dst c true) events -> c = (Some (SO_MARK 51820), None).
Proof.
  intros nw dst c rot events r E.
  exact (@dial_marked w_world (fun _ => None) 51820 0 0 [w_escape] "tcp" "dht.example:443" rot events r
    w_conf_literal (fun _ _ => eq_refl) eq_refl ltac:(discriminate) E nw dst c).
Defined.
