(* ===== verification/RouteprobeFacts.v ===== *)
(** * Theorems on the route probe and the dialer *)

From S2P Require Import Prelude GoStr Codec Netip NetipFacts Validation TextFacts Routeprobe Dialer.

(** ** Covering routes *)

Section covering.
Variables (fam : Family) (isTunnel : string -> bool).

(** A route of the family through a tunnel. *)
Definition tunnel_route (r : Route) : Prop :=
  familyMatches (rt_Prefix r) fam = true /\ isTunnel (rt_Interface r) = true.

Definition zero_route (routes : list Route) : Prop :=
  exists r, In r routes /\ tunnel_route r /\ pf_bits (rt_Prefix r) = 0.
Definition half_route (half : Prefix) (routes : list Route) : Prop :=
  exists r, In r routes /\ tunnel_route r /\ Masked (rt_Prefix r) = half.

Lemma zero_cons r routes :
  zero_route (r :: routes) <-> (tunnel_route r /\ pf_bits (rt_Prefix r) = 0) \/ zero_route routes.
Proof.
  split.
  - intros (q & [<-|Hin] & Hq); [by left|right; by exists q].
  - intros [Hr|(q & Hin & Hq)]; [exists r|exists q]; split; [by left|done|by right|done].
Qed.

Lemma half_cons half r routes :
  half_route half (r :: routes) <-> (tunnel_route r /\ Masked (rt_Prefix r) = half) \/ half_route half routes.
Proof.
  split.
  - intros (q & [<-|Hin] & Hq); [by left|right; by exists q].
  - intros [Hr|(q & Hin & Hq)]; [exists r|exists q]; split; [by left|done|by right|done].
Qed.

Lemma half_bits p half : Masked p = half -> pf_bits half = 1 -> pf_bits p = 1.
Proof. intros <-. unfold Masked. destruct (_ || _); [done|]. by destruct (pf_addr p). Qed.

Lemma covering_loop_spec low high routes : low && high = false ->
  covering_loop fam isTunnel low high routes = true <->
  zero_route routes \/
  ((low = true \/ half_route (low_half fam) routes) /\ (high = true \/ half_route (high_half fam) routes)).
Proof.
  revert low high. induction routes as [|r routes IH]; intros low high Hlh; cbn [covering_loop].
  - split; [done|]. intros [(? & [] & _)|[[->|(? & [] & _)] [->|(? & [] & _)]]]. done.
  - rewrite zero_cons, !half_cons. unfold tunnel_route.
    specialize (IH low high Hlh) as IH0.
    generalize dependent (zero_route routes). intros Z0 IH IH0.
    generalize dependent (half_route (low_half fam) routes). intros L0 IH IH0.
    generalize dependent (half_route (high_half fam) routes). intros H0 IH IH0.
    destruct (familyMatches (rt_Prefix r) fam); cbn [negb]; [|rewrite IH0; intuition discriminate].
    destruct (isTunnel (rt_Interface r)); cbn [negb]; [|rewrite IH0; intuition discriminate].
    destruct (Z.eqb_spec (pf_bits (rt_Prefix r)) 0) as [Hz|Hz]; [tauto|]. cbn zeta.
    assert (Masked (rt_Prefix r) = low_half fam -> Masked (rt_Prefix r) = high_half fam -> False) as Hne
      by (intros ->; by destruct fam).
    generalize dependent (Masked (rt_Prefix r)). intros m Hne.
    destruct (decide (m = low_half fam)) as [El|El]; destruct (decide (m = high_half fam)) as [Eh|Eh].
    + destruct (Hne El Eh).
    + rewrite (bool_decide_true _ El), (bool_decide_false _ Eh), orb_true_r, orb_false_r. cbn [andb].
      destruct high; [tauto|]. rewrite IH by done. intuition discriminate.
    + rewrite (bool_decide_false _ El), (bool_decide_true _ Eh), orb_true_r, orb_false_r.
      destruct low; cbn [andb]; [tauto|]. rewrite IH by done. intuition discriminate.
    + rewrite (bool_decide_false _ El), (bool_decide_false _ Eh), !orb_false_r, Hlh, IH0. intuition discriminate.
Qed.
End covering.

(** An address of the family. *)
Definition family_addr (fam : Family) (a : Addr) : Prop :=
  match fam with
  | IPv4 => exists v, a = Addr4 v /\ 0 <= v < 2 ^ 32
  | IPv6 => exists v, a = Addr6 v "" /\ 0 <= v < 2 ^ 128
  end.
(** What [netip.PrefixFrom] makes: bits in range or -1. *)
Definition route_wf (r : Route) : Prop :=
  match pf_addr (rt_Prefix r) with
  | Addr4 v => 0 <= v < 2 ^ 32 /\ -1 <= pf_bits (rt_Prefix r) <= 32
  | Addr6 v z => z = "" /\ 0 <= v < 2 ^ 128 /\ -1 <= pf_bits (rt_Prefix r) <= 128
  | AddrZ => True
  end.

Lemma shiftr_top v w n : 0 < n -> 0 <= v < 2 ^ n -> 0 <= w < 2 ^ n -> Z.shiftr (Z.lxor w v) n = 0.
Proof.
  intros Hn Hv Hw. pose proof (lxor_range n w v Hn Hw Hv). rewrite Z.shiftr_div_pow2 by lia.
  apply Z.div_small. lia.
Qed.

Lemma top_bit w n : 0 < n -> 0 <= w < 2 ^ n -> Z.shiftr w (n - 1) = 0 \/ Z.shiftr w (n - 1) = 1.
Proof.
  intros Hn Hw. rewrite Z.shiftr_div_pow2 by lia.
  assert (2 ^ n = 2 * 2 ^ (n - 1)) as E by (rewrite <-Z.pow_succ_r by lia; f_equal; lia).
  pose proof (Z.pow_pos_nonneg 2 (n - 1)).
  assert (0 <= w / 2 ^ (n - 1) < 2); [|lia].
  split; [apply Z.div_pos; lia|apply Z.div_lt_upper_bound; lia].
Qed.

Lemma half_contains n v w b : 1 < n -> 0 <= v < 2 ^ n -> 0 <= w < 2 ^ n ->
  mask_val n 1 v = b * 2 ^ (n - 1) -> Z.shiftr w (n - 1) = b -> Z.shiftr (Z.lxor w v) (n - 1) = 0.
Proof.
  intros Hn Hv Hw Hm Hb. rewrite Z.shiftr_lxor, Hb. unfold mask_val in Hm.
  rewrite Z.shiftl_mul_pow2 in Hm by lia. pose proof (Z.pow_pos_nonneg 2 (n - 1)).
  assert (Z.shiftr v (n - 1) = b) as -> by nia. apply Z.lxor_nilpotent.
Qed.

Lemma zero_contains fam r a :
  route_wf r -> familyMatches (rt_Prefix r) fam = true -> pf_bits (rt_Prefix r) = 0 -> family_addr fam a ->
  Contains (rt_Prefix r) a = true.
Proof.
  intros Hwf Hf Hb Ha. destruct r as [[pa bits] i x]. cbn in *. subst bits. unfold Contains. cbn.
  destruct fam, pa as [|v|v z]; try done; destruct Ha as (w & -> & Hw); cbn; apply Z.eqb_eq.
  - apply (shiftr_top v w 32); [lia|apply Hwf|done].
  - apply (shiftr_top v w 128); [lia|apply Hwf|done].
Qed.

(** The half an address lies in. *)
Lemma half_of fam a : family_addr fam a ->
  (forall r, route_wf r -> familyMatches (rt_Prefix r) fam = true -> Masked (rt_Prefix r) = low_half fam ->
     Contains (rt_Prefix r) a = true) \/
  (forall r, route_wf r -> familyMatches (rt_Prefix r) fam = true -> Masked (rt_Prefix r) = high_half fam ->
     Contains (rt_Prefix r) a = true).
Proof.
  intros Ha. assert (exists n w, (fam = IPv4 /\ n = 32 /\ a = Addr4 w \/ fam = IPv6 /\ n = 128 /\ a = Addr6 w "") /\
    0 <= w < 2 ^ n) as (n & w & Hn & Hw).
  { destruct fam, Ha as (w & -> & Hw); [exists 32, w|exists 128, w]; naive_solver. }
  assert (forall b r, Z.shiftr w (n - 1) = b -> route_wf r -> familyMatches (rt_Prefix r) fam = true ->
    Masked (rt_Prefix r) = mkPrefix (match fam with IPv4 => Addr4 (b * 2 ^ 31) | IPv6 => Addr6 (b * 2 ^ 127) "" end) 1 ->
    Contains (rt_Prefix r) a = true) as Hgo.
  { intros b r Hb Hwf Hf Hm. pose proof (half_bits _ _ Hm eq_refl) as Hbits.
    destruct r as [[pa bits] i x]. cbn in *. subst bits. unfold Contains. cbn. unfold Masked in Hm. cbn in Hm.
    destruct Hn as [(-> & -> & ->)|(-> & -> & ->)]; destruct pa as [|v|v z]; try done;
      cbn in Hm; injection Hm as Hm; cbn; apply Z.eqb_eq.
    - by apply (half_contains 32 v w b); [|apply Hwf|..].
    - by apply (half_contains 128 v w b); [|apply Hwf|..]. }
  destruct (top_bit w n) as [Hb|Hb]; [destruct Hn as [(_ & -> & _)|(_ & -> & _)]; lia|done|left|right];
    intros r Hwf Hf Hm; eapply Hgo; try done; rewrite Hm; by destruct fam.
Qed.

(** A tunnel that is reported to cover the default really swallows everything:
    when the probe answers yes, every address of the family lies in a route that
    goes out a tunnel interface, whether by a /0 route or by two halves, even
    on different tunnels. *)
Theorem covering_covers routes fam isTunnel a :
  Forall route_wf routes -> HasCoveringDefault routes fam (Some isTunnel) = true -> family_addr fam a ->
  exists r, In r routes /\ isTunnel (rt_Interface r) = true /\ Contains (rt_Prefix r) a = true.
Proof.
  intros Hwf Hc Ha. rewrite List.Forall_forall in Hwf. cbn in Hc.
  apply covering_loop_spec in Hc; [|done].
  destruct Hc as [(r & Hin & [Hf Ht] & Hb)|[[|(r & Hin & [Hf Ht] & Hl)] [|(q & Hiq & [Hfq Htq] & Hh)]]]; try done.
  - exists r. split_and!; [done..|]. eapply zero_contains; eauto.
  - destruct (half_of fam a Ha) as [H|H]; [exists r|exists q]; split_and!; eauto.
Qed.

(** And it is reported exactly for those tables: a /0 route, or both halves. *)
Theorem HasCoveringDefault_spec routes fam isTunnel :
  HasCoveringDefault routes fam (Some isTunnel) = true <->
  zero_route fam isTunnel routes \/
  (half_route fam isTunnel (low_half fam) routes /\ half_route fam isTunnel (high_half fam) routes).
Proof. cbn. rewrite covering_loop_spec by done. naive_solver. Qed.

Lemma choose_some routes fam isTunnel r :
  chooseDefaultInterface routes fam isTunnel = Some r ->
  In r routes /\ familyMatches (rt_Prefix r) fam = true /\ pf_bits (rt_Prefix r) = 0 /\
  match isTunnel with Some f => f (rt_Interface r) = false | None => True end.
Proof.
  induction routes as [|q routes IH]; [done|]. cbn [chooseDefaultInterface].
  destruct (familyMatches (rt_Prefix q) fam) eqn:Ef; cbn [negb]; [|intros H; split; [right|]; by apply IH].
  destruct (Z.eqb_spec (pf_bits (rt_Prefix q)) 0) as [Hz|]; cbn [negb]; [|intros H; split; [right|]; by apply IH].
  destruct isTunnel as [f|].
  - destruct (f (rt_Interface q)) eqn:Et; [intros H; split; [right|]; by apply IH|].
    intros [= <-]. split_and!; [by left|done..].
  - intros [= <-]. split_and!; [by left|done..].
Qed.

(** The interface a socket is bound to is never a tunnel: it carries a default
    route of the family, and the dialer binds only while a tunnel covers. *)
Theorem boundInterface_physical currentRoutes escape fam i :
  let t := es_TunnelIfaces escape in
  boundInterface currentRoutes escape fam = Ok (Some i) ->
  exists routes r, currentRoutes fam = Ok routes /\ In r routes /\ rt_Index r = i /\ i <> 0 /\
    pf_bits (rt_Prefix r) = 0 /\ familyMatches (rt_Prefix r) fam = true /\ rt_Interface r ∉ t /\
    HasCoveringDefault routes fam (Some (Contains_ t)) = true.
Proof.
  cbv zeta. unfold boundInterface, Probe, DefaultRouteInterface. cbv zeta. destruct (_ =? _)%nat; [done|].
  destruct (currentRoutes fam) as [routes|]; [|done]. destruct (HasCoveringDefault _ _ _) eqn:Eh; cbn [negb]; [|done].
  destruct (chooseDefaultInterface _ _ _) as [r|] eqn:Ec; [|done].
  destruct (Z.eqb_spec (rt_Index r) 0) as [|Hi]; [done|]. intros [= <-].
  apply choose_some in Ec as (H1 & H2 & H3 & H4). exists routes, r. split_and!; try done.
  unfold Contains_ in H4. by apply bool_decide_eq_false in H4.
Qed.

(** ** Witnesses *)

Definition w_routes : list Route :=
  [mkRoute (mkPrefix (Addr4 0) 0) "eth0" 2; mkRoute (mkPrefix (Addr4 0) 1) "wg0" 5;
   mkRoute (mkPrefix (Addr4 (2 ^ 31)) 1) "wg1" 6].
Definition w_tunnels : TunnelInterfaces := NewTunnelInterfaces ["wg0"; "wg1"].

Lemma covering_covers_witness :
  exists r, In r w_routes /\ Contains_ w_tunnels (rt_Interface r) = true /\
    Contains (rt_Prefix r) (Addr4 (9 * 2 ^ 24)) = true.
Proof.
  apply (covering_covers w_routes IPv4 (Contains_ w_tunnels)).
  - repeat constructor; cbn; lia.
  - vm_compute. reflexivity.
  - exists (9 * 2 ^ 24). split; [reflexivity|lia].
Defined.

Lemma boundInterface_physical_witness :
  exists routes r, Ok w_routes = Ok routes /\ In r routes /\ rt_Index r = 2 /\ rt_Interface r ∉ w_tunnels.
Proof.
  destruct (boundInterface_physical (fun _ => Ok w_routes) (mkEscapeOf 0 0 w_tunnels None []) IPv4 2) as (routes & r & H1 & H2 & H3 & _ & _ & _ & H4 & _);
    [vm_compute; reflexivity|].
  exists routes, r. split; [exact H1|]. split; [exact H2|]. split; [exact H3|exact H4].
Defined.
