(* ===== verification/Proxy.v ===== *)
(** * internal/wgproxy/{proxy,manager,escape}.go: the socket relay

    One proxy per WireGuard interface: an outer socket per family, an inner
    loopback socket per peer, the classifier of [Demux] between them.  The loop
    bodies are functions of one received datagram; [proxy_step] interleaves
    them with the calls of the controllers.  Binding and sending are answered
    by the environment. *)

From S2P Require Import Prelude GoStr Netip Stunwire Demux Routeprobe.

Definition relayBufSize : Z := 65535.
Definition readBackoffStep : Z := 1000000.
Definition maxReadBackoff : Z := 100000000.
Definition ErrNoFamilies : error := ENew "wgproxy: no protocol families enabled".
Definition ErrProxyClosed : error := ENew "wgproxy: proxy closed".
Definition ErrFamilyNotEnabled : string := "wgproxy: protocol family not enabled".
Definition ErrExchangeTimeout : error := ENew "wgproxy: STUN exchange timed out".

(** [Family]: 1 is IPv4, 2 is IPv6 *)
Definition FamilyIPv4 : Z := 1.
Definition FamilyIPv6 : Z := 2.
Definition Family_String (f : Z) : string :=
  if f =? FamilyIPv4 then "ipv4" else if f =? FamilyIPv6 then "ipv6" else "family(" +:+ itoa f +:+ ")".
Definition network (f : Z) : string :=
  if f =? FamilyIPv4 then "udp4" else if f =? FamilyIPv6 then "udp6" else "".
Definition familyOf (ap : AddrPort) : Z :=
  if Is4 (Unmap (ap_addr ap)) then FamilyIPv4 else FamilyIPv6.

(** ** Tunnel escape (escape.go, escape_linux.go)

    [firewallMark] and [fib] are 0 when unset. *)
Record escapeOptions := mkEscape { eo_firewallMark : Z; eo_fib : Z; eo_tunnelIfaces : TunnelInterfaces }.
Definition escapeOptions0 : escapeOptions := mkEscape 0 0 ∅.
Definition WithEscape (firewallMark fib : Z) (tunnelIfaces : TunnelInterfaces) (o : escapeOptions) : escapeOptions :=
  mkEscape firewallMark fib tunnelIfaces.
Definition routeprobeFamily (f : Z) : Family := if f =? FamilyIPv6 then IPv6 else IPv4.
(** A probe that failed never escapes. *)
Definition shouldEscape (covering : result bool) (firewallMark : Z) : bool :=
  match covering with Ok true => negb (firewallMark =? 0) | _ => false end.
Definition shouldSetFib (covering : result bool) (fib : Z) : bool :=
  match covering with Ok true => negb (fib =? 0) | _ => false end.
(** The mark [escapeOuterSocket] sets on Linux, if any; [routes] reads the
    route tables of the moment. *)
Definition escape_mark (routes : Family -> result (list Route)) (fam : Z) (o : escapeOptions) : option Z :=
  if (size (eo_tunnelIfaces o) =? 0)%nat then None
  else if shouldEscape (Probe routes (routeprobeFamily fam) (eo_tunnelIfaces o)) (eo_firewallMark o)
  then Some (eo_firewallMark o) else None.

(** ** State *)

Record peerState := mkPeerState {
  ps_innerAddr : AddrPort;
  ps_remote : option AddrPort        (* programmed via SetPeerEndpoint only *)
}.

Record Proxy := mkProxy {
  px_demux : Demux;
  px_outer : gmap Z Z;               (* family -> bound port *)
  px_marks : gmap Z Z;               (* family -> SO_MARK, where set *)
  px_wgPort : Z;
  px_peers : gmap PeerKey peerState;
  px_closed : bool;
  px_truncated : Z;
  px_unroutable : Z;
  px_writeErrs : Z
}.

(** What the relay sends: from an inner or an outer socket. *)
Inductive Send : Type :=
| InnerWrite (peer : PeerKey) (dst : AddrPort) (data : list Z)
| OuterWrite (fam : Z) (dst : AddrPort) (data : list Z).

Definition with_demux (p : Proxy) (d : Demux) : Proxy :=
  mkProxy d (px_outer p) (px_marks p) (px_wgPort p) (px_peers p) (px_closed p)
    (px_truncated p) (px_unroutable p) (px_writeErrs p).
Definition with_peers (p : Proxy) (d : Demux) (peers : gmap PeerKey peerState) : Proxy :=
  mkProxy d (px_outer p) (px_marks p) (px_wgPort p) peers (px_closed p)
    (px_truncated p) (px_unroutable p) (px_writeErrs p).
Definition with_txns (d : Demux) (r : TxnRegistry) : Demux :=
  mkDemux r (peerBySrc d) (srcByPeer d) (droppedSTUN d) (droppedOther d).

(** ** Construction

    [bind fam port] is the port [net.ListenUDP] bound.  On failure the sockets
    bound so far are closed; the second component lists them. *)
Fixpoint bind_outer (bind : Z -> Z -> result Z) (routes : Family -> result (list Route)) (o : escapeOptions)
    (outer marks : gmap Z Z) (families : list (Z * Z)) : result (gmap Z Z * gmap Z Z) * list Z :=
  match families with
  | [] => (Ok (outer, marks), [])
  | (fam, port) :: rest =>
      if network fam =s "" then
        (Err (ENew "wgproxy: unknown protocol family"), (map_to_list outer).*1)
      else match bind fam port with
           | Err e => (Err (EWrap "wgproxy: bind outer socket" [e]), (map_to_list outer).*1)
           | Ok bound =>
               bind_outer bind routes o (<[fam := wrap16 bound]> outer)
                 (match escape_mark routes fam o with Some m => <[fam := m]> marks | None => marks end) rest
           end
  end.

Definition New (bind : Z -> Z -> result Z) (routes : Family -> result (list Route)) (o : escapeOptions)
    (families : gmap Z Z) : result Proxy * list Z :=
  if (size families =? 0)%nat then (Err ErrNoFamilies, [])
  else match bind_outer bind routes o ∅ ∅ (map_to_list families) with
       | (Err e, closed) => (Err e, closed)
       | (Ok (outer, marks), _) => (Ok (mkProxy NewDemux outer marks 0 ∅ false 0 0 0), [])
       end.

(** ** Calls *)

Definition SetWGTarget (p : Proxy) (port : Z) : Proxy :=
  mkProxy (px_demux p) (px_outer p) (px_marks p) port (px_peers p) (px_closed p)
    (px_truncated p) (px_unroutable p) (px_writeErrs p).
Definition wgTarget (p : Proxy) : AddrPort :=
  if px_wgPort p =? 0 then AddrPort0 else mkAP (Addr4 (127 * 2 ^ 24 + 1)) (wrap16 (px_wgPort p)).

(** [bind] is the outcome of binding 127.0.0.1:0, consulted for a new peer only. *)
Definition AddPeer (p : Proxy) (key : PeerKey) (bind : result AddrPort) : Proxy * result AddrPort :=
  if px_closed p then (p, Err ErrProxyClosed)
  else match px_peers p !! key with
       | Some ps => (p, Ok (ps_innerAddr ps))
       | None =>
           match bind with
           | Err e => (p, Err (EWrap "wgproxy: bind inner socket" [e]))
           | Ok addr =>
               let ps := mkPeerState (normalize addr) None in
               (with_peers p (px_demux p) (<[key := ps]> (px_peers p)), Ok (ps_innerAddr ps))
           end
       end.

Definition SetPeerEndpoint (p : Proxy) (key : PeerKey) (remote : AddrPort) : Proxy * result unit :=
  let remote := normalize remote in
  match px_peers p !! key with
  | None => (p, Err (ENew "unknown proxy peer"))
  | Some ps =>
      if negb (AddrPort_IsValid remote) || (ap_port remote =? 0)
      then (p, Err (ENew "invalid proxy endpoint"))
      else
        let '(d, r) := Program (px_demux p) key remote in
        match r with
        | Err e => (with_demux p d, Err e)
        | Ok _ =>
            (with_peers p d (<[key := mkPeerState (ps_innerAddr ps) (Some remote)]> (px_peers p)), Ok tt)
        end
  end.

Definition OuterPort (p : Proxy) (fam : Z) : Z := default 0 (px_outer p !! fam).

(** [Exchange] up to the wait: register and send.  [send_ok] is the outcome of
    the write.  The reply channel is what the wait receives from. *)
Definition Exchange_start (p : Proxy) (server : AddrPort) (txnID : TxnID) (packet : list Z) (send_ok : bool)
  : Proxy * result nat * list Send :=
  match px_outer p !! familyOf server with
  | None => (p, Err (EWrap "" [ENew ErrFamilyNotEnabled]), [])
  | Some _ =>
      let '(r, reply) := Register (txns (px_demux p)) txnID server in
      match reply with
      | Err e => (with_demux p (with_txns (px_demux p) r), Err e, [])
      | Ok ch =>
          if send_ok
          then (with_demux p (with_txns (px_demux p) r), Ok ch, [OuterWrite (familyOf server) server packet])
          else (with_demux p (with_txns (px_demux p) (Unregister r txnID)),
                Err (EWrap "wgproxy: send STUN request" [ENew "write"]), [])
      end
  end.

(** The case the [select] takes, then the deferred [Unregister].  The reply case
    is possible only when the channel holds a packet. *)
Inductive WaitEvent : Type := WReply | WCancelled | WTimeout.
Definition Exchange_finish (p : Proxy) (txnID : TxnID) (ch : nat) (ev : WaitEvent)
  : option (Proxy * result (list Z)) :=
  let finish r := with_demux p (with_txns (px_demux p) (Unregister r txnID)) in
  match ev with
  | WReply =>
      match try_recv (txns (px_demux p)) ch with
      | (r, Some b) => Some (finish r, Ok b)
      | (_, None) => None
      end
  | WCancelled => Some (finish (txns (px_demux p)), Err (ENew "context canceled"))
  | WTimeout => Some (finish (txns (px_demux p)), Err ErrExchangeTimeout)
  end.

Definition Close (p : Proxy) : Proxy :=
  mkProxy (px_demux p) (px_outer p) (px_marks p) (px_wgPort p) (px_peers p) true
    (px_truncated p) (px_unroutable p) (px_writeErrs p).

(** ** The loop bodies *)

Definition count (n : Z) : Z := wrapU64 (n + 1).
Definition noteTruncation (p : Proxy) (n : Z) : Proxy :=
  if n =? relayBufSize
  then mkProxy (px_demux p) (px_outer p) (px_marks p) (px_wgPort p) (px_peers p) (px_closed p)
         (count (px_truncated p)) (px_unroutable p) (px_writeErrs p)
  else p.
Definition countUnroutable (p : Proxy) : Proxy :=
  mkProxy (px_demux p) (px_outer p) (px_marks p) (px_wgPort p) (px_peers p) (px_closed p)
    (px_truncated p) (count (px_unroutable p)) (px_writeErrs p).
Definition countWriteErr (p : Proxy) : Proxy :=
  mkProxy (px_demux p) (px_outer p) (px_marks p) (px_wgPort p) (px_peers p) (px_closed p)
    (px_truncated p) (px_unroutable p) (count (px_writeErrs p)).

(** One datagram read from an outer socket. *)
Definition outerLoop_body (p : Proxy) (src : AddrPort) (b : list Z) (write_ok : bool) : Proxy * list Send :=
  let p := noteTruncation p (Z.of_nat (length b)) in
  let '(d, decision) := Classify (px_demux p) src b in
  let p := with_demux p d in
  match d_bucket decision with
  | BucketRelay =>
      let target := wgTarget p in
      match px_peers p !! d_peer decision with
      | None => (countUnroutable p, [])
      | Some _ =>
          if negb (AddrPort_IsValid target) then (countUnroutable p, [])
          else if write_ok then (p, [InnerWrite (d_peer decision) target b])
          else (countWriteErr p, [])
      end
  | _ => (p, [])
  end.

(** One datagram read from the inner socket of peer [key]. *)
Definition innerLoop_body (p : Proxy) (key : PeerKey) (b : list Z) (write_ok : bool) : Proxy * list Send :=
  let p := noteTruncation p (Z.of_nat (length b)) in
  match px_peers p !! key with
  | None => (p, [])                          (* no such loop *)
  | Some ps =>
      match ps_remote ps with
      | None => (countUnroutable p, [])
      | Some remote =>
          match px_outer p !! familyOf remote with
          | None => (countUnroutable p, [])
          | Some _ =>
              if write_ok then (p, [OuterWrite (familyOf remote) remote b])
              else (countWriteErr p, [])
          end
      end
  end.

Definition backoff (consecutiveErrs : Z) : Z :=
  if consecutiveErrs <=? 1 then 0
  else Z.min ((consecutiveErrs - 1) * readBackoffStep) maxReadBackoff.

(** The read-error path of both loops: [None] leaves the loop, [Some (n, d)]
    retries after sleeping [d] with [n] consecutive errors. *)
Definition read_error (p : Proxy) (is_net_closed : bool) (consecutiveErrs : Z) : option (Z * Z) :=
  if is_net_closed || px_closed p then None
  else Some (consecutiveErrs + 1, backoff (consecutiveErrs + 1)).

(** ** Steps

    A loop that read a datagram before [Close] still handles it afterwards, so
    the loop bodies are steps of a closed relay too; [ProxyLife] has the sockets
    and goroutines that decide when. *)

Inductive proxy_step : Proxy -> Proxy -> list Send -> Prop :=
| ps_SetWGTarget p port : is_u16 port -> proxy_step p (SetWGTarget p port) []
| ps_AddPeer p key bind : proxy_step p (AddPeer p key bind).1 []
| ps_SetPeerEndpoint p key remote : proxy_step p (SetPeerEndpoint p key remote).1 []
| ps_start p server id packet ok p' r out :
    Exchange_start p server id packet ok = (p', r, out) -> proxy_step p p' out
| ps_finish p id ch ev p' r : Exchange_finish p id ch ev = Some (p', r) -> proxy_step p p' []
| ps_outer p src b ok :
    bytes_ok b -> proxy_step p (outerLoop_body p src b ok).1 (outerLoop_body p src b ok).2
| ps_inner p key b ok : proxy_step p (innerLoop_body p key b ok).1 (innerLoop_body p key b ok).2
| ps_Close p : proxy_step p (Close p) [].

Inductive proxy_reachable : Proxy -> Prop :=
| pr_new bind routes o families p : New bind routes o families = (Ok p, []) -> proxy_reachable p
| pr_step p p' out : proxy_reachable p -> proxy_step p p' out -> proxy_reachable p'.

(** ** Manager (manager.go): proxies live in a store, the manager holds their names *)

Definition ErrManagerClosed : error := ENew "wgproxy: manager closed".
Definition ErrProxyNotReady : string := "wgproxy: proxy not initialized yet".

Record Manager := mkManager { m_proxies : gmap string Proxy; m_closed : bool }.
Definition NewManager : Manager := mkManager ∅ false.

(** [created] is the outcome of [New] with the caller's families and options,
    consulted for a device without a proxy only. *)
Definition For (m : Manager) (deviceName : string) (created : result Proxy) : Manager * result Proxy :=
  if m_closed m then (m, Err ErrManagerClosed)
  else match m_proxies m !! deviceName with
       | Some p => (m, Ok p)
       | None =>
           match created with
           | Err e => (m, Err e)
           | Ok p => (mkManager (<[deviceName := p]> (m_proxies m)) false, Ok p)
           end
       end.
Definition Manager_Get (m : Manager) (deviceName : string) : result Proxy :=
  if m_closed m then Err ErrManagerClosed
  else match m_proxies m !! deviceName with
       | Some p => Ok p
       | None => Err (EWrap deviceName [ENew ErrProxyNotReady])
       end.
Definition Manager_Close (m : Manager) : Manager := if m_closed m then m else mkManager ∅ true.
(** A call on a device's proxy, written back to the store. *)
Definition Manager_update (m : Manager) (deviceName : string) (p : Proxy) : Manager :=
  mkManager (<[deviceName := p]> (m_proxies m)) (m_closed m).
