(* ===== verification/ProxyFacts.v ===== *)
(** * Theorems on the relay *)

From S2P Require Import Prelude GoStr Netip Stunwire Demux Proxy.

(** What the controllers programmed is what both directions use: a peer's
    outbound remote is its inbound attribution. *)
Definition proxy_inv (p : Proxy) : Prop :=
  demux_inv (px_demux p) /\
  (forall key ps, px_peers p !! key = Some ps -> ps_remote ps = srcByPeer (px_demux p) !! key) /\
  (forall key, srcByPeer (px_demux p) !! key <> None -> px_peers p !! key <> None) /\
  is_u16 (px_wgPort p).

Lemma demux_step_inv d d' : demux_step d d' -> demux_inv d -> demux_inv d'.
Proof.
  intros Hs [Hm Hr]. destruct Hs; (split; [|simpl]).
  - by apply Program_maps.
  - by rewrite Program_txns.
  - by apply Unprogram_maps.
  - by rewrite Unprogram_txns.
  - destruct (Classify_maps d src b) as [H1 H2]. intros p s. rewrite H1, H2. apply Hm.
  - by apply Classify_registry.
  - done.
  - by apply Register_ok.
  - done.
  - by apply Unregister_ok.
  - done.
  - by apply try_recv_ok.
Qed.

(** A change of the registry alone keeps the invariant. *)
Lemma inv_txns p r :
  registry_ok r -> proxy_inv p -> proxy_inv (with_demux p (with_txns (px_demux p) r)).
Proof. intros Hr ((Hm & _) & H1 & H2 & H3). split_and!; try done; apply H3. Qed.

Lemma noteTruncation_inv p n : proxy_inv p -> proxy_inv (noteTruncation p n).
Proof. unfold noteTruncation. by destruct (_ =? _). Qed.

Lemma Program_srcByPeer d key remote :
  (Program d key remote).2 = Ok tt ->
  srcByPeer (Program d key remote).1 = <[key := normalize remote]> (srcByPeer d).
Proof. destruct (Program_cases d key remote) as [(?&?&?&?&->)|[_ ->]]; done. Qed.

Lemma Program_refused d key remote e : (Program d key remote).2 = Err e -> (Program d key remote).1 = d.
Proof. destruct (Program_cases d key remote) as [(?&?&?&?&->)|[_ ->]]; done. Qed.

Lemma normalize_idem ap : normalize (normalize ap) = normalize ap.
Proof.
  destruct ap as [a port]. unfold normalize. cbn [ap_addr ap_port]. f_equal.
  destruct a as [|v|v z]; cbn; [done..|]. destruct (Z.shiftr v 32 =? 65535) eqn:E; [done|]. cbn. by rewrite E.
Qed.

Lemma SetPeerEndpoint_inv p key remote : proxy_inv p -> proxy_inv (SetPeerEndpoint p key remote).1.
Proof.
  intros (Hd & H1 & H2 & H3). unfold SetPeerEndpoint. cbv zeta.
  destruct (px_peers p !! key) as [ps|] eqn:Ek; [|done]. destruct (_ || _); [done|].
  pose proof (demux_step_inv _ _ (step_Program (px_demux p) key (normalize remote)) Hd) as Hd'.
  pose proof (Program_srcByPeer (px_demux p) key (normalize remote)) as Hs.
  pose proof (Program_refused (px_demux p) key (normalize remote)) as Hf.
  destruct (Program (px_demux p) key (normalize remote)) as [d r]. cbn [fst snd] in *.
  destruct r as [[]|e]; cbn [fst].
  - specialize (Hs eq_refl). split_and!; [done| | |done..]; cbn [px_demux px_peers with_peers]; rewrite Hs.
    + intros k q. destruct (decide (k = key)) as [->|Hne].
      * rewrite !lookup_insert_eq. intros [= <-]. cbn. by rewrite normalize_idem.
      * rewrite !lookup_insert_ne by done. apply H1.
    + intros k. destruct (decide (k = key)) as [->|Hne]; [by rewrite !lookup_insert_eq|].
      rewrite !lookup_insert_ne by done. apply H2.
  - rewrite (Hf e eq_refl). by split_and!.
Qed.

Lemma AddPeer_inv p key bind : proxy_inv p -> proxy_inv (AddPeer p key bind).1.
Proof.
  intros (Hd & H1 & H2 & H3). unfold AddPeer. destruct (px_closed p); [done|].
  destruct (px_peers p !! key) as [ps|] eqn:Ek; [done|]. destruct bind as [addr|]; [|done].
  cbn [fst]. split_and!; [done| | |apply H3..]; cbn [px_demux px_peers with_peers].
  - intros k q. destruct (decide (k = key)) as [->|Hne].
    + rewrite lookup_insert_eq. intros [= <-]. cbn.
      destruct (srcByPeer (px_demux p) !! key) eqn:Es; [|done].
      destruct (H2 key); [by rewrite Es|done].
    + rewrite lookup_insert_ne by done. apply H1.
  - intros k Hk. destruct (decide (k = key)) as [->|Hne]; [by rewrite lookup_insert_eq|].
    rewrite lookup_insert_ne by done. by apply H2.
Qed.

Lemma Classify_inv p src b :
  bytes_ok b -> proxy_inv p -> proxy_inv (with_demux p (Classify (px_demux p) src b).1).
Proof.
  intros Hb (Hd & H1 & H2 & H3). destruct (Classify_maps (px_demux p) src b) as [E1 E2].
  split_and!; cbn [px_demux px_peers with_demux]; [|by rewrite E2|by rewrite E2|apply H3..].
  eapply demux_step_inv; [by apply step_Classify|done].
Qed.

Lemma outer_inv p src b ok : bytes_ok b -> proxy_inv p -> proxy_inv (outerLoop_body p src b ok).1.
Proof.
  intros Hb Hp. unfold outerLoop_body. cbv zeta.
  pose proof (Classify_inv _ src b Hb (noteTruncation_inv p (Z.of_nat (length b)) Hp)) as Hc.
  destruct (Classify _ src b) as [d dec]. cbn [fst] in Hc.
  destruct (d_bucket dec); [done| |done]. destruct (px_peers _ !! _); [|done].
  destruct (negb _); [done|]. by destruct ok.
Qed.

Lemma inner_inv p key b ok : proxy_inv p -> proxy_inv (innerLoop_body p key b ok).1.
Proof.
  intros Hp. pose proof (noteTruncation_inv p (Z.of_nat (length b)) Hp) as Hn.
  unfold innerLoop_body. cbv zeta. destruct (px_peers _ !! key) as [ps|]; [|done].
  destruct (ps_remote ps) as [r|]; [|done]. destruct (px_outer _ !! familyOf r); [|done]. by destruct ok.
Qed.

Lemma proxy_step_inv p p' out : proxy_step p p' out -> proxy_inv p -> proxy_inv p'.
Proof.
  intros Hs Hp. pose proof Hp as ((Hm & Hr) & Hrest).
  destruct Hs as [p port Hport|p key bind|p key remote|p server id packet ok p' r out E
                 |p id ch ev p' r E|p src b ok Hb|p key b ok|p].
  - destruct Hp as (?&?&?&?). by split_and!; try apply Hport.
  - by apply AddPeer_inv.
  - by apply SetPeerEndpoint_inv.
  - unfold Exchange_start in E. destruct (px_outer p !! familyOf server); [|by simplify_eq].
    pose proof (Register_ok (txns (px_demux p)) id server Hr) as Hr'.
    destruct (Register (txns (px_demux p)) id server) as [reg [ch|e]]; cbn [fst] in Hr';
      [destruct ok|]; simplify_eq; apply inv_txns; try done. by apply Unregister_ok.
  - unfold Exchange_finish in E. cbv zeta in E. destruct ev.
    + pose proof (try_recv_ok (txns (px_demux p)) ch Hr) as Hr'.
      destruct (try_recv (txns (px_demux p)) ch) as [reg [b|]]; [|done]. simplify_eq.
      apply inv_txns; [|done]. by apply Unregister_ok.
    + simplify_eq. apply inv_txns; [|done]. by apply Unregister_ok.
    + simplify_eq. apply inv_txns; [|done]. by apply Unregister_ok.
  - by apply outer_inv.
  - by apply inner_inv.
  - done.
Qed.

Lemma proxy_reachable_inv p : proxy_reachable p -> proxy_inv p.
Proof.
  induction 1 as [bind probe o fams p E|p p' out _ IH Hs]; [|by eapply proxy_step_inv].
  unfold New in E. destruct (_ =? _)%nat; [done|].
  destruct (bind_outer _ _ _ _ _ _) as [[[outer marks]|e] closed]; [|done]. simplify_eq.
  split; [apply reachable_inv, reach_new|]. by split_and!.
Qed.

(** C1: in every state the relay can reach, whatever the interleaving of packets,
    STUN exchanges and reconfiguration: a datagram leaves an inner socket only
    toward WireGuard on the loopback, unchanged, and only when it came from the
    endpoint last programmed for that socket's peer; a datagram leaves an outer
    socket only toward the endpoint last programmed for the peer whose inner
    socket it came from, on the socket of that endpoint's family. *)
Theorem relay_safety p src key b ok s :
  proxy_reachable p ->
  (In s (outerLoop_body p src b ok).2 ->
   exists k ps, s = InnerWrite k (mkAP (Addr4 (127 * 2 ^ 24 + 1)) (px_wgPort p)) b /\
     px_peers p !! k = Some ps /\ ps_remote ps = Some (normalize src) /\ px_wgPort p <> 0) /\
  (In s (innerLoop_body p key b ok).2 ->
   exists ps remote port, s = OuterWrite (familyOf remote) remote b /\
     px_peers p !! key = Some ps /\ ps_remote ps = Some remote /\
     srcByPeer (px_demux p) !! key = Some remote /\ px_outer p !! familyOf remote = Some port).
Proof.
  intros Hp%proxy_reachable_inv. pose proof Hp as (Hd & H1 & H2 & H3). split.
  - unfold outerLoop_body. cbv zeta.
    assert (px_demux (noteTruncation p (Z.of_nat (length b))) = px_demux p /\
            px_peers (noteTruncation p (Z.of_nat (length b))) = px_peers p /\
            px_wgPort (noteTruncation p (Z.of_nat (length b))) = px_wgPort p) as (E1 & E2 & E3)
      by (unfold noteTruncation; by destruct (_ =? _)).
    rewrite E1. unfold Classify. destruct (isSTUNShaped b); [by destruct (route _ _ _)|].
    destruct (peerBySrc (px_demux p) !! normalize src) as [peer|] eqn:Es; [|done].
    cbn [d_bucket d_peer]. cbn [px_peers with_demux]. rewrite E2.
    destruct (px_peers p !! peer) as [ps|] eqn:Ek; [|done].
    unfold wgTarget. cbn [px_wgPort with_demux]. rewrite E3.
    destruct (Z.eqb_spec (px_wgPort p) 0); cbn; [done|]. destruct ok; [|done].
    intros [<-|[]]. exists peer, ps. split_and!; try done.
    + by rewrite wrap16_id.
    + rewrite (H1 _ _ Ek). by apply Hd.
  - unfold innerLoop_body. cbv zeta.
    assert (px_outer (noteTruncation p (Z.of_nat (length b))) = px_outer p /\
            px_peers (noteTruncation p (Z.of_nat (length b))) = px_peers p) as (E1 & E2)
      by (unfold noteTruncation; by destruct (_ =? _)).
    rewrite E1, E2. destruct (px_peers p !! key) as [ps|] eqn:Ek; [|done].
    destruct (ps_remote ps) as [remote|] eqn:Er; [|done].
    destruct (px_outer p !! familyOf remote) as [port|] eqn:Eo; [|done]. destruct ok; [|done].
    intros [<-|[]]. exists ps, remote, port. split_and!; try done. by rewrite <-(H1 _ _ Ek).
Qed.

(** [p'] still has the sockets and the peers of [p]. *)
Definition keeps (p p' : Proxy) : Prop :=
  px_outer p' = px_outer p /\ px_marks p' = px_marks p /\
  (forall key ps, px_peers p !! key = Some ps ->
     exists ps', px_peers p' !! key = Some ps' /\ ps_innerAddr ps' = ps_innerAddr ps) /\
  (px_closed p = true -> px_closed p' = true).

(** Ports live as long as the relay: no step rebinds an outer socket or changes a
    peer's inner address, peers never disappear, and asking the manager again
    for a device returns the proxy it has, whatever options come with it. *)
Theorem ports_never_change p p' out : proxy_step p p' out -> keeps p p'.
Proof.
  assert (forall q n, px_outer (noteTruncation q n) = px_outer q /\ px_marks (noteTruncation q n) = px_marks q /\
     px_peers (noteTruncation q n) = px_peers q /\ px_closed (noteTruncation q n) = px_closed q) as Hn.
  { intros q n. unfold noteTruncation. by destruct (_ =? _). }
  assert (forall q q' : Proxy, px_outer q' = px_outer q /\ px_marks q' = px_marks q /\
     px_peers q' = px_peers q /\ px_closed q' = px_closed q -> keeps q q') as Hsame.
  { intros q q'. unfold keeps. intros (-> & -> & -> & ->). split_and!; try done. intros k ps Hk. by exists ps. }
  intros Hs. destruct Hs as [p port Hport|p key bind|p key remote|p server id packet ok p' r out E
                 |p id ch ev p' r E|p src b ok Hb|p key b ok|p].
  - by apply Hsame.
  - unfold AddPeer. destruct (px_closed p) eqn:Ec; [by apply Hsame|].
    destruct (px_peers p !! key) as [ps|] eqn:Ek; [by apply Hsame|].
    destruct bind as [addr|]; [|by apply Hsame]. unfold keeps; cbn. split_and!; try done.
    intros k ps Hk. exists ps. split; [|done]. rewrite lookup_insert_ne; [done|congruence].
  - unfold SetPeerEndpoint. cbv zeta. destruct (px_peers p !! key) as [ps|] eqn:Ek; [|by apply Hsame].
    destruct (_ || _); [by apply Hsame|]. destruct (Program _ _ _) as [d [[]|e]]; [|by apply Hsame].
    unfold keeps; cbn. split_and!; try done. intros k q Hk. destruct (decide (k = key)) as [->|Hne].
    + rewrite lookup_insert_eq. eexists. split; [done|]. cbn. congruence.
    + rewrite lookup_insert_ne by done. by exists q.
  - unfold Exchange_start in E. destruct (px_outer p !! familyOf server); [|simplify_eq; by apply Hsame].
    destruct (Register _ id server) as [reg [ch|e]]; [destruct ok|]; simplify_eq; by apply Hsame.
  - unfold Exchange_finish in E. cbv zeta in E.
    destruct ev; [destruct (try_recv _ ch) as [reg [b|]]; [|done]| |]; simplify_eq; by apply Hsame.
  - apply Hsame. unfold outerLoop_body. cbv zeta.
    destruct (Hn p (Z.of_nat (length b))) as (<- & <- & <- & <-).
    destruct (Classify _ src b) as [d dec]. destruct (d_bucket dec); [done| |done].
    destruct (px_peers _ !! _); [|done]. destruct (negb _); [done|]. by destruct ok.
  - apply Hsame. unfold innerLoop_body. cbv zeta.
    destruct (Hn p (Z.of_nat (length b))) as (<- & <- & <- & <-).
    destruct (px_peers _ !! key) as [ps|]; [|done]. destruct (ps_remote ps) as [r|]; [|done].
    destruct (px_outer _ !! familyOf r); [|done]. by destruct ok.
  - unfold keeps. split_and!; try done. intros k ps Hk. by exists ps.
Qed.

Lemma Exchange_finish_answers p id txn ev p' r :
  proxy_reachable p -> pending (txns (px_demux p)) !! id = Some txn ->
  Exchange_finish p id (pt_reply txn) ev = Some (p', r) ->
  pending (txns (px_demux p')) !! id = None /\
  px_peers p' = px_peers p /\ srcByPeer (px_demux p') = srcByPeer (px_demux p) /\
  forall b, r = Ok b -> bytes_ok b /\ is_ok (ParseResponse b id) = true.
Proof.
  intros Hp%proxy_reachable_inv Ht E. destruct Hp as ((_ & Hc & Hpend & _) & _).
  destruct (Hpend _ _ Ht) as (buf & Hb & Hf).
  unfold Exchange_finish in E. cbv zeta in E. destruct ev.
  - unfold try_recv in E. rewrite Hb in E. destruct buf as [|b rest]; [done|]. simplify_eq. cbn.
    rewrite lookup_delete_eq. split_and!; try done. intros b' [= <-]. by apply Forall_cons_iff in Hf as [? _].
  - simplify_eq. cbn. by rewrite lookup_delete_eq.
  - simplify_eq. cbn. by rewrite lookup_delete_eq.
Qed.

(** An exchange leaks nothing and accepts only its own answer: however the wait
    ends the transaction is gone afterwards, and a reply it returns is a
    success response that parses for that transaction, even when other packets
    and calls came between. *)
Theorem Exchange_finish_sound p id txn ev p' r :
  proxy_reachable p -> pending (txns (px_demux p)) !! id = Some txn ->
  Exchange_finish p id (pt_reply txn) ev = Some (p', r) ->
  pending (txns (px_demux p')) !! id = None /\
  px_peers p' = px_peers p /\ srcByPeer (px_demux p') = srcByPeer (px_demux p) /\
  forall b, r = Ok b -> is_ok (ParseResponse b id) = true.
Proof.
  intros Hp Ht E. destruct (Exchange_finish_answers _ _ _ _ _ _ Hp Ht E) as (H1 & H2 & H3 & H4).
  split_and!; try done. intros b Hb. by apply H4.
Qed.

(** ** Witnesses *)

Definition w_bind : Z -> Z -> result Z := fun _ port => Ok (if port =? 0 then 40000 else port).
Definition w_families : gmap Z Z := {[ FamilyIPv4 := 0 ]}.
Definition w_proxy0 : Proxy := mkProxy NewDemux {[ FamilyIPv4 := 40000 ]} ∅ 0 ∅ false 0 0 0.
Definition w_inner : AddrPort := mkAP (Addr4 (127 * 2 ^ 24 + 1)) 40001.
Definition w_proxy1 : Proxy := (AddPeer w_proxy0 w_peer (Ok w_inner)).1.
Definition w_proxy2 : Proxy := (SetPeerEndpoint w_proxy1 w_peer w_ep).1.
Definition w_proxy : Proxy := SetWGTarget w_proxy2 51820.

Lemma w_proxy_reachable : proxy_reachable w_proxy.
Proof.
  eapply pr_step; [eapply pr_step; [eapply pr_step; [|apply (ps_AddPeer _ w_peer (Ok w_inner))]
    |apply (ps_SetPeerEndpoint _ w_peer w_ep)]|apply (ps_SetWGTarget _ 51820)].
  - apply (pr_new w_bind (fun _ => Ok []) escapeOptions0 w_families). vm_compute. reflexivity.
  - vm_compute. split; [discriminate|reflexivity].
Defined.

Lemma relay_safety_witness :
  exists k ps, InnerWrite w_peer (mkAP (Addr4 (127 * 2 ^ 24 + 1)) 51820) [4; 0; 0; 0] =
      InnerWrite k (mkAP (Addr4 (127 * 2 ^ 24 + 1)) (px_wgPort w_proxy)) [4; 0; 0; 0] /\
    px_peers w_proxy !! k = Some ps /\ ps_remote ps = Some (normalize w_ep) /\ px_wgPort w_proxy <> 0.
Proof.
  apply (relay_safety w_proxy w_ep w_peer [4; 0; 0; 0] true
           (InnerWrite w_peer (mkAP (Addr4 (127 * 2 ^ 24 + 1)) 51820) [4; 0; 0; 0]) w_proxy_reachable).
  vm_compute. by left.
Defined.

Lemma ports_never_change_witness : keeps w_proxy1 w_proxy2.
Proof. exact (ports_never_change w_proxy1 w_proxy2 [] (ps_SetPeerEndpoint w_proxy1 w_peer w_ep)). Defined.

Definition w_reply : list Z := encode_success w_txn [w_attr].
Definition w_started : Proxy * result nat * list Send := Exchange_start w_proxy w_ep w_txn [0; 1] true.
Definition w_answered : Proxy := (outerLoop_body w_started.1.1 w_ep w_reply true).1.

Lemma Exchange_finish_sound_witness :
  exists p', Exchange_finish w_answered w_txn 0 WReply = Some (p', Ok w_reply) /\
    pending (txns (px_demux p')) !! w_txn = None /\ is_ok (ParseResponse w_reply w_txn) = true.
Proof.
  destruct (Exchange_finish w_answered w_txn 0 WReply) as [[p' r]|] eqn:E; [|vm_compute in E; discriminate E].
  assert (r = Ok w_reply) as -> by (vm_compute in E; injection E as _ <-; vm_compute; reflexivity).
  exists p'. destruct (Exchange_finish_sound w_answered w_txn (mkTxn w_ep 0) WReply p' (Ok w_reply))
    as (H1 & _ & _ & H2).
  - eapply pr_step; [eapply pr_step; [apply w_proxy_reachable|]|].
    + apply (ps_start _ w_ep w_txn [0; 1] true w_started.1.1 w_started.1.2 w_started.2). vm_compute. reflexivity.
    + apply (ps_outer w_started.1.1 w_ep w_reply true).
      repeat constructor; vm_compute; (discriminate || reflexivity).
  - vm_compute. reflexivity.
  - exact E.
  - split; [reflexivity|]. split; [exact H1|by apply H2].
Defined.
