(* ===== verification/Counters.v ===== *)
(** * internal/wgproxy: the drop counters and their rate-limited warnings

    demux.go's [countDrop] and proxy.go's [countWarn] are the same code: a 64-bit
    counter, a warning for its first value and for every multiple of 1024.  The
    theorem bounds what a flood of datagrams can write into the log. *)

From S2P Require Import Prelude GoStr Netip Stunwire Demux Proxy.

(** The counter after an event, and whether a warning is logged. *)
Definition countDrop (counter : Z) : Z * bool :=
  let n := wrapU64 (counter + 1) in (n, (n =? 1) || (n mod 1024 =? 0)).
Definition DroppedSTUN (d : Demux) : Z := droppedSTUN d.
Definition DroppedUnattributable (d : Demux) : Z := droppedOther d.
Definition Truncated (p : Proxy) : Z := px_truncated p.

(** The events of a counter in a row: its last value and the warnings. *)
Fixpoint count_events (counter : Z) (n : nat) : Z * nat :=
  match n with
  | O => (counter, 0%nat)
  | S n => let '(c, logged) := countDrop counter in
           let '(c, w) := count_events c n in (c, ((if logged : bool then 1 else 0) + w)%nat)
  end.

(** One classified datagram with the warnings it causes: the drop of an
    unmatched STUN packet and that of an unknown source have each their counter. *)
Definition Classify_warnings (d : Demux) (src : AddrPort) (b : list Z) : Demux * nat :=
  let d' := (Classify d src b).1 in
  (d', ((if Z.eqb (DroppedSTUN d') (DroppedSTUN d) then 0 else if (countDrop (DroppedSTUN d)).2 then 1 else 0) +
        (if Z.eqb (DroppedUnattributable d') (DroppedUnattributable d) then 0 else if (countDrop (DroppedUnattributable d)).2 then 1 else 0))%nat).
Fixpoint flood (d : Demux) (packets : list (AddrPort * list Z)) : Demux * nat :=
  match packets with
  | [] => (d, 0%nat)
  | (src, b) :: rest =>
      let '(d, w) := Classify_warnings d src b in let '(d, ws) := flood d rest in (d, (w + ws)%nat)
  end.

(** ** Lemmas *)

(** Warnings up to the value [n] of a counter that started at zero. *)
Definition warned (n : Z) : Z := if n =? 0 then 0 else 1 + n / 1024.

Lemma countDrop_step c :
  0 <= c < 2 ^ 64 - 1 ->
  (countDrop c).1 = c + 1 /\ warned (c + 1) = warned c + (if (countDrop c).2 then 1 else 0).
Proof.
  intros Hc. unfold countDrop. rewrite wrapU64_id by lia. cbn [fst snd]. split; [done|]. unfold warned.
  destruct (Z.eqb_spec (c + 1) 0); [lia|]. destruct (Z.eqb_spec c 0) as [->|Hne]; [done|].
  destruct (Z.eqb_spec (c + 1) 1); [lia|]. cbn [orb].
  pose proof (Z.div_mod c 1024 ltac:(lia)). pose proof (Z.mod_pos_bound c 1024 ltac:(lia)).
  pose proof (Z.div_mod (c + 1) 1024 ltac:(lia)). pose proof (Z.mod_pos_bound (c + 1) 1024 ltac:(lia)).
  destruct (Z.eqb_spec ((c + 1) mod 1024) 0); lia.
Qed.

Lemma count_events_exact n c :
  0 <= c -> c + Z.of_nat n < 2 ^ 64 ->
  (count_events c n).1 = c + Z.of_nat n /\
  Z.of_nat (count_events c n).2 = warned (c + Z.of_nat n) - warned c.
Proof.
  revert c. induction n as [|n IH]; intros c Hc Hn; cbn [count_events].
  { cbn. rewrite Z.add_0_r. lia. }
  destruct (countDrop_step c ltac:(lia)) as [H1 H2]. destruct (countDrop c) as [c' logged]. cbn [fst snd] in H1, H2. subst c'.
  destruct (IH (c + 1) ltac:(lia) ltac:(lia)) as [H3 H4]. destruct (count_events (c + 1) n) as [c2 w]. cbn [fst snd] in *.
  replace (c + Z.of_nat (S n)) with (c + 1 + Z.of_nat n) by lia. split; [done|].
  rewrite Nat2Z.inj_add, H4, H2. destruct logged; lia.
Qed.

(** A datagram is counted at most once. *)
Lemma Classify_counters d src b :
  let d' := (Classify d src b).1 in
  (DroppedSTUN d' = DroppedSTUN d /\ DroppedUnattributable d' = DroppedUnattributable d) \/
  (DroppedSTUN d' = (countDrop (DroppedSTUN d)).1 /\ DroppedUnattributable d' = DroppedUnattributable d) \/
  (DroppedSTUN d' = DroppedSTUN d /\ DroppedUnattributable d' = (countDrop (DroppedUnattributable d)).1).
Proof.
  unfold Classify, DroppedSTUN, DroppedUnattributable. cbv zeta. destruct (isSTUNShaped b).
  - destruct (route (txns d) src b) as [r matched]. cbn. destruct matched; auto.
  - destruct (peerBySrc d !! normalize src); cbn; auto.
Qed.

Lemma flood_counters packets d :
  0 <= DroppedSTUN d -> 0 <= DroppedUnattributable d ->
  DroppedSTUN d + Z.of_nat (length packets) < 2 ^ 64 ->
  DroppedUnattributable d + Z.of_nat (length packets) < 2 ^ 64 ->
  let d' := (flood d packets).1 in
  DroppedSTUN d <= DroppedSTUN d' /\ DroppedUnattributable d <= DroppedUnattributable d' /\
  DroppedSTUN d' + DroppedUnattributable d' <= DroppedSTUN d + DroppedUnattributable d + Z.of_nat (length packets) /\
  Z.of_nat (flood d packets).2 =
    warned (DroppedSTUN d') - warned (DroppedSTUN d) + (warned (DroppedUnattributable d') - warned (DroppedUnattributable d)).
Proof.
  revert d. induction packets as [|[src b] rest IH]; intros d H1 H2 H3 H4; cbn [flood length] in *.
  { cbn. lia. }
  unfold Classify_warnings. pose proof (Classify_counters d src b) as Hc. cbv zeta in Hc. set (d1 := (Classify d src b).1) in *.
  destruct (countDrop_step (DroppedSTUN d) ltac:(lia)) as [S1 S2].
  destruct (countDrop_step (DroppedUnattributable d) ltac:(lia)) as [O1 O2].
  rewrite S1, O1 in Hc.
  destruct (IH d1) as (G1 & G2 & G3 & G4); [lia..|]. destruct (flood d1 rest) as [d2 ws]. cbn [fst snd] in *.
  split; [lia|]. split; [lia|]. split; [lia|]. rewrite !Nat2Z.inj_add, G4.
  enough (Z.of_nat (if Z.eqb (DroppedSTUN d1) (DroppedSTUN d) then 0 else if (countDrop (DroppedSTUN d)).2 then 1 else 0)
          = warned (DroppedSTUN d1) - warned (DroppedSTUN d) /\
    Z.of_nat (if Z.eqb (DroppedUnattributable d1) (DroppedUnattributable d) then 0 else if (countDrop (DroppedUnattributable d)).2 then 1 else 0)
          = warned (DroppedUnattributable d1) - warned (DroppedUnattributable d)) as [-> ->] by lia.
  destruct Hc as [[-> ->]|[[-> ->]|[-> ->]]]; rewrite ?Z.eqb_refl.
  - lia.
  - destruct (Z.eqb_spec (DroppedSTUN d + 1) (DroppedSTUN d)); [lia|]. rewrite S2.
    destruct (countDrop (DroppedSTUN d)).2; lia.
  - destruct (Z.eqb_spec (DroppedUnattributable d + 1) (DroppedUnattributable d)); [lia|]. rewrite O2.
    destruct (countDrop (DroppedUnattributable d)).2; lia.
Qed.

(** C39: A flood cannot fill the log: whatever arrives at a fresh relay, from
    whatever sources, a dropped datagram is counted once, and the warnings are at
    most one for each of the two kinds and one for every 1024 datagrams. *)
Theorem flood_bounded packets :
  Z.of_nat (length packets) < 2 ^ 64 ->
  DroppedSTUN (flood NewDemux packets).1 + DroppedUnattributable (flood NewDemux packets).1 <= Z.of_nat (length packets) /\
  Z.of_nat (flood NewDemux packets).2 <= 2 + Z.of_nat (length packets) / 1024.
Proof.
  intros Hl. destruct (flood_counters packets NewDemux) as (H1 & H2 & H3 & H4); [cbn; lia..|].
  set (d := (flood NewDemux packets).1) in *. set (w := (flood NewDemux packets).2) in *. clearbody d w.
  cbn [NewDemux DroppedSTUN DroppedUnattributable droppedSTUN droppedOther] in H1, H2, H3, H4.
  split; [unfold DroppedSTUN, DroppedUnattributable in *; lia|].
  rewrite H4. change (warned 0) with 0.
  set (a := DroppedSTUN d) in *. set (b := DroppedUnattributable d) in *. set (n := Z.of_nat (length packets)) in *.
  change (droppedSTUN d) with a in *. change (droppedOther d) with b in *.
  assert (warned a + warned b <= 2 + (a + b) / 1024) as Hw.
  { pose proof (Z.div_mod a 1024 ltac:(lia)). pose proof (Z.mod_pos_bound a 1024 ltac:(lia)).
    pose proof (Z.div_mod b 1024 ltac:(lia)). pose proof (Z.mod_pos_bound b 1024 ltac:(lia)).
    pose proof (Z.div_mod (a + b) 1024 ltac:(lia)). pose proof (Z.mod_pos_bound (a + b) 1024 ltac:(lia)).
    unfold warned. destruct (Z.eqb_spec a 0), (Z.eqb_spec b 0); lia. }
  pose proof (Z.div_le_mono (a + b) n 1024 ltac:(lia) ltac:(lia)). lia.
Qed.

Lemma flood_bounded_witness :
  Z.of_nat (flood NewDemux [(AddrPort0, [1; 2]); (AddrPort0, [3])]).2 <= 2.
Proof.
  destruct (flood_bounded [(AddrPort0, [1; 2]); (AddrPort0, [3])]) as [_ H]; [vm_compute; reflexivity|].
  exact H.
Defined.
