(* ===== verification/RelaySpec.v ===== *)
(** * What the relay promises: an abstract specification and its refinement

    The specification knows nothing of the demultiplexer: one table says where
    each peer is, and both directions read it.  [abs] forgets the concrete maps,
    the pending transactions, the reply channels and the counters. *)

From S2P Require Import Prelude GoStr Netip Stunwire Demux Proxy ProxyFacts.

(** ** The specification *)

Record Relay := mkRelay {
  r_wg : Z;                                     (* WireGuard's port, 0 unknown *)
  r_remote : gmap PeerKey (option AddrPort);    (* the known peers *)
  r_families : gset Z
}.

(** The peer that is at [src], if any. *)
Definition owner (r : Relay) (src : AddrPort) : option PeerKey :=
  fst <$> head (filter (fun x => x.2 = Some src) (map_to_list (r_remote r))).
Definition relay_in (r : Relay) (src : AddrPort) (b : list Z) : list Send :=
  if isSTUNShaped b then []
  else match owner r (normalize src) with
       | Some key => if r_wg r =? 0 then [] else [InnerWrite key (mkAP (Addr4 (127 * 2 ^ 24 + 1)) (r_wg r)) b]
       | None => []
       end.
Definition relay_out (r : Relay) (key : PeerKey) (b : list Z) : list Send :=
  match r_remote r !! key with
  | Some (Some remote) => if bool_decide (familyOf remote ∈ r_families r) then [OuterWrite (familyOf remote) remote b] else []
  | _ => []
  end.
(** A peer can be placed at an endpoint nobody else is at. *)
Definition placeable (r : Relay) (key : PeerKey) (remote : AddrPort) : Prop :=
  is_Some (r_remote r !! key) /\ AddrPort_IsValid remote = true /\ ap_port remote <> 0 /\
  (forall other, owner r remote = Some other -> other = key).

(** A datagram is dropped or relayed once; STUN requests leave from a socket of
    their family. *)
Inductive relay_step : Relay -> Relay -> list Send -> Prop :=
| rs_in r src b : relay_step r r (relay_in r src b)
| rs_out r key b : relay_step r r (relay_out r key b)
| rs_stun r server b : familyOf server ∈ r_families r -> relay_step r r [OuterWrite (familyOf server) server b]
| rs_silent r : relay_step r r []
| rs_wg r port : is_u16 port -> relay_step r (mkRelay port (r_remote r) (r_families r)) []
| rs_add r key : r_remote r !! key = None ->
    relay_step r (mkRelay (r_wg r) (<[key := None]> (r_remote r)) (r_families r)) []
| rs_place r key remote : placeable r key (normalize remote) ->
    relay_step r (mkRelay (r_wg r) (<[key := Some (normalize remote)]> (r_remote r)) (r_families r)) [].

(** Runs, with everything that was sent. *)
Inductive relay_run : Relay -> list (list Send) -> Relay -> Prop :=
| rr_nil r : relay_run r [] r
| rr_snoc r tr r' r'' out : relay_run r tr r' -> relay_step r' r'' out -> relay_run r (tr ++ [out]) r''.
Inductive proxy_run : Proxy -> list (list Send) -> Proxy -> Prop :=
| pn_nil p : proxy_run p [] p
| pn_snoc p tr p' p'' out : proxy_run p tr p' -> proxy_step p' p'' out -> proxy_run p (tr ++ [out]) p''.

Definition abs (p : Proxy) : Relay := mkRelay (px_wgPort p) (ps_remote <$> px_peers p) (dom (px_outer p)).

(** ** The table *)

Lemma owner_some r src key : owner r src = Some key -> r_remote r !! key = Some (Some src).
Proof.
  unfold owner. destruct (filter _ _) as [|[k v] l] eqn:E; [done|]. cbn. intros [= <-].
  assert ((k, v) ∈ filter (fun x : PeerKey * option AddrPort => x.2 = Some src) (map_to_list (r_remote r))) as H
    by (rewrite E; by left).
  apply list_elem_of_filter in H as [H1 H2%elem_of_map_to_list]. cbn in H1. by subst v.
Qed.
Lemma owner_none r src : owner r src = None -> forall key, r_remote r !! key <> Some (Some src).
Proof.
  unfold owner. destruct (filter _ _) as [|x l] eqn:E; [|done]. intros _ key H.
  assert ((key, Some src) ∈ filter (fun x : PeerKey * option AddrPort => x.2 = Some src) (map_to_list (r_remote r))) as Hin
    by (apply list_elem_of_filter; split; [done|by apply elem_of_map_to_list]).
  rewrite E in Hin. by apply elem_of_nil in Hin.
Qed.

(** In a reachable relay the table is what the demultiplexer looks up. *)
Lemma owner_abs p src : proxy_inv p -> owner (abs p) src = peerBySrc (px_demux p) !! src.
Proof.
  intros ((Hm & _) & H1 & H2 & _).
  assert (forall key, r_remote (abs p) !! key = Some (Some src) <-> peerBySrc (px_demux p) !! src = Some key) as Hk.
  { intros key. rewrite <-(Hm key src). cbn. rewrite lookup_fmap. destruct (px_peers p !! key) as [ps|] eqn:E; cbn.
    - rewrite (H1 _ _ E). split; congruence.
    - split; [done|]. intros Hs. by destruct (H2 key); [rewrite Hs|]. }
  destruct (owner (abs p) src) as [key|] eqn:Eo.
  - symmetry. by apply Hk, owner_some.
  - pose proof (owner_none _ _ Eo) as Hn. destruct (peerBySrc (px_demux p) !! src) as [key|]; [|done].
    exfalso. apply (Hn key). by apply Hk.
Qed.

Lemma noteTruncation_abs p n : abs (noteTruncation p n) = abs p.
Proof. unfold noteTruncation. by destruct (_ =? _). Qed.
Lemma noteTruncation_demux p n : px_demux (noteTruncation p n) = px_demux p.
Proof. unfold noteTruncation. by destruct (_ =? _). Qed.

(** What one datagram makes the relay send is a function of the table alone. *)
Lemma outer_exact p src b ok :
  proxy_inv p ->
  abs (outerLoop_body p src b ok).1 = abs p /\
  (outerLoop_body p src b ok).2 = if ok : bool then relay_in (abs p) src b else [].
Proof.
  intros Hp. unfold outerLoop_body, relay_in. cbv zeta. rewrite (owner_abs p) by done.
  pose proof (noteTruncation_abs p (Z.of_nat (length b))) as Ha.
  rewrite <-(noteTruncation_demux p (Z.of_nat (length b))).
  set (q := noteTruncation p _) in *. assert (proxy_inv q) as Hq by (by apply noteTruncation_inv).
  rewrite <-Ha. unfold Classify. destruct (isSTUNShaped b).
  { destruct (route _ _ _) as [r matched]. cbn. by destruct ok. }
  destruct (peerBySrc (px_demux q) !! normalize src) as [key|] eqn:Es; [|cbn; by destruct ok].
  cbn [d_bucket d_peer with_demux px_peers]. destruct Hq as ((Hm & _) & _ & H2 & H3).
  destruct (px_peers q !! key) as [ps|] eqn:Ek; [|destruct (H2 key); [|done]; apply Hm in Es; by rewrite Es].
  unfold wgTarget. cbn [px_wgPort with_demux abs r_wg]. destruct (px_wgPort q =? 0); cbn; [by destruct ok|].
  rewrite wrap16_id by done. by destruct ok.
Qed.
Lemma inner_exact p key b ok :
  proxy_inv p ->
  abs (innerLoop_body p key b ok).1 = abs p /\
  (innerLoop_body p key b ok).2 = if ok : bool then relay_out (abs p) key b else [].
Proof.
  intros Hp. unfold innerLoop_body, relay_out. cbv zeta.
  pose proof (noteTruncation_abs p (Z.of_nat (length b))) as Ha.
  set (q := noteTruncation p _) in *. rewrite <-Ha. cbn [abs r_remote r_families]. rewrite lookup_fmap.
  destruct (px_peers q !! key) as [ps|]; cbn; [|by destruct ok].
  destruct (ps_remote ps) as [remote|]; cbn; [|by destruct ok].
  destruct (px_outer q !! familyOf remote) as [port|] eqn:Eo.
  - rewrite bool_decide_true by (by apply elem_of_dom_2 in Eo). by destruct ok.
  - rewrite bool_decide_false by (by apply not_elem_of_dom). by destruct ok.
Qed.

Lemma SetPeerEndpoint_exact p key remote :
  proxy_inv p ->
  ((SetPeerEndpoint p key remote).2 = Ok tt <-> placeable (abs p) key (normalize remote)) /\
  abs (SetPeerEndpoint p key remote).1 =
    (if is_ok (SetPeerEndpoint p key remote).2
     then mkRelay (px_wgPort p) (<[key := Some (normalize remote)]> (r_remote (abs p))) (dom (px_outer p)) else abs p).
Proof.
  intros Hp. unfold placeable. rewrite owner_abs by done. unfold SetPeerEndpoint. cbv zeta.
  cbn [abs r_remote]. rewrite lookup_fmap. destruct (px_peers p !! key) as [ps|] eqn:Ek.
  2: { cbn. split; [|done]. split; [done|]. by intros [[? ?] _]. }
  destruct (AddrPort_IsValid (normalize remote)) eqn:Ev; cbn [negb orb].
  2: { cbn. split; [|done]. split; [done|]. by intros (_ & ? & _). }
  destruct (Z.eqb_spec (ap_port (normalize remote)) 0) as [Ez|Hz].
  { cbn. split; [|done]. split; [done|]. by intros (_ & _ & ? & _). }
  destruct (Program_cases (px_demux p) key (normalize remote)) as [(o & e & Ho & Hne & ->)|[Ho ->]];
    rewrite normalize_idem in Ho; cbn [fst snd is_ok].
  - split; [|done]. split; [done|]. intros (_ & _ & _ & Hn). destruct Hne. by apply Hn.
  - split.
    + split; [|done]. intros _. split_and!; [by eexists|done..|]. intros other. destruct Ho as [->| ->]; by intros [=].
    + unfold abs. cbn [px_wgPort px_outer with_peers px_peers]. by rewrite fmap_insert.
Qed.

Lemma bind_outer_dom bind routes o families outer marks outer' marks' closed :
  bind_outer bind routes o outer marks families = (Ok (outer', marks'), closed) ->
  dom outer' = dom outer ∪ list_to_set families.*1.
Proof.
  revert outer marks. induction families as [|[fam port] families IH]; intros outer marks; cbn [bind_outer].
  { intros [= <- _ _]. set_solver. }
  destruct (network fam =s ""); [done|]. destruct (bind fam port); [|done]. intros H%IH. rewrite H, dom_insert_L. set_solver.
Qed.
Lemma New_abs bind routes o families p :
  New bind routes o families = (Ok p, []) -> abs p = mkRelay 0 ∅ (dom families).
Proof.
  unfold New. destruct (_ =? _)%nat; [done|].
  destruct (bind_outer _ _ _ _ _ _) as [[[outer marks]|e] closed] eqn:E; [|done]. intros [= <-].
  apply bind_outer_dom in E. unfold abs. cbn. rewrite fmap_empty, E. f_equal.
  apply set_eq. intros f. rewrite elem_of_union, elem_of_list_to_set, dom_empty_L, elem_of_dom.
  rewrite list_elem_of_fmap. split.
  - intros [[]%elem_of_empty|([f' port] & -> & H%elem_of_map_to_list)]. by eexists.
  - intros [port H]. right. exists (f, port). split; [done|]. by apply elem_of_map_to_list.
Qed.

Lemma step_refines p p' out : proxy_inv p -> proxy_step p p' out -> relay_step (abs p) (abs p') out.
Proof.
  intros Hp Hs. destruct Hs as [p port Hport|p key bind|p key remote|p server id packet ok p' r out E
                 |p id ch ev p' r E|p src b ok Hb|p key b ok|p].
  - by constructor.
  - unfold AddPeer. destruct (px_closed p); [constructor|].
    destruct (px_peers p !! key) as [ps|] eqn:Ek; [constructor|]. destruct bind as [addr|e]; [|constructor].
    unfold abs at 2. cbn [fst px_wgPort px_outer with_peers px_peers]. rewrite fmap_insert.
    apply (rs_add (abs p) key). cbn. by rewrite lookup_fmap, Ek.
  - destruct (SetPeerEndpoint_exact p key remote Hp) as [Hok Ha].
    rewrite Ha. destruct (SetPeerEndpoint p key remote).2 as [[]|e]; cbn [is_ok]; [|constructor].
    apply (rs_place (abs p) key remote). by apply Hok.
  - unfold Exchange_start in E. destruct (px_outer p !! familyOf server) as [port|] eqn:Eo; [|simplify_eq; constructor].
    destruct (Register _ id server) as [reg [ch|e]]; [destruct ok|]; simplify_eq; try constructor.
    cbn. by apply elem_of_dom_2 in Eo.
  - unfold Exchange_finish in E. cbv zeta in E.
    destruct ev; [destruct (try_recv _ ch) as [reg [b|]]; [|done]| |]; simplify_eq; constructor.
  - destruct (outer_exact p src b ok Hp) as [-> ->]. destruct ok; constructor.
  - destruct (inner_exact p key b ok Hp) as [-> ->]. destruct ok; constructor.
  - constructor.
Qed.
Lemma proxy_run_reachable p tr p' : proxy_reachable p -> proxy_run p tr p' -> proxy_reachable p'.
Proof. intros H0. induction 1 as [|? ? ? ? ? ? IH Hs]; [done|]. eapply pr_step; [by apply IH|exact Hs]. Qed.
Lemma run_refines p tr p' : proxy_reachable p -> proxy_run p tr p' -> relay_run (abs p) tr (abs p').
Proof.
  intros H0. induction 1 as [|? ? ? ? ? Hrun IH Hs]; [constructor|]. econstructor; [by apply IH|].
  apply step_refines; [|done]. by eapply proxy_reachable_inv, proxy_run_reachable.
Qed.

(** C3: The relay implements the table: every run of it, with all that it sends,
    is a run of the specification from the empty table; whatever the run, the
    next datagram from outside or from WireGuard is relayed exactly as the table
    says when the write succeeds, and not at all otherwise; and a peer is placed
    exactly when the table has room for it there. *)
Theorem relay_refines bind routes o families p0 tr p :
  New bind routes o families = (Ok p0, []) -> proxy_run p0 tr p ->
  relay_run (mkRelay 0 ∅ (dom families)) tr (abs p) /\
  (forall src b ok, (outerLoop_body p src b ok).2 = if ok : bool then relay_in (abs p) src b else []) /\
  (forall key b ok, (innerLoop_body p key b ok).2 = if ok : bool then relay_out (abs p) key b else []) /\
  (forall key remote, (SetPeerEndpoint p key remote).2 = Ok tt <-> placeable (abs p) key (normalize remote)).
Proof.
  intros Hn Hrun. pose proof (pr_new _ _ _ _ _ Hn) as H0.
  pose proof (proxy_reachable_inv _ (proxy_run_reachable _ _ _ H0 Hrun)) as Hp.
  split_and!.
  - rewrite <-(New_abs _ _ _ _ _ Hn). by apply run_refines.
  - intros. by apply outer_exact.
  - intros. by apply inner_exact.
  - intros. by apply SetPeerEndpoint_exact.
Qed.

(** The specification relays a datagram at most once, and never two peers at one
    endpoint. *)
Lemma relay_table_injective r tr r' :
  relay_run r tr r' -> (forall key, r_remote r !! key = None) ->
  forall k1 k2 remote, r_remote r' !! k1 = Some (Some remote) -> r_remote r' !! k2 = Some (Some remote) -> k1 = k2.
Proof.
  intros Hrun H0. induction Hrun as [|r tr r' r'' out Hrun IH Hs]; [intros; by rewrite H0 in *|]. specialize (IH H0).
  destruct Hs as [| | | |r' port Hp|r' key Hk|r' key remote (_ & _ & _ & Ho)]; try done; cbn; intros k1 k2 rem.
  - rewrite !lookup_insert. repeat case_decide; subst; try done. apply IH.
  - assert (forall k, r_remote r' !! k = Some (Some (normalize remote)) -> k = key) as Hown.
    { intros k Hkk. apply Ho. destruct (owner r' (normalize remote)) as [k'|] eqn:E; [|by destruct (owner_none _ _ E k)].
      f_equal. eapply IH; [by apply owner_some|done]. }
    rewrite !lookup_insert. repeat case_decide; subst; try done; intros; simplify_eq.
    + symmetry. by apply Hown.
    + by apply Hown.
    + by eapply IH.
Qed.

Lemma relay_refines_witness :
  relay_run (mkRelay 0 ∅ (dom w_families)) [[]; []; []] (abs w_proxy) /\
  (outerLoop_body w_proxy w_ep [4; 0; 0; 0] true).2 = relay_in (abs w_proxy) w_ep [4; 0; 0; 0].
Proof.
  destruct (relay_refines w_bind (fun _ => Ok []) escapeOptions0 w_families w_proxy0 [[]; []; []] w_proxy) as (H1 & H2 & _).
  - vm_compute. reflexivity.
  - apply (pn_snoc _ [[]; []] w_proxy2); [apply (pn_snoc _ [[]] w_proxy1); [apply (pn_snoc _ [] w_proxy0); [constructor|]|]|].
    + apply (ps_AddPeer _ w_peer (Ok w_inner)).
    + apply (ps_SetPeerEndpoint _ w_peer w_ep).
    + apply (ps_SetWGTarget _ 51820). vm_compute. split; [discriminate|reflexivity].
  - split; [exact H1|exact (H2 w_ep [4; 0; 0; 0] true)].
Defined.
