(* ===== verification/ProxyLife.v ===== *)
(** * internal/wgproxy/proxy.go: the relay's goroutines, sockets and Close

    [Proxy] says what one datagram does; this file says when it is read and
    handled.  Every socket has one loop that reads it, Close runs in a goroutine
    of its own, and the calls of the controllers come in between.  A loop that
    read a datagram handles it in a later step, so Close may set its flag and
    close sockets in between. *)

From S2P Require Import Prelude GoStr Netip Stunwire Demux Routeprobe Proxy.

(** ** Sockets and loops *)

(** [Proxy.outer] and [Proxy.peers] as one name space. *)
Inductive SockId := Outer (fam : Z) | Inner (peer : PeerKey).
#[export] Instance SockId_eq_dec : EqDecision SockId.
Proof. solve_decision. Defined.
#[export] Program Instance SockId_countable : Countable SockId :=
  inj_countable' (fun i => match i with Outer f => inl f | Inner k => inr k end)
                 (fun s => match s with inl f => Outer f | inr k => Inner k end) _.
Next Obligation. by intros []. Qed.
#[export] Instance Outer_inj : Inj eq eq Outer.
Proof. by intros ?? [=]. Qed.

(** Where a loop is: blocked in its read with the errors seen in a row, between
    the read and the end of the body, or asleep after an error. *)
Inductive Loop :=
| Reading (consecutiveErrs : Z)
| Handling (src : AddrPort) (data : list Z)
| Backoff (consecutiveErrs : Z).
Record Sock := mkSock { so_open : bool; so_loop : option Loop (* None: returned *) }.

(** Where the one Close that found the relay open is. *)
Inductive Closing := NotClosing | Stopping | ClosingOuter | ClosingInner | Waiting | Returned.

Record Life := mkLife {
  l_proxy : Proxy;
  l_socks : gmap SockId Sock;
  l_watchers : gset Z;             (* escapeStops not run yet, by family *)
  l_closing : Closing
}.

Definition with_proxy (l : Life) (p : Proxy) : Life := mkLife p (l_socks l) (l_watchers l) (l_closing l).
Definition with_sock (l : Life) (id : SockId) (s : Sock) : Life :=
  mkLife (l_proxy l) (<[id := s]> (l_socks l)) (l_watchers l) (l_closing l).
Definition with_closing (l : Life) (c : Closing) : Life := mkLife (l_proxy l) (l_socks l) (l_watchers l) c.

(** The [loops] wait group: the loops that have not returned. *)
Definition running (s : Sock) : bool := match so_loop s with Some _ => true | None => false end.
Definition loops_done (l : Life) : bool := forallb (fun x => negb (running x.2)) (map_to_list (l_socks l)).
Definition is_open (l : Life) (id : SockId) : bool :=
  match l_socks l !! id with Some s => so_open s | None => false end.

(** ** New

    [watch fam] is whether [escapeOuterSocket] started a watcher for the socket.
    On failure [closeOnError] closes the sockets bound so far and stops their
    watchers; the last two components list them. *)
Definition fresh_sock : Sock := mkSock true (Some (Reading 0)).
Definition outer_socks (p : Proxy) : gmap SockId Sock := kmap Outer ((fun _ => fresh_sock) <$> px_outer p).
Definition New_life (bind : Z -> Z -> result Z) (routes : Family -> result (list Route)) (o : escapeOptions)
    (watch : Z -> bool) (families : gmap Z Z) : result Life * list Z * list Z :=
  match New bind routes o families with
  | (Err e, closed) => (Err e, closed, filter (fun f => watch f = true) closed)
  | (Ok p, _) =>
      (Ok (mkLife p (outer_socks p)
             (filter (fun f => watch f = true) (dom (px_outer p))) NotClosing), [], [])
  end.

(** ** The calls *)

(** [AddPeer]: a new peer has a socket and a loop. *)
Definition life_AddPeer (l : Life) (key : PeerKey) (bind : result AddrPort) : Life * result AddrPort :=
  let '(p, r) := AddPeer (l_proxy l) key bind in
  (match px_peers (l_proxy l) !! key, px_peers p !! key with
   | None, Some _ => with_sock (with_proxy l p) (Inner key) fresh_sock
   | _, _ => with_proxy l p
   end, r).

(** One [Close]: only the first to set the flag goes on, every other call returns
    nil at once. *)
Definition close_enter (l : Life) : Life :=
  if px_closed (l_proxy l) then l
  else mkLife (Close (l_proxy l)) (l_socks l) (l_watchers l) Stopping.
(** [closeOnError]: one stop function, which returns when its watcher is gone. *)
Definition close_watcher (l : Life) (fam : Z) : option Life :=
  match l_closing l with
  | Stopping => if bool_decide (fam ∈ l_watchers l)
                then Some (mkLife (l_proxy l) (l_socks l) (l_watchers l ∖ {[fam]}) Stopping) else None
  | _ => None
  end.
Definition is_outer (id : SockId) : bool := match id with Outer _ => true | Inner _ => false end.
(** [closeSockets]: one socket, the outer ones first. *)
Definition close_sock (l : Life) (id : SockId) : option Life :=
  let go := match l_socks l !! id with
            | Some (mkSock true loop) => Some (with_sock l id (mkSock false loop))
            | _ => None
            end in
  match l_closing l with
  | ClosingOuter => if is_outer id then go else None
  | ClosingInner => if is_outer id then None else go
  | _ => None
  end.
Definition all_closed (outer : bool) (l : Life) : bool :=
  forallb (fun x => negb (Bool.eqb (is_outer x.1) outer) || negb (so_open x.2)) (map_to_list (l_socks l)).
(** From one part of Close to the next, when the part is finished; the last is
    [p.loops.Wait()]. *)
Definition close_next (l : Life) : option Life :=
  match l_closing l with
  | Stopping => if bool_decide (l_watchers l = ∅) then Some (with_closing l ClosingOuter) else None
  | ClosingOuter => if all_closed true l then Some (with_closing l ClosingInner) else None
  | ClosingInner => if all_closed false l then Some (with_closing l Waiting) else None
  | Waiting => if loops_done l then Some (with_closing l Returned) else None
  | NotClosing | Returned => None
  end.

(** ** The loops *)

(** A read fills at most the buffer. *)
Definition read_into (datagram : list Z) : list Z := take (Z.to_nat relayBufSize) datagram.
Definition loop_read (l : Life) (id : SockId) (src : AddrPort) (datagram : list Z) : option Life :=
  match l_socks l !! id with
  | Some (mkSock true (Some (Reading _))) =>
      Some (with_sock l id (mkSock true (Some (Handling src (read_into datagram)))))
  | _ => None
  end.
(** The socket a body writes to must be open for the write to succeed. *)
Definition send_sock (s : Send) : SockId :=
  match s with InnerWrite k _ _ => Inner k | OuterWrite f _ _ => Outer f end.
Definition loop_body (p : Proxy) (id : SockId) (src : AddrPort) (b : list Z) (ok : bool) : Proxy * list Send :=
  match id with Outer _ => outerLoop_body p src b ok | Inner k => innerLoop_body p k b ok end.
Definition loop_handle (l : Life) (id : SockId) (write_ok : bool) : option (Life * list Send) :=
  match l_socks l !! id with
  | Some (mkSock open (Some (Handling src b))) =>
      let '(p, out) := loop_body (l_proxy l) id src b write_ok in
      if forallb (fun s => is_open l (send_sock s)) out
      then Some (with_sock (with_proxy l p) id (mkSock open (Some (Reading 0))), out) else None
  | _ => None
  end.
(** A read that failed: [net.ErrClosed] exactly on a closed socket. *)
Definition loop_error (l : Life) (id : SockId) : option Life :=
  match l_socks l !! id with
  | Some (mkSock open (Some (Reading n))) =>
      Some (with_sock l id (mkSock open
              (match read_error (l_proxy l) (negb open) n with
               | None => None
               | Some (n', _) => Some (Backoff n')
               end)))
  | _ => None
  end.
Definition loop_wake (l : Life) (id : SockId) : option Life :=
  match l_socks l !! id with
  | Some (mkSock open (Some (Backoff n))) => Some (with_sock l id (mkSock open (Some (Reading n))))
  | _ => None
  end.

(** ** Steps *)

Inductive life_step : Life -> Life -> list Send -> Prop :=
| lf_AddPeer l key bind : life_step l (life_AddPeer l key bind).1 []
| lf_SetWGTarget l port : is_u16 port -> life_step l (with_proxy l (SetWGTarget (l_proxy l) port)) []
| lf_SetPeerEndpoint l key remote : life_step l (with_proxy l (SetPeerEndpoint (l_proxy l) key remote).1) []
| lf_start l server id packet ok p r out :
    Exchange_start (l_proxy l) server id packet ok = (p, r, out) ->
    (ok = true -> is_open l (Outer (familyOf server)) = true) -> life_step l (with_proxy l p) out
| lf_finish l id ch ev p r :
    Exchange_finish (l_proxy l) id ch ev = Some (p, r) -> life_step l (with_proxy l p) []
| lf_read l id src datagram l' : bytes_ok datagram -> loop_read l id src datagram = Some l' -> life_step l l' []
| lf_handle l id ok l' out : loop_handle l id ok = Some (l', out) -> life_step l l' out
| lf_error l id l' : loop_error l id = Some l' -> life_step l l' []
| lf_wake l id l' : loop_wake l id = Some l' -> life_step l l' []
| lf_close_enter l : life_step l (close_enter l) []
| lf_close_watcher l fam l' : close_watcher l fam = Some l' -> life_step l l' []
| lf_close_sock l id l' : close_sock l id = Some l' -> life_step l l' []
| lf_close_next l l' : close_next l = Some l' -> life_step l l' [].

Inductive life_reachable : Life -> Prop :=
| lr_new bind routes o watch families l closed stopped :
    New_life bind routes o watch families = (Ok l, closed, stopped) -> life_reachable l
| lr_step l l' out : life_reachable l -> life_step l l' out -> life_reachable l'.

(** What the relay's own goroutines and Close do, whatever anybody calls. *)
Inductive own_step : Life -> Life -> Prop :=
| os_handle l id ok l' out : loop_handle l id ok = Some (l', out) -> own_step l l'
| os_error l id l' : loop_error l id = Some l' -> own_step l l'
| os_wake l id l' : loop_wake l id = Some l' -> own_step l l'
| os_close_watcher l fam l' : close_watcher l fam = Some l' -> own_step l l'
| os_close_sock l id l' : close_sock l id = Some l' -> own_step l l'
| os_close_next l l' : close_next l = Some l' -> own_step l l'.
