(* ===== verification/ProxyLifeFacts.v ===== *)
(** * Theorems on the life of a relay: no loop outlives it, Close returns *)

From S2P Require Import Prelude GoStr Netip Stunwire Demux Routeprobe Proxy ProxyFacts ProxyLife.

(** ** The invariant *)

Definition stage (c : Closing) : nat :=
  match c with NotClosing => 0 | Stopping => 1 | ClosingOuter => 2 | ClosingInner => 3 | Waiting => 4 | Returned => 5 end.

Record life_inv (l : Life) : Prop := {
  li_reachable : proxy_reachable (l_proxy l);
  li_outer fam : is_Some (l_socks l !! Outer fam) <-> is_Some (px_outer (l_proxy l) !! fam);
  li_inner key : is_Some (l_socks l !! Inner key) <-> is_Some (px_peers (l_proxy l) !! key);
  li_data id open src b :
    l_socks l !! id = Some (mkSock open (Some (Handling src b))) -> bytes_ok b;
  li_flag : (0 < stage (l_closing l))%nat <-> px_closed (l_proxy l) = true;
  li_alive id s :
    stage (l_closing l) = 0%nat -> l_socks l !! id = Some s -> so_open s = true /\ running s = true;
  li_watchers : (2 <= stage (l_closing l))%nat -> l_watchers l = ∅;
  li_outer_closed id s :
    (3 <= stage (l_closing l))%nat -> l_socks l !! id = Some s -> is_outer id = true -> so_open s = false;
  li_inner_closed id s :
    (4 <= stage (l_closing l))%nat -> l_socks l !! id = Some s -> is_outer id = false -> so_open s = false;
  li_loops id s : (5 <= stage (l_closing l))%nat -> l_socks l !! id = Some s -> running s = false
}.

(** Calls that neither open nor close anything. *)
Definition same_sockets (p p' : Proxy) : Prop :=
  px_outer p' = px_outer p /\ (forall key, is_Some (px_peers p' !! key) <-> is_Some (px_peers p !! key)) /\
  px_closed p' = px_closed p.

Lemma same_refl p : same_sockets p p.
Proof. done. Qed.
#[local] Hint Resolve same_refl : core.

Lemma SetPeerEndpoint_same p key remote : same_sockets p (SetPeerEndpoint p key remote).1.
Proof.
  unfold SetPeerEndpoint. cbv zeta. destruct (px_peers p !! key) as [ps|] eqn:E; [|done].
  destruct (_ || _); [done|]. destruct (Program _ _ _) as [d [[]|e]]; [|done].
  split_and!; [done| |done]. intros k. cbn. destruct (decide (k = key)) as [->|].
  - rewrite lookup_insert_eq, E. split; intros _; by eexists.
  - by rewrite lookup_insert_ne.
Qed.
Lemma Exchange_start_same p server id packet ok p' r out :
  Exchange_start p server id packet ok = (p', r, out) ->
  same_sockets p p' /\ (out = [] \/ ok = true /\ out = [OuterWrite (familyOf server) server packet]).
Proof.
  unfold Exchange_start. destruct (px_outer p !! familyOf server); [|intros; simplify_eq; by auto].
  destruct (Register _ id server) as [reg [ch|e]]; [destruct ok|]; intros; simplify_eq; split; (done || by auto).
Qed.
Lemma Exchange_finish_same p id ch ev p' r : Exchange_finish p id ch ev = Some (p', r) -> same_sockets p p'.
Proof.
  unfold Exchange_finish. cbv zeta.
  destruct ev; [destruct (try_recv _ ch) as [reg [b|]]; [|done]| |]; intros; by simplify_eq.
Qed.
Lemma noteTruncation_same p n : same_sockets p (noteTruncation p n).
Proof. unfold noteTruncation. by destruct (_ =? _). Qed.
Lemma loop_body_same p id src b ok : same_sockets p (loop_body p id src b ok).1.
Proof.
  pose proof (noteTruncation_same p (Z.of_nat (length b))) as Hn. destruct id; cbn [loop_body].
  - unfold outerLoop_body. cbv zeta. destruct (Classify _ src b) as [d dec].
    destruct (d_bucket dec); [done| |done]. destruct (px_peers _ !! _); [|done].
    destruct (negb _); [done|]. by destruct ok.
  - unfold innerLoop_body. cbv zeta. destruct (px_peers _ !! _) as [ps|]; [|done].
    destruct (ps_remote ps) as [r|]; [|done]. destruct (px_outer _ !! _); [|done]. by destruct ok.
Qed.
Lemma loop_body_step p id src b ok :
  bytes_ok b -> proxy_step p (loop_body p id src b ok).1 (loop_body p id src b ok).2.
Proof. intros. destruct id; cbn [loop_body]; by constructor. Qed.
(** A body whose write fails sends nothing. *)
Lemma loop_body_silent p id src b : (loop_body p id src b false).2 = [].
Proof.
  destruct id; cbn [loop_body].
  - unfold outerLoop_body. cbv zeta. destruct (Classify _ src b) as [d dec].
    destruct (d_bucket dec); [done| |done]. destruct (px_peers _ !! _); [|done]. by destruct (negb _).
  - unfold innerLoop_body. cbv zeta. destruct (px_peers _ !! _) as [ps|]; [|done].
    destruct (ps_remote ps) as [r|]; [|done]. by destruct (px_outer _ !! _).
Qed.

Lemma inv_with_proxy l p out :
  life_inv l -> proxy_step (l_proxy l) p out -> same_sockets (l_proxy l) p -> life_inv (with_proxy l p).
Proof.
  intros [] Hs (E1 & E2 & E3). split; cbn; try done.
  - by eapply pr_step.
  - by rewrite E1.
  - intros k. by rewrite E2.
  - by rewrite E3.
Qed.

(** A socket changes: it is not reopened, its loop not restarted, and while the
    relay is open neither ends. *)
Lemma inv_with_sock l id s s' :
  life_inv l -> l_socks l !! id = Some s ->
  (so_open s' = true -> so_open s = true) -> (running s' = true -> running s = true) ->
  (stage (l_closing l) = 0%nat -> so_open s' = true /\ running s' = true) ->
  (forall src b, so_loop s' = Some (Handling src b) -> bytes_ok b) ->
  life_inv (with_sock l id s').
Proof.
  intros [] Hid Ho Hr Ha Hd.
  assert (forall j, is_Some (<[id := s']> (l_socks l) !! j) <-> is_Some (l_socks l !! j)) as Hdom.
  { intros j. destruct (decide (j = id)) as [->|]; [|by rewrite lookup_insert_ne].
    rewrite lookup_insert_eq, Hid. split; intros _; by eexists. }
  split; cbn [with_sock l_proxy l_socks l_watchers l_closing]; try done.
  - intros f. by rewrite Hdom.
  - intros k. by rewrite Hdom.
  - intros j open src b. rewrite lookup_insert. case_decide as Hj; [|apply li_data0].
    intros [= ->]. by eapply Hd.
  - intros j t Hst. rewrite lookup_insert. case_decide as Hj; [|by apply li_alive0].
    intros [= <-]. by apply Ha.
  - intros j t Hst. rewrite lookup_insert. case_decide as Hj; [|by apply li_outer_closed0].
    intros [= <-] Hi. subst j. destruct (so_open s') eqn:E; [|done].
    rewrite <-(li_outer_closed0 id s) by done. by rewrite Ho.
  - intros j t Hst. rewrite lookup_insert. case_decide as Hj; [|by apply li_inner_closed0].
    intros [= <-] Hi. subst j. destruct (so_open s') eqn:E; [|done].
    rewrite <-(li_inner_closed0 id s) by done. by rewrite Ho.
  - intros j t Hst. rewrite lookup_insert. case_decide as Hj; [|by apply li_loops0].
    intros [= <-]. subst j. destruct (running s') eqn:E; [|done].
    rewrite <-(li_loops0 id s) by done. by rewrite Hr.
Qed.

Lemma stage_open l : life_inv l -> stage (l_closing l) = 0%nat <-> px_closed (l_proxy l) = false.
Proof. intros Hl. pose proof (li_flag _ Hl). destruct (px_closed _); split; try done; intuition lia. Qed.

Lemma New_life_inv bind routes o watch families l closed stopped :
  New_life bind routes o watch families = (Ok l, closed, stopped) -> life_inv l.
Proof.
  unfold New_life. destruct (New bind routes o families) as [[p|e] cl] eqn:E; [|done]. intros [= <- _ _].
  assert (cl = [] /\ px_peers p = ∅ /\ px_closed p = false) as (-> & Hp & Hc).
  { unfold New in E. destruct (_ =? _)%nat; [done|].
    destruct (bind_outer _ _ _ _ _ _) as [[[outer marks]|e] c]; [|done]. by simplify_eq. }
  assert (forall id s, outer_socks p !! id = Some s -> s = fresh_sock) as Hf.
  { unfold outer_socks. intros id s (f & _ & Hs)%lookup_kmap_Some; [|apply _]. rewrite lookup_fmap in Hs.
    by destruct (px_outer p !! f); simplify_eq/=. }
  split; cbn; try (intros; lia).
  - by eapply pr_new.
  - intros f. unfold outer_socks. rewrite lookup_kmap by apply _. rewrite lookup_fmap. by rewrite fmap_is_Some.
  - intros k. rewrite Hp, lookup_empty. split; [|by intros []].
    unfold outer_socks. intros [s (f & Hs & _)%lookup_kmap_Some]; [done|apply _].
  - intros id op src b Hs%Hf. by simplify_eq.
  - rewrite Hc. split; [lia|done].
  - by intros id s _ ->%Hf.
Qed.

Lemma AddPeer_inv_life l key bind : life_inv l -> life_inv (life_AddPeer l key bind).1.
Proof.
  intros Hl. pose proof (ps_AddPeer (l_proxy l) key bind) as Hs. revert Hs.
  unfold life_AddPeer, AddPeer. destruct (px_closed (l_proxy l)) eqn:Ec; cbn [fst].
  { intros. destruct (px_peers _ !! key); by eapply inv_with_proxy. }
  destruct (px_peers (l_proxy l) !! key) as [ps|] eqn:Ek; cbn [fst].
  { intros. by eapply inv_with_proxy. }
  destruct bind as [addr|e]; cbn [fst]; [|intros; rewrite Ek; by eapply inv_with_proxy].
  cbn [px_peers with_peers]. rewrite lookup_insert_eq. intros Hs.
  apply (stage_open _ Hl) in Ec as Hst. destruct Hl.
  split; cbn [with_sock with_proxy l_proxy l_socks l_watchers l_closing with_peers px_outer px_peers px_closed]; try lia; try done.
  - by eapply pr_step.
  - intros f. by rewrite lookup_insert_ne.
  - intros k. rewrite !lookup_insert. repeat case_decide; try congruence; [|by apply li_inner0].
    split; intros _; by eexists.
  - intros id op src b. rewrite lookup_insert. case_decide; [done|]. apply li_data0.
  - intros id s _. rewrite lookup_insert. case_decide; [by intros [= <-]|]. by apply li_alive0.
Qed.

Lemma loop_inv l l' id :
  life_inv l ->
  ((exists src b, bytes_ok b /\ loop_read l id src b = Some l') \/ loop_error l id = Some l' \/ loop_wake l id = Some l') ->
  life_inv l'.
Proof.
  intros Hl. unfold loop_read, loop_error, loop_wake.
  destruct (l_socks l !! id) as [[op lp]|] eqn:E; [|by intros [(?&?&?&?)|[?|?]]].
  assert (forall s', (so_open s' = op) -> (running s' = true -> lp <> None) ->
    (stage (l_closing l) = 0%nat -> running s' = true) ->
    (forall src b, so_loop s' = Some (Handling src b) -> bytes_ok b) -> life_inv (with_sock l id s')) as Hgo.
  { intros s' Ho Hr Ha Hd. eapply inv_with_sock; [done|exact E| | | |done].
    - by rewrite Ho.
    - intros H%Hr. unfold running; cbn. by destruct lp.
    - intros Hst. split; [|by apply Ha]. rewrite Ho. by apply (li_alive _ Hl id _ Hst E). }
  intros [(src & b & Hb & H)|[H|H]].
  - destruct op; [|done]. destruct lp as [[n|s d|n]|]; [|done..]. injection H as <-.
    apply Hgo; try done. cbn. intros s d [= _ <-]. by apply Forall_take.
  - destruct lp as [[n|s d|n]|]; [|done..]. injection H as <-. apply Hgo; try done.
    + intros Hst. pose proof (li_alive _ Hl id _ Hst E) as [Ho _]. cbn in Ho. subst op.
      apply (stage_open _ Hl) in Hst. unfold read_error. by rewrite Hst.
    + cbn [so_loop]. intros s d. destruct (read_error _ _ _) as [[]|]; by intros [=].
  - destruct lp as [[n|s d|n]|]; try done. injection H as <-. by apply Hgo.
Qed.

Lemma loop_handle_inv l id ok l' out : life_inv l -> loop_handle l id ok = Some (l', out) -> life_inv l'.
Proof.
  intros Hl. unfold loop_handle. destruct (l_socks l !! id) as [[op [[n|src b|n]|]]|] eqn:E; try done.
  destruct (loop_body (l_proxy l) id src b ok) as [p out'] eqn:Eb. destruct (forallb _ _); [|done].
  intros [= <- <-].
  pose proof (loop_body_same (l_proxy l) id src b ok) as Hs. rewrite Eb in Hs.
  pose proof (loop_body_step (l_proxy l) id src b ok (li_data _ Hl _ _ _ _ E)) as Hst. rewrite Eb in Hst.
  eapply inv_with_sock; [by eapply inv_with_proxy|exact E|done|done| |done].
  intros H0. split; [|done]. by apply (li_alive _ Hl id _ H0 E).
Qed.

Lemma all_closed_spec outer l id s :
  all_closed outer l = true -> l_socks l !! id = Some s -> is_outer id = outer -> so_open s = false.
Proof.
  unfold all_closed. intros H Hs Hi. rewrite forallb_forall in H.
  specialize (H (id, s)). cbn in H. rewrite Hi, eqb_reflx in H. cbn in H.
  apply negb_true_iff, H. apply list_elem_of_In. by apply elem_of_map_to_list.
Qed.
Lemma loops_done_spec l id s : loops_done l = true -> l_socks l !! id = Some s -> running s = false.
Proof.
  unfold loops_done. intros H Hs. rewrite forallb_forall in H. specialize (H (id, s)).
  apply negb_true_iff, H. apply list_elem_of_In. by apply elem_of_map_to_list.
Qed.

Lemma closing_inv l l' :
  life_inv l ->
  (l' = close_enter l \/ (exists f, close_watcher l f = Some l') \/ (exists id, close_sock l id = Some l') \/
   close_next l = Some l') -> life_inv l'.
Proof.
  intros Hl [->|[[f H]|[[id H]|H]]].
  - unfold close_enter. destruct (px_closed (l_proxy l)) eqn:Ec; [done|]. apply (stage_open _ Hl) in Ec as Hst.
    destruct Hl. split; cbn; try lia; try done.
    eapply pr_step; [done|apply ps_Close].
  - unfold close_watcher in H. destruct (l_closing l) eqn:Ec; try done. case_bool_decide; [|done]. simplify_eq.
    destruct Hl. rewrite Ec in *. split; cbn in *; try lia; done.
  - unfold close_sock in H. pose proof Hl as Hl'.
    destruct (l_socks l !! id) as [[[] lp]|] eqn:E; [|by destruct (l_closing l), (is_outer id)..].
    assert (stage (l_closing l) <> 0%nat /\ l' = with_sock l id (mkSock false lp)) as [Hne ->]
      by (destruct (l_closing l), (is_outer id); by simplify_eq).
    eapply inv_with_sock; [done|exact E|done|done|done|].
    cbn. intros src b ->. eapply li_data; [exact Hl|exact E].
  - unfold close_next in H. pose proof Hl as Hl'. destruct Hl.
    assert (forall c, l' = with_closing l c -> stage c = S (stage (l_closing l)) -> (0 < stage (l_closing l))%nat ->
      ((2 <= stage c)%nat -> l_watchers l = ∅) ->
      (stage c = 3%nat -> all_closed true l = true) -> (stage c = 4%nat -> all_closed false l = true) ->
      (stage c = 5%nat -> loops_done l = true) -> life_inv l') as Hgo.
    { intros c -> Hc Hpos Hw H3 H4 H5.
      split; cbn; rewrite ?Hc; try done; try lia.
      - split; [intros _; by apply li_flag0|lia].
      - rewrite <-Hc. exact Hw.
      - intros id s Hst Hs Hi. destruct (decide (stage c = 3%nat)) as [H'|]; [by eapply all_closed_spec; [apply H3| |]|].
        eapply li_outer_closed0; [lia|done|done].
      - intros id s Hst Hs Hi. destruct (decide (stage c = 4%nat)) as [H'|]; [by eapply all_closed_spec; [apply H4| |]|].
        eapply li_inner_closed0; [lia|done|done].
      - intros id s Hst Hs. destruct (decide (stage c = 5%nat)) as [H'|]; [by eapply loops_done_spec; [apply H5|]|].
        eapply li_loops0; [lia|done]. }
    destruct (l_closing l) eqn:Ec; try done.
    + case_bool_decide; [|done]. simplify_eq. by apply (Hgo ClosingOuter); cbn; try lia.
    + destruct (all_closed true l) eqn:Ea; [|done]. simplify_eq. apply (Hgo ClosingInner); cbn in *; try lia; auto.
    + destruct (all_closed false l) eqn:Ea; [|done]. simplify_eq. apply (Hgo Waiting); cbn in *; try lia; auto.
    + destruct (loops_done l) eqn:Ea; [|done]. simplify_eq. apply (Hgo Returned); cbn in *; try lia; auto.
Qed.

Lemma life_step_inv l l' out : life_step l l' out -> life_inv l -> life_inv l'.
Proof.
  intros Hs Hl. destruct Hs as [l key bind|l port Hp|l key remote|l server id packet ok p r out E _|l id ch ev p r E
    |l id src d l' Hb E|l id ok l' out E|l id l' E|l id l' E|l|l f l' E|l id l' E|l l' E].
  - by apply AddPeer_inv_life.
  - by eapply inv_with_proxy; [|constructor|].
  - eapply inv_with_proxy; [done|constructor|apply SetPeerEndpoint_same].
  - eapply inv_with_proxy; [done|by econstructor|by eapply Exchange_start_same].
  - eapply inv_with_proxy; [done|by econstructor|by eapply Exchange_finish_same].
  - eapply loop_inv; [done|]. left. eauto.
  - by eapply loop_handle_inv.
  - eapply loop_inv; [done|]. right. by left.
  - eapply loop_inv; [done|]. right. by right.
  - eapply closing_inv; [done|]. by left.
  - eapply closing_inv; [done|]. right. left. eauto.
  - eapply closing_inv; [done|]. right. right. left. eauto.
  - eapply closing_inv; [done|]. by right; right; right.
Qed.
Lemma life_reachable_inv l : life_reachable l -> life_inv l.
Proof. induction 1 as [? ? ? ? ? ? ? ? E|? ? ? _ IH Hs]; [by eapply New_life_inv|by eapply life_step_inv]. Qed.

(** ** Close returns

    What is left to do: the parts of Close, the watchers to stop, and for every
    socket how far it is from closed with its loop gone.  An open socket counts
    more than any state its loop can be in. *)
Definition sock_weight (s : Sock) : nat :=
  if so_open s then 3
  else match so_loop s with None => 0 | Some (Reading _) => 1 | Some (Handling _ _) => 2 | Some (Backoff _) => 2 end.
Definition socks_weight (m : gmap SockId Sock) : nat := map_fold (fun _ s acc => (sock_weight s + acc)%nat) 0%nat m.
Definition close_measure (l : Life) : nat :=
  ((5 - stage (l_closing l)) + size (l_watchers l) + socks_weight (l_socks l))%nat.

Lemma socks_weight_insert_new m id s :
  m !! id = None -> socks_weight (<[id := s]> m) = (sock_weight s + socks_weight m)%nat.
Proof. intros H. unfold socks_weight. rewrite map_fold_insert_L; [done| |done]. intros. lia. Qed.
Lemma socks_weight_insert m id s s' :
  m !! id = Some s -> (socks_weight (<[id := s']> m) + sock_weight s = socks_weight m + sock_weight s')%nat.
Proof.
  intros H. rewrite <-(insert_delete_eq m id s'). pose proof (insert_delete_id m id s H) as E.
  rewrite <-E at 2. rewrite !socks_weight_insert_new by apply lookup_delete_eq. lia.
Qed.
Lemma socks_weight_bound m : (socks_weight m <= 3 * size m)%nat.
Proof.
  induction m as [|id s m Hid IH] using map_ind; [done|].
  rewrite socks_weight_insert_new, map_size_insert_None by done.
  assert (sock_weight s <= 3)%nat by (unfold sock_weight; destruct s as [[] [[]|]]; cbn; lia). lia.
Qed.

(** The measure of a state with one socket changed. *)
Lemma measure_with_sock l id s s' :
  l_socks l !! id = Some s ->
  (close_measure (with_sock l id s') + sock_weight s = close_measure l + sock_weight s')%nat.
Proof. intros H. pose proof (socks_weight_insert _ _ _ s' H). unfold close_measure. cbn. lia. Qed.

Lemma loop_measure l l' id out :
  life_inv l -> px_closed (l_proxy l) = true ->
  ((exists src b, loop_read l id src b = Some l') \/ loop_error l id = Some l' \/ loop_wake l id = Some l' \/
   exists ok, loop_handle l id ok = Some (l', out)) ->
  (close_measure l' <= close_measure l)%nat /\
  (is_open l id = false -> (close_measure l' < close_measure l)%nat).
Proof.
  intros Hl Hc H. unfold is_open.
  assert (exists op lp lp' p, l_socks l !! id = Some (mkSock op (Some lp)) /\
    l' = with_sock (with_proxy l p) id (mkSock op lp') /\
    (op = true \/ sock_weight (mkSock op lp') < sock_weight (mkSock op (Some lp)))%nat)
    as (op & lp & lp' & p & E & -> & Hw).
  { unfold loop_read, loop_error, loop_wake, loop_handle in H.
    destruct (l_socks l !! id) as [[op [lp|]]|] eqn:E; [|destruct H as [(?&?&H)|[H|[H|[? H]]]]; by try destruct op..].
    exists op, lp. destruct H as [(s & d & H)|[H|[H|[ok H]]]].
    - destruct op; [|done]. destruct lp; [|done..]. simplify_eq. exists (Some (Handling s (read_into d))), (l_proxy l).
      by destruct l; auto.
    - destruct lp; [|done..]. unfold read_error in H. rewrite Hc, orb_true_r in H. simplify_eq.
      exists None, (l_proxy l). destruct l. split_and!; try done. destruct op; [by left|right; cbn; lia].
    - destruct lp as [| |n]; [done..|]. simplify_eq. exists (Some (Reading n)), (l_proxy l). destruct l.
      split_and!; try done. destruct op; [by left|right; cbn; lia].
    - destruct lp as [|s d|]; [done| |done]. destruct (loop_body _ _ _ _ _) as [p o]. destruct (forallb _ _); [|done].
      simplify_eq. exists (Some (Reading 0)), p. split_and!; try done. destruct op; [by left|right; cbn; lia]. }
  pose proof (measure_with_sock (with_proxy l p) id (mkSock op (Some lp)) (mkSock op lp') E) as Hm.
  change (close_measure (with_proxy l p)) with (close_measure l) in Hm. rewrite E. cbn [so_open].
  destruct Hw as [->|Hw]; [cbn in Hm; split; [lia|done]|split; intros; lia].
Qed.

Lemma closing_measure l l' :
  life_inv l ->
  ((exists f, close_watcher l f = Some l') \/ (exists id, close_sock l id = Some l') \/ close_next l = Some l') ->
  (close_measure l' < close_measure l)%nat.
Proof.
  intros Hl [[f H]|[[id H]|H]].
  - unfold close_watcher in H. destruct (l_closing l) eqn:Ec; try done. case_bool_decide; [|done]. simplify_eq.
    unfold close_measure. cbn. rewrite Ec, size_difference, size_singleton by set_solver.
    assert (size (l_watchers l) <> 0%nat) by (apply size_non_empty_iff; set_solver). cbn. lia.
  - unfold close_sock in H. destruct (l_socks l !! id) as [[[] lp]|] eqn:E; [|by destruct (l_closing l), (is_outer id)..].
    assert (l' = with_sock l id (mkSock false lp)) as -> by (destruct (l_closing l), (is_outer id); by simplify_eq).
    pose proof (measure_with_sock _ _ _ (mkSock false lp) E).
    assert (sock_weight (mkSock false lp) <= 2)%nat by (destruct lp as [[]|]; cbn; lia). cbn in *. lia.
  - assert (exists c, l' = with_closing l c /\ stage c = S (stage (l_closing l)) /\ (0 < stage (l_closing l) < 5)%nat)
      as (c & -> & Hc & Hs).
    { unfold close_next in H. destruct (l_closing l); try done;
        [case_bool_decide|destruct (all_closed _ _)|destruct (all_closed _ _)|destruct (loops_done _)]; try done;
        simplify_eq; eexists; (split; [done|cbn; lia]). }
    unfold close_measure. cbn. lia.
Qed.

(** A relay that is closing admits no new socket. *)
Lemma step_measure l l' out :
  life_inv l -> px_closed (l_proxy l) = true -> life_step l l' out ->
  (close_measure l' <= close_measure l)%nat /\ px_closed (l_proxy l') = true.
Proof.
  intros Hl Hc Hs.
  assert (px_closed (l_proxy l') = true) as Hc'.
  { pose proof (life_step_inv _ _ _ Hs Hl) as Hl'. apply (li_flag _ Hl').
    pose proof (proj2 (li_flag _ Hl) Hc). destruct Hs as [l key bind|l port Hp|l key remote|l server id packet ok p r out E _
      |l id ch ev p r E|l id src d l' Hb E|l id ok l' out E|l id l' E|l id l' E|l|l f l' E|l id l' E|l l' E]; try done.
    - unfold life_AddPeer, AddPeer. rewrite Hc. cbn. by destruct (_ !! _).
    - unfold loop_read in E. destruct (l_socks l !! id) as [[[] [[]|]]|]; by simplify_eq.
    - unfold loop_handle in E. destruct (l_socks l !! id) as [[? [[]|]]|]; try done.
      destruct (loop_body _ _ _ _ _). destruct (forallb _ _); by simplify_eq.
    - unfold loop_error in E. destruct (l_socks l !! id) as [[? [[]|]]|]; by simplify_eq.
    - unfold loop_wake in E. destruct (l_socks l !! id) as [[? [[]|]]|]; by simplify_eq.
    - unfold close_enter. by rewrite Hc.
    - unfold close_watcher in E. destruct (l_closing l); try done. case_bool_decide; simplify_eq. cbn. lia.
    - unfold close_sock in E. destruct (l_socks l !! id) as [[[] lp]|], (l_closing l) eqn:Ec, (is_outer id);
        simplify_eq; cbn; rewrite Ec; cbn; lia.
    - unfold close_next in E. destruct (l_closing l); try done;
        [case_bool_decide|destruct (all_closed _ _)|destruct (all_closed _ _)|destruct (loops_done _)];
        simplify_eq; cbn; lia. }
  split; [|exact Hc'].
  destruct Hs as [l key bind|l port Hp|l key remote|l server id packet ok p r out E _|l id ch ev p r E
    |l id src d l' Hb E|l id ok l' out E|l id l' E|l id l' E|l|l f l' E|l id l' E|l l' E]; try done.
  - unfold life_AddPeer, AddPeer. rewrite Hc. cbn. by destruct (_ !! _).
  - eapply (loop_measure _ _ id []); eauto.
  - eapply loop_measure; [done..|]. right. right. right. eauto.
  - eapply (loop_measure _ _ id []); eauto.
  - eapply (loop_measure _ _ id []); eauto.
  - unfold close_enter. by rewrite Hc.
  - apply Nat.lt_le_incl, closing_measure; eauto.
  - apply Nat.lt_le_incl, closing_measure; eauto.
  - apply Nat.lt_le_incl, closing_measure; eauto.
Qed.

Lemma own_step_step l l' : own_step l l' -> exists out, life_step l l' out.
Proof. intros []; eexists; by econstructor. Qed.

Lemma not_all_closed outer l :
  all_closed outer l = false ->
  exists id loop, is_outer id = outer /\ l_socks l !! id = Some (mkSock true loop).
Proof.
  unfold all_closed. intros ((id & [op lp]) & Hx & Hf)%forallb_false.
  apply list_elem_of_In, elem_of_map_to_list in Hx. cbn in Hf.
  apply orb_false_iff in Hf as [H1%negb_false_iff%eqb_prop H2%negb_false_iff]. subst op. by exists id, lp.
Qed.

Lemma loop_progress l id lp :
  life_inv l -> px_closed (l_proxy l) = true -> l_socks l !! id = Some (mkSock false (Some lp)) ->
  exists l', own_step l l' /\ (close_measure l' < close_measure l)%nat.
Proof.
  intros Hl Hc E. assert (is_open l id = false) as Ho by (unfold is_open; by rewrite E).
  destruct lp as [n|src b|n].
  - eexists. assert (loop_error l id = Some (with_sock l id (mkSock false None))) as H by (unfold loop_error; by rewrite E).
    split; [by eapply os_error|]. eapply (loop_measure _ _ id []); eauto.
  - destruct (loop_body (l_proxy l) id src b false) as [p out] eqn:Eb.
    pose proof (loop_body_silent (l_proxy l) id src b) as Hsil. rewrite Eb in Hsil. cbn in Hsil. subst out.
    eexists. assert (loop_handle l id false = Some (with_sock (with_proxy l p) id (mkSock false (Some (Reading 0))), [])) as H
      by (unfold loop_handle; by rewrite E, Eb).
    split; [by eapply os_handle|]. eapply loop_measure; [done..| |done]. right. right. right. eauto.
  - eexists. assert (loop_wake l id = Some (with_sock l id (mkSock false (Some (Reading n))))) as H
      by (unfold loop_wake; by rewrite E).
    split; [by eapply os_wake|]. eapply (loop_measure _ _ id []); eauto 6.
Qed.

Lemma close_progress l :
  life_inv l -> px_closed (l_proxy l) = true -> l_closing l <> Returned ->
  exists l', own_step l l' /\ (close_measure l' < close_measure l)%nat.
Proof.
  intros Hl Hc Hr. pose proof (proj2 (li_flag _ Hl) Hc) as Hpos.
  assert (forall l', close_next l = Some l' -> exists l', own_step l l' /\ (close_measure l' < close_measure l)%nat) as Hnext.
  { intros l' H. exists l'. split; [by apply os_close_next|]. apply closing_measure; eauto. }
  assert (forall outer id lp, l_closing l = (if outer : bool then ClosingOuter else ClosingInner) -> is_outer id = outer ->
    l_socks l !! id = Some (mkSock true lp) -> exists l', own_step l l' /\ (close_measure l' < close_measure l)%nat) as Hsock.
  { intros outer id lp Ec Hi E. exists (with_sock l id (mkSock false lp)).
    assert (close_sock l id = Some (with_sock l id (mkSock false lp))) as H
      by (unfold close_sock; rewrite Ec, E; destruct outer; by rewrite Hi).
    split; [by eapply os_close_sock|]. apply closing_measure; eauto. }
  unfold close_next in Hnext. destruct (l_closing l) eqn:Ec; cbn in Hpos; try lia; try done.
  - destruct (decide (l_watchers l = ∅)) as [Hw|(f & Hf)%set_choose_L]; [rewrite bool_decide_true in Hnext by done; by eapply Hnext|].
    eexists. assert (close_watcher l f = Some (mkLife (l_proxy l) (l_socks l) (l_watchers l ∖ {[f]}) Stopping)) as H
      by (unfold close_watcher; rewrite Ec; by rewrite bool_decide_true).
    split; [by eapply os_close_watcher|]. apply closing_measure; eauto.
  - destruct (all_closed true l) eqn:Ea; [by eapply Hnext|]. apply not_all_closed in Ea as (id & lp & Hi & E).
    by eapply (Hsock true).
  - destruct (all_closed false l) eqn:Ea; [by eapply Hnext|]. apply not_all_closed in Ea as (id & lp & Hi & E).
    by eapply (Hsock false).
  - destruct (loops_done l) eqn:Ea; [by eapply Hnext|].
    unfold loops_done in Ea. apply forallb_false in Ea as ((id & [op lp]) & Hx & Hf).
    apply list_elem_of_In, elem_of_map_to_list in Hx. apply negb_false_iff in Hf.
    destruct lp as [lp|]; [|done].
    assert (op = false) as ->.
    { change op with (so_open (mkSock op (Some lp))). destruct (is_outer id) eqn:Ei.
      - eapply li_outer_closed; [exact Hl|rewrite Ec; cbn; lia|exact Hx|done].
      - eapply li_inner_closed; [exact Hl|rewrite Ec; cbn; lia|exact Hx|done]. }
    by eapply loop_progress.
Qed.

Lemma close_run n l :
  (close_measure l <= n)%nat -> life_inv l -> px_closed (l_proxy l) = true ->
  exists m l', (m <= n)%nat /\ nsteps own_step m l l' /\ l_closing l' = Returned.
Proof.
  revert l. induction n as [|n IH]; intros l Hn Hl Hc;
    (destruct (decide (stage (l_closing l) = 5%nat)) as [Hr|Hr];
      [exists 0%nat, l; split; [lia|split; [constructor|by destruct (l_closing l)]]|]);
    destruct (close_progress l Hl Hc) as (l' & Hs & Hm); try (by intros E; rewrite E in Hr); [lia|].
  destruct (own_step_step _ _ Hs) as [out Ho].
  destruct (IH l') as (m & l'' & Hle & Hrun & Hret).
  - lia.
  - by eapply life_step_inv.
  - by eapply step_measure.
  - exists (S m), l''. split_and!; [lia|by econstructor|done].
Qed.

(** C26: Close returns: once the flag is set, no call and no datagram adds to
    what is left to do, something the relay does on its own always takes from it
    until Close has returned, and at most as many such steps as there are
    watchers, sockets and parts of Close lead there. *)
Theorem Close_returns l :
  life_reachable l -> px_closed (l_proxy l) = true ->
  (forall l' out, life_step l l' out -> (close_measure l' <= close_measure l)%nat) /\
  (l_closing l <> Returned -> exists l', own_step l l' /\ (close_measure l' < close_measure l)%nat) /\
  exists n l', (n <= 4 + size (l_watchers l) + 3 * size (l_socks l))%nat /\
    nsteps own_step n l l' /\ l_closing l' = Returned.
Proof.
  intros Hl%life_reachable_inv Hc. split_and!.
  - intros l' out Hs. by eapply step_measure.
  - by apply close_progress.
  - destruct (close_run (close_measure l) l) as (n & l' & Hn & H); [done..|].
    exists n, l'. split; [|done]. pose proof (socks_weight_bound (l_socks l)).
    pose proof (proj2 (li_flag _ Hl) Hc). unfold close_measure in Hn. lia.
Qed.

(** While the relay is open every socket is open and has its loop; when Close
    has returned every socket is closed, no loop and no watcher is left, and
    nothing that happens afterwards sends anything or brings one back. *)
Theorem loops_live_and_die l :
  life_reachable l ->
  (px_closed (l_proxy l) = false -> forall id s, l_socks l !! id = Some s -> so_open s = true /\ running s = true) /\
  (l_closing l = Returned ->
     (forall id s, l_socks l !! id = Some s -> so_open s = false /\ running s = false) /\ l_watchers l = ∅ /\
     forall l' out, life_step l l' out ->
       out = [] /\ l_closing l' = Returned /\ l_socks l' = l_socks l /\ l_watchers l' = l_watchers l).
Proof.
  intros Hl%life_reachable_inv. split.
  { intros Hc id s Hs. eapply li_alive; [done| |done]. by apply stage_open. }
  intros Hr.
  assert (forall id s, l_socks l !! id = Some s -> so_open s = false /\ running s = false) as Hs.
  { intros id s Hs. split; [|eapply li_loops; [done|rewrite Hr; cbn; lia|done]]. destruct (is_outer id) eqn:Ei.
    - eapply li_outer_closed; [done|rewrite Hr; cbn; lia|done|done].
    - eapply li_inner_closed; [done|rewrite Hr; cbn; lia|done|done]. }
  assert (forall id, match l_socks l !! id with Some s => s = mkSock false None | None => True end) as Hn.
  { intros id. destruct (l_socks l !! id) as [[op lp]|] eqn:E; [|done]. apply Hs in E as [Ho Hrun].
    cbn in Ho. subst op. by destruct lp. }
  assert (px_closed (l_proxy l) = true) as Hc by (apply (li_flag _ Hl); rewrite Hr; cbn; lia).
  split_and!; [done|eapply li_watchers; [done|rewrite Hr; cbn; lia]|].
  intros l' out Hst.
  destruct Hst as [l key bind|l port Hp|l key remote|l server id packet ok p r out E Hok|l id ch ev p r E
    |l id src d l' Hb E|l id ok l' out E|l id l' E|l id l' E|l|l f l' E|l id l' E|l l' E]; try done.
  - unfold life_AddPeer, AddPeer. rewrite Hc. cbn. by destruct (_ !! _).
  - apply Exchange_start_same in E as [_ [->|[-> ->]]]; [done|]. specialize (Hok eq_refl).
    unfold is_open in Hok. specialize (Hn (Outer (familyOf server))). destruct (l_socks l !! _); by subst.
  - unfold loop_read in E. specialize (Hn id). destruct (l_socks l !! id); by subst.
  - unfold loop_handle in E. specialize (Hn id). destruct (l_socks l !! id); by subst.
  - unfold loop_error in E. specialize (Hn id). destruct (l_socks l !! id); by subst.
  - unfold loop_wake in E. specialize (Hn id). destruct (l_socks l !! id); by subst.
  - unfold close_enter. by rewrite Hc.
  - unfold close_watcher in E. by rewrite Hr in E.
  - unfold close_sock in E. by rewrite Hr in E.
  - unfold close_next in E. by rewrite Hr in E.
Qed.

Lemma bind_outer_closed bind routes o families outer marks e closed :
  NoDup families.*1 -> (forall f, f ∈ families.*1 -> outer !! f = None) ->
  bind_outer bind routes o outer marks families = (Err e, closed) ->
  exists bound rest, families = bound ++ rest /\ rest <> [] /\ closed ≡ₚ (map_to_list outer).*1 ++ bound.*1.
Proof.
  revert outer marks. induction families as [|[fam port] families IH]; intros outer marks Hnd Hf; [done|].
  cbn [bind_outer]. rewrite fmap_cons in Hnd. apply list.NoDup_cons in Hnd as [Hni Hnd].
  assert (outer !! fam = None) as Ho by (apply Hf; cbn; set_solver).
  destruct (network fam =s ""); [intros [= _ <-]; exists [], ((fam, port) :: families); by rewrite app_nil_r|].
  destruct (bind fam port) as [b|eb]; [|intros [= _ <-]; exists [], ((fam, port) :: families); by rewrite app_nil_r].
  intros (bound & rest & -> & Hr & Hp)%IH; [|done|].
  - exists ((fam, port) :: bound), rest. split_and!; [done..|]. rewrite Hp, map_to_list_insert by done. cbn.
    apply Permutation_middle.
  - intros f Hfam. rewrite lookup_insert_ne by (intros ->; done). apply Hf. cbn. set_solver.
Qed.

(** A relay that cannot be built leaves nothing: the sockets closed are those of
    the families tried before the one that failed, all of them, and every watcher
    they had is stopped. *)
Theorem New_life_failure bind routes o watch families e closed stopped :
  New_life bind routes o watch families = (Err e, closed, stopped) ->
  families = ∅ /\ closed = [] \/
  exists bound rest, map_to_list families = bound ++ rest /\ rest <> [] /\ closed ≡ₚ bound.*1 /\
    forall fam, fam ∈ stopped <-> fam ∈ bound.*1 /\ watch fam = true.
Proof.
  unfold New_life, New. destruct (size families =? 0)%nat eqn:Es.
  { intros [= _ <- _]. left. split; [|done]. by apply map_size_empty_inv, Nat.eqb_eq. }
  destruct (bind_outer _ _ _ _ _ _) as [[[outer marks]|eb] cl] eqn:E; [done|]. intros [= -> <- <-]. right.
  apply bind_outer_closed in E as (bound & rest & H1 & H2 & H3).
  - exists bound, rest. rewrite map_to_list_empty in H3. split_and!; [done..|].
    intros fam. rewrite list_elem_of_filter, H3. cbn. tauto.
  - apply NoDup_fst_map_to_list.
  - intros. apply lookup_empty.
Qed.

(** ** Witnesses *)

Definition w_life0 : Life :=
  mkLife w_proxy0 (outer_socks w_proxy0) {[FamilyIPv4]} NotClosing.
Definition w_life1 : Life := (life_AddPeer w_life0 w_peer (Ok w_inner)).1.
Definition w_life2 : Life := with_sock w_life1 (Inner w_peer) (mkSock true (Some (Handling w_ep [1; 2]))).
Definition w_life3 : Life := close_enter w_life2.

Lemma w_life3_reachable : life_reachable w_life3.
Proof.
  eapply lr_step; [eapply lr_step; [eapply lr_step; [|apply (lf_AddPeer _ w_peer (Ok w_inner))]
    |apply (lf_read w_life1 (Inner w_peer) w_ep [1; 2] w_life2)]|apply (lf_close_enter w_life2)].
  - apply (lr_new w_bind (fun _ => Ok []) escapeOptions0 (fun _ => true) w_families w_life0 [] []). vm_compute. reflexivity.
  - repeat constructor; vm_compute; (discriminate || reflexivity).
  - vm_compute. reflexivity.
Defined.

Lemma Close_returns_witness : exists n l', (n <= 11)%nat /\ nsteps own_step n w_life3 l' /\ l_closing l' = Returned.
Proof.
  destruct (Close_returns w_life3 w_life3_reachable eq_refl) as (_ & _ & n & l' & Hn & H).
  exists n, l'. split; [|exact H]. vm_compute in Hn |- *. exact Hn.
Defined.

Lemma loops_live_and_die_witness : forall s, l_socks w_life2 !! Inner w_peer = Some s -> so_open s = true.
Proof.
  assert (life_reachable w_life2) as Hr.
  { eapply lr_step; [eapply lr_step; [|apply (lf_AddPeer _ w_peer (Ok w_inner))]
      |apply (lf_read w_life1 (Inner w_peer) w_ep [1; 2] w_life2)].
    - apply (lr_new w_bind (fun _ => Ok []) escapeOptions0 (fun _ => true) w_families w_life0 [] []). vm_compute. reflexivity.
    - repeat constructor; vm_compute; (discriminate || reflexivity).
    - vm_compute. reflexivity. }
  intros s Hs. apply (proj1 (loops_live_and_die w_life2 Hr) eq_refl _ _ Hs).
Defined.

Lemma New_life_failure_witness :
  exists bound rest : list (Z * Z), map_to_list ({[ FamilyIPv4 := 0; 7 := 0 ]} : gmap Z Z) = bound ++ rest /\ rest <> [].
Proof.
  destruct (New_life w_bind (fun _ => Ok []) escapeOptions0 (fun _ => true) {[ FamilyIPv4 := 0; 7 := 0 ]}) as [[[l|e] closed] stopped] eqn:E;
    [vm_compute in E; discriminate E|].
  destruct (New_life_failure _ _ _ _ _ _ _ _ E) as [[He _]|(bound & rest & H1 & H2 & _)].
  - apply (f_equal size) in He. vm_compute in He. discriminate He.
  - by exists bound, rest.
Defined.
