(* ===== verification/Escape.v ===== *)
(** * internal/wgproxy/escape_{darwin,freebsd,windows}.go: keeping the relay's socket out of the tunnel

    Darwin and Windows bind the outer socket to the physical default interface
    and re-bind it when the routes change: a debounced watcher, here a step
    relation over the route tables, the socket's binding and the watcher's
    channel and timer.  FreeBSD decides once.  The kernel's notifications and
    socket options are answered by the environment. *)

From S2P Require Import Prelude GoStr Netip Routeprobe Dialer Proxy.

(** ** Binding *)

Definition routeWatchDebounce : Z := 250 * 1000000.

(** The interface [applyEscape] binds to: 0 clears the binding, [None] leaves
    it as it is. *)
Definition applyEscape (currentRoutes : Family -> result (list Route)) (fam : Z) (t : TunnelInterfaces)
  : option Z :=
  let rpFam := routeprobeFamily fam in
  match Probe currentRoutes rpFam t with
  | Err _ => None
  | Ok covering =>
      if negb covering then Some 0
      else match DefaultRouteInterface currentRoutes rpFam t with
           | Err _ | Ok None => None
           | Ok (Some route) => Some (rt_Index route)
           end
  end.

(** The option set; the level follows the family, the byte order the platform. *)
Definition bindToInterfaceIndex_darwin (fam index : Z) : SockOpt := bound_if (routeprobeFamily fam) index.
Definition bindToInterfaceIndex_windows (fam index : Z) : SockOpt := unicast_if (routeprobeFamily fam) index.

(** Setting an option on the descriptor: the descriptor cannot be had, the control
    call fails, or the option is refused. *)
Record RawConn := mkRawConn { rc_SyscallConn : option error; rc_Control : option error; rc_setsockopt : SockOpt -> option error }.
Definition set_option (rc : RawConn) (o : SockOpt) : option error :=
  match rc_SyscallConn rc with
  | Some e => Some e
  | None => match rc_Control rc with Some e => Some e | None => rc_setsockopt rc o end
  end.
Definition markSocket (rc : RawConn) (firewallMark : Z) : option error := set_option rc (SO_MARK firewallMark).
Definition setSocketFib (rc : RawConn) (fib : Z) : option error := set_option rc (SO_SETFIB fib).

(** The FIB FreeBSD sets, if any. *)
Definition escape_fib (routes : Family -> result (list Route)) (fam : Z) (o : escapeOptions) : option SockOpt :=
  if (size (eo_tunnelIfaces o) =? 0)%nat then None
  else if shouldSetFib (Probe routes (routeprobeFamily fam) (eo_tunnelIfaces o)) (eo_fib o)
  then Some (SO_SETFIB (eo_fib o)) else None.

(** [escapeOuterSocket] on the platforms that decide once: what the socket has
    afterwards; a refusal of the kernel leaves it as it was. *)
Definition escape_linux (routes : Family -> result (list Route)) (fam : Z) (o : escapeOptions) (rc : RawConn) : option SockOpt :=
  match escape_mark routes fam o with
  | Some mark => match markSocket rc mark with None => Some (SO_MARK mark) | Some _ => None end
  | None => None
  end.
Definition escape_freebsd (routes : Family -> result (list Route)) (fam : Z) (o : escapeOptions) (rc : RawConn) : option SockOpt :=
  match escape_fib routes fam o with
  | Some _ => match setSocketFib rc (eo_fib o) with None => Some (SO_SETFIB (eo_fib o)) | Some _ => None end
  | None => None
  end.

(** ** The subscribers of Windows' process-wide callback

    A channel of capacity one is whether it holds its token. *)

Record NotifyRegistry := mkNotify { notifySubs : gmap Z bool; notifySeq : Z }.
Definition NotifyRegistry0 : NotifyRegistry := mkNotify ∅ 0.
Definition subscribeNotify (r : NotifyRegistry) : NotifyRegistry * Z :=
  let id := notifySeq r + 1 in (mkNotify (<[id := false]> (notifySubs r)) id, id).
Definition unsubscribeNotify (r : NotifyRegistry) (id : Z) : NotifyRegistry :=
  mkNotify (delete id (notifySubs r)) (notifySeq r).
Definition notifyDispatch (r : NotifyRegistry) : NotifyRegistry :=
  mkNotify ((fun _ => true) <$> notifySubs r) (notifySeq r).

(** ** The watcher (watchNotify, and the second goroutine of watchRoutes) *)

(** [es_stop] is the stop channel (closed by the caller, or by the reader of
    the routing socket), [es_exited] that the loop returned; [es_failed] is
    whether the last socket option failed. *)
Record EscapeState := mkEsc {
  es_routes : Family -> result (list Route);
  es_bound : Z; es_failed : bool;
  es_sig : bool; es_timer : option Z;
  es_stop : bool; es_exited : bool
}.

Section watcher.
Variable fam : Z.
Variable tunnelIfaces : TunnelInterfaces.

(** [ok] is the outcome of the socket option, when one is set. *)
Definition apply (ok : bool) (s : EscapeState) : EscapeState :=
  match applyEscape (es_routes s) fam tunnelIfaces with
  | None => mkEsc (es_routes s) (es_bound s) false (es_sig s) (es_timer s) (es_stop s) (es_exited s)
  | Some i => mkEsc (es_routes s) (if ok then i else es_bound s) (negb ok) (es_sig s) (es_timer s) (es_stop s) (es_exited s)
  end.

(** [escapeOuterSocket]: apply, then subscribe and start the loop; the routes
    are read at [routes], the subscription is made at [routes']. *)
Definition escape_start (ok : bool) (routes routes' : Family -> result (list Route)) : EscapeState :=
  let s := apply ok (mkEsc routes 0 false false None false false) in
  mkEsc routes' (es_bound s) (es_failed s) false None false false.

(** The kernel changes its routes and notifies; notifications may be spurious. *)
Definition notify (routes' : Family -> result (list Route)) (s : EscapeState) : EscapeState :=
  mkEsc routes' (es_bound s) (es_failed s) true (es_timer s) (es_stop s) (es_exited s).

(** The three cases of the loop's [select]. *)
Definition watch_sig (now : Z) (s : EscapeState) : option EscapeState :=
  if es_exited s || negb (es_sig s) then None
  else Some (mkEsc (es_routes s) (es_bound s) (es_failed s) false (Some (now + routeWatchDebounce)) (es_stop s) false).
Definition watch_timer (now : Z) (ok : bool) (s : EscapeState) : option EscapeState :=
  if es_exited s then None
  else match es_timer s with
       | Some d =>
           if now <? d then None
           else Some (apply ok (mkEsc (es_routes s) (es_bound s) (es_failed s) (es_sig s) None (es_stop s) false))
       | None => None
       end.
Definition watch_stop (s : EscapeState) : option EscapeState :=
  if es_exited s || negb (es_stop s) then None
  else Some (mkEsc (es_routes s) (es_bound s) (es_failed s) (es_sig s) (es_timer s) (es_stop s) true).
Definition close_stop (s : EscapeState) : EscapeState :=
  mkEsc (es_routes s) (es_bound s) (es_failed s) (es_sig s) (es_timer s) true (es_exited s).

(** darwin: one read of the routing socket, [None] an error - the caller closed
    it - which ends the reader and with it the loop; an empty read is skipped. *)
Definition route_read (n : option Z) (s : EscapeState) : EscapeState :=
  match n with
  | None => close_stop s
  | Some n => if n <=? 0 then s else notify (es_routes s) s
  end.
(** darwin's [escapeOuterSocket]: the socket is bound before the routing socket
    is opened; without one the binding stays and nothing watches. *)
Definition escape_start_darwin (ok routing_socket : bool) (routes routes' : Family -> result (list Route))
    : option Z * option EscapeState :=
  if (size tunnelIfaces =? 0)%nat then (None, None)
  else
    let s := escape_start ok routes routes' in
    (Some (es_bound s), if routing_socket then Some s else None).

Inductive escape_step : EscapeState -> EscapeState -> Prop :=
| es_notify s routes' : escape_step s (notify routes' s)
| es_on_sig s now s' : watch_sig now s = Some s' -> escape_step s s'
| es_on_timer s now ok s' : watch_timer now ok s = Some s' -> escape_step s s'
| es_on_stop s s' : watch_stop s = Some s' -> escape_step s s'
| es_close s : escape_step s (close_stop s).
Inductive escape_reachable : EscapeState -> Prop :=
| esr_start ok routes : escape_reachable (escape_start ok routes routes)
| esr_step s s' : escape_reachable s -> escape_step s s' -> escape_reachable s'.
End watcher.
