(* ===== verification/EscapeFacts.v ===== *)
(** * Theorems on the tunnel escape *)

From S2P Require Import Prelude GoStr Netip Routeprobe Dialer RouteprobeFacts Proxy Escape.

(** ** Binding follows the routes *)

Section watcher.
Variable fam : Z.
Variable t : TunnelInterfaces.

(** The binding is what the current routes ask for. *)
Definition settled (s : EscapeState) : Prop :=
  match applyEscape (es_routes s) fam t with Some i => es_bound s = i | None => True end.
Definition idle (s : EscapeState) : Prop := es_sig s = false /\ es_timer s = None.

Lemma apply_settles ok s : es_failed (apply fam t ok s) = false -> settled (apply fam t ok s).
Proof.
  unfold settled, apply. destruct (applyEscape (es_routes s) fam t) eqn:E; cbn; rewrite E; [|done].
  destruct ok; [done|discriminate].
Qed.

Lemma apply_frame ok s : es_sig (apply fam t ok s) = es_sig s /\ es_timer (apply fam t ok s) = es_timer s /\
  es_routes (apply fam t ok s) = es_routes s /\ es_exited (apply fam t ok s) = es_exited s.
Proof. unfold apply. by destruct (applyEscape _ _ _). Qed.

(** No route change is forgotten: whenever the watcher has nothing pending and
    the last socket option did not fail, the socket is bound as the current
    routes ask, however changes, signals, timers and the stop interleave. *)
Theorem escape_never_stale s :
  escape_reachable fam t s -> idle s -> es_failed s = false -> settled s.
Proof.
  induction 1 as [ok routes|s s' _ IH Hs]; intros [Hsig Htim] Hf.
  - pose proof (apply_settles ok (mkEsc routes 0 false false None false false) Hf) as Ha.
    unfold settled in *. by rewrite (proj1 (proj2 (proj2 (apply_frame ok _)))) in Ha.
  - destruct Hs as [s routes'|s now s' E|s now ok s' E|s s' E|s].
    + done.
    + unfold watch_sig in E. destruct (_ || _); [done|]. injection E as <-. done.
    + unfold watch_timer in E. destruct (es_exited s); [done|]. destruct (es_timer s); [|done].
      destruct (now <? z); [done|]. injection E as <-. by apply apply_settles.
    + unfold watch_stop in E. destruct (_ || _); [done|]. injection E as <-. by apply IH.
    + by apply IH.
Qed.

(** And the watcher gets there: left alone for one debounce interval after the
    last change, it re-binds the socket to what the routes ask. *)
Theorem escape_settles s routes now :
  es_exited s = false ->
  exists s1 s2, watch_sig now (notify routes s) = Some s1 /\
    watch_timer fam t (now + routeWatchDebounce) true s1 = Some s2 /\
    idle s2 /\ es_routes s2 = routes /\ settled s2.
Proof.
  intros Hx. unfold watch_sig, notify. cbn. rewrite Hx. cbn. eexists. eexists. split; [done|].
  unfold watch_timer. cbn [es_exited es_timer]. rewrite Z.ltb_irrefl. split; [done|].
  cbn [es_routes es_bound es_failed es_sig es_stop].
  match goal with |- context [apply fam t true ?x] => destruct (apply_frame true x) as (H1 & H2 & H3 & _);
    pose proof (apply_settles true x) as Hs end.
  unfold idle. rewrite H1, H2, H3. split_and!; try done. apply Hs.
  unfold apply. by destruct (applyEscape _ _ _).
Qed.

(** Reading darwin's routing socket is one of the watcher's steps. *)
Lemma route_read_step n s : route_read n s = s \/ escape_step fam t s (route_read n s).
Proof.
  destruct n as [n|]; cbn [route_read]; [|right; apply es_close]. destruct (n <=? 0); [by left|]. right. apply es_notify.
Qed.

(** Once its loop returned, the watcher never touches the socket again: the
    caller may close it. *)
Lemma exited_quiet s s' : es_exited s = true -> escape_step fam t s s' ->
  es_exited s' = true /\ es_bound s' = es_bound s.
Proof.
  intros Hx Hs. destruct Hs as [s routes'|s now s' E|s now ok s' E|s s' E|s]; try done.
  - unfold watch_sig in E. by rewrite Hx in E.
  - unfold watch_timer in E. by rewrite Hx in E.
  - unfold watch_stop in E. by rewrite Hx in E.
Qed.
End watcher.

(** The routes are read before the watcher subscribes: a change in between is
    not seen until the next one. *)
Definition gap_before : Family -> result (list Route) := fun _ => Ok [].
Definition gap_after : Family -> result (list Route) := fun _ => Ok w_routes.
Theorem escape_start_gap :
  let s := escape_start FamilyIPv4 w_tunnels true gap_before gap_after in
  idle s /\ es_failed s = false /\ ~ settled FamilyIPv4 w_tunnels s.
Proof. cbv zeta. split; [done|]. split; [done|]. vm_compute. discriminate. Qed.

(** What the escape binds to is physical: an interface that carries a default
    route of the family and is no tunnel. *)
Theorem applyEscape_physical routes fam t i :
  applyEscape routes fam t = Some i -> i <> 0 ->
  exists l r, routes (routeprobeFamily fam) = Ok l /\ In r l /\ rt_Index r = i /\
    pf_bits (rt_Prefix r) = 0 /\ rt_Interface r ∉ t /\
    HasCoveringDefault l (routeprobeFamily fam) (Some (Contains_ t)) = true.
Proof.
  unfold applyEscape, Probe, DefaultRouteInterface. cbv zeta.
  destruct (routes (routeprobeFamily fam)) as [l|]; [|done].
  destruct (HasCoveringDefault _ _ _) eqn:Eh; cbn [negb]; [|intros [= <-]; done].
  destruct (chooseDefaultInterface _ _ _) as [r|] eqn:Ec; [|done]. intros [= <-] _.
  apply choose_some in Ec as (H1 & H2 & H3 & H4). exists l, r. split_and!; try done.
  unfold Contains_ in H4. by apply bool_decide_eq_false in H4.
Qed.

(** ** The subscribers *)

(** A dispatch wakes every live subscriber and no other; identifiers are fresh. *)
Lemma dispatch_wakes r id : notifySubs (notifyDispatch r) !! id = Some true <-> is_Some (notifySubs r !! id).
Proof.
  cbn. rewrite lookup_fmap. destruct (notifySubs r !! id); cbn; split; try done; intros [? ?]; done.
Qed.

Definition notify_wf (r : NotifyRegistry) : Prop := forall id, is_Some (notifySubs r !! id) -> id <= notifySeq r.
Lemma subscribe_fresh r : notify_wf r ->
  notify_wf (subscribeNotify r).1 /\ notifySubs r !! (subscribeNotify r).2 = None /\
  notifySubs (subscribeNotify r).1 !! (subscribeNotify r).2 = Some false.
Proof.
  intros Hr. cbn. split_and!.
  - intros id [b Hb]. cbn in *. rewrite lookup_insert in Hb. case_decide; [lia|].
    specialize (Hr id ltac:(eauto)). lia.
  - destruct (notifySubs r !! (notifySeq r + 1)) eqn:E; [|done]. specialize (Hr _ ltac:(eauto)). lia.
  - by rewrite lookup_insert_eq.
Qed.

(** ** The platforms that decide once *)

(** The outer socket gets the device's mark exactly when a tunnel covers the
    default route of its family, the device has one and the kernel takes it. *)
Theorem escape_linux_exact routes fam o rc mark :
  escape_linux routes fam o rc = Some (SO_MARK mark) <->
  (size (eo_tunnelIfaces o) <> 0)%nat /\ Probe routes (routeprobeFamily fam) (eo_tunnelIfaces o) = Ok true /\
  mark = eo_firewallMark o /\ mark <> 0 /\ rc_SyscallConn rc = None /\ rc_Control rc = None /\
  rc_setsockopt rc (SO_MARK mark) = None.
Proof.
  unfold escape_linux, escape_mark, markSocket, set_option, shouldEscape.
  destruct (Nat.eqb_spec (size (eo_tunnelIfaces o)) 0) as [H0|H0]; [naive_solver|].
  destruct (Probe _ _ _) as [[]|e]; [|naive_solver..]. destruct (Z.eqb_spec (eo_firewallMark o) 0); cbn [negb]; [naive_solver|].
  destruct (rc_SyscallConn rc); [naive_solver|]. destruct (rc_Control rc); [naive_solver|].
  destruct (rc_setsockopt rc _) eqn:E; naive_solver.
Qed.
(** FreeBSD likewise with the routing table. *)
Theorem escape_freebsd_exact routes fam o rc fib :
  escape_freebsd routes fam o rc = Some (SO_SETFIB fib) <->
  (size (eo_tunnelIfaces o) <> 0)%nat /\ Probe routes (routeprobeFamily fam) (eo_tunnelIfaces o) = Ok true /\
  fib = eo_fib o /\ fib <> 0 /\ rc_SyscallConn rc = None /\ rc_Control rc = None /\
  rc_setsockopt rc (SO_SETFIB fib) = None.
Proof.
  unfold escape_freebsd, escape_fib, setSocketFib, set_option, shouldSetFib.
  destruct (Nat.eqb_spec (size (eo_tunnelIfaces o)) 0) as [H0|H0]; [naive_solver|].
  destruct (Probe _ _ _) as [[]|e]; [|naive_solver..]. destruct (Z.eqb_spec (eo_fib o) 0); cbn [negb]; [naive_solver|].
  destruct (rc_SyscallConn rc); [naive_solver|]. destruct (rc_Control rc); [naive_solver|].
  destruct (rc_setsockopt rc _) eqn:E; naive_solver.
Qed.

(** ** Witnesses *)

Lemma escape_never_stale_witness :
  settled FamilyIPv4 w_tunnels (escape_start FamilyIPv4 w_tunnels true gap_after gap_after) /\
  es_bound (escape_start FamilyIPv4 w_tunnels true gap_after gap_after) = 2.
Proof.
  split; [|vm_compute; reflexivity].
  apply (escape_never_stale FamilyIPv4 w_tunnels (escape_start FamilyIPv4 w_tunnels true gap_after gap_after)).
  - apply esr_start.
  - split; reflexivity.
  - vm_compute. reflexivity.
Defined.

Lemma escape_settles_witness :
  exists s2, es_routes s2 = gap_after /\ es_bound s2 = 2.
Proof.
  destruct (escape_settles FamilyIPv4 w_tunnels (escape_start FamilyIPv4 w_tunnels true gap_before gap_before)
    gap_after 7 eq_refl) as (s1 & s2 & _ & _ & _ & Hr & Hs).
  exists s2. split; [exact Hr|]. unfold settled in Hs. rewrite Hr in Hs. vm_compute in Hs. exact Hs.
Defined.

Lemma applyEscape_physical_witness :
  exists l r, gap_after IPv4 = Ok l /\ In r l /\ rt_Index r = 2 /\ rt_Interface r ∉ w_tunnels.
Proof.
  destruct (applyEscape_physical gap_after FamilyIPv4 w_tunnels 2) as (l & r & H1 & H2 & H3 & _ & H4 & _);
    [vm_compute; reflexivity|discriminate|].
  exists l, r. split; [exact H1|]. split; [exact H2|]. split; [exact H3|exact H4].
Defined.
