(* ===== verification/Wg.v ===== *)
(** * internal/wg: the WireGuard control plane

    Reading the device with the [wg] tool (public_info.go, health.go), writing a
    peer's endpoint (client_ctrl.go, elevation.go), and the decorator that puts
    the relay in between (proxy_client.go).  The [wg] tool, wgctrl and the
    sockets are answered by the environment; what the code sends to wgctrl is
    in the log a function returns. *)

From S2P Require Import Prelude GoStr Codec Netip Validation Discovery Config Demux Routeprobe Proxy.

Notation Key := (list Z).

Record DeviceInfo := mkDeviceInfo {
  diName : string;
  ListenPort : Z;
  diPublicKey : Key;
  PeerKeys : list Key;
  FirewallMark : Z
}.

Record PeerEndpointUpdate := mkUpdate { uDeviceName : string; uPublicKey : Key; uHost : string; uPort : Z }.

(** ** Elevation, per platform *)

Class Platform := {
  isAccessDenied : error -> bool;
  UpdateOnly : bool
}.
Definition ErrElevationRequired : string := "wg: access to the WireGuard device was denied".
Definition elevationHint `{Platform} (err : error) : error :=
  if isAccessDenied err then EWrap "" [ENew ErrElevationRequired; err] else err.

(** elevation_default.go, elevation_windows.go, update_only_*.go *)
Definition errorAccessDenied : string := "Access is denied.".          (* syscall.Errno(5) *)
Definition Platform_linux : Platform := {| isAccessDenied := fun _ => false; UpdateOnly := true |}.
Definition Platform_darwin : Platform := {| isAccessDenied := fun _ => false; UpdateOnly := true |}.
Definition Platform_freebsd : Platform := {| isAccessDenied := fun _ => false; UpdateOnly := false |}.
Definition Platform_windows : Platform :=
  {| isAccessDenied := fun err => errors_Is err errorAccessDenied; UpdateOnly := true |}.

(** ** public_info.go *)

(** The output of [wg show name field]; an invocation may fail. *)
Definition Runner : Type := string -> string -> result string.

Definition iface_name_bad (name : string) : bool :=
  (name =s "") || (15 <? slen name) || contains_any name ifname_forbidden || has_prefix name "-".

Definition decodeKey (text : string) : result Key :=
  match b64_decode true text with
  | None => Err (ENew "invalid WG key encoding")
  | Some b => if negb (length b =? 32)%nat then Err (ENew "invalid WG key encoding") else Ok b
  end.

Definition parseFwmark (s : string) : result Z :=
  if s =s "off" then Ok 0
  else match s with
       | String "0" (String "x" rest) =>
           match parse_uint16 32 rest with
           | Some v => Ok v
           | None => Err (ENew "invalid WG firewall mark")
           end
       | _ => Err (ENew "invalid WG firewall mark")
       end.

Fixpoint decode_keys (l : list string) : result (list Key) :=
  match l with
  | [] => Ok []
  | text :: l' =>
      match decodeKey text with
      | Err _ => Err (ENew "invalid WG peer key response")
      | Ok key => let? keys := decode_keys l' in Ok (key :: keys)
      end
  end.

Definition query `{Platform} (run : Runner) (name field : string) : result string :=
  match run name field with
  | Err e => Err (elevationHint e)
  | Ok b => Ok (trim_space b)
  end.

Definition publicInfo `{Platform} (run : Runner) (name : string) : result DeviceInfo :=
  if iface_name_bad name then Err (ENew "invalid WireGuard interface name")
  else
    let? pub := query run name "public-key" in
    let? key := map_err (ENew "invalid WG public key response") (decodeKey pub) in
    let? portText := query run name "listen-port" in
    match atoi portText with
    | None => Err (ENew "WG interface needs a valid listen port")
    | Some port =>
        if (port <? 1) || (65535 <? port) then Err (ENew "WG interface needs a valid listen port")
        else
          let? markText := query run name "fwmark" in
          let? mark := parseFwmark markText in
          let? peersText := query run name "peers" in
          let peers := fields peersText in
          if 32 <? Z.of_nat (length peers) then Err (ENew "too many WireGuard peers")
          else
            let? keys := decode_keys peers in
            Ok (mkDeviceInfo name port key keys mark)
    end.

(** [boundedOutput.Write] on a buffer: nothing is kept of a write that overflows. *)
Definition boundedOutput_Write (buf p : string) : string * result Z :=
  if 16 * 1024 <? slen buf + slen p then (buf, Err (ENew "WG response too large"))
  else (buf +:+ p, Ok (slen p)).

(** The writes the tool's output arrives in; a refused one ends the copying, and
    the command with an error. *)
Fixpoint copy_output (buf : string) (writes : list string) : result string :=
  match writes with
  | [] => Ok buf
  | p :: rest => match boundedOutput_Write buf p with
                 | (_, Err e) => Err e
                 | (buf, Ok _) => copy_output buf rest
                 end
  end.
(** [exit] is the tool's failure to start or to end well. *)
Definition defaultRunner (writes : list string) (exit : option error) : result string :=
  match exit with Some e => Err e | None => copy_output "" writes end.

(** ** health.go *)

(** [time.Unix(n, 0)] on the time line of [Discovery]: int64 seconds since year 1. *)
Definition unixToInternal : Z := 62135596800.
Definition time_Unix (n : Z) : Z := wrap64 (n + unixToInternal) * Second.

Definition set_endpoint (h : Health) (e : string) : Health := mkHealth e (Handshake h) (Received h).
Definition set_handshake (h : Health) (t : Z) : Health := mkHealth (hEndpoint h) t (Received h).
Definition set_received (h : Health) (n : Z) : Health := mkHealth (hEndpoint h) (Handshake h) n.

(** The [switch] on the field, for the peer's line. *)
Definition health_field (field : string) (v : list string) (h : Health) : result Health :=
  let v1 := nth 1 v "" in
  if field =s "endpoints" then
    if v1 <>s "(none)" then let? ep := Endpoint v1 in Ok (set_endpoint h (AddrPort_String ep)) else Ok h
  else if field =s "latest-handshakes" then
    match parse_int64 v1 with
    | None => Err (ENew "invalid handshake time")
    | Some n => if n <? 0 then Err (ENew "invalid handshake time")
                else Ok (if 0 <? n then set_handshake h (time_Unix n) else h)
    end
  else if field =s "transfer" then
    if negb (length v =? 3)%nat then Err (ENew "invalid transfer count")
    else match parse_uint10 64 v1 with
         | None => Err (ENew "invalid receive count")
         | Some n => Ok (set_received h n)
         end
  else Ok h.

Fixpoint health_lines (field want : string) (found : bool) (h : Health) (lines : list string)
  : result (Health * bool) :=
  match lines with
  | [] => Ok (h, found)
  | line :: rest =>
      let v := fields line in
      if (length v =? 0)%nat || (nth 0 v "" <>s want) then health_lines field want found h rest
      else if found || (length v <? 2)%nat then Err (ENew "invalid WG health response")
      else let? h' := health_field field v h in health_lines field want true h' rest
  end.

Fixpoint health_fields (run : Runner) (name want : string) (h : Health) (l : list string) : result Health :=
  match l with
  | [] => Ok h
  | field :: l' =>
      let? b := run name field in
      if 16384 <? slen b then Err (ENew "oversized WG health response")
      else
        let? r := health_lines field want false h (split_on (zb 10) (trim_space b)) in
        if negb r.2 then Err (ENew "WireGuard peer no longer exists")
        else health_fields run name want r.1 l'
  end.

Definition Health0 : Health := mkHealth "" 0 0.
Definition PeerHealth (run : Runner) (name : string) (key : Key) : result Health :=
  if iface_name_bad name then Err (ENew "invalid WG interface")
  else health_fields run name (b64_encode key) Health0 ["endpoints"; "latest-handshakes"; "transfer"].

(** ** client_ctrl.go *)

(** [wgctrl.Client.ConfigureDevice] with one peer; the other fields of the
    configuration are absent. *)
Record WgCall := ConfigureDevice {
  wc_device : string; wc_key : Key; wc_updateOnly : bool; wc_endpoint : AddrPort
}.

(** [configured] is wgctrl's answer. *)
Definition ctrl_UpdatePeerEndpoint `{Platform} (configured : result unit) (u : PeerEndpointUpdate)
  : list WgCall * result unit :=
  match HostPort (uHost u) (uPort u) with
  | Err e => ([], Err e)
  | Ok ep =>
      ([ConfigureDevice (uDeviceName u) (uPublicKey u) UpdateOnly ep],
       match configured with Err e => Err (elevationHint e) | Ok _ => Ok tt end)
  end.

(** The client: the tool to read with and wgctrl to write with, whose answer to
    [Close] is [closed]. *)
Record ctrlClient := mkCtrlClient { cc_runner : Runner; cc_close : result unit }.
Definition ctrl_Device `{Platform} (cc : ctrlClient) (name : string) : result DeviceInfo := publicInfo (cc_runner cc) name.
Definition ctrl_Close (cc : ctrlClient) : result unit := cc_close cc.

(** ** proxy_client.go *)

(** The inner client may read health or not. *)
Definition proxy_PeerHealth (reader : option (string -> Key -> result Health)) (name : string) (key : Key) : result Health :=
  match reader with
  | Some PeerHealth => PeerHealth name key
  | None => Err (ENew "WireGuard health unavailable")
  end.

(** The sockets and the route probe of one moment. *)
Record ProxyEnv := mkProxyEnv {
  pe_outer : Z -> Z -> result Z;
  pe_routes : Family -> result (list Route);
  pe_inner : Key -> result AddrPort
}.

Section proxy_client.
Context `{Platform}.
Variable interfaces : Interfaces.

Definition families (name : string) : gmap Z Z :=
  let port := GetProxyListenPort interfaces name in
  let protocol := GetInterfaceProtocol interfaces name in
  if protocol =s "ipv6" then {[ FamilyIPv6 := port ]}
  else if protocol =s "dualstack" then <[ FamilyIPv4 := port ]> {[ FamilyIPv6 := port ]}
  else {[ FamilyIPv4 := port ]}.

Definition ensureProxy (env : ProxyEnv) (m : Manager) (name : string) (o : escapeOptions)
  : Manager * result Proxy.Proxy :=
  For m name (New (pe_outer env) (pe_routes env) o (families name)).1.

Fixpoint add_peers (env : ProxyEnv) (p : Proxy.Proxy) (keys : list Key) : Proxy.Proxy * result unit :=
  match keys with
  | [] => (p, Ok tt)
  | key :: rest =>
      let '(p', r) := AddPeer p key (pe_inner env key) in
      match r with
      | Err e => (p', Err (EWrap "wg: register peer with proxy" [e]))
      | Ok _ => add_peers env p' rest
      end
  end.

(** [read] is what [c.inner.Device] returned. *)
Definition proxy_Device (env : ProxyEnv) (read : result DeviceInfo) (m : Manager) (name : string)
  : Manager * result DeviceInfo :=
  match read with
  | Err e => (m, Err e)
  | Ok info =>
      if negb (GetProxyEnabled interfaces name) then (m, Ok info)
      else
        let o := WithEscape (FirewallMark info) (GetProxyFib interfaces name)
                   (NewTunnelInterfaces (TunnelInterfaceNames interfaces)) escapeOptions0 in
        let '(m1, r) := ensureProxy env m name o in
        match r with
        | Err e => (m1, Err e)
        | Ok p =>
            let '(p', r') := add_peers env (SetWGTarget p (wrap16 (ListenPort info))) (PeerKeys info) in
            (Manager_update m1 name p', match r' with Err e => Err e | Ok _ => Ok info end)
        end
  end.

Definition proxy_UpdatePeerEndpoint (env : ProxyEnv) (configured : result unit) (m : Manager)
    (u : PeerEndpointUpdate) : Manager * list WgCall * result unit :=
  match HostPort (uHost u) (uPort u) with
  | Err e => (m, [], Err e)
  | Ok remote =>
      if negb (GetProxyEnabled interfaces (uDeviceName u)) then
        let '(calls, r) := ctrl_UpdatePeerEndpoint configured u in (m, calls, r)
      else
        let '(m1, r1) := ensureProxy env m (uDeviceName u) escapeOptions0 in
        match r1 with
        | Err e => (m1, [], Err e)
        | Ok p =>
            let '(p1, r2) := AddPeer p (uPublicKey u) (pe_inner env (uPublicKey u)) in
            match r2 with
            | Err e => (Manager_update m1 (uDeviceName u) p1, [],
                        Err (EWrap "wg: register peer with proxy" [e]))
            | Ok innerAddr =>
                let '(p2, r3) := SetPeerEndpoint p1 (uPublicKey u) remote in
                let m2 := Manager_update m1 (uDeviceName u) p2 in
                match r3 with
                | Err e => (m2, [], Err e)
                | Ok _ =>
                    let '(calls, r) := ctrl_UpdatePeerEndpoint configured
                      (mkUpdate (uDeviceName u) (uPublicKey u)
                         (Addr_String (ap_addr innerAddr)) (ap_port innerAddr)) in
                    (m2, calls, r)
                end
            end
        end
  end.
End proxy_client.
