(* ===== verification/WgFacts.v ===== *)
(** * Theorems on the WireGuard control plane *)

From S2P Require Import Prelude GoStr Codec Netip NetipFacts JsonFacts Validation Discovery Config Stunwire Demux Proxy ProxyFacts TextFacts Wg.

(** ** What the [wg] tool prints *)

Record wg_peer := mkWgPeer {
  wp_key : Key; wp_endpoint : option AddrPort; wp_handshake : Z; wp_rx : Z; wp_tx : Z
}.
Record wg_device := mkWgDevice { wd_key : Key; wd_port : Z; wd_mark : Z; wd_peers : list wg_peer }.

Definition key_ok (k : Key) : Prop := bytes_ok k /\ length k = 32%nat.
Definition wg_peer_ok (p : wg_peer) : Prop :=
  key_ok (wp_key p) /\ 0 <= wp_handshake p < 2 ^ 63 /\ 0 <= wp_rx p < 2 ^ 64 /\ 0 <= wp_tx p /\
  forall ep, wp_endpoint p = Some ep -> endpoint_ok ep /\ IsUnspecified (ap_addr ep) = false.
Definition wg_device_ok (d : wg_device) : Prop :=
  key_ok (wd_key d) /\ 1 <= wd_port d <= 65535 /\ Forall wg_peer_ok (wd_peers d).

(** ["off"], or ["0x"] and hexadecimal digits *)
Definition mark_text (mark : Z) (s : string) : Prop :=
  (mark = 0 /\ s = "off") \/
  (0 <= mark < 2 ^ 32 /\ exists ds, s = "0x" +:+ ds /\ word ds /\ digits_val hex_val 16 0 ds = Some mark).

Definition nl : string := String (zb 10) "".
Definition endpoint_text (e : option AddrPort) : string :=
  match e with Some ep => AddrPort_String ep | None => "(none)" end.
Definition key_text (p : wg_peer) : string := b64_encode (wp_key p).

Record wg_prints (run : Runner) (name : string) (d : wg_device) : Prop := {
  out_public_key : run name "public-key" = Ok (b64_encode (wd_key d) +:+ nl);
  out_listen_port : run name "listen-port" = Ok (itoa (wd_port d) +:+ nl);
  out_fwmark : exists s, mark_text (wd_mark d) s /\ run name "fwmark" = Ok (s +:+ nl);
  out_peers : run name "peers" = Ok (unlines (map key_text (wd_peers d)));
  out_endpoints : run name "endpoints" =
    Ok (unlines (map (fun p => wline [key_text p; endpoint_text (wp_endpoint p)]) (wd_peers d)));
  out_handshakes : run name "latest-handshakes" =
    Ok (unlines (map (fun p => wline [key_text p; itoa (wp_handshake p)]) (wd_peers d)));
  out_transfer : run name "transfer" =
    Ok (unlines (map (fun p => wline [key_text p; itoa (wp_rx p); itoa (wp_tx p)]) (wd_peers d)))
}.

Lemma key_word k : key_ok k -> word (b64_encode k).
Proof. intros [Hb Hl]. apply b64_word; [done|]. by destruct k. Qed.

Lemma decodeKey_encode k : key_ok k -> decodeKey (b64_encode k) = Ok k.
Proof. intros [Hb Hl]. unfold decodeKey. by rewrite b64_roundtrip, Hl. Qed.

Lemma b64_inj k k' : bytes_ok k -> bytes_ok k' -> b64_encode k = b64_encode k' -> k = k'.
Proof.
  intros H H' E. pose proof (b64_roundtrip true k H) as R. rewrite E, b64_roundtrip in R by done. congruence.
Qed.

Lemma mark_word mark s : mark_text mark s -> word s /\ parseFwmark s = Ok mark.
Proof.
  intros [[-> ->]|(Hm & ds & -> & [Hne Hg] & Hd)]; [by repeat split|]. split; [by split|].
  unfold parseFwmark. cbn. unfold parse_uint16, parse_uint. destruct (ds =s "") eqn:E.
  - by apply String.eqb_eq in E.
  - rewrite Hd. destruct (Z.ltb_spec mark (2 ^ 32)); [done|lia].
Qed.

Lemma endpoint_word ep : endpoint_ok ep -> word (AddrPort_String ep).
Proof.
  intros (Hwf & Hp & Hz & H4 & _). pose proof (itoa_word (ap_port ep) ltac:(lia)) as [_ Hi].
  assert (sforall graph (Addr_String (ap_addr ep)) = true) as Ha.
  { eapply sforall_impl; [apply addr_char_graph|].
    eapply ParseAddr_chars; [by apply ParseAddr_String|done]. }
  unfold AddrPort_String. destruct (ap_addr ep) as [|v|v z]; [done|..]; split.
  - cbn. unfold v4_string. intros E%(f_equal (smem ".")). by rewrite !smem_app, !orb_true_r in E.
  - rewrite !sforall_app, Ha, Hi. done.
  - done.
  - rewrite !sforall_app, Ha, Hi. done.
Qed.

Lemma decode_keys_encode l : Forall key_ok l -> decode_keys (map b64_encode l) = Ok l.
Proof. induction 1 as [|k l Hk Hl IH]; [done|]. cbn. by rewrite decodeKey_encode, IH. Qed.

(** The daemon reads the device the tool describes: key, port, mark and every
    peer key, in order, whatever rendering of the mark the tool chose. *)
Theorem publicInfo_reads `{Platform} run name d :
  iface_name_bad name = false -> wg_device_ok d -> (length (wd_peers d) <= 32)%nat ->
  wg_prints run name d ->
  publicInfo run name =
    Ok (mkDeviceInfo name (wd_port d) (wd_key d) (map wp_key (wd_peers d)) (wd_mark d)).
Proof.
  intros Hn (Hk & Hp & Hps) Hlen [O1 O2 (mt & Hmt & O3) O4 _ _ _].
  destruct (mark_word _ _ Hmt) as [Hmw Hmp].
  assert (Forall key_ok (map wp_key (wd_peers d))) as Hkeys.
  { apply List.Forall_map. eapply Forall_impl; [|done]. by intros p [? _]. }
  assert (map key_text (wd_peers d) = map b64_encode (map wp_key (wd_peers d))) as Ek by by rewrite map_map.
  unfold publicInfo, query. rewrite Hn, O1, O2, O3, O4. unfold nl.
  rewrite (trim_space_word (b64_encode _)) by by apply key_word.
  rewrite (trim_space_word (itoa _)) by (apply itoa_word; lia). rewrite (trim_space_word mt) by done.
  cbv beta iota. rewrite decodeKey_encode by done. cbn [map_err]. unfold atoi. rewrite parse_int64_itoa by lia.
  destruct (Z.ltb_spec (wd_port d) 1); [lia|]. destruct (Z.ltb_spec 65535 (wd_port d)); [lia|]. cbn [orb].
  rewrite Hmp. cbv beta iota. rewrite Ek, fields_unlines.
  - rewrite !length_map. destruct (Z.ltb_spec 32 (Z.of_nat (length (wd_peers d)))); [lia|].
    by rewrite decode_keys_encode.
  - apply List.Forall_map. eapply Forall_impl; [|exact Hkeys]. apply key_word.
Qed.

Lemma decode_keys_ok l keys : decode_keys l = Ok keys -> Forall key_ok keys /\ length keys = length l.
Proof.
  revert keys. induction l as [|t l IH]; cbn; intros keys H; [by simplify_eq|].
  destruct (decodeKey t) as [k|] eqn:E; [|done]. destruct (decode_keys l) as [ks|]; [|done]. simplify_eq.
  destruct (IH _ eq_refl) as [H1 H2]. cbn. split; [|by rewrite H2]. constructor; [|done].
  unfold decodeKey in E. destruct (b64_decode true t) as [b|] eqn:Eb; [|done].
  destruct (length b =? 32)%nat eqn:El; [|done]. cbn in E. simplify_eq.
  split; [by eapply b64_decode_bytes|by apply Nat.eqb_eq].
Qed.

Lemma hex_val_acc s acc v : 0 <= acc -> digits_val hex_val 16 acc s = Some v -> 0 <= v.
Proof.
  revert acc. induction s as [|c s IH]; cbn [digits_val]; intros acc Ha Hv; [by simplify_eq|].
  destruct (hex_val c) as [d|] eqn:E; [|done]. apply hex_val_range in E. eapply IH; [|done]. lia.
Qed.

Lemma parseFwmark_range s m : parseFwmark s = Ok m -> 0 <= m < 2 ^ 32.
Proof.
  assert (forall r v, parse_uint16 32 r = Some v -> 0 <= v < 2 ^ 32) as Hr.
  { intros r v. unfold parse_uint16, parse_uint. destruct (r =s ""); [done|].
    destruct (digits_val _ _ _ r) as [w|] eqn:E; [|done]. destruct (Z.ltb_spec w (2 ^ 32)); [|done].
    intros [= <-]. apply hex_val_acc in E; lia. }
  unfold parseFwmark. destruct (s =s "off"); [intros; simplify_eq; lia|].
  intros H. go_inv H. by eapply Hr.
Qed.

(** A device that is read is usable as it stands, whatever the tool printed: a
    plausible name, a real port, a mark of 32 bits, 32-byte keys, and no more
    peers than the daemon serves. *)
Theorem publicInfo_sound `{Platform} run name info :
  publicInfo run name = Ok info ->
  diName info = name /\ 0 < slen name <= 15 /\ 1 <= ListenPort info <= 65535 /\
  0 <= FirewallMark info < 2 ^ 32 /\ key_ok (diPublicKey info) /\
  Forall key_ok (PeerKeys info) /\ (length (PeerKeys info) <= 32)%nat.
Proof.
  unfold publicInfo. destruct (iface_name_bad name) eqn:En; [done|].
  destruct (query run name "public-key") as [pub|]; [|done].
  destruct (decodeKey pub) as [key|] eqn:Ek; cbn [map_err]; [|done].
  destruct (query run name "listen-port") as [pt|]; [|done].
  destruct (atoi pt) as [port|]; [|done]. destruct (_ || _) eqn:Ep; [done|].
  destruct (query run name "fwmark") as [mt|]; [|done]. destruct (parseFwmark mt) as [mark|] eqn:Em; [|done].
  destruct (query run name "peers") as [ps|]; [|done]. destruct (Z.ltb_spec 32 (Z.of_nat (length (fields ps)))); [done|].
  destruct (decode_keys (fields ps)) as [keys|] eqn:Eks; [|done]. intros [= <-]. cbn.
  apply decode_keys_ok in Eks as [Hks Hlen]. apply parseFwmark_range in Em.
  assert (decode_keys [pub] = Ok [key]) as E1 by (cbn; by rewrite Ek).
  apply decode_keys_ok in E1 as [E1%Forall_inv _].
  apply orb_false_iff in Ep as [? ?]. unfold iface_name_bad in En.
  apply orb_false_iff in En as [[[En1 En2]%orb_false_iff _]%orb_false_iff _].
  split_and!; try done; try lia.
  unfold slen. destruct name; [done|]. cbn [String.length]. lia.
Qed.

(** ** The peer's health *)

Definition health_of (p : wg_peer) : Health :=
  mkHealth (match wp_endpoint p with Some ep => AddrPort_String ep | None => "" end)
    (if 0 <? wp_handshake p then time_Unix (wp_handshake p) else 0) (wp_rx p).

(** The tool's lines for one field, as words. *)
Fixpoint health_words (field want : string) (found : bool) (h : Health) (ws : list (list string))
  : result (Health * bool) :=
  match ws with
  | [] => Ok (h, found)
  | v :: rest =>
      if (length v =? 0)%nat || (nth 0 v "" <>s want) then health_words field want found h rest
      else if found || (length v <? 2)%nat then Err (ENew "invalid WG health response")
      else let? h' := health_field field v h in health_words field want true h' rest
  end.

Lemma health_lines_words field want found h lines :
  health_lines field want found h lines = health_words field want found h (map fields lines).
Proof.
  revert found h. induction lines as [|l lines IH]; intros found h; [done|]. cbn [health_lines map health_words].
  rewrite IH. destruct (_ || _); [done|]. destruct (found || _); [done|].
  destruct (health_field field (fields l) h); [apply IH|done].
Qed.

Section one_peer.
Variables (field : string) (f : wg_peer -> list string) (p : wg_peer).
Hypothesis Hf : forall q, (2 <= length (f q))%nat /\ nth 0 (f q) "" = key_text q.
Hypothesis Hp : key_ok (wp_key p).

Lemma words_skip q found h rest : key_ok (wp_key q) -> wp_key q <> wp_key p ->
  health_words field (key_text p) found h (f q :: rest) = health_words field (key_text p) found h rest.
Proof.
  intros [Hq _] Hne. cbn [health_words]. destruct (Hf q) as [_ ->].
  destruct (key_text q =s key_text p) eqn:E; [|by rewrite orb_true_r].
  apply String.eqb_eq, b64_inj in E; [done..|apply Hp].
Qed.

Lemma words_rest rest h : Forall (fun q => key_ok (wp_key q)) rest -> ~ In (wp_key p) (map wp_key rest) ->
  health_words field (key_text p) true h (map f rest) = Ok (h, true).
Proof.
  induction 1 as [|q rest Hq Hrest IH]; intros Hni; [done|]. cbn [map In] in *.
  rewrite words_skip; [apply IH; tauto|done|tauto].
Qed.

Lemma words_find ps h h' :
  NoDup (map wp_key ps) -> Forall (fun q => key_ok (wp_key q)) ps -> In p ps ->
  health_field field (f p) h = Ok h' ->
  health_words field (key_text p) false h (map f ps) = Ok (h', true).
Proof.
  intros Hnd Hok Hin Hh. induction Hok as [|q ps Hq Hok IH]; [done|]. cbn [map] in *.
  apply list.NoDup_cons in Hnd as [Hni Hnd]. rewrite list_elem_of_In in Hni. destruct Hin as [->|Hin].
  - cbn [health_words]. destruct (Hf p) as [Hlen ->]. rewrite String.eqb_refl. cbn [negb].
    destruct (Nat.eqb_spec (length (f p)) 0); [lia|]. cbn [orb].
    destruct (Nat.ltb_spec (length (f p)) 2); [lia|]. rewrite Hh. by apply words_rest.
  - rewrite words_skip; [by apply IH|done|]. intros E. apply Hni. rewrite E. by apply in_map.
Qed.
End one_peer.

Lemma one_field run name p ps field f h h' more :
  (forall q, (2 <= length (f q))%nat /\ nth 0 (f q) "" = key_text q) ->
  NoDup (map wp_key ps) -> Forall wg_peer_ok ps -> In p ps ->
  (forall q, wg_peer_ok q -> Forall word (f q)) ->
  run name field = Ok (unlines (map (fun q => wline (f q)) ps)) ->
  slen (unlines (map (fun q => wline (f q)) ps)) <= 16384 ->
  health_field field (f p) h = Ok h' ->
  health_fields run name (key_text p) h (field :: more) = health_fields run name (key_text p) h' more.
Proof.
  intros Hf Hnd Hok Hin Hw Hrun Hlen Hh. cbn [health_fields]. rewrite Hrun. cbv beta iota.
  destruct (Z.ltb_spec 16384 (slen (unlines (map (fun q => wline (f q)) ps)))); [lia|].
  rewrite health_lines_words. rewrite <-(map_map f wline), lines_of_unlines.
  - assert (map f ps <> []) as Hne by by destruct ps. rewrite decide_False by done.
    rewrite (words_find field f p Hf) with (h' := h'); [done| |done| |done|done].
    + rewrite List.Forall_forall in Hok. by apply Hok.
    + eapply Forall_impl; [|exact Hok]. by intros q [? _].
  - apply List.Forall_map. eapply Forall_impl; [|done]. intros q Hq. split; [|by apply Hw].
    destruct (Hf q) as [Hl _]. intros E. rewrite E in Hl. cbn in Hl. lia.
Qed.

(** The health the daemon sees is that of the asked peer: of all the peers the
    tool lists, its endpoint as WireGuard knows it, the instant of its last
    handshake (none if it never had one) and what was received from it. *)
Theorem PeerHealth_reads run name d p :
  iface_name_bad name = false -> wg_device_ok d -> In p (wd_peers d) ->
  NoDup (map wp_key (wd_peers d)) -> wg_prints run name d ->
  (forall field b, run name field = Ok b -> slen b <= 16384) ->
  PeerHealth run name (wp_key p) = Ok (health_of p).
Proof.
  intros Hn (_ & _ & Hps) Hin Hnd [_ _ _ _ O5 O6 O7] Hlen. unfold PeerHealth. rewrite Hn.
  change (b64_encode (wp_key p)) with (key_text p).
  assert (wg_peer_ok p) as (Hkp & Hh & Hrx & Htx & Hep) by (rewrite List.Forall_forall in Hps; by apply Hps).
  assert (forall q, wg_peer_ok q -> word (key_text q)) as Hkw by (intros q [? _]; by apply key_word).
  erewrite (one_field _ _ p _ _ (fun q => [key_text q; endpoint_text (wp_endpoint q)]));
    [|split; [cbn; lia|done]|done..| |exact O5|by eapply Hlen|].
  2: { intros q Hq. constructor; [by apply Hkw|]. constructor; [|done]. destruct Hq as (_ & _ & _ & _ & He).
    destruct (wp_endpoint q) as [ep|]; [|by split]. by apply endpoint_word, He. }
  2: { instantiate (1 := set_endpoint Health0 (hEndpoint (health_of p))). unfold health_field. cbn.
    destruct (wp_endpoint p) as [ep|] eqn:E; [|done]. cbn. destruct (Hep ep eq_refl) as [Hok Hu].
    destruct (AddrPort_String ep =s "(none)") eqn:En.
    - apply String.eqb_eq in En. destruct Hok as (Hwf & _ & Hz & H4 & _).
      unfold AddrPort_String in En. destruct (ap_addr ep) as [|v|v z] eqn:Ea; [done| |done].
      apply (f_equal (smem ":")) in En. by rewrite !smem_app, orb_true_r in En.
    - by rewrite Endpoint_reads. }
  erewrite (one_field _ _ p _ _ (fun q => [key_text q; itoa (wp_handshake q)]));
    [|split; [cbn; lia|done]|done..| |exact O6|by eapply Hlen|].
  2: { intros q Hq. repeat constructor; [by apply Hkw|by apply Hkw|..]; destruct Hq as (_ & ? & _);
       apply itoa_word; lia. }
  2: { instantiate (1 := mkHealth (hEndpoint (health_of p)) (Handshake (health_of p)) 0). unfold health_field. cbn.
    rewrite parse_int64_itoa by lia. destruct (Z.ltb_spec (wp_handshake p) 0); [lia|].
    by destruct (0 <? wp_handshake p). }
  erewrite (one_field _ _ p _ _ (fun q => [key_text q; itoa (wp_rx q); itoa (wp_tx q)]));
    [|split; [cbn; lia|done]|done..| |exact O7|by eapply Hlen|].
  2: { intros q Hq. repeat constructor; [by apply Hkw|by apply Hkw|..]; destruct Hq as (_ & _ & ? & ? & _);
       apply itoa_word; lia. }
  2: { unfold health_field. cbn. by rewrite parse_uint10_itoa. }
  done.
Qed.

(** ** The decorator *)

Definition loopback : Addr := Addr4 (127 * 2 ^ 24 + 1).
Definition loopback_port (a : AddrPort) : Prop :=
  ap_addr a = loopback /\ 1 <= ap_port a <= 65535.
(** Binding 127.0.0.1:0 answers with the loopback and a real port. *)
Definition env_ok (env : ProxyEnv) : Prop := forall k a, pe_inner env k = Ok a -> loopback_port a.
Definition inner_ok (p : Proxy.Proxy) : Prop :=
  forall k ps, px_peers p !! k = Some ps -> loopback_port (ps_innerAddr ps).
Definition manager_ok (m : Manager) : Prop :=
  forall name p, m_proxies m !! name = Some p -> proxy_reachable p /\ inner_ok p.

Lemma New_ok bind probe o fams p : (New bind probe o fams).1 = Ok p ->
  New bind probe o fams = (Ok p, []) /\ px_peers p = ∅.
Proof.
  unfold New. destruct (_ =? _)%nat; [done|].
  destruct (bind_outer _ _ _ _ _ _) as [[[outer marks]|e] closed]; [|done]. cbn. by intros [= <-].
Qed.

Lemma ensureProxy_ok interfaces env m name o m1 p :
  manager_ok m -> ensureProxy interfaces env m name o = (m1, Ok p) ->
  manager_ok m1 /\ m_proxies m1 !! name = Some p.
Proof.
  intros Hm. unfold ensureProxy, For. destruct (m_closed m); [done|].
  destruct (m_proxies m !! name) as [q|] eqn:Eq; [by intros [= <- <-]|].
  destruct (New _ _ _ _).1 as [q|e] eqn:En; [|done]. apply New_ok in En as [En Ep].
  intros [= <- <-]. split; [|apply lookup_insert_eq]. intros n r. cbn. destruct (decide (n = name)) as [->|Hne].
  - rewrite lookup_insert_eq. intros [= <-]. split; [by eapply pr_new|]. intros k ps. by rewrite Ep, lookup_empty.
  - rewrite lookup_insert_ne by done. apply Hm.
Qed.

Lemma ensureProxy_err interfaces env m name o m1 e :
  manager_ok m -> ensureProxy interfaces env m name o = (m1, Err e) -> manager_ok m1.
Proof.
  intros Hm. unfold ensureProxy, For. destruct (m_closed m); [by intros [= <- _]|].
  destruct (m_proxies m !! name) as [q|] eqn:Eq; [done|].
  destruct (New _ _ _ _).1 as [q|e']; [done|]. by intros [= <- _].
Qed.

Lemma update_ok m name p : manager_ok m -> proxy_reachable p -> inner_ok p -> manager_ok (Manager_update m name p).
Proof.
  intros Hm Hr Hi n r. cbn. destruct (decide (n = name)) as [->|Hne].
  - rewrite lookup_insert_eq. by intros [= <-].
  - rewrite lookup_insert_ne by done. apply Hm.
Qed.

Lemma normalize_loopback a : loopback_port a -> loopback_port (normalize a).
Proof. destruct a as [a port]. by intros [[= ->] Hp]. Qed.

Lemma keeps_refl p : keeps p p.
Proof. unfold keeps. split_and!; try done. intros k ps Hk. by exists ps. Qed.

Lemma AddPeer_ok env p key p' r :
  env_ok env -> proxy_reachable p -> inner_ok p -> AddPeer p key (pe_inner env key) = (p', r) ->
  proxy_reachable p' /\ inner_ok p' /\ px_wgPort p' = px_wgPort p /\ keeps p p' /\
  forall a, r = Ok a -> loopback_port a /\
    exists ps, px_peers p' !! key = Some ps /\ ps_innerAddr ps = a.
Proof.
  intros He Hp Hi E. pose proof (ps_AddPeer p key (pe_inner env key)) as Hstep. rewrite E in Hstep. cbn [fst] in Hstep.
  split; [by eapply pr_step|]. unfold AddPeer in E.
  pose proof (keeps_refl p) as Hk.
  destruct (px_closed p) eqn:Ec; [by simplify_eq|]. destruct (px_peers p !! key) as [ps|] eqn:Ek.
  - simplify_eq. split_and!; try done. intros a [= <-]. split; [by eapply Hi|by exists ps].
  - destruct (pe_inner env key) as [a|e] eqn:Ee; [|by simplify_eq]. simplify_eq.
    pose proof (normalize_loopback a (He _ _ Ee)) as Ha. split_and!; try done.
    + intros k ps. cbn. destruct (decide (k = key)) as [->|Hne].
      * rewrite lookup_insert_eq. by intros [= <-].
      * rewrite lookup_insert_ne by done. apply Hi.
    + split_and!; try done. intros k ps Hps. exists ps. split; [|done]. cbn.
      rewrite lookup_insert_ne; [done|congruence].
    + intros b [= <-]. split; [done|]. eexists. split; [apply lookup_insert_eq|done].
Qed.

Lemma SetPeerEndpoint_ok p key remote p' r :
  proxy_reachable p -> inner_ok p -> SetPeerEndpoint p key remote = (p', r) ->
  proxy_reachable p' /\ inner_ok p' /\
  (is_ok r = true -> exists ps, px_peers p !! key = Some ps /\
     px_peers p' !! key = Some (mkPeerState (ps_innerAddr ps) (Some (normalize remote)))).
Proof.
  intros Hp Hi E. pose proof (ps_SetPeerEndpoint p key remote) as Hstep. rewrite E in Hstep. cbn [fst] in Hstep.
  split; [by eapply pr_step|]. unfold SetPeerEndpoint in E. cbv zeta in E.
  destruct (px_peers p !! key) as [ps|] eqn:Ek; [|by simplify_eq]. destruct (_ || _); [by simplify_eq|].
  destruct (Program _ _ _) as [d [[]|e]]; simplify_eq; [|by split].
  split; [|intros _; exists ps; cbn; by rewrite lookup_insert_eq]. intros k q. cbn.
  destruct (decide (k = key)) as [->|Hne].
  - rewrite lookup_insert_eq. intros [= <-]. cbn. by eapply Hi.
  - rewrite lookup_insert_ne by done. apply Hi.
Qed.

Lemma ctrl_loopback `{Platform} configured dev key a : loopback_port a ->
  ctrl_UpdatePeerEndpoint configured (mkUpdate dev key (Addr_String (ap_addr a)) (ap_port a)) =
  ([ConfigureDevice dev key UpdateOnly a], match configured with Err e => Err (elevationHint e) | Ok _ => Ok tt end).
Proof.
  destruct a as [ad port]. intros [[= ->] Hp]. cbn [ap_addr ap_port] in *. unfold ctrl_UpdatePeerEndpoint.
  cbn [uHost uPort uDeviceName uPublicKey]. unfold HostPort.
  destruct (Z.ltb_spec port 1); [lia|]. destruct (Z.ltb_spec 65535 port); [lia|]. cbn [orb].
  rewrite Endpoint_accepts; [done| |done]. repeat split; try done; cbn; lia.
Qed.

(** What an update through the relay did. *)
Lemma proxy_update_calls `{Platform} interfaces env configured m u m' calls r :
  GetProxyEnabled interfaces (uDeviceName u) = true -> env_ok env -> manager_ok m ->
  proxy_UpdatePeerEndpoint interfaces env configured m u = (m', calls, r) ->
  manager_ok m' /\
  ((calls = [] /\ is_ok r = false) \/
   exists remote p ps, HostPort (uHost u) (uPort u) = Ok remote /\
     m_proxies m' !! uDeviceName u = Some p /\ px_peers p !! uPublicKey u = Some ps /\
     ps_remote ps = Some (normalize remote) /\ loopback_port (ps_innerAddr ps) /\
     calls = [ConfigureDevice (uDeviceName u) (uPublicKey u) UpdateOnly (ps_innerAddr ps)] /\
     is_ok r = is_ok configured).
Proof.
  intros Hen He Hm. unfold proxy_UpdatePeerEndpoint.
  destruct (HostPort (uHost u) (uPort u)) as [remote|e]; [|intros; simplify_eq; split; [done|by left]].
  rewrite Hen. cbn [negb]. destruct (ensureProxy _ _ _ _ _) as [m1 [p|e]] eqn:Ee.
  2: { intros; simplify_eq. split; [by eapply ensureProxy_err|by left]. }
  destruct (ensureProxy_ok _ _ _ _ _ _ _ Hm Ee) as [Hm1 Hp]. destruct (Hm1 _ _ Hp) as [Hpr Hpi].
  destruct (AddPeer p _ _) as [p1 r2] eqn:Ea. destruct (AddPeer_ok _ _ _ _ _ He Hpr Hpi Ea) as (Hr1 & Hi1 & _ & _ & Hadd).
  destruct r2 as [a|e]; [|intros; simplify_eq; split; [by apply update_ok|by left]].
  destruct (Hadd a eq_refl) as (Ha & ps & Hps & <-).
  destruct (SetPeerEndpoint p1 _ remote) as [p2 r3] eqn:Es.
  destruct (SetPeerEndpoint_ok _ _ _ _ _ Hr1 Hi1 Es) as (Hr2 & Hi2 & Hset).
  destruct r3 as [[]|e]; [|intros; simplify_eq; split; [by apply update_ok|by left]].
  rewrite ctrl_loopback by done. intros [= <- <- <-]. split; [by apply update_ok|]. right.
  destruct (Hset eq_refl) as (ps' & Hps' & Hp2). rewrite Hps in Hps'. simplify_eq.
  exists remote, p2. eexists. split; [done|]. split; [apply lookup_insert_eq|]. split; [exact Hp2|].
  split; [done|]. split; [exact Ha|]. split; [done|]. by destruct configured.
Qed.

(** C8: With the relay on, the kernel never learns where a peer is: an update calls
    wgctrl at most once, for that device and peer, and only with the loopback
    address of the peer's own inner socket, while the relay's remote for the
    peer is the endpoint that was asked for.  No call means the update failed. *)
Theorem proxy_update_loopback `{Platform} interfaces env configured m u m' calls r :
  GetProxyEnabled interfaces (uDeviceName u) = true -> env_ok env -> manager_ok m ->
  proxy_UpdatePeerEndpoint interfaces env configured m u = (m', calls, r) ->
  manager_ok m' /\
  ((calls = [] /\ is_ok r = false) \/
   exists remote p ps, HostPort (uHost u) (uPort u) = Ok remote /\
     m_proxies m' !! uDeviceName u = Some p /\ px_peers p !! uPublicKey u = Some ps /\
     ps_remote ps = Some (normalize remote) /\ loopback_port (ps_innerAddr ps) /\
     calls = [ConfigureDevice (uDeviceName u) (uPublicKey u) UpdateOnly (ps_innerAddr ps)] /\
     is_ok r = is_ok configured).
Proof. intros. by eapply proxy_update_calls; eauto. Qed.

Lemma add_peers_ok env p keys p' r :
  env_ok env -> proxy_reachable p -> inner_ok p -> add_peers env p keys = (p', r) ->
  proxy_reachable p' /\ inner_ok p' /\ px_wgPort p' = px_wgPort p /\ keeps p p' /\
  (is_ok r = true -> forall k, In k keys -> px_peers p' !! k <> None).
Proof.
  intros He. revert p. induction keys as [|key keys IH]; intros p Hp Hi; cbn [add_peers].
  - intros [= <- <-]. split_and!; try done. apply keeps_refl.
  - destruct (AddPeer p key _) as [p1 r1] eqn:Ea.
    destruct (AddPeer_ok _ _ _ _ _ He Hp Hi Ea) as (Hp1 & Hi1 & Hw1 & Hk1 & Hadd).
    destruct r1 as [a|e]; intros E; [|by simplify_eq].
    destruct (IH p1 Hp1 Hi1 E) as (Hp' & Hi' & Hw' & Hk' & Hall).
    split_and!; [done|done|congruence| |].
    + destruct Hk1 as (H1 & H2 & H3 & H4), Hk' as (H1' & H2' & H3' & H4').
      split_and!; [congruence|congruence| |tauto]. intros k ps Hk.
      destruct (H3 _ _ Hk) as (ps1 & Hps1 & E1). destruct (H3' _ _ Hps1) as (ps2 & Hps2 & E2).
      exists ps2. split; [done|congruence].
    + intros Hr k [<-|Hin]; [|by apply Hall]. destruct (Hadd a eq_refl) as (_ & ps & Hps & _).
      destruct Hk' as (_ & _ & H3' & _). destruct (H3' _ _ Hps) as (ps' & Hps' & _). congruence.
Qed.

(** Reading a device through the decorator gives the device as it is, and
    leaves a relay that aims at the device's real port and has an inner socket
    for every peer of it. *)
Theorem proxy_Device_ready interfaces env read m name m' info :
  GetProxyEnabled interfaces name = true -> env_ok env -> manager_ok m ->
  (forall i, read = Ok i -> is_u16 (ListenPort i)) ->
  proxy_Device interfaces env read m name = (m', Ok info) ->
  manager_ok m' /\ read = Ok info /\
  exists p, m_proxies m' !! name = Some p /\ px_wgPort p = ListenPort info /\
    forall k, In k (PeerKeys info) -> px_peers p !! k <> None.
Proof.
  intros Hen He Hm Hport. unfold proxy_Device. destruct read as [i|e]; [|done]. rewrite Hen. cbn [negb].
  destruct (ensureProxy _ _ _ _ _) as [m1 [p|e]] eqn:Ee; [|done].
  destruct (ensureProxy_ok _ _ _ _ _ _ _ Hm Ee) as [Hm1 Hp]. destruct (Hm1 _ _ Hp) as [Hpr Hpi].
  rewrite wrap16_id by by apply Hport.
  destruct (add_peers _ _ _) as [p' r] eqn:Ea. intros [= <- Hr]. destruct r as [[]|e]; [|done]. simplify_eq.
  assert (proxy_reachable (SetWGTarget p (ListenPort info))) as Hp0.
  { eapply pr_step; [done|]. by apply ps_SetWGTarget, Hport. }
  destruct (add_peers_ok env (SetWGTarget p (ListenPort info)) _ p' _ He Hp0 Hpi Ea) as (Hp' & Hi' & Hw & _ & Hall).
  split; [by apply update_ok|]. split; [done|]. exists p'. split; [apply lookup_insert_eq|].
  split; [by rewrite Hw|by apply Hall].
Qed.

(** ** The tool's output *)

Lemma copy_output_exact writes buf s :
  slen buf <= 16 * 1024 ->
  copy_output buf writes = Ok s <-> s = buf +:+ String.concat "" writes /\ slen s <= 16 * 1024.
Proof.
  revert buf. induction writes as [|p rest IH]; intros buf Hb; cbn [copy_output].
  { cbn [String.concat]. rewrite sapp_nil_r. split; [intros [= <-]; by split|by intros [-> _]]. }
  assert (String.concat "" (p :: rest) = p +:+ String.concat "" rest) as -> by (destruct rest; cbn; by rewrite ?sapp_nil_r).
  unfold boundedOutput_Write. destruct (Z.ltb_spec (16 * 1024) (slen buf + slen p)) as [Hl|Hl].
  - split; [done|]. intros [-> Hs]. unfold slen in *. rewrite !slength_app in Hs. lia.
  - rewrite IH by (unfold slen in *; rewrite slength_app; lia). by rewrite sapp_assoc.
Qed.
(** The tool's output is returned whole or not at all, however it arrives, and
    never more than 16 KiB of it. *)
Theorem defaultRunner_exact writes exit s :
  defaultRunner writes exit = Ok s <-> exit = None /\ s = String.concat "" writes /\ slen s <= 16 * 1024.
Proof.
  unfold defaultRunner. destruct exit; [split; [done|by intros []]|].
  rewrite copy_output_exact by done. cbn. tauto.
Qed.

(** ** Witnesses *)

Definition w_wg_peer : wg_peer := mkWgPeer (replicate 32 7) (Some w_ep) 1700000000 4096 512.
Definition w_wg_other : wg_peer := mkWgPeer (replicate 32 9) None 0 0 0.
Definition w_device : wg_device := mkWgDevice (replicate 32 1) 51820 0 [w_wg_other; w_wg_peer].
Definition w_runner : Runner := fun _ field =>
  let lines f := unlines (map f (wd_peers w_device)) in
  if field =s "public-key" then Ok (b64_encode (wd_key w_device) +:+ nl)
  else if field =s "listen-port" then Ok (itoa (wd_port w_device) +:+ nl)
  else if field =s "fwmark" then Ok ("off" +:+ nl)
  else if field =s "peers" then Ok (lines key_text)
  else if field =s "endpoints" then
    Ok (lines (fun p => wline [key_text p; endpoint_text (wp_endpoint p)]))
  else if field =s "latest-handshakes" then
    Ok (lines (fun p => wline [key_text p; itoa (wp_handshake p)]))
  else if field =s "transfer" then
    Ok (lines (fun p => wline [key_text p; itoa (wp_rx p); itoa (wp_tx p)]))
  else Err (ENew "usage").
#[local] Instance linux : Platform := {| isAccessDenied := fun _ => false; UpdateOnly := true |}.

Lemma w_prints : wg_prints w_runner "wg0" w_device.
Proof. split; try reflexivity. exists "off". split; [by left|reflexivity]. Defined.

Lemma w_key_ok n : 0 <= n < 256 -> key_ok (replicate 32 n).
Proof. intros Hn. split; [|done]. by apply Forall_replicate. Defined.

Lemma w_device_ok : wg_device_ok w_device.
Proof.
  split; [by apply w_key_ok|]. split; [cbn; lia|].
  constructor; [|constructor; [|constructor]]; (split; [by apply w_key_ok|]; cbn;
    split; [lia|]; split; [lia|]; split; [lia|]); intros ep E; [discriminate E|].
  injection E as <-. repeat split; vm_compute; (discriminate || reflexivity).
Defined.

Lemma publicInfo_reads_witness :
  publicInfo w_runner "wg0" =
    Ok (mkDeviceInfo "wg0" 51820 (replicate 32 1) [replicate 32 9; replicate 32 7] 0).
Proof.
  apply (publicInfo_reads w_runner "wg0" w_device);
    [reflexivity|apply w_device_ok|cbn; lia|apply w_prints].
Defined.

Lemma publicInfo_sound_witness :
  exists info, publicInfo w_runner "wg0" = Ok info /\ 1 <= ListenPort info <= 65535.
Proof.
  exists (mkDeviceInfo "wg0" 51820 (replicate 32 1) [replicate 32 9; replicate 32 7] 0).
  assert (publicInfo w_runner "wg0" = Ok (mkDeviceInfo "wg0" 51820 (replicate 32 1) [replicate 32 9; replicate 32 7] 0)) as E
    by (vm_compute; reflexivity).
  split; [exact E|]. apply (publicInfo_sound w_runner "wg0" _ E).
Defined.

Lemma PeerHealth_reads_witness :
  PeerHealth w_runner "wg0" (replicate 32 7) =
    Ok (mkHealth "203.0.113.9:51820" ((1700000000 + 62135596800) * 1000000000) 4096).
Proof.
  refine (eq_trans (PeerHealth_reads w_runner "wg0" w_device w_wg_peer _ _ _ _ _ _) _).
  - reflexivity.
  - apply w_device_ok.
  - right. by left.
  - cbn [map wd_peers w_device]. apply list.NoDup_cons. split; [|apply list.NoDup_singleton].
    rewrite list_elem_of_singleton. discriminate.
  - apply w_prints.
  - intros field b. unfold w_runner.
    repeat match goal with |- context [if ?c then _ else _] => destruct c end; intros [= <-]; vm_compute; discriminate.
  - vm_compute. reflexivity.
Defined.

Definition w_ifaces : Interfaces := {[ "wg0" := mkInterface "ipv4" (Config.mkProxy 0 None 0) [] false ∅ ]}.
Definition w_env : ProxyEnv := mkProxyEnv w_bind (fun _ => Ok []) (fun _ => Ok w_inner).
Definition w_update : PeerEndpointUpdate := mkUpdate "wg0" (replicate 32 7) "203.0.113.9" 51820.
Lemma w_env_ok : env_ok w_env.
Proof. intros k a [= <-]. split; [reflexivity|cbn; lia]. Defined.
Lemma w_manager_ok : manager_ok NewManager.
Proof. intros name p. cbn. rewrite lookup_empty. discriminate. Defined.

Lemma proxy_update_loopback_witness :
  exists m' r, proxy_UpdatePeerEndpoint w_ifaces w_env (Ok tt) NewManager w_update =
    (m', [ConfigureDevice "wg0" (replicate 32 7) true w_inner], r) /\ manager_ok m'.
Proof.
  destruct (proxy_UpdatePeerEndpoint w_ifaces w_env (Ok tt) NewManager w_update) as [[m' calls] r] eqn:E.
  exists m', r. split.
  - f_equal. f_equal. vm_compute in E. injection E as _ <- _. vm_compute. reflexivity.
  - apply (proxy_update_loopback w_ifaces w_env (Ok tt) NewManager w_update m' calls r);
      [vm_compute; reflexivity|apply w_env_ok|apply w_manager_ok|exact E].
Defined.

Lemma proxy_Device_ready_witness :
  exists m' info p, proxy_Device w_ifaces w_env (publicInfo w_runner "wg0") NewManager "wg0" = (m', Ok info) /\
    m_proxies m' !! "wg0" = Some p /\ px_wgPort p = 51820.
Proof.
  assert (publicInfo w_runner "wg0" = Ok (mkDeviceInfo "wg0" 51820 (replicate 32 1) [replicate 32 9; replicate 32 7] 0)) as E
    by (vm_compute; reflexivity).
  destruct (proxy_Device w_ifaces w_env (publicInfo w_runner "wg0") NewManager "wg0") as [m' [info|e]] eqn:Ed;
    [|vm_compute in Ed; discriminate Ed].
  destruct (proxy_Device_ready w_ifaces w_env (publicInfo w_runner "wg0") NewManager "wg0" m' info) as (_ & Er & p & Hp & Hw & _).
  - vm_compute. reflexivity.
  - apply w_env_ok.
  - apply w_manager_ok.
  - intros i Hi. rewrite E in Hi. injection Hi as <-. cbn. unfold is_u16. lia.
  - exact Ed.
  - exists m', info, p. split; [reflexivity|]. split; [exact Hp|]. rewrite Hw. rewrite E in Er. by injection Er as <-.
Defined.
