(* ===== verification/Ctrl.v ===== *)
(** * internal/ctrl/{publish,establish,bootstrap}.go: the controllers

    Publishing the device's own endpoints, looking up and programming a peer's,
    and registering the configured devices.  Repositories are those of
    [Entity]; STUN, the stores, WireGuard and the clock are answered by the
    environment.  A context that expires shows as an error of the call it was
    passed to. *)

From S2P Require Import Prelude GoStr Codec Netip Validation Json Discovery Entity Plugin Config Routeprobe Dialer Wg.

(** ** What the controllers call *)

Class StunResolver := {
  (** device, port, family, firewall mark: host and port, or an error *)
  Resolve : string -> Z -> string -> Z -> result (string * Z)
}.
Record Store := mkStore {
  store_Get : string -> result (list string);
  store_Set : string -> string -> result unit
}.
Class PluginProvider := { provide : string -> result Store }.

(** A call of [Set]: plugin, key, data. *)
Record StoreSet := mkSet { ss_plugin : string; ss_key : string; ss_data : string }.

(** ** publish.go *)

Section publish.
Context `{StunResolver} `{PluginProvider}.

Definition resolveFamily (device : Device) (family : string) : string * option error :=
  match Resolve (dName device) (wrap16 (dListenPort device)) family (dFirewallMark device) with
  | Err e => ("", Some e)
  | Ok (host, port) => (join_host_port host (itoa port), None)
  end.

Definition discoverEndpoints (device : Device) : result (string * string) :=
  match DiscoverEndpoints (dProtocol device) (resolveFamily device "ipv4") (resolveFamily device "ipv6") with
  | (Err e, _) => Err e
  | (Ok eps, _) => Ok eps
  end.

Definition publishToPeer (peer : Peer) (ipv4 ipv6 : string) : list StoreSet * result unit :=
  match Encode (mkRecord 0 ipv4 ipv6) with
  | Err e => ([], Err e)
  | Ok data =>
      match provide (Plugin peer) with
      | Err e => ([], Err e)
      | Ok store => ([mkSet (Plugin peer) (LocalId peer) data], store_Set store (LocalId peer) data)
      end
  end.

(** One device of [Execute]: a failed discovery skips it. *)
Definition publish_device (now : Z) (peers : Peers) (devices : Devices) (device : Device)
  : Devices * list StoreSet :=
  match discoverEndpoints device with
  | Err _ => (devices, [])
  | Ok (ipv4, ipv6) =>
      (Devices_UpdateStatus devices (dName device) (mkStatus ipv4 ipv6 now),
       flat_map (fun peer => (publishToPeer peer ipv4 ipv6).1) (Peers_ListByDevice peers (dName device)))
  end.
Fixpoint publish_devices (now : Z) (peers : Peers) (devices : Devices) (l : list Device)
  : Devices * list StoreSet :=
  match l with
  | [] => (devices, [])
  | device :: l' =>
      let '(devices', sets) := publish_device now peers devices device in
      let '(devices'', sets') := publish_devices now peers devices' l' in
      (devices'', sets ++ sets')
  end.
Definition Publish_Execute (now : Z) (peers : Peers) (devices : Devices) : Devices * list StoreSet :=
  publish_devices now peers devices (Devices_List devices).

(** Unlike [Execute], this leaves the device's status alone. *)
Definition Publish_ExecuteForPeer (peers : Peers) (devices : Devices) (peerId : PeerId) : list StoreSet :=
  match Peers_Find peers peerId with
  | Err _ => []
  | Ok peer =>
      match Devices_Find devices (DeviceName peer) with
      | Err _ => []
      | Ok device =>
          match discoverEndpoints device with
          | Err _ => []
          | Ok (ipv4, ipv6) => (publishToPeer peer ipv4 ipv6).1
          end
      end
  end.
End publish.

(** [PublishController]'s queues; [Run] takes from either. *)
Record Publisher := mkPublisher { triggerQueue : Queue unit; peerQueue : Queue PeerId }.
Definition NewPublisher : Publisher :=
  mkPublisher (NewBuffered TriggerQueueSize) (NewBuffered PeerQueueSize).
Definition Publish_Trigger (c : Publisher) : Publisher :=
  mkPublisher (TryEnqueue (triggerQueue c) tt).1 (peerQueue c).
Definition Publish_TriggerForPeer (c : Publisher) (id : PeerId) : Publisher :=
  mkPublisher (triggerQueue c) (TryEnqueue (peerQueue c) id).1.

(** The escape of a device's plugin traffic. *)
Definition escapeFor (deviceConfig : option Interfaces) (device : Device) : Escape :=
  match deviceConfig with
  | None => mkEscapeOf (dFirewallMark device) 0 ∅ None []
  | Some interfaces =>
      mkEscapeOf (dFirewallMark device) (GetProxyFib interfaces (dName device))
        (NewTunnelInterfaces (TunnelInterfaceNames interfaces)) None []
  end.

(** ** establish.go *)

Section establish.
Context `{UnicodeTables} `{PluginProvider}.
(** The client's [PeerHealth], when it has one. *)
Variable reader : option (string -> Wg.Key -> result Health).

(** The loop over the records; [endpoints] is what was appended so far. *)
Fixpoint acceptable (protocol : string) (local : option LocalStatus) (endpoints : list string)
    (records : list string) : list string :=
  match records with
  | [] => endpoints
  | record :: rest =>
      if (length endpoints =? 4)%nat then endpoints
      else match Decode record with
           | Err _ => acceptable protocol local endpoints rest
           | Ok data =>
               match SelectEndpoint data protocol local with
               | Ok endpoint =>
                   if Allowed endpoint [] then acceptable protocol local (endpoints ++ [endpoint]) rest
                   else acceptable protocol local endpoints rest
               | Err _ => acceptable protocol local endpoints rest
               end
           end
  end.

Definition ConfigureDevice_ (peer : Peer) (host : string) (port : Z) : option PeerEndpointUpdate :=
  match HostPort host port with
  | Err _ => None
  | Ok _ => Some (mkUpdate (DeviceName peer) (PublicKey peer) host port)
  end.

(** The lookup, once the peer's endpoint is found to need one. *)
Definition lookup_and_select (devices : Devices) (peer : Peer) (device : Device) (store : Store)
    (selection : Selection) : Selection * option PeerEndpointUpdate :=
  match store_Get store (RemoteId peer) with
  | Err _ | Ok [] => (selection, None)
  | Ok records =>
      let endpoints := acceptable (Protocol peer) (Devices_Status devices (dName device)) [] records in
      let '(selection', selected) := Next selection endpoints in
      (selection',
       if selected =s "" then None
       else match Endpoint selected with
            | Err _ => None
            | Ok ep => ConfigureDevice_ peer (Addr_String (ap_addr ep)) (ap_port ep)
            end)
  end.

(** The update is what [UpdatePeerEndpoint] is called with; its outcome is only
    logged.  The selection is stored as soon as it is created. *)
Definition Establish_Execute (now : Z) (peers : Peers) (devices : Devices)
    (selections : gmap PeerId Selection) (peerId : PeerId)
  : gmap PeerId Selection * option PeerEndpointUpdate :=
  match Peers_Find peers peerId with
  | Err _ => (selections, None)
  | Ok peer =>
      match Devices_Find devices (DeviceName peer) with
      | Err _ => (selections, None)
      | Ok device =>
          match provide (Plugin peer) with
          | Err _ => (selections, None)
          | Ok store =>
              let selection := default Selection0 (selections !! Id peer) in
              let saved s := <[Id peer := s]> selections in
              let go s :=
                let '(s', u) := lookup_and_select devices peer device store s in (saved s', u) in
              match reader with
              | None => go selection
              | Some PeerHealth =>
                  match PeerHealth (dName device) (PublicKey peer) with
                  | Err _ => (saved selection, None)
                  | Ok health =>
                      let '(s, working) := Working selection health now in
                      if working then (saved s, None) else go s
                  end
              end
          end
      end
  end.
End establish.

(** The queue, the pending set and the workers' current lookups. *)
Record Establisher := mkEstablisher {
  eq_queue : Queue PeerId; eq_pending : gset PeerId; eq_active : list PeerId
}.
Definition NewEstablisher : Establisher := mkEstablisher (NewBuffered PeerQueueSize) ∅ [].

Definition enqueue (c : Establisher) (id : PeerId) : Establisher * bool :=
  if bool_decide (id ∈ eq_pending c) then (c, false)
  else
    let '(q, ok) := TryEnqueue (eq_queue c) id in
    if ok then (mkEstablisher q ({[id]} ∪ eq_pending c) (eq_active c), true)
    else (mkEstablisher q (eq_pending c) (eq_active c), false).
(** [Trigger] on the peers of a listing; the number enqueued. *)
Fixpoint Establish_Trigger (c : Establisher) (l : list PeerId) : Establisher * Z :=
  match l with
  | [] => (c, 0)
  | id :: l' =>
      let '(c1, ok) := enqueue c id in
      let '(c2, n) := Establish_Trigger c1 l' in
      (c2, if ok then n + 1 else n)
  end.
(** [Run]: a worker takes a peer, and after [Execute] forgets it. *)
Definition worker_take (c : Establisher) : option (PeerId * Establisher) :=
  match Dequeue (eq_queue c) with
  | Some (id, q) => Some (id, mkEstablisher q (eq_pending c) (id :: eq_active c))
  | None => None
  end.
Fixpoint remove_one (id : PeerId) (l : list PeerId) : list PeerId :=
  match l with
  | [] => []
  | x :: l' => if bool_decide (x = id) then l' else x :: remove_one id l'
  end.
Definition worker_done (c : Establisher) (id : PeerId) : Establisher :=
  mkEstablisher (eq_queue c) (eq_pending c ∖ {[id]}) (remove_one id (eq_active c)).
Definition TriggerForPeer (c : Establisher) (id : PeerId) : Establisher := (enqueue c id).1.
Definition completed (c : Establisher) : bool := bool_decide (eq_pending c = ∅).

Inductive establisher_step : Establisher -> Establisher -> Prop :=
| es_enqueue c id : establisher_step c (enqueue c id).1
| es_take c id c' : worker_take c = Some (id, c') -> establisher_step c c'
| es_done c id : In id (eq_active c) -> establisher_step c (worker_done c id).
Inductive establisher_reachable : Establisher -> Prop :=
| er_new : establisher_reachable NewEstablisher
| er_step c c' : establisher_reachable c -> establisher_step c c' -> establisher_reachable c'.

(** ** bootstrap.go *)

Section bootstrap.
(** [client.Device]: the first call and, for the filter, the second. *)
Variable read : bool -> string -> result DeviceInfo.
Variable interfaces : Interfaces.

#[local] Instance read_checker : DevicePeerChecker :=
  {| GetDevicePeerMap name := Peers_GetDevicePeerMap (let? i := read true name in Ok (PeerKeys i)) |}.
#[local] Instance read_provider : ConfigPeerProvider := DeviceConfig_provider interfaces.

Definition registerDevice (peers : Peers) (devices : Devices) (deviceName : string)
  : Peers * Devices * result unit :=
  match read false deviceName with
  | Err e => (peers, devices, Err e)
  | Ok device =>
      let deviceEntity := NewDevice (diName device) (ListenPort device)
                            (GetInterfaceProtocol interfaces deviceName) (FirewallMark device) in
      match FilterPeers_Execute (dName deviceEntity) (diPublicKey device) with
      | Err e => (peers, devices, Err e)
      | Ok [] => (peers, devices, Ok tt)
      | Ok allowPeers =>
          (fold_left Peers_Save allowPeers peers, Devices_Save devices deviceEntity, Ok tt)
      end
  end.

Fixpoint register_all (peers : Peers) (devices : Devices) (names : list string)
  : Peers * Devices * result unit :=
  match names with
  | [] => (peers, devices, Ok tt)
  | name :: rest =>
      let '(peers', devices', r) := registerDevice peers devices name in
      match r with
      | Err e => if errors_Is e ErrElevationRequired
                 then (peers', devices', Err (EWrap "device" [e]))
                 else register_all peers' devices' rest
      | Ok _ => register_all peers' devices' rest
      end
  end.
Definition Bootstrap_Execute (peers : Peers) (devices : Devices) : Peers * Devices * result unit :=
  register_all peers devices (map_to_list interfaces).*1.
End bootstrap.
