(* ===== verification/CtrlFacts.v ===== *)
(** * Theorems on the controllers *)

From S2P Require Import Prelude GoStr Codec Netip NetipFacts Validation Json Discovery Entity Plugin Config Wg TextFacts Ctrl.

(** ** The establish queue *)

Definition queued (c : Establisher) : list PeerId := q_items (eq_queue c).

Definition establisher_inv (c : Establisher) : Prop :=
  NoDup (queued c ++ eq_active c) /\ eq_pending c = list_to_set (queued c ++ eq_active c) /\
  q_size (eq_queue c) = PeerQueueSize /\ (length (queued c) <= PeerQueueSize)%nat.

Lemma enqueue_cases c id :
  (enqueue c id = (c, false) /\ (id ∈ eq_pending c \/ (q_size (eq_queue c) <= length (queued c))%nat)) \/
  (id ∉ eq_pending c /\ (length (queued c) < q_size (eq_queue c))%nat /\
   enqueue c id = (mkEstablisher (mkQueue (q_size (eq_queue c)) (queued c ++ [id]) (q_closed (eq_queue c)))
                     ({[id]} ∪ eq_pending c) (eq_active c), true)).
Proof.
  unfold enqueue. case_bool_decide as Hp; [left; split; [done|by left]|].
  unfold TryEnqueue, Enqueue. fold (queued c). destruct (Nat.ltb_spec (length (queued c)) (q_size (eq_queue c))).
  - right. done.
  - left. split; [by destruct c|by right].
Qed.

Lemma enqueue_inv c id : establisher_inv c -> establisher_inv (enqueue c id).1.
Proof.
  intros (Hnd & Hp & Hs & Hl). destruct (enqueue_cases c id) as [[-> _]|(Hni & Hlt & ->)]; [by split_and!|].
  cbn. unfold establisher_inv, queued in *. cbn [eq_queue eq_active eq_pending q_items q_size].
  rewrite Hp, elem_of_list_to_set in Hni.
  assert (q_items (eq_queue c) ++ [id] ++ eq_active c ≡ₚ id :: q_items (eq_queue c) ++ eq_active c) as Hperm
    by (symmetry; apply Permutation_middle).
  rewrite <-app_assoc. split_and!.
  - rewrite Hperm. by apply list.NoDup_cons.
  - rewrite Hp. apply leibniz_equiv. rewrite Hperm. by rewrite list_to_set_cons.
  - done.
  - rewrite length_app. cbn. lia.
Qed.

Lemma remove_one_perm id l : In id l -> l ≡ₚ id :: remove_one id l.
Proof.
  induction l as [|x l IH]; [done|]. cbn [remove_one]. case_bool_decide as Hx; [by subst|].
  intros [->|Hin]; [done|]. rewrite (IH Hin) at 1. apply Permutation_swap.
Qed.

Lemma establisher_step_inv c c' : establisher_step c c' -> establisher_inv c -> establisher_inv c'.
Proof.
  intros Hs Hi. destruct Hs as [c id|c id c' Ht|c id Hin].
  - by apply enqueue_inv.
  - destruct Hi as (Hnd & Hp & Hs & Hl). unfold worker_take, Dequeue in Ht. fold (queued c) in Ht.
    destruct (queued c) as [|x l] eqn:Eq; [done|]. simplify_eq.
    unfold establisher_inv, queued. cbn [eq_queue eq_active eq_pending q_items q_size].
    assert (l ++ id :: eq_active c ≡ₚ id :: l ++ eq_active c) as Hperm by (symmetry; apply Permutation_middle).
    split_and!; [by rewrite Hperm| |done|cbn in Hl; lia].
    rewrite Hp. apply leibniz_equiv. by rewrite Hperm.
  - destruct Hi as (Hnd & Hp & Hs & Hl). unfold worker_done, establisher_inv, queued in *.
    cbn [eq_queue eq_active eq_pending q_items q_size].
    assert (q_items (eq_queue c) ++ eq_active c ≡ₚ id :: q_items (eq_queue c) ++ remove_one id (eq_active c)) as Hperm.
    { rewrite (remove_one_perm id (eq_active c) Hin) at 1. symmetry. apply Permutation_middle. }
    rewrite Hperm in Hnd. apply list.NoDup_cons in Hnd as [Hni Hnd]. split_and!; [done| |done|done].
    rewrite Hp. apply leibniz_equiv. rewrite Hperm. rewrite list_to_set_cons.
    assert (id ∉ (list_to_set (q_items (eq_queue c) ++ remove_one id (eq_active c)) : gset PeerId)) as Hns
      by (by rewrite elem_of_list_to_set). set_solver.
Qed.

Lemma establisher_reachable_inv c : establisher_reachable c -> establisher_inv c.
Proof.
  induction 1 as [|c c' _ IH Hs]; [|by eapply establisher_step_inv].
  split_and!; [constructor|done|done|cbn; lia].
Qed.

(** C18: At most one lookup per peer: however triggers and workers interleave, no
    peer is queued or being looked up twice, the pending set is exactly those
    peers, the queue never exceeds its buffer, and the wait for completion ends
    only when nothing is queued and no lookup is running. *)
Theorem one_lookup_per_peer c :
  establisher_reachable c ->
  NoDup (queued c ++ eq_active c) /\
  (forall id, id ∈ eq_pending c <-> In id (queued c) \/ In id (eq_active c)) /\
  (length (queued c) <= PeerQueueSize)%nat /\
  (completed c = true <-> queued c = [] /\ eq_active c = []).
Proof.
  intros (Hnd & Hp & _ & Hl)%establisher_reachable_inv. split_and!; [done| |done|].
  - intros id. by rewrite Hp, elem_of_list_to_set, elem_of_app, !list_elem_of_In.
  - unfold completed. rewrite bool_decide_eq_true, Hp. split.
    + intros E. apply app_eq_nil. destruct (queued c ++ eq_active c) as [|x l]; [done|].
      rewrite list_to_set_cons in E. set_solver.
    + by intros [-> ->].
Qed.

(** A worker alone: take a peer, look it up, forget it. *)
Fixpoint work (n : nat) (c : Establisher) : Establisher * list PeerId :=
  match n with
  | O => (c, [])
  | S n' =>
      match worker_take c with
      | None => (c, [])
      | Some (id, c1) => let '(c2, done) := work n' (worker_done c1 id) in (c2, id :: done)
      end
  end.

Lemma work_spec n c : establisher_inv c -> eq_active c = [] -> length (queued c) = n ->
  (work n c).2 = queued c /\ eq_pending (work n c).1 = ∅ /\ establisher_inv (work n c).1.
Proof.
  revert c. induction n as [|n IH]; intros c Hi Ha Hn.
  - pose proof Hi as (_ & Hp & _). apply length_zero_iff_nil in Hn. rewrite Ha, Hn in Hp. cbn. by rewrite Hn.
  - cbn [work]. destruct (worker_take c) as [[id c1]|] eqn:Et.
    2: { unfold worker_take, Dequeue in Et. fold (queued c) in Et. by destruct (queued c). }
    pose proof (establisher_step_inv _ _ (es_take _ _ _ Et) Hi) as Hi1.
    assert (queued c = id :: queued c1 /\ eq_active c1 = [id]) as [Eq Ea].
    { unfold worker_take, Dequeue in Et. fold (queued c) in Et. destruct (queued c); [done|].
      simplify_eq. cbn. by rewrite Ha. }
    assert (establisher_inv (worker_done c1 id)) as Hi2.
    { eapply establisher_step_inv; [|exact Hi1]. apply es_done. rewrite Ea. by left. }
    destruct (IH _ Hi2) as (H1 & H2 & H3).
    + cbn. rewrite Ea. cbn. by rewrite bool_decide_true.
    + change (queued (worker_done c1 id)) with (queued c1). rewrite Eq in Hn. cbn [length] in Hn. lia.
    + change (queued (worker_done c1 id)) with (queued c1) in H1.
      destruct (work n _) as [c2 done']. cbn [fst snd] in *. rewrite Eq, H1. by split_and!.
Qed.

(** Every queued lookup happens: a worker left to itself takes the queued peers
    in the order they were queued, and the pending set is empty afterwards, so
    a wait for completion returns. *)
Theorem worker_drains c :
  establisher_reachable c -> eq_active c = [] ->
  (work (Len (eq_queue c)) c).2 = queued c /\ completed (work (Len (eq_queue c)) c).1 = true.
Proof.
  intros Hi%establisher_reachable_inv Ha. destruct (work_spec _ c Hi Ha eq_refl) as (H1 & H2 & _).
  split; [done|]. unfold completed. by rewrite bool_decide_true.
Qed.

Lemma Establish_Trigger_grows c l : eq_pending c ⊆ eq_pending (Establish_Trigger c l).1.
Proof.
  revert c. induction l as [|id l IH]; intros c; [done|]. cbn [Establish_Trigger].
  destruct (enqueue c id) as [c1 ok] eqn:Ee. destruct (Establish_Trigger c1 l) as [c2 n] eqn:Et. cbn.
  specialize (IH c1). rewrite Et in IH. cbn in IH.
  destruct (enqueue_cases c id) as [[E _]|(_ & _ & E)]; rewrite E in Ee; simplify_eq; set_solver.
Qed.

(** A refresh reaches everyone: as long as the peers fit the queue, after a
    trigger every listed peer is queued or already being looked up. *)
Theorem Trigger_covers c l :
  establisher_reachable c -> (length (queued c) + length l <= PeerQueueSize)%nat ->
  forall id, In id l -> id ∈ eq_pending (Establish_Trigger c l).1.
Proof.
  intros Hi%establisher_reachable_inv. revert c Hi.
  induction l as [|x l IH]; intros c Hi Hlen id Hin; [done|]. cbn [Establish_Trigger].
  pose proof (enqueue_inv c x Hi) as Hi1. pose proof Hi as (_ & _ & Hs & _). cbn in Hlen.
  destruct (enqueue c x) as [c1 ok] eqn:Ee. cbn in Hi1.
  pose proof (Establish_Trigger_grows c1 l) as Hg. pose proof (IH c1 Hi1) as IH'.
  destruct (Establish_Trigger c1 l) as [c2 n]. cbn in *.
  assert (x ∈ eq_pending c1 /\ (length (queued c1) <= S (length (queued c)))%nat) as [Hx Hl1].
  { destruct (enqueue_cases c x) as [[E [Hx|Hfull]]|(_ & _ & E)]; rewrite E in Ee; simplify_eq.
    - split; [done|lia].
    - lia.
    - split; [cbn; set_solver|]. change (queued (mkEstablisher _ _ _)) with (queued c ++ [x]).
      rewrite length_app. cbn [length]. lia. }
  destruct Hin as [->|Hin]; [by apply Hg|]. apply IH'; [lia|done].
Qed.

(** ** What the establisher programs *)

(** [e] is the endpoint some record of the list offers this host. *)
Definition offered `{UnicodeTables} (protocol : string) (local : option LocalStatus) (records : list string)
    (e : string) : Prop :=
  exists record data, In record records /\ Decode record = Ok data /\
    SelectEndpoint data protocol local = Ok e /\ Allowed e [] = true.

Lemma acceptable_offered `{UnicodeTables} protocol local all acc records :
  (forall r, In r records -> In r all) -> Forall (offered protocol local all) acc -> (length acc <= 4)%nat ->
  Forall (offered protocol local all) (acceptable protocol local acc records) /\
  (length (acceptable protocol local acc records) <= 4)%nat.
Proof.
  revert acc. induction records as [|r records IH]; intros acc Hsub Hacc Hlen; [done|].
  cbn [acceptable]. destruct (Nat.eqb_spec (length acc) 4); [by split|].
  assert (forall q, In q records -> In q all) as Hsub' by (intros q Hq; apply Hsub; by right).
  destruct (Decode r) as [data|] eqn:Ed; [|by apply IH].
  destruct (SelectEndpoint data protocol local) as [e|] eqn:Es; [|by apply IH].
  destruct (Allowed e []) eqn:Ea; [|by apply IH].
  apply IH; [done| |rewrite length_app; cbn; lia].
  apply Forall_app. split; [done|]. constructor; [|constructor].
  exists r, data. split; [apply Hsub; by left|done].
Qed.

Lemma Next_selected s endpoints s' e :
  Next s endpoints = (s', e) -> e <> "" -> In e endpoints.
Proof.
  unfold Next. destruct endpoints as [|x l]; [by intros [= <- <-]|]. intros [= <- <-] Hne.
  set (i := Z.to_nat _) in *. destruct (nth_in_or_default i (take 4 (x :: l)) "") as [Hin|E]; [|done].
  rewrite <-(take_drop 4 (x :: l)). apply in_or_app. by left.
Qed.

Lemma Next_single s e : (Next s [e]).2 = e.
Proof. unfold Next. cbn [length take snd]. change (Z.of_nat 1) with 1. by rewrite Z.mod_1_r. Qed.

(** A public endpoint prints and is read back. *)
Lemma public_HostPort ep : public_ep ep -> HostPort (Addr_String (ap_addr ep)) (ap_port ep) = Ok ep.
Proof.
  intros (Hok & Hu & _). destruct ep as [a port]. pose proof Hok as (_ & Hp & _). cbn in *. unfold HostPort.
  destruct (Z.ltb_spec port 1); [lia|]. destruct (Z.ltb_spec 65535 port); [lia|]. by apply Endpoint_accepts.
Qed.

Section establish_facts.
Context `{UnicodeTables} `{PluginProvider}.

Lemma lookup_update devices peer device store s s' u :
  lookup_and_select devices peer device store s = (s', Some u) ->
  exists records e ep, store_Get store (RemoteId peer) = Ok records /\
    offered (Protocol peer) (Devices_Status devices (dName device)) records e /\
    Endpoint e = Ok ep /\ public_ep ep /\
    u = mkUpdate (DeviceName peer) (PublicKey peer) (Addr_String (ap_addr ep)) (ap_port ep).
Proof.
  unfold lookup_and_select. destruct (store_Get store (RemoteId peer)) as [[|r records]|]; [done| |done].
  set (l := acceptable _ _ _ _). destruct (Next s l) as [s1 e] eqn:En. intros [= <- Hu].
  destruct (e =s "") eqn:Ee; [done|]. apply String.eqb_neq in Ee.
  pose proof (acceptable_offered (Protocol peer) (Devices_Status devices (dName device)) (r :: records) []
    (r :: records) (fun q Hq => Hq) (List.Forall_nil _) ltac:(cbn; lia)) as [Hall _].
  fold l in Hall. rewrite List.Forall_forall in Hall. pose proof (Next_selected _ _ _ _ En Ee) as Hin.
  specialize (Hall _ Hin). pose proof Hall as (_ & _ & _ & _ & _ & Ha).
  apply Allowed_endpoint in Ha as (ep & Eep & Hpub). rewrite Eep in Hu.
  exists (r :: records), e, ep. split_and!; try done; try apply Hpub.
  unfold ConfigureDevice_ in Hu. rewrite public_HostPort in Hu by done. by simplify_eq.
Qed.

(** C7: An address hint never redirects anything but its own peer: when the lookup
    of a peer programs an endpoint, it is that peer's key on that peer's device;
    the endpoint is a public unicast address that a well-formed record stored
    under the peer's own key offers under the peer's protocol; and the peer's
    connection was not found to be working. *)
Theorem Establish_sound reader now peers devices sels id sels' u :
  Establish_Execute reader now peers devices sels id = (sels', Some u) ->
  exists peer device store records e ep,
    Peers_Find peers id = Ok peer /\ Devices_Find devices (DeviceName peer) = Ok device /\
    provide (Plugin peer) = Ok store /\ store_Get store (RemoteId peer) = Ok records /\
    offered (Protocol peer) (Devices_Status devices (dName device)) records e /\
    Endpoint e = Ok ep /\ public_ep ep /\
    u = mkUpdate (DeviceName peer) (PublicKey peer) (Addr_String (ap_addr ep)) (ap_port ep) /\
    forall PeerHealth, reader = Some PeerHealth ->
      exists health, PeerHealth (dName device) (PublicKey peer) = Ok health /\
        (Working (default Selection0 (sels !! Id peer)) health now).2 = false.
Proof.
  unfold Establish_Execute. destruct (Peers_Find peers id) as [peer|] eqn:Ep; [|done].
  destruct (Devices_Find devices (DeviceName peer)) as [device|] eqn:Ed; [|done].
  destruct (provide (Plugin peer)) as [store|] eqn:Es; [|done].
  assert (forall s, (let '(s', u) := lookup_and_select devices peer device store s in
                     (<[Id peer := s']> sels, u)) = (sels', Some u) ->
    exists records e ep, store_Get store (RemoteId peer) = Ok records /\
      offered (Protocol peer) (Devices_Status devices (dName device)) records e /\
      Endpoint e = Ok ep /\ public_ep ep /\
      u = mkUpdate (DeviceName peer) (PublicKey peer) (Addr_String (ap_addr ep)) (ap_port ep)) as Hgo.
  { intros s. destruct (lookup_and_select _ _ _ _ s) as [s' u'] eqn:El. intros [= _ ->].
    by eapply lookup_update. }
  destruct reader as [PeerHealth|].
  - destruct (PeerHealth (dName device) (PublicKey peer)) as [health|] eqn:Eh; [|done].
    destruct (Working _ health now) as [s working] eqn:Ew. destruct working; [done|]. intros E.
    apply Hgo in E as (records & e & ep & H1 & H2 & H3 & H4 & H5).
    exists peer, device, store, records, e, ep. do 8 (split; [done|]).
    intros ph [= <-]. exists health. by rewrite Ew.
  - intros E. apply Hgo in E as (records & e & ep & H1 & H2 & H3 & H4 & H5).
    exists peer, device, store, records, e, ep. by do 8 (split; [done|]).
Qed.

Lemma lookup_one devices peer device store s record data e :
  store_Get store (RemoteId peer) = Ok [record] -> Decode record = Ok data ->
  SelectEndpoint data (Protocol peer) (Devices_Status devices (dName device)) = Ok e ->
  Allowed e [] = true ->
  exists s' ep, Endpoint e = Ok ep /\ public_ep ep /\
    lookup_and_select devices peer device store s =
      (s', Some (mkUpdate (DeviceName peer) (PublicKey peer) (Addr_String (ap_addr ep)) (ap_port ep))).
Proof.
  intros Hg Hd Hs Ha. pose proof Ha as (ep & Eep & Hpub)%Allowed_endpoint.
  unfold lookup_and_select. rewrite Hg. cbn [acceptable length]. rewrite Hd. cbn [Nat.eqb]. rewrite Hs, Ha. cbn [app].
  pose proof (Next_single s e) as Hn. destruct (Next s [e]) as [s' e']. cbn in Hn. subst e'.
  exists s', ep. split; [done|]. split; [done|].
  destruct (e =s "") eqn:Ee; [apply String.eqb_eq in Ee; subst e; discriminate Eep|].
  rewrite Eep. unfold ConfigureDevice_. by rewrite public_HostPort.
Qed.
End establish_facts.

(** ** Publishing *)

Section publish_facts.
Context `{StunResolver} `{PluginProvider}.

Lemma publishToPeer_sets peer e4 e6 s :
  In s (publishToPeer peer e4 e6).1 <->
  is_ok (provide (Plugin peer)) = true /\
  exists data, Encode (mkRecord 0 e4 e6) = Ok data /\ s = mkSet (Plugin peer) (LocalId peer) data.
Proof.
  unfold publishToPeer. destruct (Encode _) as [data|]; [|split; [done|by intros (_ & ? & ? & _)]].
  destruct (provide (Plugin peer)) as [store|]; cbn; split.
  - intros [<-|[]]. split; [done|]. by exists data.
  - intros (_ & d & [= <-] & ->). by left.
  - done.
  - by intros [? _].
Qed.

Lemma publish_devices_sets now peers devices l s :
  In s (publish_devices now peers devices l).2 <->
  exists device e4 e6 peer, In device l /\ discoverEndpoints device = Ok (e4, e6) /\
    In peer (Peers_ListByDevice peers (dName device)) /\ In s (publishToPeer peer e4 e6).1.
Proof.
  revert devices. induction l as [|d l IH]; intros devices.
  - cbn. split; [done|]. by intros (? & ? & ? & ? & ? & _).
  - cbn [publish_devices]. destruct (publish_device now peers devices d) as [devices' sets] eqn:Ed.
    specialize (IH devices'). destruct (publish_devices now peers devices' l) as [devices'' sets'].
    cbn [snd] in *. rewrite in_app_iff, IH. unfold publish_device in Ed.
    destruct (discoverEndpoints d) as [[e4 e6]|] eqn:Ee; simplify_eq; rewrite ?in_flat_map; split.
    + intros [(p & H1 & H2)|(d' & a & b & p & H1 & H2 & H3 & H4)].
      * exists d, e4, e6, p. split_and!; [by left|done..].
      * exists d', a, b, p. split_and!; [by right|done..].
    + intros (d' & a & b & p & [<-|H1] & H2 & H3 & H4).
      * left. exists p. rewrite Ee in H2. by simplify_eq.
      * right. by exists d', a, b, p.
    + intros [[]|(d' & a & b & p & H1 & H2 & H3 & H4)]. exists d', a, b, p. split_and!; [by right|done..].
    + intros (d' & a & b & p & [<-|H1] & H2 & H3 & H4); [by rewrite Ee in H2|].
      right. by exists d', a, b, p.
Qed.

(** C21: A publish cycle writes exactly this: for every device whose discovery
    succeeded and every peer of it whose store exists, the record of the
    discovered endpoints under the peer's local key, in the peer's own store;
    a device whose discovery fails, or a peer without a store, never keeps the
    others from being published. *)
Theorem Publish_Execute_spec now peers devices s :
  In s (Publish_Execute now peers devices).2 <->
  exists device e4 e6 peer data,
    In device (Devices_List devices) /\ discoverEndpoints device = Ok (e4, e6) /\
    In peer (Peers_List peers) /\ DeviceName peer = dName device /\
    is_ok (provide (Plugin peer)) = true /\ Encode (mkRecord 0 e4 e6) = Ok data /\
    s = mkSet (Plugin peer) (LocalId peer) data.
Proof.
  unfold Publish_Execute. rewrite publish_devices_sets. unfold Peers_ListByDevice. split.
  - intros (d & e4 & e6 & p & H1 & H2 & [H3 H4%String.eqb_eq]%filter_In & (H5 & data & H6 & H7)%publishToPeer_sets).
    by exists d, e4, e6, p, data.
  - intros (d & e4 & e6 & p & data & H1 & H2 & H3 & H4 & H5 & H6 & H7). exists d, e4, e6, p.
    split_and!; [done|done| |].
    + apply filter_In. split; [done|by apply String.eqb_eq].
    + apply publishToPeer_sets. split; [done|by exists data].
Qed.

Lemma ExecuteForPeer_sets peers devices id peer device e4 e6 s :
  Peers_Find peers id = Ok peer -> Devices_Find devices (DeviceName peer) = Ok device ->
  discoverEndpoints device = Ok (e4, e6) -> In s (Publish_ExecuteForPeer peers devices id) ->
  exists data, Encode (mkRecord 0 e4 e6) = Ok data /\ s = mkSet (Plugin peer) (LocalId peer) data.
Proof.
  intros Hp Hd He. unfold Publish_ExecuteForPeer. rewrite Hp, Hd, He.
  intros (_ & data & H1 & H2)%publishToPeer_sets. by exists data.
Qed.
End publish_facts.

(** ** From one host to the other *)

(** What one host publishes and the other programs. *)
Lemma meet `{UnicodeTables}
    (resolver : StunResolver) (plugins_a plugins_b : PluginProvider) reader
    a b peers_a devices_a peer_a device_a e4 e6 published
    now peers_b devices_b sels peer_b device_b store e :
  length a = 32%nat -> length b = 32%nat ->
  (* host a publishes for its peer b *)
  Peers_Find peers_a (NewPeerId a b) = Ok peer_a -> Id peer_a = NewPeerId a b ->
  Devices_Find devices_a (DeviceName peer_a) = Ok device_a ->
  discoverEndpoints device_a = Ok (e4, e6) ->
  In published (Publish_ExecuteForPeer peers_a devices_a (NewPeerId a b)) ->
  (* host b, whose connection to a does not work, looks its peer a up *)
  Peers_Find peers_b (NewPeerId b a) = Ok peer_b -> Id peer_b = NewPeerId b a ->
  Devices_Find devices_b (DeviceName peer_b) = Ok device_b ->
  @provide plugins_b (Plugin peer_b) = Ok store ->
  store_Get store (ss_key published) = Ok [ss_data published] ->
  (forall PeerHealth, reader = Some PeerHealth ->
     exists health, PeerHealth (dName device_b) (PublicKey peer_b) = Ok health /\
       (Working (default Selection0 (sels !! Id peer_b)) health now).2 = false) ->
  (* and a's endpoint of b's protocol is public *)
  SelectEndpoint (mkRecord 2 e4 e6) (Protocol peer_b) (Devices_Status devices_b (dName device_b)) = Ok e ->
  Allowed e [] = true ->
  exists ep, Endpoint e = Ok ep /\
    (Establish_Execute reader now peers_b devices_b sels (NewPeerId b a)).2 =
      Some (mkUpdate (DeviceName peer_b) (PublicKey peer_b) (Addr_String (ap_addr ep)) (ap_port ep)) /\
    HostPort (Addr_String (ap_addr ep)) (ap_port ep) = Ok ep.
Proof.
  intros Ha Hb Hpa Hida Hda Hdisc Hpub Hpb Hidb Hdb Hst Hget Hw Hsel Hall.
  destruct (ExecuteForPeer_sets _ _ _ _ _ _ _ _ Hpa Hda Hdisc Hpub) as (data & Hdata & ->).
  cbn [ss_key ss_data] in Hget.
  assert (LocalId peer_a = RemoteId peer_b) as Hk by (unfold LocalId, RemoteId; by rewrite Hida, Hidb).
  rewrite Hk in Hget. pose proof (Encode_decodes _ _ Hdata) as Hdec. cbn in Hdec.
  assert (forall s, exists s' ep, Endpoint e = Ok ep /\ public_ep ep /\
    lookup_and_select devices_b peer_b device_b store s =
      (s', Some (mkUpdate (DeviceName peer_b) (PublicKey peer_b) (Addr_String (ap_addr ep)) (ap_port ep)))) as Hgo.
  { intros s. by eapply lookup_one. }
  unfold Establish_Execute. rewrite Hpb, Hdb, Hst. destruct reader as [PeerHealth|].
  - destruct (Hw _ eq_refl) as (health & Eh & Ew). rewrite Eh.
    destruct (Working _ health now) as [s working]. cbn in Ew. subst working.
    destruct (Hgo s) as (s' & ep & H1 & H2 & ->). exists ep. split_and!; [done|done|by apply public_HostPort].
  - destruct (Hgo (default Selection0 (sels !! Id peer_b))) as (s' & ep & H1 & H2 & ->).
    exists ep. split_and!; [done|done|by apply public_HostPort].
Qed.


(** ** Bootstrap *)

Section bootstrap_facts.
Variable read : bool -> string -> result DeviceInfo.
Variable interfaces : Interfaces.

(** The peers [registerDevice] allows for a device. *)
Definition admitted (name : string) (info : DeviceInfo) (p : Peer) : Prop :=
  exists info2 cfg, read true (diName info) = Ok info2 /\
    DeviceConfig_GetConfigPeers interfaces (diName info) (diPublicKey info) = Ok cfg /\
    In p cfg /\ In (PublicKey p) (PeerKeys info2).

Lemma register_allowed name info l p :
  @FilterPeers_Execute (read_provider interfaces) (read_checker read) (diName info) (diPublicKey info) = Ok l ->
  In p l <-> admitted name info p.
Proof.
  intros Hl. rewrite (FilterPeers_ok (diName info) (diPublicKey info) l p Hl). unfold admitted. cbn.
  unfold Peers_GetDevicePeerMap. split.
  - intros (cfg & dev & H1 & H2 & H3 & H4). destruct (read true (diName info)) as [i2|]; [|done]. simplify_eq.
    exists i2, cfg. split_and!; try done. by apply elem_of_list_to_set, list_elem_of_In in H4.
  - intros (i2 & cfg & H1 & H2 & H3 & H4). rewrite H1. exists cfg, (list_to_set (PeerKeys i2)).
    split_and!; try done. by apply elem_of_list_to_set, list_elem_of_In.
Qed.

Lemma fold_Save l peers id p :
  fold_left Peers_Save l peers !! id = Some p -> peers !! id = Some p \/ (In p l /\ Id p = id).
Proof.
  revert peers. induction l as [|q l IH]; intros peers; [by left|]. cbn [fold_left]. intros H.
  apply IH in H as [H|[H1 H2]]; [|by right; split; [right|]]. unfold Peers_Save in H.
  destruct (decide (Id q = id)) as [<-|Hne].
  - rewrite lookup_insert_eq in H. simplify_eq. right. split; [by left|done].
  - rewrite lookup_insert_ne in H by done. by left.
Qed.

Lemma fold_Save_keeps l peers id : peers !! id <> None -> fold_left Peers_Save l peers !! id <> None.
Proof.
  revert peers. induction l as [|q l IH]; intros peers H; [done|]. cbn [fold_left]. apply IH.
  unfold Peers_Save. destruct (decide (Id q = id)) as [<-|Hne]; [by rewrite lookup_insert_eq|].
  by rewrite lookup_insert_ne.
Qed.

Lemma fold_Save_adds l peers p : In p l -> fold_left Peers_Save l peers !! Id p <> None.
Proof.
  revert peers. induction l as [|q l IH]; intros peers; [done|]. cbn [fold_left]. intros [->|H]; [|by apply IH].
  apply fold_Save_keeps. unfold Peers_Save. by rewrite lookup_insert_eq.
Qed.

(** What registering devices may add, and what it must. *)
Definition registered (names : list string) (peers peers' : Peers) : Prop :=
  (forall id p, peers' !! id = Some p -> peers !! id = Some p \/
     (Id p = id /\ exists name info, In name names /\ read false name = Ok info /\ admitted name info p)) /\
  (forall id, peers !! id <> None -> peers' !! id <> None).

Lemma registerDevice_ok peers devices name peers' devices' r :
  registerDevice read interfaces peers devices name = (peers', devices', r) ->
  registered [name] peers peers' /\
  (forall info p, r = Ok tt -> read false name = Ok info -> admitted name info p ->
     peers' !! Id p <> None /\ is_ok (Devices_Find devices' (diName info)) = true) /\
  (forall n, is_ok (Devices_Find devices n) = true -> is_ok (Devices_Find devices' n) = true).
Proof.
  assert (registered [name] peers peers) as Hsame by (split; [by left|done]).
  unfold registerDevice. destruct (read false name) as [info|e] eqn:Er.
  2: { intros [= <- <- <-]. split_and!; [done| |done]. by intros. }
  cbn [dName]. destruct (FilterPeers_Execute _ _) as [l|e] eqn:Ef.
  2: { intros [= <- <- <-]. split_and!; [done| |done]. by intros. }
  pose proof (fun p => register_allowed name info l p Ef) as Hl. destruct l as [|x l].
  - intros [= <- <- <-]. split_and!; [done| |done]. intros i p _ [= <-] Ha. by apply Hl in Ha.
  - intros [= <- <- <-]. split_and!.
    + split; [|intros id Hid; exact (fold_Save_keeps (x :: l) peers id Hid)]. intros id p [H|[H1 H2]]%(fold_Save (x :: l)); [by left|].
      right. split; [done|]. exists name, info. split_and!; [by left|done|by apply Hl].
    + intros i p _ [= <-] Ha. split; [apply (fold_Save_adds (x :: l)); by apply Hl|].
      unfold Devices_Find, Devices_Save. cbn. by rewrite lookup_insert_eq.
    + intros n. unfold Devices_Find, Devices_Save. cbn. destruct (decide (n = diName info)) as [->|Hne].
      * by rewrite lookup_insert_eq.
      * by rewrite lookup_insert_ne.
Qed.

Lemma registered_weaken names names' peers peers' :
  (forall n, In n names -> In n names') -> registered names peers peers' -> registered names' peers peers'.
Proof.
  intros Hsub [H1 H2]. split; [|done]. intros id p [H|(H & n & i & Hn & Hr)]%H1; [by left|].
  right. split; [done|]. exists n, i. split; [by apply Hsub|done].
Qed.

Lemma registered_trans names p1 p2 p3 :
  registered names p1 p2 -> registered names p2 p3 -> registered names p1 p3.
Proof.
  intros [H1 H2] [H1' H2']. split; [|by intros; apply H2', H2].
  intros id p [H|H]%H1'; [by apply H1|by right].
Qed.

Lemma register_all_ok names peers devices peers' devices' r :
  register_all read interfaces peers devices names = (peers', devices', r) ->
  registered names peers peers' /\
  (forall n, is_ok (Devices_Find devices n) = true -> is_ok (Devices_Find devices' n) = true) /\
  (forall e, r = Err e -> errors_Is e ErrElevationRequired = true) /\
  (r = Ok tt -> forall name info p, In name names -> read false name = Ok info ->
     admitted name info p -> peers' !! Id p <> None /\ is_ok (Devices_Find devices' (diName info)) = true).
Proof.
  revert peers devices. induction names as [|name rest IH]; intros peers devices; cbn [register_all].
  { intros [= <- <- <-]. split_and!; try done. split; [by left|done]. }
  destruct (registerDevice read interfaces peers devices name) as [[p1 d1] r1] eqn:E1.
  pose proof (registerDevice_ok _ _ _ _ _ _ E1) as (H1 & H2 & H3).
  assert (registered (name :: rest) peers p1) as H1'
    by (eapply registered_weaken; [|done]; intros n [<-|[]]; by left).
  assert (register_all read interfaces p1 d1 rest = (peers', devices', r) ->
    registered (name :: rest) peers peers' /\
    (forall n, is_ok (Devices_Find devices n) = true -> is_ok (Devices_Find devices' n) = true) /\
    (forall e, r = Err e -> errors_Is e ErrElevationRequired = true) /\
    (r = Ok tt -> (r1 = Ok tt \/ forall info p, read false name = Ok info -> ~ admitted name info p) ->
       forall name0 info p, In name0 (name :: rest) -> read false name0 = Ok info -> admitted name0 info p ->
       peers' !! Id p <> None /\ is_ok (Devices_Find devices' (diName info)) = true)) as Hgo.
  { intros E. destruct (IH _ _ E) as (G1 & G2 & G3 & G4). split_and!; [|by eauto|done|].
    - eapply registered_trans; [done|]. eapply registered_weaken; [|done]. intros n Hn. by right.
    - intros Hr Hor n info p [<-|Hn] Hread Ha; [|by eapply G4].
      destruct Hor as [Hr1|Hno]; [|by destruct (Hno info p)].
      destruct (H2 info p Hr1 Hread Ha) as [Hp Hd]. split; [by apply G1|by apply G2]. }
  destruct r1 as [[]|e].
  - intros E. destruct (Hgo E) as (G1 & G2 & G3 & G4). split_and!; [done..|]. intros Hr. apply (G4 Hr). by left.
  - destruct (errors_Is e ErrElevationRequired) eqn:Ee.
    + intros [= <- <- <-]. split_and!; [done|done| |done]. intros e' [= <-]. cbn. by rewrite Ee.
    + intros E. destruct (Hgo E) as (G1 & G2 & G3 & G4). split_and!; [done..|]. intros Hr. apply (G4 Hr). right.
      (* a failed device admits nobody *)
      intros info p Hread (i2 & cfg & A1 & A2 & A3 & A4). unfold registerDevice in E1. rewrite Hread in E1.
      cbn [dName] in E1. unfold FilterPeers_Execute in E1. cbn in E1. unfold read_checker, read_provider in E1.
      cbn in E1. rewrite A1, A2 in E1. cbn in E1. by destruct (List.filter _ cfg).
Qed.

(** C17: Bootstrap admits exactly the intersection: starting from nothing, a peer is
    known afterwards only if the configuration names it for a configured device
    and the kernel has its key on that device; and when bootstrap succeeds,
    every such peer is known and its device can be found.  Failing devices do
    not stop the others; only a privilege error is fatal. *)
Theorem Bootstrap_spec peers devices r :
  Bootstrap_Execute read interfaces NewPeers NewDevices = (peers, devices, r) ->
  (forall id p, Peers_Find peers id = Ok p -> Id p = id /\
     exists name info, is_Some (interfaces !! name) /\ read false name = Ok info /\ admitted name info p) /\
  (forall e, r = Err e -> errors_Is e ErrElevationRequired = true) /\
  (r = Ok tt -> forall name info p, is_Some (interfaces !! name) -> read false name = Ok info ->
     admitted name info p ->
     is_ok (Peers_Find peers (Id p)) = true /\ is_ok (Devices_Find devices (diName info)) = true).
Proof.
  intros E. destruct (register_all_ok _ _ _ _ _ _ E) as ((H1 & _) & _ & H3 & H4).
  assert (forall name, In name (map_to_list interfaces).*1 <-> is_Some (interfaces !! name)) as Hn.
  { intros name. rewrite <-list_elem_of_In, list_elem_of_fmap. split.
    - intros ([n i] & -> & Hi). apply elem_of_map_to_list in Hi. by exists i.
    - intros [i Hi]. exists (name, i). split; [done|]. by apply elem_of_map_to_list. }
  split_and!; [|done|].
  - intros id p Hf. unfold Peers_Find in Hf. destruct (peers !! id) as [q|] eqn:Eq; [|done]. simplify_eq.
    destruct (H1 _ _ Eq) as [H|(H & name & info & Hin & Hr)]; [done|].
    split; [done|]. exists name, info. split; [by apply Hn|done].
  - intros Hr name info p Hs Hread Ha. destruct (H4 Hr name info p (proj2 (Hn name) Hs) Hread Ha) as [Hp Hd].
    split; [|done]. unfold Peers_Find. by destruct (peers !! Id p).
Qed.
End bootstrap_facts.

(** ** Witnesses *)

Definition w_a : list Z := replicate 32 1.
Definition w_b : list Z := replicate 32 2.
Definition w_id : PeerId := NewPeerId w_a w_b.
Definition w_establisher : Establisher := (enqueue NewEstablisher w_id).1.
Lemma w_establisher_reachable : establisher_reachable w_establisher.
Proof. eapply er_step; [apply er_new|apply es_enqueue]. Defined.

Lemma one_lookup_per_peer_witness :
  (forall id, id ∈ eq_pending w_establisher <-> In id (queued w_establisher) \/ In id (eq_active w_establisher)) /\
  (length (queued w_establisher) <= PeerQueueSize)%nat.
Proof.
  destruct (one_lookup_per_peer w_establisher w_establisher_reachable) as (_ & H1 & H2 & _).
  split; [exact H1|exact H2].
Defined.

Lemma worker_drains_witness :
  (work 1 w_establisher).2 = [w_id] /\ completed (work 1 w_establisher).1 = true.
Proof. apply (worker_drains w_establisher w_establisher_reachable). reflexivity. Defined.

Lemma Trigger_covers_witness :
  NewPeerId w_b w_a ∈ eq_pending (Establish_Trigger w_establisher [w_id; NewPeerId w_b w_a]).1.
Proof.
  apply (Trigger_covers w_establisher [w_id; NewPeerId w_b w_a] w_establisher_reachable).
  - apply Nat.leb_le. vm_compute. reflexivity.
  - right. by left.
Defined.

#[local] Instance ascii_tables : UnicodeTables := {| lower_rune := fun r => r |}.
Definition w_resolver : StunResolver :=
  {| Resolve _ _ family _ := if family =s "ipv4" then Ok ("198.51.100.9", 41000) else Err (ENew "no route") |}.
Definition w_store : Store := mkStore (fun _ => Ok []) (fun _ _ => Ok tt).
Definition w_plugins : PluginProvider :=
  {| provide name := if name =s "dht" then Ok w_store else Err (ENew "plugin not found") |}.
Definition w_data : string := marshal_record (mkRecord 2 "198.51.100.9:41000" "").
Definition w_plugins_b : PluginProvider :=
  {| provide name := Ok (mkStore (fun key => if key =s EndpointKey w_id then Ok [w_data] else Ok [])
                           (fun _ _ => Ok tt)) |}.
Definition w_peer_of (x y : list Z) : Peer := NewPeer (NewPeerId x y) "wg0" y "dht" "ipv4" PeerPingConfig0.
Definition w_peers (x y : list Z) : Peers := Peers_Save NewPeers (w_peer_of x y).
Definition w_dev : Device := NewDevice "wg0" 51820 "dualstack" 0.
Definition w_devices : Devices := Devices_Save NewDevices w_dev.

Definition w_established : gmap PeerId Selection * option PeerEndpointUpdate :=
  @Establish_Execute _ w_plugins_b None 1 (w_peers w_b w_a) w_devices ∅ (NewPeerId w_b w_a).

Lemma Establish_sound_witness : exists u, w_established.2 = Some u /\ uPublicKey u = w_a.
Proof.
  assert (match w_established.2 with Some _ => true | None => false end = true) as Hs by (vm_compute; reflexivity).
  destruct w_established.2 as [u|] eqn:Hu; [|discriminate Hs]. exists u. split; [reflexivity|].
  destruct (@Establish_sound _ w_plugins_b None 1 (w_peers w_b w_a) w_devices ∅ (NewPeerId w_b w_a)
              w_established.1 u) as (peer & device & store & records & e & ep & Hp & _ & _ & _ & _ & _ & _ & -> & _).
  - rewrite <-Hu. apply surjective_pairing.
  - assert (Peers_Find (w_peers w_b w_a) (NewPeerId w_b w_a) = Ok (w_peer_of w_b w_a)) as Hf
      by (vm_compute; reflexivity).
    rewrite Hf in Hp. injection Hp as <-. reflexivity.
Defined.


Definition w_cfg : Interfaces :=
  {[ "wg0" := mkInterface "ipv4" (Config.mkProxy 0 None 0) [] false
       {[ "laptop" := mkCfgPeer "" (b64_encode w_b) "dht" "" None ]} ]}.
Definition w_read (second : bool) (name : string) : result DeviceInfo :=
  Ok (mkDeviceInfo name 51820 w_a [w_b] 0).

Lemma Bootstrap_spec_witness :
  is_ok (Peers_Find (Bootstrap_Execute w_read w_cfg NewPeers NewDevices).1.1 w_id) = true.
Proof.
  assert ((Bootstrap_Execute w_read w_cfg NewPeers NewDevices).2 = Ok tt) as Hr by (vm_compute; reflexivity).
  destruct (Bootstrap_Execute w_read w_cfg NewPeers NewDevices) as [[peers devices] r] eqn:E.
  destruct (Bootstrap_spec w_read w_cfg peers devices r E) as (_ & _ & H).
  refine (proj1 (H Hr "wg0" (mkDeviceInfo "wg0" 51820 w_a [w_b] 0)
    (NewPeer w_id "wg0" w_b "dht" "ipv4" PeerPingConfig0) _ _ _)).
  - vm_compute. eexists. reflexivity.
  - reflexivity.
  - exists (mkDeviceInfo "wg0" 51820 w_a [w_b] 0). eexists. split; [reflexivity|].
    split; [vm_compute; reflexivity|]. split; [by left|by left].
Defined.
