(* ===== verification/Daemon.v ===== *)
(** * internal/daemon/daemon.go and app/app.go: the life of the process

    The daemon's main goroutine and its workers are one step relation over the
    controllers' queues; a run of the application is an in-flight daemon, and
    closing the application is the sequence of [Close].  What the controllers do
    in a step is [Ctrl]'s; here the log of calls records that they are made. *)

From S2P Require Import Prelude GoStr Entity Plugin Config Ctrl.

Definition Second_ : Z := 1000000000.

(** ** The daemon *)

Inductive DaemonCall : Type :=
| CBootstrap | CPublishTrigger | CEstablishTrigger
| CPublish | CPublishForPeer (id : PeerId) | CEstablish (id : PeerId)
| CSleep (d : Z) | CWaited.
Inductive Worker : Type := PublishWorker | EstablishWorker | PingWorker.
#[export] Instance Worker_eq_dec : EqDecision Worker.
Proof. solve_decision. Defined.

(** What [RunOneshot] does after the bootstrap. *)
Inductive OneshotAction : Type := APublish | ASleep (d : Z) | ATrigger | AWait.
Definition oneshot_iteration (i : Z) : list OneshotAction :=
  [APublish; ASleep (2 * Second_); ATrigger; ASleep (2 * Second_)] ++ (if i <? 3 then [ASleep (3 * Second_)] else []).
Definition oneshot_program : list OneshotAction := flat_map oneshot_iteration [1; 2; 3] ++ [AWait].

Inductive Phase : Type :=
| PBoot | PLoop | PShot (program : list OneshotAction)
| PStopping (r : option error) | PReturned (r : option error).

Record DaemonState := mkDaemon {
  ds_phase : Phase;
  ds_parent_done : bool; ds_cancelled : bool;
  ds_workers : list Worker;
  ds_pub : Publisher; ds_est : Establisher;
  ds_calls : list DaemonCall
}.
Definition ctx_done (s : DaemonState) : bool := ds_parent_done s || ds_cancelled s.

Definition with_phase (p : Phase) (s : DaemonState) : DaemonState :=
  mkDaemon p (ds_parent_done s) (ds_cancelled s) (ds_workers s) (ds_pub s) (ds_est s) (ds_calls s).
Definition log_call (c : DaemonCall) (s : DaemonState) : DaemonState :=
  mkDaemon (ds_phase s) (ds_parent_done s) (ds_cancelled s) (ds_workers s) (ds_pub s) (ds_est s) (ds_calls s ++ [c]).
Definition with_workers (l : list Worker) (s : DaemonState) : DaemonState :=
  mkDaemon (ds_phase s) (ds_parent_done s) (ds_cancelled s) l (ds_pub s) (ds_est s) (ds_calls s).
Definition with_pub (p : Publisher) (s : DaemonState) : DaemonState :=
  mkDaemon (ds_phase s) (ds_parent_done s) (ds_cancelled s) (ds_workers s) p (ds_est s) (ds_calls s).
Definition with_est (e : Establisher) (s : DaemonState) : DaemonState :=
  mkDaemon (ds_phase s) (ds_parent_done s) (ds_cancelled s) (ds_workers s) (ds_pub s) e (ds_calls s).

(** Run or RunOneshot is entered. *)
Definition daemon_start (pub : Publisher) (est : Establisher) : DaemonState :=
  mkDaemon PBoot false false [] pub est [].
(** [return r]: the deferred [cancel], then the wait for the workers. *)
Definition leave (r : option error) (s : DaemonState) : DaemonState :=
  mkDaemon (PStopping r) (ds_parent_done s) true (ds_workers s) (ds_pub s) (ds_est s) (ds_calls s).

Definition trigger_publish (s : DaemonState) : DaemonState :=
  log_call CPublishTrigger (with_pub (Publish_Trigger (ds_pub s)) s).
(** [l] is the order in which the repository lists the peers. *)
Definition trigger_establish (l : list PeerId) (s : DaemonState) : DaemonState :=
  log_call CEstablishTrigger (with_est (Establish_Trigger (ds_est s) l).1 s).

Section daemon.
Variable oneshot : bool.
(** The peers the repository lists. *)
Variable peers : list PeerId.

(** The main goroutine's steps *)
Definition boot (r : option error) (l : list PeerId) (s : DaemonState) : DaemonState :=
  let s := log_call CBootstrap s in
  match r with
  | Some e => leave (Some e) s
  | None =>
      if oneshot then with_phase (PShot oneshot_program) (with_workers [EstablishWorker] s)
      else with_phase PLoop
             (trigger_establish l (trigger_publish (with_workers [PublishWorker; EstablishWorker; PingWorker] s)))
  end.
Definition tick (l : list PeerId) (s : DaemonState) : DaemonState := trigger_establish l (trigger_publish s).
(** [None] while the action blocks. *)
Definition act (a : OneshotAction) (l : list PeerId) (s : DaemonState) : option DaemonState :=
  match a with
  | APublish => Some (log_call CPublish s)
  | ASleep d => Some (log_call (CSleep d) s)
  | ATrigger => Some (trigger_establish l s)
  | AWait => if completed (ds_est s) || ctx_done s then Some (log_call CWaited s) else None
  end.

(** The workers' steps *)
Definition publish_take (s : DaemonState) : option DaemonState :=
  match Dequeue (triggerQueue (ds_pub s)) with
  | Some (_, q) => Some (log_call CPublish (with_pub (mkPublisher q (peerQueue (ds_pub s))) s))
  | None => None
  end.
Definition publish_take_peer (s : DaemonState) : option DaemonState :=
  match Dequeue (peerQueue (ds_pub s)) with
  | Some (id, q) => Some (log_call (CPublishForPeer id) (with_pub (mkPublisher (triggerQueue (ds_pub s)) q) s))
  | None => None
  end.
Definition establish_take (s : DaemonState) : option DaemonState :=
  match eq_active (ds_est s) with
  | [] => match worker_take (ds_est s) with
          | Some (id, e) => Some (log_call (CEstablish id) (with_est e s))
          | None => None
          end
  | _ => None
  end.
Definition ping_retry (id : PeerId) (s : DaemonState) : DaemonState :=
  with_est (enqueue (ds_est s) id).1 (with_pub (Publish_TriggerForPeer (ds_pub s) id) s).
(** A worker's loop returns. *)
Definition worker_exit (w : Worker) (s : DaemonState) : DaemonState :=
  with_workers (filter (fun x => x <> w) (ds_workers s)) s.

(** A worker returns when it sees its context done, between two pieces of
    work; the ping monitor also when it has nothing to monitor. *)
Inductive daemon_step : DaemonState -> DaemonState -> Prop :=
| d_boot s r l : ds_phase s = PBoot -> l ≡ₚ peers -> daemon_step s (boot r l s)
| d_tick s l : ds_phase s = PLoop -> l ≡ₚ peers -> daemon_step s (tick l s)
| d_done s : ds_phase s = PLoop -> ctx_done s = true -> daemon_step s (leave None s)
| d_act s a rest l s' : ds_phase s = PShot (a :: rest) -> l ≡ₚ peers -> act a l s = Some s' ->
    daemon_step s (with_phase (PShot rest) s')
| d_shot s : ds_phase s = PShot [] -> daemon_step s (leave None s)
| d_return s r : ds_phase s = PStopping r -> ds_workers s = [] -> daemon_step s (with_phase (PReturned r) s)
| d_cancel s : daemon_step s (mkDaemon (ds_phase s) true (ds_cancelled s) (ds_workers s) (ds_pub s) (ds_est s) (ds_calls s))
| d_publish s s' : In PublishWorker (ds_workers s) -> publish_take s = Some s' -> daemon_step s s'
| d_publish_peer s s' : In PublishWorker (ds_workers s) -> publish_take_peer s = Some s' -> daemon_step s s'
| d_publish_exit s : In PublishWorker (ds_workers s) -> ctx_done s = true -> daemon_step s (worker_exit PublishWorker s)
| d_take s s' : In EstablishWorker (ds_workers s) -> establish_take s = Some s' -> daemon_step s s'
| d_taken s id : In EstablishWorker (ds_workers s) -> In id (eq_active (ds_est s)) ->
    daemon_step s (with_est (worker_done (ds_est s) id) s)
| d_establish_exit s : In EstablishWorker (ds_workers s) -> ctx_done s = true -> eq_active (ds_est s) = [] ->
    daemon_step s (worker_exit EstablishWorker s)
| d_ping s id : In PingWorker (ds_workers s) -> In id peers -> daemon_step s (ping_retry id s)
| d_ping_exit s : In PingWorker (ds_workers s) -> daemon_step s (worker_exit PingWorker s).

Inductive daemon_reachable : DaemonState -> DaemonState -> Prop :=
| dr_refl s : daemon_reachable s s
| dr_step s s1 s2 : daemon_reachable s s1 -> daemon_step s1 s2 -> daemon_reachable s s2.
End daemon.

(** ** The application *)

Definition ErrAlreadyRunning : error := ENew "app: already running".
Definition ErrClosed : error := ENew "app: closed".

(** Where [Close]'s body stands; a second caller waits for the first. *)
Inductive CloseState : Type := NotClosed | CMarked | CCancelled | CDone.

(** [a_daemon] is the run in flight and whether it is a oneshot; [a_finishing]
    counts runs that gave up [running] and have yet to call [runs.Done]. *)
Record App := mkApp {
  a_running : bool; a_closed : bool; a_runs : nat;
  a_cancelled : bool; a_close : CloseState; a_cleanups : nat;
  a_daemon : option (bool * DaemonState); a_finishing : nat;
  a_pub : Publisher; a_est : Establisher
}.
Definition App_New : App :=
  mkApp false false 0 false NotClosed 0 None 0 NewPublisher NewEstablisher.

(** [run], up to the call of the daemon. *)
Definition App_run (oneshot : bool) (a : App) : App * option error :=
  if a_closed a then (a, Some ErrClosed)
  else if a_running a then (a, Some ErrAlreadyRunning)
  else (mkApp true (a_closed a) (S (a_runs a)) (a_cancelled a) (a_close a) (a_cleanups a)
          (Some (oneshot, daemon_start (a_pub a) (a_est a))) (a_finishing a) (a_pub a) (a_est a), None).

Definition with_daemon (d : option (bool * DaemonState)) (a : App) : App :=
  mkApp (a_running a) (a_closed a) (a_runs a) (a_cancelled a) (a_close a) (a_cleanups a) d (a_finishing a)
    (a_pub a) (a_est a).
(** The deferred function of [run], in its two parts; the controllers stay. *)
Definition run_returned (d : DaemonState) (a : App) : App :=
  mkApp false (a_closed a) (a_runs a) (a_cancelled a) (a_close a) (a_cleanups a) None (S (a_finishing a))
    (ds_pub d) (ds_est d).
Definition run_done (a : App) : App :=
  mkApp (a_running a) (a_closed a) (pred (a_runs a)) (a_cancelled a) (a_close a) (a_cleanups a) (a_daemon a)
    (pred (a_finishing a)) (a_pub a) (a_est a).

(** One statement group of [Close]; [None] while it waits for the runs. *)
Definition close_step (a : App) : option App :=
  match a_close a with
  | NotClosed => Some (mkApp (a_running a) true (a_runs a) (a_cancelled a) CMarked (a_cleanups a) (a_daemon a)
                         (a_finishing a) (a_pub a) (a_est a))
  | CMarked => Some (mkApp (a_running a) (a_closed a) (a_runs a) true CCancelled (a_cleanups a) (a_daemon a)
                       (a_finishing a) (a_pub a) (a_est a))
  | CCancelled =>
      if (a_runs a =? 0)%nat
      then Some (mkApp (a_running a) (a_closed a) (a_runs a) (a_cancelled a) CDone (S (a_cleanups a)) (a_daemon a)
                   (a_finishing a) (a_pub a) (a_est a))
      else None
  | CDone => None
  end.

Section app.
Variable peers : list PeerId.

Inductive app_step : App -> App -> Prop :=
| as_run a oneshot : app_step a (App_run oneshot a).1
| as_daemon a oneshot d d' : a_daemon a = Some (oneshot, d) -> daemon_step oneshot peers d d' ->
    app_step a (with_daemon (Some (oneshot, d')) a)
| as_after_func a oneshot d : a_daemon a = Some (oneshot, d) -> a_cancelled a = true ->
    app_step a (with_daemon (Some (oneshot, mkDaemon (ds_phase d) true (ds_cancelled d) (ds_workers d)
                                              (ds_pub d) (ds_est d) (ds_calls d))) a)
| as_return a oneshot d r : a_daemon a = Some (oneshot, d) -> ds_phase d = PReturned r ->
    app_step a (run_returned d a)
| as_done a : a_finishing a <> 0%nat -> app_step a (run_done a)
| as_close a a' : close_step a = Some a' -> app_step a a'.
Inductive app_reachable : App -> Prop :=
| ar_new : app_reachable App_New
| ar_step a a' : app_reachable a -> app_step a a' -> app_reachable a'.
End app.
