(* ===== verification/DaemonFacts.v ===== *)
(** * Theorems on the daemon and the application *)

From S2P Require Import Prelude GoStr Entity Plugin Config Ctrl CtrlFacts Daemon.

(** ** The queues hold the known peers *)

Section known.
Variable peers : list PeerId.

(** Everything queued or being looked up is a known peer. *)
Definition known (c : Establisher) : Prop :=
  establisher_inv c /\ forall id, In id (queued c ++ eq_active c) -> In id peers.

Lemma enqueue_known c id : In id peers -> known c -> known (enqueue c id).1.
Proof.
  intros Hid [Hi Hk]. split; [by apply enqueue_inv|].
  destruct (enqueue_cases c id) as [[-> _]|(_ & _ & ->)]; [done|]. cbn. intros x Hx.
  change (queued (mkEstablisher _ _ _)) with (queued c ++ [id]) in Hx.
  rewrite <-app_assoc in Hx. apply in_app_iff in Hx as [Hx|[<-|Hx]]; [|done|];
    apply Hk; apply in_app_iff; auto.
Qed.

Lemma Trigger_known c l : (forall id, In id l -> In id peers) -> known c -> known (Establish_Trigger c l).1.
Proof.
  revert c. induction l as [|x l IH]; intros c Hl Hc; [done|]. cbn [Establish_Trigger].
  pose proof (enqueue_known c x (Hl x (or_introl eq_refl)) Hc) as H1.
  destruct (enqueue c x) as [c1 ok]. cbn in H1. specialize (IH c1 (fun id H => Hl id (or_intror H)) H1).
  by destruct (Establish_Trigger c1 l).
Qed.

(** With no more peers than the queue holds, no known peer is ever dropped. *)
Lemma enqueue_pends c id : (length peers <= PeerQueueSize)%nat -> In id peers -> known c ->
  id ∈ eq_pending (enqueue c id).1.
Proof.
  intros Hlen Hid [(Hnd & Hp & Hs & Hl) Hk].
  destruct (enqueue_cases c id) as [[-> [Hin|Hfull]]|(_ & _ & ->)]; [done| |cbn; set_solver].
  destruct (decide (id ∈ eq_pending c)) as [|Hni]; [done|]. exfalso.
  rewrite Hp, elem_of_list_to_set, list_elem_of_In in Hni.
  apply list.NoDup_app in Hnd as (Hq & _).
  assert (length (id :: queued c) <= length peers)%nat as Hle.
  { apply NoDup_incl_length.
    - apply NoDup_ListNoDup. apply list.NoDup_cons. split; [|done].
      rewrite list_elem_of_In. intros ?. apply Hni. apply in_app_iff. by left.
    - intros x [<-|Hx]; [done|]. apply Hk. apply in_app_iff. by left. }
  cbn [length] in Hle. lia.
Qed.

Lemma Trigger_pends c l : (length peers <= PeerQueueSize)%nat -> (forall id, In id l -> In id peers) -> known c ->
  forall id, In id l -> id ∈ eq_pending (Establish_Trigger c l).1.
Proof.
  intros Hlen. revert c. induction l as [|x l IH]; intros c Hl Hc id Hin; [done|]. cbn [Establish_Trigger].
  pose proof (Hl x (or_introl eq_refl)) as Hx.
  pose proof (enqueue_known c x Hx Hc) as H1. pose proof (enqueue_pends c x Hlen Hx Hc) as H2.
  destruct (enqueue c x) as [c1 ok]. cbn in H1, H2. pose proof (Establish_Trigger_grows c1 l) as Hg.
  specialize (IH c1 (fun id H => Hl id (or_intror H)) H1 id).
  destruct (Establish_Trigger c1 l) as [c2 n]. cbn in *. destruct Hin as [->|Hin]; [set_solver|by apply IH].
Qed.

Lemma take_known c id c' : worker_take c = Some (id, c') -> known c ->
  known c' /\ queued c = id :: queued c' /\ eq_active c' = id :: eq_active c.
Proof.
  intros E [Hi Hk]. pose proof (establisher_step_inv _ _ (es_take _ _ _ E) Hi) as Hi'.
  unfold worker_take, Dequeue in E. fold (queued c) in E. destruct (queued c) as [|x q] eqn:Eq; [done|].
  injection E as <- <-. split_and!; try done. split; [done|]. intros y Hy. apply Hk. cbn in Hy.
  change (queued (mkEstablisher _ _ _)) with q in Hy. apply in_app_iff in Hy as [Hy|[<-|Hy]].
  - right. apply in_app_iff. by left.
  - by left.
  - right. apply in_app_iff. by right.
Qed.

Lemma remove_one_subset id l x : In x (remove_one id l) -> In x l.
Proof.
  induction l as [|y l IH]; [done|]. cbn [remove_one]. case_bool_decide; [by right|].
  intros [->|Hx]; [by left|right; by apply IH].
Qed.

Lemma done_known c id : In id (eq_active c) -> known c -> known (worker_done c id).
Proof.
  intros Hin [Hi Hk]. split; [by eapply establisher_step_inv; [apply es_done|]|].
  intros x Hx. apply Hk. cbn in Hx. apply in_app_iff. apply in_app_iff in Hx as [Hx|Hx]; [by left|right].
  by eapply remove_one_subset.
Qed.
End known.

(** ** The daemon's invariant *)

Section daemon.
Variable oneshot : bool.
Variable peers : list PeerId.

(** What a run starts from: a quiet establisher of known peers, and a publish
    queue that can take a trigger. *)
Definition quiet (pub : Publisher) (est : Establisher) : Prop :=
  known peers est /\ eq_active est = [] /\ (q_size (triggerQueue pub) = TriggerQueueSize)%nat.

Record daemon_inv (s : DaemonState) : Prop := {
  di_known : known peers (ds_est s);
  di_size : q_size (triggerQueue (ds_pub s)) = TriggerQueueSize;
  di_idle : ~ In EstablishWorker (ds_workers s) -> eq_active (ds_est s) = [];
  di_boot : ds_phase s = PBoot -> ds_workers s = [] /\ ds_calls s = [] /\ ds_cancelled s = false;
  di_stop : match ds_phase s with PStopping _ | PReturned _ => True | _ => ds_cancelled s = false end;
  di_stopping : forall r, ds_phase s = PStopping r \/ ds_phase s = PReturned r -> ds_cancelled s = true /\
    match r with Some _ => ds_workers s = [] /\ ds_calls s = [CBootstrap] | None => True end;
  di_returned : forall r, ds_phase s = PReturned r -> ds_workers s = [];
  di_one : (length (eq_active (ds_est s)) <= 1)%nat
}.
Lemma start_inv pub est : quiet pub est -> daemon_inv (daemon_start pub est).
Proof.
  intros (Hk & Ha & Hs). constructor; cbn; try done; [|by rewrite Ha; cbn; lia].
  intros r [|]; discriminate.
Qed.

Lemma trigger_size p : q_size (triggerQueue p) = TriggerQueueSize ->
  q_size (triggerQueue (Publish_Trigger p)) = TriggerQueueSize.
Proof. intros Hs. unfold Publish_Trigger. cbn. destruct (TryEnqueue _ _) as [q b] eqn:E. by apply TryEnqueue_items in E as [E _]; cbn; rewrite E. Qed.

Lemma trigger_active c l : eq_active (Establish_Trigger c l).1 = eq_active c.
Proof.
  revert c. induction l as [|x l IH]; intros c; [done|]. cbn [Establish_Trigger].
  specialize (IH (enqueue c x).1). destruct (enqueue_cases c x) as [[E _]|(_ & _ & E)];
    rewrite E in *; cbn in IH; by destruct (Establish_Trigger _ l).
Qed.
Lemma enqueue_active c x : eq_active (enqueue c x).1 = eq_active c.
Proof. by destruct (enqueue_cases c x) as [[-> _]|(_ & _ & ->)]. Qed.

Lemma perm_in l (id : PeerId) : l ≡ₚ peers -> In id l -> In id peers.
Proof. intros Hl Hin. by apply (Permutation_in _ Hl). Qed.

Lemma boot_inv s r l : l ≡ₚ peers -> ds_phase s = PBoot -> daemon_inv s -> daemon_inv (boot oneshot r l s).
Proof.
  intros Hl Hp [Hk Hs Hi Hb Hst Hsp Hr Ho]. destruct (Hb Hp) as (Hw & Hc & Hx). rewrite Hp in Hst.
  assert (eq_active (ds_est s) = []) as Ha by (apply Hi; rewrite Hw; intros []).
  unfold boot. cbv zeta. destruct r as [e|]; [|destruct oneshot].
  - constructor; cbn; rewrite ?Hw, ?Ha, ?Hc; try done; try (cbn; lia).
    intros r' [[= <-]|]; [done|discriminate].
  - constructor; cbn; rewrite ?Ha; try done; try (cbn; lia); by intros r' [|].
  - constructor; cbn; rewrite ?trigger_active, ?Ha; try done; try (cbn; lia).
    + apply Trigger_known; [|done]. intros id. by apply perm_in.
    + by apply trigger_size.
    + intros r' [|]; discriminate.
Qed.

(** A phase in which the main goroutine works. *)
Definition working (p : Phase) : Prop := match p with PLoop | PShot _ => True | _ => False end.

(** The controllers change only while a worker runs or the main goroutine works. *)
Lemma update_inv s pub est calls :
  daemon_inv s -> ds_workers s <> [] \/ working (ds_phase s) ->
  known peers est -> q_size (triggerQueue pub) = TriggerQueueSize ->
  (~ In EstablishWorker (ds_workers s) -> eq_active est = []) -> (length (eq_active est) <= 1)%nat ->
  daemon_inv (mkDaemon (ds_phase s) (ds_parent_done s) (ds_cancelled s) (ds_workers s) pub est calls).
Proof.
  intros [Hk Hs Hi Hb Hst Hsp Hr Ho] Hw H1 H2 H3 H4. constructor; cbn; try done.
  - intros Hp. rewrite Hp in Hw. destruct (Hb Hp) as (Hn & _). rewrite Hn in Hw. by destruct Hw.
  - intros r Hp. destruct (Hsp r Hp) as [Hc He]. split; [done|]. destruct r; [|done].
    destruct He as [He _]. destruct Hw as [Hw|Hw]; [done|]. by destruct Hp as [Hp|Hp]; rewrite Hp in Hw.
Qed.

Lemma workers_inv s w : (w = EstablishWorker -> eq_active (ds_est s) = []) ->
  daemon_inv s -> daemon_inv (worker_exit w s).
Proof.
  intros Hw [Hk Hs Hi Hb Hst Hsp Hr Ho]. unfold worker_exit. constructor; cbn; try done.
  - intros Hn. destruct (decide (w = EstablishWorker)) as [->|Hne]; [by apply Hw|]. apply Hi. intros Hin.
    apply Hn. apply list_elem_of_In, list_elem_of_filter. split; [done|]. by apply list_elem_of_In.
  - intros Hp. by destruct (Hb Hp) as (-> & H2 & H3).
  - intros r Hp. destruct (Hsp r Hp) as [Hc He]. split; [done|]. destruct r; [|done]. by destruct He as [-> ?].
  - intros r Hp. by rewrite (Hr r Hp).
Qed.

Lemma leave_inv s : daemon_inv s -> working (ds_phase s) -> daemon_inv (leave None s).
Proof.
  intros [Hk Hs Hi Hb Hst Hsp Hr Ho] Hw. constructor; cbn; try done. intros r [[= <-]|]; [done|discriminate].
Qed.

Lemma trigger_establish_inv s l pub calls : l ≡ₚ peers -> daemon_inv s -> working (ds_phase s) ->
  q_size (triggerQueue pub) = TriggerQueueSize ->
  daemon_inv (mkDaemon (ds_phase s) (ds_parent_done s) (ds_cancelled s) (ds_workers s) pub
                (Establish_Trigger (ds_est s) l).1 calls).
Proof.
  intros Hl Hd Hw Hp. pose proof Hd as [Hk Hs Hi Hb Hst Hsp Hr Ho].
  apply update_inv; rewrite ?trigger_active; auto. apply Trigger_known; [|done]. intros id. by apply perm_in.
Qed.

Lemma act_inv s a l s' : l ≡ₚ peers -> daemon_inv s -> working (ds_phase s) -> act a l s = Some s' ->
  daemon_inv s' /\ ds_phase s' = ds_phase s.
Proof.
  intros Hl Hd Hw. pose proof Hd as [Hk Hs Hi Hb Hst Hsp Hr Ho].
  assert (forall c, daemon_inv (log_call c s)) as Hlog by (intros c; apply (update_inv s); auto).
  destruct a; cbn [act]; [..|destruct (_ || _); [|done]]; intros [= <-]; (split; [|done]); [done..| |done].
  by apply (trigger_establish_inv s).
Qed.

Lemma rephase_inv s p : daemon_inv s -> working (ds_phase s) -> working p -> daemon_inv (with_phase p s).
Proof.
  intros [Hk Hs Hi Hb Hst Hsp Hr Ho] Hw Hp. destruct s as [ph pd c ws pub est calls]. cbn in *.
  assert (c = false) as -> by (by destruct ph). clear Hst Hb Hsp Hr.
  constructor; cbn; [done|done|done|by intros ->|by destruct p|by intros r [-> | ->]|by intros r ->|done].
Qed.

Lemma daemon_step_inv s s' : daemon_step oneshot peers s s' -> daemon_inv s -> daemon_inv s'.
Proof.
  intros Hs Hd. pose proof Hd as [Hk Hz Hi Hb Hst Hsp Hr Ho].
  destruct Hs as [s r l Hp Hl|s l Hp Hl|s Hp Hc|s a rest l s' Hp Hl Ha|s Hp|s r Hp Hw|s|s s' Hin E|s s' Hin E
    |s Hin Hc|s s' Hin E|s id Hin Ha|s Hin Hc Ha|s id Hin Hid|s Hin].
  - by apply boot_inv.
  - apply (trigger_establish_inv s); [done..|by rewrite Hp|by apply trigger_size].
  - apply leave_inv; [done|by rewrite Hp].
  - apply act_inv in Ha as [Ha Hph]; [|done..|by rewrite Hp].
    apply rephase_inv; [done|by rewrite Hph, Hp|done].
  - apply leave_inv; [done|by rewrite Hp].
  - constructor; cbn; try done.
    + intros r' [|[= <-]]; [discriminate|]. apply Hsp. by left.
  - constructor; cbn; try done.
  - unfold publish_take, Dequeue in E. destruct (q_items _); [done|]. injection E as <-.
    apply (update_inv s); auto. left. intros E. by rewrite E in Hin.
  - unfold publish_take_peer, Dequeue in E. destruct (q_items _); [done|]. injection E as <-.
    apply (update_inv s); auto. left. intros E. by rewrite E in Hin.
  - by apply workers_inv.
  - unfold establish_take in E. destruct (eq_active (ds_est s)) eqn:Ea; [|done].
    destruct (worker_take (ds_est s)) as [[id c']|] eqn:Et; [|done]. injection E as <-.
    apply (take_known peers) in Et as (H1 & _ & H3); [|done].
    apply (update_inv s); [done| |done..| |].
    + left. intros E. by rewrite E in Hin.
    + done.
    + cbn. rewrite H3, Ea. cbn. lia.
  - apply (update_inv s); [done| |by apply done_known|done|done|].
    + left. intros E. by rewrite E in Hin.
    + cbn. destruct (eq_active (ds_est s)) as [|x [|]]; cbn in *; [lia| |lia]. case_bool_decide; cbn; lia.
  - by apply workers_inv.
  - apply (update_inv s); [done| |by apply enqueue_known| |rewrite enqueue_active; done..].
    + left. intros E. by rewrite E in Hin.
    + unfold Publish_TriggerForPeer. done.
  - by apply workers_inv.
Qed.

Lemma daemon_reachable_inv s0 s : daemon_reachable oneshot peers s0 s -> daemon_inv s0 -> daemon_inv s.
Proof. induction 1 as [|s0 s1 s2 _ IH Hs]; [done|]. intros H0. eapply daemon_step_inv; [done|by apply IH]. Qed.

Lemma daemon_reachable_trans s1 s2 s3 : daemon_reachable oneshot peers s1 s2 -> daemon_reachable oneshot peers s2 s3 ->
  daemon_reachable oneshot peers s1 s3.
Proof. intros H12. induction 1; [done|]. econstructor; [by apply IHdaemon_reachable|done]. Qed.
Lemma daemon_reachable_one s1 s2 : daemon_step oneshot peers s1 s2 -> daemon_reachable oneshot peers s1 s2.
Proof. intros. econstructor; [constructor|done]. Qed.

(** ** Stopping *)

(** What stopping keeps of a state. *)
Definition same_main (s s' : DaemonState) : Prop :=
  ds_phase s' = ds_phase s /\ ds_parent_done s' = ds_parent_done s /\ ds_cancelled s' = ds_cancelled s.

Lemma exit_worker s w : ctx_done s = true -> (w = EstablishWorker -> eq_active (ds_est s) = []) ->
  exists s', daemon_reachable oneshot peers s s' /\ same_main s s' /\ ds_est s' = ds_est s /\
    ds_workers s' = filter (fun x => x <> w) (ds_workers s).
Proof.
  intros Hc Ha. destruct (decide (w ∈ ds_workers s)) as [Hin|Hni]; rewrite list_elem_of_In in *.
  - exists (worker_exit w s). split_and!; try done. apply daemon_reachable_one.
    destruct w; [by apply d_publish_exit|apply d_establish_exit; auto|by apply d_ping_exit].
  - exists s. split_and!; try done; [constructor|]. symmetry.
    induction (ds_workers s) as [|x l IH]; [done|]. rewrite filter_cons, decide_True by (intros ->; apply Hni; by left).
    f_equal. apply IH. intros Hin. apply Hni. by right.
Qed.

Lemma filter_all_workers (l : list Worker) :
  filter (fun x => x <> PingWorker) (filter (fun x => x <> EstablishWorker) (filter (fun x => x <> PublishWorker) l)) = [].
Proof.
  apply elem_of_nil_inv. intros x. rewrite !list_elem_of_filter. destruct x; tauto.
Qed.

Lemma stop_workers s : daemon_inv s -> ctx_done s = true ->
  exists s', daemon_reachable oneshot peers s s' /\ same_main s s' /\ ds_workers s' = [].
Proof.
  intros Hd Hc.
  assert (exists s0, daemon_reachable oneshot peers s s0 /\ same_main s s0 /\ eq_active (ds_est s0) = []) as (s0 & R0 & M0 & A0).
  { destruct (eq_active (ds_est s)) as [|id l] eqn:Ea; [exists s; split_and!; try done; constructor|].
    pose proof (di_one s Hd) as Ho. rewrite Ea in Ho. destruct l; [|cbn in Ho; lia].
    exists (with_est (worker_done (ds_est s) id) s). split_and!; try done.
    - apply daemon_reachable_one. apply d_taken; [|rewrite Ea; by left].
      destruct (decide (EstablishWorker ∈ ds_workers s)) as [|Hn]; rewrite list_elem_of_In in *; [done|].
      rewrite (di_idle s Hd Hn) in Ea. discriminate.
    - cbn. rewrite Ea. cbn. by rewrite bool_decide_true. }
  assert (forall s', same_main s s' -> ctx_done s' = true) as Hcs.
  { intros s' (_ & H1 & H2). unfold ctx_done in *. by rewrite H1, H2. }
  destruct (exit_worker s0 PublishWorker (Hcs _ M0)) as (s1 & R1 & M1 & E1 & W1); [done|].
  assert (same_main s s1) as N1 by (unfold same_main in *; intuition congruence).
  destruct (exit_worker s1 EstablishWorker (Hcs _ N1)) as (s2 & R2 & M2 & E2 & W2); [by rewrite E1|].
  assert (same_main s s2) as N2 by (unfold same_main in *; intuition congruence).
  destruct (exit_worker s2 PingWorker (Hcs _ N2)) as (s3 & R3 & M3 & E3 & W3); [done|].
  exists s3. split_and!.
  - eapply daemon_reachable_trans; [exact R0|]. eapply daemon_reachable_trans; [exact R1|].
    by eapply daemon_reachable_trans.
  - unfold same_main in *; intuition congruence.
  - rewrite W3, W2, W1. apply filter_all_workers.
Qed.

Lemma act_unblocked a l s : ds_parent_done s = true ->
  exists s', act a l s = Some s' /\ ds_parent_done s' = true.
Proof.
  intros Hp. destruct a; cbn [act]; try by eexists. unfold ctx_done. rewrite Hp, orb_true_r. by eexists.
Qed.

Lemma stop_shot program : forall s, ds_phase s = PShot program -> ds_parent_done s = true ->
  exists s', daemon_reachable oneshot peers s s' /\ ds_phase s' = PStopping None.
Proof.
  induction program as [|a rest IH]; intros s Hp Hc.
  - exists (leave None s). split; [|done]. by apply daemon_reachable_one, d_shot.
  - destruct (act_unblocked a peers s Hc) as (s1 & Ha & H1).
    destruct (IH (with_phase (PShot rest) s1) eq_refl H1) as (s2 & R2 & P2). exists s2. split; [|done].
    eapply daemon_reachable_trans; [|exact R2]. apply daemon_reachable_one. by apply (d_act _ _ _ a rest peers).
Qed.

Lemma main_stops s : ds_parent_done s = true ->
  exists s' r, daemon_reachable oneshot peers s s' /\ (ds_phase s' = PStopping r \/ ds_phase s' = PReturned r).
Proof.
  intros Hc. destruct (ds_phase s) as [| |program|r|r] eqn:Hp.
  - exists (boot oneshot (Some (ENew "context canceled")) peers s). eexists. split.
    + apply daemon_reachable_one. by apply d_boot.
    + by left.
  - exists (leave None s), None. split; [|by left]. apply daemon_reachable_one. apply d_done; [done|].
    unfold ctx_done. by rewrite Hc.
  - destruct (stop_shot program s Hp Hc) as (s' & R & P). exists s', None. auto.
  - exists s, r. split; [constructor|by left].
  - exists s, r. split; [constructor|by right].
Qed.

(** From every state in which its context is done, the daemon can still return. *)
Lemma daemon_can_return s : daemon_inv s -> ds_parent_done s = true ->
  exists s' r, daemon_reachable oneshot peers s s' /\ ds_phase s' = PReturned r.
Proof.
  intros Hd Hc. destruct (main_stops s Hc) as (s1 & r & R1 & [P1|P1]); [|by exists s1, r].
  pose proof (daemon_reachable_inv _ _ R1 Hd) as H1.
  destruct (stop_workers s1 H1) as (s2 & R2 & (P2 & _) & W2).
  { destruct (di_stopping s1 H1 r (or_introl P1)) as [Hx _]. unfold ctx_done. by rewrite Hx, orb_true_r. }
  exists (with_phase (PReturned r) s2), r. split; [|done].
  eapply daemon_reachable_trans; [exact R1|]. eapply daemon_reachable_trans; [exact R2|].
  apply daemon_reachable_one. apply d_return; [by rewrite P2|done].
Qed.
End daemon.

(** ** The daemon's theorems *)


(** C23: Nothing outlives a run: when the daemon returned, with an error exactly for
    a failed bootstrap and then without having started anything, all its
    workers are gone, no lookup is running, and nothing it could still do
    touches the controllers again, so the caller may release the WireGuard
    client. *)
Theorem daemon_returns_clean oneshot peers pub est s r :
  quiet peers pub est -> daemon_reachable oneshot peers (daemon_start pub est) s -> ds_phase s = PReturned r ->
  ds_workers s = [] /\ eq_active (ds_est s) = [] /\
  (forall e, r = Some e -> ds_calls s = [CBootstrap]) /\
  (forall s', daemon_step oneshot peers s s' ->
     ds_phase s' = ds_phase s /\ ds_calls s' = ds_calls s /\ ds_pub s' = ds_pub s /\ ds_est s' = ds_est s).
Proof.
  intros Hq Hr Hp. pose proof (daemon_reachable_inv _ _ _ _ Hr (start_inv _ _ _ Hq)) as Hd.
  pose proof (di_returned _ _ Hd _ Hp) as Hw.
  split_and!; [done| | |].
  - apply (di_idle _ _ Hd). rewrite Hw. intros [].
  - intros e ->. by apply (di_stopping _ _ Hd (Some e) (or_intror Hp)).
  - intros s' Hs. destruct Hs as [s r' l Hp' Hl|s l Hp' Hl|s Hp' Hc|s a rest l s' Hp' Hl Ha|s Hp'|s r' Hp' Hw'|s
      |s s' Hin E|s s' Hin E|s Hin Hc|s s' Hin E|s id Hin Ha|s Hin Hc Ha|s id Hin Hid|s Hin];
      try (rewrite Hw in Hin; destruct Hin); try done; congruence.
Qed.

(** ** Oneshot *)

Section oneshot.
Variable peers : list PeerId.
Hypothesis Hlen : (length peers <= PeerQueueSize)%nat.

(** The calls of the main goroutine, among those of the worker. *)
Definition is_main (c : DaemonCall) : bool := match c with CEstablish _ => false | _ => true end.
Definition main_calls (s : DaemonState) : list DaemonCall := List.filter is_main (ds_calls s).
Definition action_call (a : OneshotAction) : DaemonCall :=
  match a with APublish => CPublish | ASleep d => CSleep d | ATrigger => CEstablishTrigger | AWait => CWaited end.

Record oneshot_inv (s : DaemonState) : Prop := {
  oi_prog : match ds_phase s with
            | PBoot => ds_calls s = []
            | PLoop => False
            | PShot prog => exists past, oneshot_program = past ++ prog /\ main_calls s = CBootstrap :: map action_call past
            | PStopping None | PReturned None => main_calls s = CBootstrap :: map action_call oneshot_program
            | _ => True
            end;
  oi_workers : forall w, In w (ds_workers s) -> w = EstablishWorker;
  oi_active : forall id, In id (eq_active (ds_est s)) -> In (CEstablish id) (ds_calls s);
  oi_trig : In CEstablishTrigger (ds_calls s) -> forall id, In id peers ->
            In id (queued (ds_est s)) \/ In (CEstablish id) (ds_calls s);
  oi_wait : In CWaited (ds_calls s) -> ds_parent_done s = false -> queued (ds_est s) = []
}.

Lemma snoc_last {A} (p past : list A) x a rest : p ++ [x] = past ++ a :: rest -> ~ In x p -> ~ In x past.
Proof.
  revert p. induction past as [|c past IH]; intros p E Hp; [intros []|]. destruct p as [|b p].
  - injection E as _ E. by destruct past.
  - injection E as <- E. intros [->|Hin]; [apply Hp; by left|].
    apply (IH p E); [|done]. intros H. apply Hp. by right.
Qed.
Lemma wait_last past a rest : oneshot_program = past ++ a :: rest -> ~ In AWait past.
Proof. intros E. apply (snoc_last _ _ _ _ _ E). vm_compute. intuition discriminate. Qed.

Lemma main_wait s : In CWaited (ds_calls s) <-> In CWaited (main_calls s).
Proof. unfold main_calls. rewrite List.filter_In. cbn. tauto. Qed.

Lemma not_waited s past a rest : oneshot_program = past ++ a :: rest ->
  main_calls s = CBootstrap :: map action_call past -> ~ In CWaited (ds_calls s).
Proof.
  intros Hp Hm. rewrite main_wait, Hm. intros [|Hin]; [done|].
  apply in_map_iff in Hin as (b & Hb & Hin). destruct b; try done. by apply (wait_last _ _ _ Hp).
Qed.

Lemma main_calls_app s c : List.filter is_main (ds_calls s ++ [c]) =
  main_calls s ++ (if is_main c then [c] else []).
Proof. unfold main_calls. rewrite filter_app. cbn. by destruct (is_main c). Qed.

Lemma pending_in (c : Establisher) id : establisher_inv c -> id ∈ eq_pending c -> In id (queued c) \/ In id (eq_active c).
Proof. intros (_ & Hp & _) Hin. rewrite Hp, elem_of_list_to_set, list_elem_of_In, in_app_iff in Hin. done. Qed.

Lemma start_oneshot_inv pub est : quiet peers pub est -> oneshot_inv (daemon_start pub est).
Proof. intros (_ & Ha & _). constructor; cbn; try done. rewrite Ha. by intros id []. Qed.

(** A main action logs its call. *)
Lemma act_oneshot s a rest l s' : l ≡ₚ peers -> daemon_inv peers s -> oneshot_inv s ->
  ds_phase s = PShot (a :: rest) -> act a l s = Some s' -> oneshot_inv (with_phase (PShot rest) s').
Proof.
  intros Hl Hd [H1 H2 H3 H4 H5] Hp Ha. rewrite Hp in H1. destruct H1 as (past & Hpast & Hm).
  pose proof (not_waited s past a rest Hpast Hm) as Hnw.
  assert (exists past', oneshot_program = past' ++ rest /\
    main_calls s ++ [action_call a] = CBootstrap :: map action_call past') as Hprog.
  { exists (past ++ [a]). rewrite <-app_assoc, Hm, map_app. done. }
  assert (forall c, In c (ds_calls s) -> In c (ds_calls s ++ [action_call a])) as Hmono
    by (intros c Hc; apply in_app_iff; by left).
  assert (In CEstablishTrigger (ds_calls s ++ [action_call a]) -> a <> ATrigger -> In CEstablishTrigger (ds_calls s)) as Htr.
  { intros [Hc|[Hc|[]]]%in_app_iff Hne; [done|]. by destruct a. }
  destruct a; cbn [act] in Ha.
  - injection Ha as <-. constructor; cbn; [|done|auto| |].
    + unfold main_calls. cbn. by rewrite main_calls_app.
    + intros Hc id Hid. destruct (H4 (Htr Hc ltac:(done)) id Hid); auto.
    + intros [Hc|[|[]]]%in_app_iff; done.
  - injection Ha as <-. constructor; cbn; [|done|auto| |].
    + unfold main_calls. cbn. by rewrite main_calls_app.
    + intros Hc id Hid. destruct (H4 (Htr Hc ltac:(done)) id Hid); auto.
    + intros [Hc|[|[]]]%in_app_iff; done.
  - injection Ha as <-. constructor; cbn; [|done| | |].
    + unfold main_calls. cbn. by rewrite main_calls_app.
    + rewrite trigger_active. auto.
    + intros _ id Hid. pose proof (di_known _ _ Hd) as Hk.
      assert (forall x, In x l -> In x peers) as Hsub by (intros x; by apply perm_in).
      pose proof (Trigger_known peers _ l Hsub Hk) as [Hi _].
      apply (pending_in _ id) in Hi as [Hq|Hact]; [by left| |].
      * right. apply Hmono, H3. by rewrite trigger_active in Hact.
      * apply (Trigger_pends peers); try done. by apply (Permutation_in _ (Permutation_sym Hl)).
    + intros [Hc|[|[]]]%in_app_iff; done.
  - destruct (_ || _) eqn:Hcond; [|done]. injection Ha as <-. constructor; cbn; [|done|auto| |].
    + unfold main_calls. cbn. by rewrite main_calls_app.
    + intros Hc id Hid. destruct (H4 (Htr Hc ltac:(done)) id Hid); auto.
    + intros _ Hpd. pose proof (di_stop _ _ Hd) as Hst. rewrite Hp in Hst. unfold ctx_done in Hcond.
      rewrite Hpd, Hst, orb_false_r in Hcond. unfold completed in Hcond. apply bool_decide_eq_true in Hcond.
      pose proof (di_known _ _ Hd) as [(_ & Hpend & _) _]. rewrite Hcond in Hpend.
      destruct (queued (ds_est s)) as [|x q]; [done|]. cbn in Hpend. set_solver.
Qed.

Lemma take_oneshot s s' : daemon_inv peers s -> oneshot_inv s -> In EstablishWorker (ds_workers s) ->
  establish_take s = Some s' -> oneshot_inv s'.
Proof.
  intros Hd [H1 H2 H3 H4 H5] Hin E. unfold establish_take in E.
  destruct (eq_active (ds_est s)) eqn:Ea; [|done].
  destruct (worker_take (ds_est s)) as [[id c']|] eqn:Et; [|done]. injection E as <-.
  apply (take_known peers) in Et as (_ & Hq & Hact); [|apply Hd].
  assert (List.filter is_main (ds_calls s ++ [CEstablish id]) = main_calls s) as Hm
    by (rewrite main_calls_app; cbn; by rewrite app_nil_r).
  constructor; cbn; [|done| | |].
  - unfold main_calls. cbn. rewrite Hm. destruct (ds_phase s) as [| |prog|[e|]|[e|]] eqn:Hp; try done.
    destruct (di_boot _ _ Hd Hp) as (Hw & _). by rewrite Hw in Hin.
  - intros x Hx. rewrite Hact, Ea in Hx. destruct Hx as [<-|[]]. apply in_app_iff. right. by left.
  - intros [Hc|[|[]]]%in_app_iff x Hx; [|done]. destruct (H4 Hc x Hx) as [Hqx|Hqx].
    + rewrite Hq in Hqx. destruct Hqx as [<-|Hqx]; [right; apply in_app_iff; right; by left|by left].
    + right. apply in_app_iff. by left.
  - intros [Hc|[|[]]]%in_app_iff Hpd; [|done]. by rewrite (H5 Hc Hpd) in Hq.
Qed.

Lemma boot_oneshot s r l : daemon_inv peers s -> oneshot_inv s -> ds_phase s = PBoot -> oneshot_inv (boot true r l s).
Proof.
  intros Hd Ho Hp. destruct (di_boot _ _ Hd Hp) as (Hw & Hc & _).
  assert (eq_active (ds_est s) = []) as Ha by (apply (di_idle _ _ Hd); rewrite Hw; intros []).
  unfold boot. destruct r as [e|]; constructor; cbn; rewrite ?Ha, ?Hc, ?Hw; try done; try (by intros [|[]]).
  - exists []. split; [done|]. unfold main_calls. cbn. by rewrite ?Hc.
  - intros w [<-|[]]. done.
Qed.

Lemma oneshot_step s s' : daemon_step true peers s s' -> daemon_inv peers s -> oneshot_inv s -> oneshot_inv s'.
Proof.
  intros Hs Hd Ho. pose proof Ho as [H1 H2 H3 H4 H5].
  destruct Hs as [s r l Hp Hl|s l Hp Hl|s Hp Hc|s a rest l s' Hp Hl Ha|s Hp|s r Hp Hw|s|s s' Hin E|s s' Hin E
    |s Hin Hc|s s' Hin E|s id Hin Ha|s Hin Hc Ha|s id Hin Hid|s Hin]; try (discriminate (H2 _ Hin)).
  - by apply boot_oneshot.
  - by rewrite Hp in H1.
  - by rewrite Hp in H1.
  - by eapply act_oneshot.
  - rewrite Hp in H1. destruct H1 as (past & Hpast & Hm). rewrite app_nil_r in Hpast. subst past.
    constructor; cbn; try done.
  - rewrite Hp in H1. by constructor.
  - by constructor.
  - by apply take_oneshot with s.
  - constructor; cbn; try done. intros x Hx. apply H3. by eapply remove_one_subset.
  - constructor; cbn; try done. intros w Hw. apply list_elem_of_In, list_elem_of_filter in Hw as [_ Hw].
    apply H2. by apply list_elem_of_In.
Qed.

Lemma oneshot_reachable_inv s0 s : daemon_reachable true peers s0 s -> daemon_inv peers s0 -> oneshot_inv s0 ->
  daemon_inv peers s /\ oneshot_inv s.
Proof.
  induction 1 as [|s0 s1 s2 _ IH Hs]; [done|]. intros Hd Ho. destruct (IH Hd Ho) as [Hd1 Ho1].
  split; [by eapply daemon_step_inv|by eapply oneshot_step].
Qed.
End oneshot.


(** ** The application *)

Section app.
Variable peers : list PeerId.

Record app_inv (a : App) : Prop := {
  ai_running : a_running a = match a_daemon a with Some _ => true | None => false end;
  ai_runs : a_runs a = ((if a_running a then 1 else 0) + a_finishing a)%nat;
  ai_closed : a_closed a = match a_close a with NotClosed => false | _ => true end;
  ai_cancelled : a_cancelled a = match a_close a with CCancelled | CDone => true | _ => false end;
  ai_cleanups : a_cleanups a = match a_close a with CDone => 1%nat | _ => 0%nat end;
  ai_done : a_close a = CDone -> a_runs a = 0%nat;
  ai_quiet : quiet peers (a_pub a) (a_est a);
  ai_daemon : forall o d, a_daemon a = Some (o, d) -> daemon_inv peers d
}.

Lemma app_new_inv : app_inv App_New.
Proof.
  constructor; try done. split_and!; try done. split; [|by intros id []].
  split_and!; [constructor|done|done|cbn; lia].
Qed.

Lemma with_daemon_inv a o d d' : a_daemon a = Some (o, d) -> daemon_inv peers d' -> app_inv a ->
  app_inv (with_daemon (Some (o, d')) a).
Proof.
  intros Ed Hd [H1 H2 H3 H4 H5 H6 H7 H8]. rewrite Ed in H1. constructor; cbn; try done. by intros o' ? [= <- <-].
Qed.

Lemma App_run_inv o a : app_inv a -> app_inv (App_run o a).1.
Proof.
  intros Ha. pose proof Ha as [H1 H2 H3 H4 H5 H6 H7 H8]. unfold App_run.
  destruct (a_closed a) eqn:Ec; [done|]. destruct (a_running a) eqn:Er; [done|].
  constructor; cbn; try done; [by rewrite H2| |].
  - intros Hd. by rewrite Hd in H3.
  - intros o' d [= <- <-]. by apply start_inv.
Qed.

Lemma returned_inv a o d r : a_daemon a = Some (o, d) -> ds_phase d = PReturned r -> app_inv a ->
  app_inv (run_returned d a).
Proof.
  intros Ed Hp [H1 H2 H3 H4 H5 H6 H7 H8]. rewrite Ed in H1. rewrite H1 in H2. pose proof (H8 _ _ Ed) as Hd.
  constructor; cbn; try done.
  split_and!; [apply Hd| |apply Hd]. apply (di_idle _ _ Hd). rewrite (di_returned _ _ Hd _ Hp). intros [].
Qed.

Lemma close_inv a a' : close_step a = Some a' -> app_inv a -> app_inv a'.
Proof.
  intros E [H1 H2 H3 H4 H5 H6 H7 H8]. unfold close_step in E.
  destruct (a_close a) eqn:Ec; [| |destruct (Nat.eqb_spec (a_runs a) 0); [|done]|done];
    injection E as <-; constructor; cbn; rewrite ?H5; done.
Qed.

Lemma app_step_inv a a' : app_step peers a a' -> app_inv a -> app_inv a'.
Proof.
  intros Hs Ha. destruct Hs as [a o|a o d d' Ed Hs|a o d Ed Hc|a o d r Ed Hp|a Hf|a a' E].
  - by apply App_run_inv.
  - eapply with_daemon_inv; [done| |done]. eapply daemon_step_inv; [done|]. by apply (ai_daemon _ Ha o).
  - eapply with_daemon_inv; [done| |done]. apply (daemon_step_inv o peers d); [apply d_cancel|].
    by apply (ai_daemon _ Ha o).
  - by eapply returned_inv.
  - destruct Ha as [H1 H2 H3 H4 H5 H6 H7 H8]. constructor; cbn; try done.
    + rewrite H2. destruct (a_running a); lia.
    + intros Hc. rewrite (H6 Hc). done.
  - by eapply close_inv.
Qed.

Lemma app_reachable_inv a : app_reachable peers a -> app_inv a.
Proof. induction 1; [apply app_new_inv|by eapply app_step_inv]. Qed.

Inductive app_steps : App -> App -> Prop :=
| aps_refl a : app_steps a a
| aps_step a a1 a2 : app_step peers a a1 -> app_steps a1 a2 -> app_steps a a2.
Lemma app_steps_trans a1 a2 a3 : app_steps a1 a2 -> app_steps a2 a3 -> app_steps a1 a3.
Proof. induction 1; [done|]. intros. econstructor; [done|by apply IHapp_steps]. Qed.
Lemma app_steps_inv a a' : app_steps a a' -> app_inv a -> app_inv a'.
Proof. induction 1; [done|]. intros. apply IHapp_steps. by eapply app_step_inv. Qed.

Lemma with_daemon_twice d d' a : with_daemon d (with_daemon d' a) = with_daemon d a.
Proof. done. Qed.

Lemma daemon_steps_lift o d d' : daemon_reachable o peers d d' -> forall a,
  a_daemon a = Some (o, d) -> app_steps a (with_daemon (Some (o, d')) a).
Proof.
  induction 1 as [d|d d1 d2 _ IH Hs]; intros a Ea.
  - replace (with_daemon (Some (o, d)) a) with a; [constructor|]. destruct a. cbn in *. by subst.
  - eapply app_steps_trans; [by apply IH|]. eapply aps_step; [|constructor].
    change (with_daemon (Some (o, d2)) a) with (with_daemon (Some (o, d2)) (with_daemon (Some (o, d1)) a)).
    by eapply as_daemon.
Qed.

(** Runs that returned get done. *)
Lemma finish_runs n : forall a, a_finishing a = n -> app_inv a -> a_daemon a = None ->
  exists a', app_steps a a' /\ a_runs a' = 0%nat /\ a_close a' = a_close a.
Proof.
  induction n as [|n IH]; intros a Hn Ha Hd.
  - exists a. split; [constructor|]. rewrite (ai_runs _ Ha), (ai_running _ Ha), Hd, Hn. done.
  - destruct (IH (run_done a)) as (a' & R & H1 & H2).
    + cbn. by rewrite Hn.
    + apply (app_step_inv a); [|done]. apply as_done. by rewrite Hn.
    + done.
    + exists a'. split; [|done]. eapply aps_step; [|exact R]. apply as_done. by rewrite Hn.
Qed.

(** The run in flight, told to stop, returns. *)
Lemma run_returns a : app_inv a -> a_cancelled a = true ->
  exists a', app_steps a a' /\ a_daemon a' = None /\ a_close a' = a_close a.
Proof.
  intros Ha Hc. destruct (a_daemon a) as [[o d]|] eqn:Ed; [|exists a; split; [constructor|done]].
  set (d0 := mkDaemon (ds_phase d) true (ds_cancelled d) (ds_workers d) (ds_pub d) (ds_est d) (ds_calls d)).
  assert (app_step peers a (with_daemon (Some (o, d0)) a)) as S0 by (by apply as_after_func).
  assert (daemon_inv peers d0) as Hd0
    by (apply (daemon_step_inv o peers d); [apply d_cancel|by apply (ai_daemon _ Ha o)]).
  destruct (daemon_can_return o peers d0 Hd0 eq_refl) as (d1 & r & R & Hp).
  pose proof (daemon_steps_lift o d0 d1 R (with_daemon (Some (o, d0)) a) eq_refl) as R1.
  rewrite with_daemon_twice in R1.
  exists (run_returned d1 (with_daemon (Some (o, d1)) a)). split; [|done].
  eapply aps_step; [exact S0|]. eapply app_steps_trans; [exact R1|].
  eapply aps_step; [|constructor]. by eapply as_return.
Qed.
End app.

(** Resources are released once and only when idle: under any interleaving of
    runs, their ends and closing, the cleanup happens at most once; at that
    point no daemon runs and no run is about to finish, and from then on every
    run is refused. *)
Theorem cleanup_once_idle peers a :
  app_reachable peers a ->
  (a_cleanups a <= 1)%nat /\
  (a_cleanups a = 1%nat -> a_daemon a = None /\ a_runs a = 0%nat /\ a_finishing a = 0%nat /\
     forall oneshot, App_run oneshot a = (a, Some ErrClosed)) /\
  (forall oneshot, a_daemon a <> None -> a_closed a = false -> App_run oneshot a = (a, Some ErrAlreadyRunning)).
Proof.
  intros Ha%app_reachable_inv. destruct Ha as [H1 H2 H3 H4 H5 H6 H7 H8]. split_and!.
  - rewrite H5. destruct (a_close a); lia.
  - intros Hc. rewrite H5 in Hc. destruct (a_close a); try done. specialize (H6 eq_refl).
    unfold App_run. rewrite H3. rewrite H6 in H2. destruct (a_running a); [done|].
    destruct (a_daemon a); [done|]. split_and!; [done..|cbn in H2; lia|done].
  - intros o Hd Hc. unfold App_run. rewrite Hc, H1. by destruct (a_daemon a).
Qed.


(** ** Witnesses *)

(** A schedule of a oneshot run: a main action, the worker taking a peer, and
    the worker done with it. *)
Inductive Move : Type := MAct | MTake | MTaken.
Definition move (l : list PeerId) (m : Move) (s : DaemonState) : option DaemonState :=
  match m with
  | MAct => match ds_phase s with
            | PShot (a :: rest) => with_phase (PShot rest) <$> act a l s
            | _ => None
            end
  | MTake => if bool_decide (EstablishWorker ∈ ds_workers s) then establish_take s else None
  | MTaken => if bool_decide (EstablishWorker ∈ ds_workers s)
              then match eq_active (ds_est s) with id :: _ => Some (with_est (worker_done (ds_est s) id) s) | [] => None end
              else None
  end.
Definition moves (l : list PeerId) (ms : list Move) (s : option DaemonState) : option DaemonState :=
  fold_left (fun s m => s ≫= move l m) ms s.

Lemma move_step l m s s' : move l m s = Some s' -> daemon_step true l s s'.
Proof.
  destruct m; cbn [move].
  - destruct (ds_phase s) as [| |[|a rest]| |] eqn:Hp; try done.
    destruct (act a l s) as [s1|] eqn:Ea; [|done]. intros [= <-]. by eapply d_act.
  - case_bool_decide as Hw; [|done]. rewrite list_elem_of_In in Hw. by apply d_take.
  - case_bool_decide as Hw; [|done]. rewrite list_elem_of_In in Hw.
    destruct (eq_active (ds_est s)) as [|id l'] eqn:Ea; [done|]. intros [= <-].
    apply d_taken; [done|]. rewrite Ea. by left.
Qed.

Lemma moves_reachable l ms s0 s s' : daemon_reachable true l s0 s -> moves l ms (Some s) = Some s' ->
  daemon_reachable true l s0 s'.
Proof.
  revert s. induction ms as [|m ms IH]; intros s Hr; [by intros [= <-]|]. cbn.
  destruct (move l m s) as [s1|] eqn:Em.
  - apply IH. econstructor; [done|by eapply move_step].
  - cbn. replace (fold_left _ ms None) with (None : option DaemonState); [done|]. clear. by induction ms.
Qed.

Definition w_peers : list PeerId := [NewPeerId [1] [2]].
Definition w_round : list Move := [MTake; MTaken; MAct; MAct; MAct; MAct; MAct].
Definition w_schedule : list Move := [MAct; MAct; MAct] ++ w_round ++ w_round ++ [MTake; MTaken; MAct; MAct].
Definition w_booted : DaemonState := boot true None w_peers (daemon_start NewPublisher NewEstablisher).
Definition w_shot : DaemonState := default w_booted (moves w_peers w_schedule (Some w_booted)).
Definition w_returned : DaemonState :=
  with_phase (PReturned None) (worker_exit EstablishWorker (leave None w_shot)).

Lemma w_quiet : quiet w_peers NewPublisher NewEstablisher.
Proof. apply (ai_quiet w_peers App_New). apply app_new_inv. Qed.

Lemma shot_returns l s0 s : daemon_reachable true l s0 s -> ds_phase s = PShot [] ->
  ds_workers s = [EstablishWorker] -> eq_active (ds_est s) = [] ->
  daemon_reachable true l s0 (with_phase (PReturned None) (worker_exit EstablishWorker (leave None s))).
Proof.
  intros Hr Hp Hw Ha. eapply dr_step; [eapply dr_step; [eapply dr_step; [done|by apply d_shot]|]|].
  - apply d_establish_exit; [cbn; rewrite Hw; by left|by apply orb_true_r|done].
  - apply d_return; [done|]. cbn. by rewrite Hw.
Qed.

Lemma w_returned_reachable : daemon_reachable true w_peers (daemon_start NewPublisher NewEstablisher) w_returned.
Proof.
  apply shot_returns; [|vm_compute; reflexivity..].
  apply (moves_reachable w_peers w_schedule _ w_booted); [|vm_compute; reflexivity].
  eapply dr_step; [constructor|]. apply d_boot; reflexivity.
Qed.


Lemma daemon_returns_clean_witness : ds_workers w_returned = [] /\ eq_active (ds_est w_returned) = [].
Proof.
  destruct (daemon_returns_clean true w_peers NewPublisher NewEstablisher w_returned None) as (H1 & H2 & _).
  - apply w_quiet.
  - apply w_returned_reachable.
  - reflexivity.
  - split; [exact H1|exact H2].
Defined.

Definition w_loop : DaemonState := boot false None w_peers (daemon_start NewPublisher NewEstablisher).

Definition w_closing : App := default App_New (close_step App_New).
Definition w_cancelled : App := default App_New (close_step w_closing).
Definition w_cleaned : App := default App_New (close_step w_cancelled).
Lemma cleanup_once_idle_witness :
  a_cleanups w_cleaned = 1%nat /\ App_run true w_cleaned = (w_cleaned, Some ErrClosed).
Proof.
  destruct (cleanup_once_idle w_peers w_cleaned) as (_ & H & _).
  - eapply ar_step; [eapply ar_step; [eapply ar_step; [constructor|]|]|];
      [apply (as_close _ App_New w_closing)|apply (as_close _ w_closing w_cancelled)|apply (as_close _ w_cancelled w_cleaned)];
      reflexivity.
  - split; [reflexivity|]. apply H. reflexivity.
Defined.

