(* ===== verification/EndToEnd.v ===== *)
(** * Two hosts and a relay: the components together

    A publish cycle on one host, a lookup on the other, the update through the
    relay there, and what the relay then does with datagrams. *)

From S2P Require Import Prelude GoStr Codec Netip Validation Json Discovery Entity Plugin Config Stunwire Demux.
From S2P Require Import Proxy ProxyFacts RelaySpec Wg WgFacts Ctrl CtrlFacts.

(** The table entry a programmed peer has. *)
Lemma remote_owner p key ps remote :
  proxy_inv p -> px_peers p !! key = Some ps -> ps_remote ps = Some remote ->
  owner (abs p) remote = Some key /\ r_remote (abs p) !! key = Some (Some remote).
Proof.
  intros Hp Hk Hr. split.
  - rewrite owner_abs by done. destruct Hp as ((Hm & _) & H1 & _). apply Hm. rewrite <-Hr. symmetry. by apply H1.
  - cbn. by rewrite lookup_fmap, Hk, <-Hr.
Qed.

(** C2: Two hosts meet through a relay: host a publishes what it discovered, host
    b looks a up and applies the update with the relay on.  When the update
    succeeded, b's kernel was told one thing, the loopback address of a's inner
    socket; what b's WireGuard sends there leaves toward exactly the endpoint a
    discovered, when the relay has a socket of that family; what comes from that
    endpoint and is not STUN is handed to b's WireGuard from that inner socket;
    and nothing from anywhere else is ever handed to it as coming from a. *)
Theorem hosts_meet_through_relay `{UnicodeTables} `{Platform}
    (resolver : StunResolver) (plugins_a plugins_b : PluginProvider) reader
    a b peers_a devices_a peer_a device_a e4 e6 published
    now peers_b devices_b sels peer_b device_b store e
    interfaces env configured m m' calls :
  length a = 32%nat -> length b = 32%nat ->
  Peers_Find peers_a (NewPeerId a b) = Ok peer_a -> Id peer_a = NewPeerId a b ->
  Devices_Find devices_a (DeviceName peer_a) = Ok device_a ->
  discoverEndpoints device_a = Ok (e4, e6) ->
  In published (Publish_ExecuteForPeer peers_a devices_a (NewPeerId a b)) ->
  Peers_Find peers_b (NewPeerId b a) = Ok peer_b -> Id peer_b = NewPeerId b a ->
  Devices_Find devices_b (DeviceName peer_b) = Ok device_b ->
  @provide plugins_b (Plugin peer_b) = Ok store ->
  store_Get store (ss_key published) = Ok [ss_data published] ->
  (forall PeerHealth, reader = Some PeerHealth ->
     exists health, PeerHealth (dName device_b) (PublicKey peer_b) = Ok health /\
       (Working (default Selection0 (sels !! Id peer_b)) health now).2 = false) ->
  SelectEndpoint (mkRecord 2 e4 e6) (Protocol peer_b) (Devices_Status devices_b (dName device_b)) = Ok e ->
  Allowed e [] = true ->
  (* b's relay applies the update *)
  GetProxyEnabled interfaces (DeviceName peer_b) = true -> env_ok env -> manager_ok m ->
  (forall u, (Establish_Execute reader now peers_b devices_b sels (NewPeerId b a)).2 = Some u ->
     proxy_UpdatePeerEndpoint interfaces env configured m u = (m', calls, Ok tt)) ->
  exists ep p ps, Endpoint e = Ok ep /\ m_proxies m' !! DeviceName peer_b = Some p /\
    px_peers p !! PublicKey peer_b = Some ps /\ loopback_port (ps_innerAddr ps) /\
    calls = [ConfigureDevice (DeviceName peer_b) (PublicKey peer_b) UpdateOnly (ps_innerAddr ps)] /\
    (forall data, familyOf (normalize ep) ∈ dom (px_outer p) ->
       (innerLoop_body p (PublicKey peer_b) data true).2 = [OuterWrite (familyOf (normalize ep)) (normalize ep) data]) /\
    (forall src data, isSTUNShaped data = false -> normalize src = normalize ep -> px_wgPort p <> 0 ->
       (outerLoop_body p src data true).2 =
         [InnerWrite (PublicKey peer_b) (mkAP (Addr4 (127 * 2 ^ 24 + 1)) (px_wgPort p)) data]) /\
    (forall src data ok dst d, In (InnerWrite (PublicKey peer_b) dst d) (outerLoop_body p src data ok).2 ->
       normalize src = normalize ep).
Proof.
  intros Ha Hb Hpa Hida Hda Hdisc Hpub Hpb Hidb Hdb Hst Hget Hw Hsel Hall Hen He Hm Hup.
  destruct (meet resolver plugins_a plugins_b reader a b peers_a devices_a peer_a device_a e4 e6 published
    now peers_b devices_b sels peer_b device_b store e) as (ep & H1 & H2 & H3); [done..|].
  specialize (Hup _ H2). apply proxy_update_calls in Hup as [Hm' [[_ Hf]|Hok]]; [done| |done..].
  destruct Hok as (remote & p & ps & Hr & Hp & Hps & Hrem & Hlo & Hcalls & _).
  cbn [uHost uPort uDeviceName uPublicKey] in *. rewrite H3 in Hr. injection Hr as <-.
  destruct (Hm' _ _ Hp) as [Hreach _]. apply proxy_reachable_inv in Hreach as Hi.
  destruct (remote_owner _ _ _ _ Hi Hps Hrem) as [Hown Htab].
  exists ep, p, ps. split_and!; try done.
  - intros data Hfam. destruct (inner_exact p (PublicKey peer_b) data true Hi) as [_ ->].
    unfold relay_out. rewrite Htab. by rewrite bool_decide_true.
  - intros src data Hs Hsrc Hwg. destruct (outer_exact p src data true Hi) as [_ ->].
    unfold relay_in. rewrite Hs, Hsrc, Hown. cbn [abs r_wg]. by destruct (Z.eqb_spec (px_wgPort p) 0).
  - intros src data ok dst d. destruct (outer_exact p src data ok Hi) as [_ ->]. destruct ok; [|done].
    unfold relay_in. destruct (isSTUNShaped data); [done|].
    destruct (owner (abs p) (normalize src)) as [k|] eqn:Eo; [|done]. destruct (_ =? _); [done|].
    intros [[= -> _ _]|[]]. apply owner_some in Eo. rewrite Htab in Eo. congruence.
Qed.

(** ** Witness *)

#[local] Existing Instance ascii_tables.
#[local] Existing Instance linux.

Definition w_store : Store :=
  mkStore (fun key => if key =s EndpointKey w_id then Ok [CtrlFacts.w_data] else Ok []) (fun _ _ => Ok tt).
Definition w_meet_update : option PeerEndpointUpdate :=
  (@Establish_Execute _ w_plugins_b None 1 (w_peers w_b w_a) w_devices ∅ (NewPeerId w_b w_a)).2.
Definition w_relayed : Manager * list WgCall * result unit :=
  match w_meet_update with
  | Some u => proxy_UpdatePeerEndpoint w_ifaces w_env (Ok tt) NewManager u
  | None => (NewManager, [], Ok tt)
  end.

Lemma hosts_meet_through_relay_witness :
  exists ep p, Endpoint "198.51.100.9:41000" = Ok ep /\ m_proxies w_relayed.1.1 !! "wg0" = Some p /\
    (innerLoop_body p w_a [4; 0; 0; 0] true).2 = [OuterWrite 1 (normalize ep) [4; 0; 0; 0]].
Proof.
  destruct (hosts_meet_through_relay w_resolver w_plugins w_plugins_b None w_a w_b (w_peers w_a w_b) w_devices
    (w_peer_of w_a w_b) w_dev "198.51.100.9:41000" "" (mkSet "dht" (EndpointKey w_id) CtrlFacts.w_data)
    1 (w_peers w_b w_a) w_devices ∅ (w_peer_of w_b w_a) w_dev w_store "198.51.100.9:41000"
    w_ifaces w_env (Ok tt) NewManager w_relayed.1.1 w_relayed.1.2)
    as (ep & p & ps & H1 & H2 & _ & _ & _ & H3 & _).
  1-5: vm_compute; reflexivity.
  - vm_compute. reflexivity.
  - vm_compute. by left.
  - vm_compute. reflexivity.
  - reflexivity.
  - vm_compute. reflexivity.
  - reflexivity.
  - cbn [store_Get ss_key ss_data w_store]. by rewrite String.eqb_refl.
  - discriminate.
  - vm_compute. reflexivity.
  - vm_compute. reflexivity.
  - vm_compute. reflexivity.
  - exact w_env_ok.
  - exact w_manager_ok.
  - intros u Hu. change (w_meet_update = Some u) in Hu. unfold w_relayed. rewrite Hu.
    assert (match w_meet_update with
            | Some u => is_ok (proxy_UpdatePeerEndpoint w_ifaces w_env (Ok tt) NewManager u).2
            | None => false end = true) as Hok by (vm_compute; reflexivity).
    rewrite Hu in Hok. destruct (proxy_UpdatePeerEndpoint w_ifaces w_env (Ok tt) NewManager u) as [[m c] [[]|err]]; [reflexivity|discriminate Hok].
  - exists ep, p. split; [exact H1|]. split; [exact H2|].
    assert (familyOf (normalize ep) = 1) as Hfam by (vm_compute in H1; injection H1 as <-; vm_compute; reflexivity).
    rewrite <-Hfam. apply H3. rewrite Hfam.
    assert (match m_proxies w_relayed.1.1 !! "wg0" with Some q => bool_decide (1 ∈ dom (px_outer q)) | None => false end = true)
      as Hd by (vm_compute; reflexivity).
    change (DeviceName (w_peer_of w_b w_a)) with "wg0" in H2. rewrite H2 in Hd. by apply bool_decide_eq_true in Hd.
Defined.
