(* ===== verification/Wiring.v ===== *)
(** * app/wiring.go, app/proxy_stack.go, internal/logger: an application put together

    What [app.New] acquires, in which order, what it gives back when a later
    step fails, and what the application's cleanup releases. *)

From S2P Require Import Prelude GoStr Codec Validation Entity Plugin PluginFacts Config ConfigFacts Proxy Wg.

(** ** logger.NewLogger *)

Record LogSetup := mkLogSetup { ls_json : bool; ls_level : string }.
(** The level [zerolog] will filter at: an unset one is the default, and one it
    cannot parse is info. *)
Definition NewLogger `{ConfigEnv} (l : Logger) : LogSetup :=
  let level := if Level l =s "" then "info" else Level l in
  mkLogSetup (Format l =s "json") (if zerolog_ParseLevel level then level else "info").

(** ** The resources of an application *)

Record Resources := mkResources {
  rs_wg : bool;                       (* the WireGuard control client is open *)
  rs_proxies : Proxy.Manager;
  rs_stores : Plugin.Manager
}.
Definition no_resources : Resources := mkResources false Proxy.NewManager Plugin.NewManager.
(** Where opening the control client can fail. *)
Record WiringEnv := mkWiringEnv { we_look_path : bool; we_wgctrl : bool }.
Definition wg_New (env : WiringEnv) : result unit :=
  if negb (we_look_path env) then Err (ENew "exec: wg: executable file not found in $PATH")
  else if negb (we_wgctrl env) then Err (ENew "wgctrl error") else Ok tt.
(** The proxy client's [Close]: the control client, then every proxy. *)
Definition client_Close (r : Resources) : Resources := mkResources false (Proxy.Manager_Close (rs_proxies r)) (rs_stores r).
Definition stores_Close (r : Resources) : Resources := mkResources (rs_wg r) (rs_proxies r) (Plugin.Manager_Close (rs_stores r)).1.

Section wiring.
Context `{UnicodeTables} `{UrlLib} `{ConfigEnv}.

Definition newProxyStack (env : WiringEnv) (r : Resources) : Resources * result (Resources -> Resources) :=
  match wg_New env with
  | Err e => (r, Err e)
  | Ok _ => (mkResources true Proxy.NewManager (rs_stores r), Ok client_Close)
  end.
Definition providePluginManager (cfg : Config) (r : Resources) : Resources * result (Resources -> Resources) :=
  match LoadPlugins Plugin.NewManager (cPlugins cfg) with
  | (_, Err e) => (r, Err e)
  | (m, Ok _) => (mkResources (rs_wg r) (rs_proxies r) m, Ok stores_Close)
  end.
(** [setup] and the cleanup it returns. *)
Definition setup (env : WiringEnv) (cfg : Config) (r : Resources) : Resources * result (Resources -> Resources) :=
  match newProxyStack env r with
  | (r, Err e) => (r, Err e)
  | (r, Ok cleanup) =>
      match providePluginManager cfg r with
      | (r, Err e) => (cleanup r, Err e)
      | (r, Ok cleanup2) => (r, Ok (fun r => cleanup (cleanup2 r)))
      end
  end.
(** [app.New] with the options' file and directory. *)
Definition app_New (env : WiringEnv) (file dir : string) (paths : list string) : Resources * result (Config * (Resources -> Resources)) :=
  match load file dir paths with
  | Err e => (no_resources, Err e)
  | Ok cfg =>
      match setup env cfg no_resources with
      | (r, Err e) => (r, Err e)
      | (r, Ok cleanup) => (r, Ok (cfg, cleanup))
      end
  end.

(** ** Nothing leaks *)

(** Nothing that was acquired is held any more. *)
Definition released (r : Resources) : Prop :=
  rs_wg r = false /\ m_proxies (rs_proxies r) = ∅ /\ rs_stores r = ∅.
End wiring.

(** ** Witness *)

#[local] Instance w_tables : UnicodeTables := {| lower_rune := fun r => r |}.
#[local] Existing Instance sample_urls.
#[local] Existing Instance sample_env.
Lemma w_loads : load "/etc/stunmesh/config.yaml" "" [] = Ok sample_config.
Proof.
  unfold load. cbv zeta. do 2 eval_head.
  match goal with |- context [validateConfigForGOOS ?c] => change c with sample_config end.
  rewrite sample_valid. reflexivity.
Qed.
Definition w_acquired : Resources := mkResources true Proxy.NewManager Plugin.NewManager.
Lemma w_app_New : app_New (mkWiringEnv true true) "/etc/stunmesh/config.yaml" "" [] =
  (w_acquired, Ok (sample_config, fun r => client_Close (stores_Close r))).
Proof. unfold app_New. rewrite w_loads. vm_compute. reflexivity. Qed.
