(* ===== verification/AppGraph.v ===== *)
(** * app/wiring.go: which object holds which

    The theorems on the controllers speak of one repository, one relay manager
    and one pair of controllers; this file builds the objects of an application
    the way [setup] does, as references into a store, and shows that they are
    shared that way. *)

From S2P Require Import Prelude Entity Config Ctrl Wiring.

Notation Ref := nat.

(** One constructor per constructor function, its arguments the references it is
    given and the state of its own that others cannot reach without it. *)
Inductive Obj :=
| OConfig (cfg : Config)
| ODeviceConfig (interfaces : Interfaces)
| OProxyManager
| OCtrlClient
| OProxyClient (inner manager config : Ref)
| OLookupFactory (manager : Ref)
| OResolver (config deviceConfig newClient : Ref)
| ODevices
| OPeers (wgCtrl : Ref)
| OFilter (deviceChecker configProvider : Ref)
| OBootstrap (wg config deviceConfig devices peers filterService : Ref)
| OPlugins
| OPublish (devices peers pluginManager resolver deviceConfig : Ref) (queues : Publisher)
| OEstablish (wgCtrl devices peers pluginManager deviceConfig : Ref) (queue : Establisher)
| OPing (config devices peers publishCtrl establishCtrl : Ref)
| ODaemon (config bootCtrl publishCtrl establishCtrl pingMonitor : Ref).

(** The store, with allocation as the one effect. *)
Definition Heap : Type := list Obj.
Definition Build (A : Type) : Type := Heap -> Heap * A.
Definition alloc (o : Obj) : Build Ref := fun h => (h ++ [o], length h).
Definition build_bind {A B} (m : Build A) (k : A -> Build B) : Build B := fun h => let '(h, a) := m h in k a h.
Definition build_ret {A} (a : A) : Build A := fun h => (h, a).
Local Notation "'let!' x := m 'in' k" := (build_bind m (fun x => k)) (at level 200, x pattern, m at level 100, k at level 200).

(** ** The constructors *)

Definition NewDeviceConfig (cfg : Config) : Build Ref := alloc (ODeviceConfig (cInterfaces cfg)).
Definition NewProxyClient (inner manager config : Ref) : Build Ref := alloc (OProxyClient inner manager config).
Definition NewResolverWithFactory (config deviceConfig factory : Ref) : Build Ref :=
  alloc (OResolver config deviceConfig factory).
Definition repo_NewPeers (wgCtrl : Ref) : Build Ref := alloc (OPeers wgCtrl).
Definition NewFilterPeerService (deviceChecker configProvider : Ref) : Build Ref := alloc (OFilter deviceChecker configProvider).
Definition NewBootstrapController (wg config deviceConfig devices peers filterService : Ref) : Build Ref :=
  alloc (OBootstrap wg config deviceConfig devices peers filterService).
Definition NewPublishController (devices peers pluginManager resolver deviceConfig : Ref) : Build Ref :=
  alloc (OPublish devices peers pluginManager resolver deviceConfig NewPublisher).
Definition NewEstablishController (ctrl devices peers pluginManager deviceConfig : Ref) : Build Ref :=
  alloc (OEstablish ctrl devices peers pluginManager deviceConfig NewEstablisher).
Definition NewPingMonitorController (config devices peers publishCtrl establishCtrl : Ref) : Build Ref :=
  alloc (OPing config devices peers publishCtrl establishCtrl).
Definition daemon_New (config boot publish establish pingMonitor : Ref) : Build Ref :=
  alloc (ODaemon config boot publish establish pingMonitor).

(** ** The composition, when nothing fails *)

Record proxyStack := mkProxyStack { psClient : Ref; psResolver : Ref }.
Definition build_proxyStack (cfg dc : Ref) : Build proxyStack :=
  let! manager := alloc OProxyManager in
  let! inner := alloc OCtrlClient in
  let! client := NewProxyClient inner manager dc in
  let! factory := alloc (OLookupFactory manager) in
  let! resolver := NewResolverWithFactory cfg dc factory in
  build_ret (mkProxyStack client resolver).
Definition build (cfg : Config) : Build Ref :=
  let! config := alloc (OConfig cfg) in
  let! deviceConfig := NewDeviceConfig cfg in
  let! stack := build_proxyStack config deviceConfig in
  let client := psClient stack in
  let! devices := alloc ODevices in
  let! peers := repo_NewPeers client in
  let! filterPeerService := NewFilterPeerService peers deviceConfig in
  let! bootstrapController := NewBootstrapController client config deviceConfig devices peers filterPeerService in
  let! manager := alloc OPlugins in
  let! publishController := NewPublishController devices peers manager (psResolver stack) deviceConfig in
  let! establishController := NewEstablishController client devices peers manager deviceConfig in
  let! pingMonitorController := NewPingMonitorController config devices peers publishController establishController in
  daemon_New config bootstrapController publishController establishController pingMonitorController.

(** ** What is shared *)

(** The object of an application with the parts a reader can follow to. *)
Record shared (cfg : Config) (h : Heap) (daemon : Ref) (config deviceConfig client relay devices peers plugins publish establish : Ref)
  : Prop := {
  sh_config : h !! config = Some (OConfig cfg);
  sh_device : h !! deviceConfig = Some (ODeviceConfig (cInterfaces cfg));
  sh_daemon : exists boot ping, h !! daemon = Some (ODaemon config boot publish establish ping) /\
    (exists filter, h !! boot = Some (OBootstrap client config deviceConfig devices peers filter) /\
       h !! filter = Some (OFilter peers deviceConfig)) /\
    h !! ping = Some (OPing config devices peers publish establish);
  sh_publish : exists resolver, h !! publish = Some (OPublish devices peers plugins resolver deviceConfig NewPublisher) /\
    exists factory, h !! resolver = Some (OResolver config deviceConfig factory) /\ h !! factory = Some (OLookupFactory relay);
  sh_establish : h !! establish = Some (OEstablish client devices peers plugins deviceConfig NewEstablisher);
  sh_client : exists inner, h !! client = Some (OProxyClient inner relay deviceConfig) /\ h !! inner = Some OCtrlClient;
  sh_relay : h !! relay = Some OProxyManager;
  sh_devices : h !! devices = Some ODevices;
  sh_peers : h !! peers = Some (OPeers client);
  sh_plugins : h !! plugins = Some OPlugins
}.

(** An application is one: the daemon's bootstrap, publish, establish and ping
    controllers all read and write the same two repositories; the ping monitor
    triggers the very controllers the daemon runs; publish and establish use the
    same stores; and the STUN exchanges of discovery go through the relay that
    the client programs, so that what is published is the address of the sockets
    the traffic uses. *)
Theorem build_shared cfg h :
  exists config deviceConfig client relay devices peers plugins publish establish,
    shared cfg (build cfg h).1 (build cfg h).2 config deviceConfig client relay devices peers plugins publish establish /\
    NoDup [config; deviceConfig; client; relay; devices; peers; plugins; publish; establish; (build cfg h).2] /\
    exists new, (build cfg h).1 = h ++ new.
Proof.
  set (n := length h).
  assert (build cfg h = (h ++ [OConfig cfg; ODeviceConfig (cInterfaces cfg); OProxyManager; OCtrlClient;
    OProxyClient (n + 3) (n + 2) (n + 1); OLookupFactory (n + 2); OResolver (n + 0) (n + 1) (n + 5); ODevices; OPeers (n + 4);
    OFilter (n + 8) (n + 1); OBootstrap (n + 4) (n + 0) (n + 1) (n + 7) (n + 8) (n + 9); OPlugins;
    OPublish (n + 7) (n + 8) (n + 11) (n + 6) (n + 1) NewPublisher;
    OEstablish (n + 4) (n + 7) (n + 8) (n + 11) (n + 1) NewEstablisher;
    OPing (n + 0) (n + 7) (n + 8) (n + 12) (n + 13);
    ODaemon (n + 0) (n + 10) (n + 12) (n + 13) (n + 14)], n + 15))%nat as ->.
  { cbv [build build_proxyStack build_bind build_ret alloc NewDeviceConfig NewProxyClient NewResolverWithFactory
      repo_NewPeers NewFilterPeerService NewBootstrapController NewPublishController NewEstablishController
      NewPingMonitorController daemon_New psClient psResolver].
    rewrite <-!app_assoc, !length_app. cbn [length app]. fold n.
    rewrite Nat.add_0_r. done. }
  assert (forall i o l, l !! i = Some o -> (h ++ l) !! (n + i)%nat = Some o) as Hl.
  { intros i o l Hi. rewrite lookup_app_r by lia. by replace (n + i - length h)%nat with i by lia. }
  exists (n + 0)%nat, (n + 1)%nat, (n + 4)%nat, (n + 2)%nat, (n + 7)%nat, (n + 8)%nat, (n + 11)%nat, (n + 12)%nat, (n + 13)%nat.
  cbn [fst snd]. split; [|split; [|by eexists]].
  - split; try (by apply Hl).
    + exists (n + 10)%nat, (n + 14)%nat. split_and!; [by apply Hl|exists (n + 9)%nat; split; by apply Hl|by apply Hl].
    + exists (n + 6)%nat. split; [by apply Hl|exists (n + 5)%nat; split; by apply Hl].
    + exists (n + 3)%nat. split; by apply Hl.
  - repeat (apply list.NoDup_cons; split; [rewrite ?list_elem_of_In; cbn; lia|]). constructor.
Qed.
