(* ===== verification/Stun.v ===== *)
(** * internal/stun: discovering a device's public endpoint

    resolver.go over any client, proxy_client.go (the client that rides the
    relay's outer socket) and factory.go.  The client's exchanges are answered
    by the environment, one answer per attempt. *)

From S2P Require Import Prelude GoStr Netip Stunwire Config Routeprobe Dialer Ctrl.

(** ** resolver.go *)

Definition ErrAllServersFailed : error := ENew "all STUN servers failed".

(** A [StunClient]: the outcome of its [n]th [Connect], and of [Stop]. *)
Record StunClient := mkClient {
  client_Connect : nat -> string -> result (string * Z);
  client_Stop : option error
}.
(** device, port, protocol, firewall mark, listen interfaces, listen default route *)
Definition ClientFactory : Type := string -> Z -> string -> Z -> list string -> bool -> result StunClient.

Inductive ClientCall : Type := CallStart | CallConnect (server : string) | CallStop.

(** The loop over the servers; [n] attempts were made before. *)
Fixpoint try_servers (stun : StunClient) (n : nat) (servers : list string)
  : result (string * Z) * list ClientCall :=
  match servers with
  | [] => (Err ErrAllServersFailed, [])
  | server :: rest =>
      let next := let '(r, calls) := try_servers stun (S n) rest in (r, CallConnect server :: calls) in
      match client_Connect stun n server with
      | Err _ => next
      | Ok (host, discoveredPort) =>
          if (discoveredPort =? 0) || (host =s "") then next
          else (Ok (host, discoveredPort), [CallConnect server])
      end
  end.

Section resolver.
Variable cfg : Stun.
Variable interfaces : Interfaces.
Variable newClient : ClientFactory.

(** The result and the client's calls; [Stop] is deferred, its error logged. *)
Definition Resolver_Resolve (deviceName : string) (port : Z) (protocol : string) (firewallMark : Z)
  : result (string * Z) * list ClientCall :=
  let '(listenInterfaces, listenDefaultRoute) := GetListenConfig interfaces deviceName in
  match newClient deviceName port protocol firewallMark listenInterfaces listenDefaultRoute with
  | Err e => (Err e, [])
  | Ok stun =>
      let '(r, calls) := try_servers stun 0 (GetServers cfg) in
      (r, CallStart :: calls ++ [CallStop])
  end.

(** What the publish controller sees. *)
#[local] Instance Resolver_StunResolver : StunResolver :=
  {| Resolve device port protocol mark := (Resolver_Resolve device port protocol mark).1 |}.
End resolver.

(** ** factory.go *)

Definition defaultClientFactory : ClientFactory :=
  fun _ _ _ _ _ _ => Err (ENew "STUN requires the shared UDP proxy transport").

(** ** proxy_client.go *)

Definition ErrTxnIDMismatch : error := ENew "stun: response transaction ID does not match request".

(** The transport and what else a [Connect] draws on: the resolver and the
    random source, by attempt. *)
Class StunEnv := {
  env_lookup : nat -> string -> string -> result (Addr * list Addr);
  env_random : nat -> option TxnID;
}.
Record StunTransport := mkTransport {
  transport_Exchange : nat -> AddrPort -> TxnID -> list Z -> result (list Z)
}.

Definition parseBindingResponse (raw : list Z) (txnID : TxnID) : result (string * Z) :=
  if IsSTUN raw && negb (bool_decide (TxnIDOf raw = txnID)) then Err ErrTxnIDMismatch
  else
    let? ep := ParseResponse raw txnID in
    Ok (Addr_String (ap_addr ep), ap_port ep).

Section proxy_client.
Context `{StunEnv}.

Definition proxy_Connect (transport : StunTransport) (protocol : string) (n : nat) (stunAddr : string)
  : result (string * Z) :=
  let network := if protocol =s "ipv6" then "udp6" else "udp4" in
  let? server := ResolveAddrPort (env_lookup n) network stunAddr in
  let? (req, txn) := BuildRequest (env_random n) in
  let? raw := transport_Exchange transport n server txn req in
  parseBindingResponse raw txn.

(** [Start] and [Stop] are empty. *)
Definition NewProxyBacked (transport : StunTransport) (protocol : string) : StunClient :=
  mkClient (proxy_Connect transport protocol) None.

(** The socket arguments only cause a warning. *)
Definition NewProxyLookupFactory (lookup : string -> result StunTransport) : ClientFactory :=
  fun deviceName _ protocol _ _ _ =>
    let? transport := lookup deviceName in
    Ok (NewProxyBacked transport protocol).
End proxy_client.
