(* ===== verification/StunFacts.v ===== *)
(** * Theorems on the STUN resolver and its relay client *)

From S2P Require Import Prelude GoStr Netip NetipFacts Stunwire Validation Discovery TextFacts Entity Config Demux Routeprobe Proxy ProxyFacts Dialer Ctrl Stun.

(** ** The servers are tried in order *)

(** The [n]th attempt gives a usable endpoint. *)
Definition usable_answer (stun : StunClient) (n : nat) (server : string) (host : string) (port : Z) : Prop :=
  client_Connect stun n server = Ok (host, port) /\ port <> 0 /\ host <> "".
Definition failed_answer (stun : StunClient) (n : nat) (server : string) : Prop :=
  forall host port, ~ usable_answer stun n server host port.

Lemma try_servers_spec stun servers : forall n r calls,
  try_servers stun n servers = (r, calls) ->
  (exists pre s post host port, servers = pre ++ s :: post /\
     (forall i q, pre !! i = Some q -> failed_answer stun (n + i) q) /\
     usable_answer stun (n + length pre) s host port /\
     r = Ok (host, port) /\ calls = map CallConnect (pre ++ [s])) \/
  ((forall i q, servers !! i = Some q -> failed_answer stun (n + i) q) /\
   r = Err ErrAllServersFailed /\ calls = map CallConnect servers).
Proof.
  induction servers as [|s rest IH]; intros n r calls E; cbn [try_servers] in E.
  { right. injection E as <- <-. done. }
  destruct (try_servers stun (S n) rest) as [r' calls'] eqn:Er.
  assert (failed_answer stun n s -> (r', CallConnect s :: calls') = (r, calls) ->
    (exists pre q post host port, s :: rest = pre ++ q :: post /\
     (forall i q, pre !! i = Some q -> failed_answer stun (n + i) q) /\
     usable_answer stun (n + length pre) q host port /\
     r = Ok (host, port) /\ calls = map CallConnect (pre ++ [q])) \/
    ((forall i q, (s :: rest) !! i = Some q -> failed_answer stun (n + i) q) /\
     r = Err ErrAllServersFailed /\ calls = map CallConnect (s :: rest))) as Hnext.
  { intros Hs [= <- <-].
    assert (forall l : list string, (forall i q, l !! i = Some q -> failed_answer stun (S n + i) q) ->
      forall i q, (s :: l) !! i = Some q -> failed_answer stun (n + i) q) as Hcons.
    { intros l Hl [|i] q Hq; cbn in Hq; [injection Hq as <-; by rewrite Nat.add_0_r|].
      rewrite <-Nat.add_succ_comm. by apply Hl. }
    destruct (IH _ _ _ Er) as [(pre & q & post & host & port & -> & Hpre & Hq & -> & ->)|(Hall & -> & ->)].
    - left. exists (s :: pre), q, post, host, port. split_and!; try done; [by apply Hcons|].
      cbn [length]. by rewrite <-Nat.add_succ_comm.
    - right. split_and!; try done. by apply Hcons. }
  unfold failed_answer, usable_answer in Hnext.
  destruct (client_Connect stun n s) as [[host port]|e] eqn:Ec; [|apply Hnext; [by intros ? ? (? & _)|done]].
  destruct (Z.eqb_spec port 0) as [Hz|Hz]; [apply Hnext; [|done]; intros ? ? (? & ? & _); simplify_eq|].
  destruct (String.eqb_spec host "") as [He|He]; [apply Hnext; [|done]; intros ? ? (? & _ & ?); simplify_eq|].
  cbn [orb] in E. injection E as <- <-. left. exists [], s, rest, host, port.
  split_and!; try done. unfold usable_answer. by rewrite Nat.add_0_r.
Qed.

Lemma try_servers_range stun servers n host port :
  (try_servers stun n servers).1 = Ok (host, port) ->
  exists i s, In s servers /\ usable_answer stun i s host port.
Proof.
  destruct (try_servers stun n servers) as [r calls] eqn:E. cbn. intros ->.
  apply try_servers_spec in E as [(pre & s & post & h & p & -> & _ & Hu & [= -> ->] & _)|(_ & ? & _)]; [|done].
  exists (n + length pre)%nat, s. split; [|done]. apply in_app_iff. right. by left.
Qed.

(** Discovery asks the configured servers in order, each at most once, and
    stops at the first usable answer; it fails only after all of them failed,
    and the client it started is stopped either way. *)
Theorem Resolver_Resolve_spec cfg interfaces newClient device port protocol mark stun :
  newClient device port protocol mark (GetListenConfig interfaces device).1
    (GetListenConfig interfaces device).2 = Ok stun ->
  exists asked later r, GetServers cfg = asked ++ later /\
    Resolver_Resolve cfg interfaces newClient device port protocol mark
      = (r, CallStart :: map CallConnect asked ++ [CallStop]) /\
    match r with
    | Ok (h, p) => exists pre s, asked = pre ++ [s] /\
        (forall i q, pre !! i = Some q -> failed_answer stun i q) /\ usable_answer stun (length pre) s h p
    | Err e => e = ErrAllServersFailed /\ later = [] /\ forall i s, asked !! i = Some s -> failed_answer stun i s
    end.
Proof.
  intros Hc. unfold Resolver_Resolve. destruct (GetListenConfig interfaces device) as [li ld]. cbn in Hc. rewrite Hc.
  destruct (try_servers stun 0 (GetServers cfg)) as [r calls] eqn:E.
  apply try_servers_spec in E as [(pre & s & post & host & p & Hs & Hpre & Hu & -> & ->)|(Hall & -> & ->)].
  - exists (pre ++ [s]), post, (Ok (host, p)). rewrite <-app_assoc. split_and!; try done. by exists pre, s.
  - exists (GetServers cfg), [], (Err ErrAllServersFailed). by rewrite app_nil_r.
Qed.

(** ** Over the relay *)

(** What the relay promises of an exchange: a reply is a success response of
    the transaction. *)
Class TransportLaw (t : StunTransport) : Prop := {
  exchange_parses n server txn req raw :
    length txn = 12%nat -> transport_Exchange t n server txn req = Ok raw ->
    bytes_ok raw /\ is_ok (ParseResponse raw txn) = true
}.

(** The random source yields transaction identifiers: twelve bytes. *)
Definition random_ok `{StunEnv} : Prop :=
  forall n txn, env_random n = Some txn -> length txn = 12%nat /\ bytes_ok txn.

Lemma good_mapped_endpoint ep : good_mapped ep -> endpoint_ok ep /\ IsUnspecified (ap_addr ep) = false.
Proof.
  intros (Hp & Hg & H4 & Hz & Hr).
  pose proof (IsGlobalUnicast_not_unspecified _ H4 Hg) as Hu. split; [|done].
  assert (addr_wf (ap_addr ep)) as Hwf by (by destruct (ap_addr ep)).
  assert (IsMulticast (ap_addr ep) = false /\ IsLinkLocalUnicast (ap_addr ep) = false) as [? ?].
  { unfold IsGlobalUnicast in Hg. rewrite Unmap_fixed in Hg by done.
    destruct (ap_addr ep) as [|v|v z]; [done|..]; rewrite !andb_true_iff, !negb_true_iff in Hg; tauto. }
  unfold endpoint_ok. split_and!; try done; lia.
Qed.

Section relay_client.
Context `{StunEnv}.

(** Where a usable answer of the relay's client comes from. *)
Lemma proxy_Connect_inv t protocol n stunAddr host port :
  TransportLaw t -> random_ok -> proxy_Connect t protocol n stunAddr = Ok (host, port) ->
  exists server txn req raw ep,
    ResolveAddrPort (env_lookup n) (if protocol =s "ipv6" then "udp6" else "udp4") stunAddr = Ok server /\
    env_random n = Some txn /\ transport_Exchange t n server txn req = Ok raw /\
    ParseResponse raw txn = Ok ep /\ good_mapped ep /\
    host = Addr_String (ap_addr ep) /\ port = ap_port ep.
Proof.
  intros Ht Hr. unfold proxy_Connect. cbv zeta.
  destruct (ResolveAddrPort _ _ _) as [server|]; [|done].
  unfold BuildRequest. destruct (env_random n) as [txn|] eqn:Er; [|done]. cbv zeta beta iota.
  set (req := put_be16 _ ++ _). destruct (transport_Exchange t n server txn req) as [raw|] eqn:Ex; [|done].
  destruct (Hr _ _ Er) as [Hl Hb]. destruct (exchange_parses _ _ _ _ _ Hl Ex) as [Hraw _].
  unfold parseBindingResponse. destruct (_ && _); [done|].
  destruct (ParseResponse raw txn) as [ep|] eqn:Ep; [|done]. intros [= <- <-].
  exists server, txn, req, raw, ep. split_and!; try done. by apply (ParseResponse_good raw txn ep).
Qed.

(** The relay never has to report a foreign transaction: its replies answer
    the transaction they were asked for. *)
Lemma relay_never_mismatched t protocol n stunAddr :
  TransportLaw t -> random_ok ->
  (forall server txn req e, transport_Exchange t n server txn req = Err e -> e <> ErrTxnIDMismatch) ->
  (forall network, ResolveAddrPort (env_lookup n) network stunAddr <> Err ErrTxnIDMismatch) ->
  proxy_Connect t protocol n stunAddr <> Err ErrTxnIDMismatch.
Proof.
  intros Ht Hr Hx Hres. unfold proxy_Connect. cbv zeta.
  destruct (ResolveAddrPort _ _ _) as [server|e] eqn:E1; [|intros [= ->]; by eapply Hres].
  unfold BuildRequest. destruct (env_random n) as [txn|] eqn:Er; [|done]. cbv zeta beta iota.
  set (req := put_be16 _ ++ _). destruct (transport_Exchange t n server txn req) as [raw|e] eqn:Ex;
    [|intros [= ->]; by eapply Hx].
  destruct (Hr _ _ Er) as [Hl _]. destruct (exchange_parses _ _ _ _ _ Hl Ex) as [_ Hp].
  unfold parseBindingResponse. unfold ParseResponse in *.
  destruct (bool_decide (TxnIDOf raw = txn)) eqn:Ht'; cbn [negb andb]; [rewrite andb_false_r|].
  - destruct (_ || _); [done|]. destruct (attr_loop _ _ _ _ _) as [r|e] eqn:El; [|done].
    by destruct (AddrPort_IsValid r.2), (AddrPort_IsValid r.1).
  - rewrite orb_true_r in Hp. cbn in Hp. done.
Qed.
End relay_client.

(** The relay keeps the promise: what an exchange over a reachable relay
    returns, whatever happened in between. *)
Definition relay_exchange (server : AddrPort) (txn : TxnID) (raw : list Z) : Prop :=
  exists p pt p' ev, proxy_reachable p /\ pending (txns (px_demux p)) !! txn = Some pt /\
    pt_server pt = normalize server /\ Exchange_finish p txn (pt_reply pt) ev = Some (p', Ok raw).

Lemma relay_law t :
  (forall n server txn req raw, transport_Exchange t n server txn req = Ok raw -> relay_exchange server txn raw) ->
  TransportLaw t.
Proof.
  intros Ht. constructor. intros n server txn req raw _ E.
  destruct (Ht _ _ _ _ _ E) as (p & pt & p' & ev & Hp & Hpt & _ & Hf).
  destruct (Exchange_finish_answers _ _ _ _ _ _ Hp Hpt Hf) as (_ & _ & _ & Hr). by apply Hr.
Qed.

(** ** Discovery through the relay *)

Section discovery.
Context `{StunEnv}.
Variable cfg : Stun.
Variable interfaces : Interfaces.
Variable lookup : string -> result StunTransport.
Hypothesis lookup_law : forall device t, lookup device = Ok t -> TransportLaw t.
Hypothesis Hrandom : random_ok.

#[local] Instance relay_resolver : StunResolver :=
  Resolver_StunResolver cfg interfaces (NewProxyLookupFactory lookup).

Lemma relay_Resolve_inv device port protocol mark host p :
  Resolve device port protocol mark = Ok (host, p) ->
  exists t n stunAddr server txn req raw ep, lookup device = Ok t /\ In stunAddr (GetServers cfg) /\
    ResolveAddrPort (env_lookup n) (if protocol =s "ipv6" then "udp6" else "udp4") stunAddr = Ok server /\
    transport_Exchange t n server txn req = Ok raw /\
    ParseResponse raw txn = Ok ep /\ good_mapped ep /\
    host = Addr_String (ap_addr ep) /\ p = ap_port ep.
Proof.
  unfold Resolve. cbn. unfold Resolver_Resolve. destruct (GetListenConfig _ _) as [li ld].
  unfold NewProxyLookupFactory. destruct (lookup device) as [t|] eqn:Et; [|done].
  pose proof (try_servers_range (NewProxyBacked t protocol) (GetServers cfg) 0 host p) as Hrange.
  destruct (try_servers _ _ _) as [r calls]. cbn in *. intros ->.
  destruct (Hrange eq_refl) as (n & s & Hin & Hc & _ & _). cbn in Hc.
  apply proxy_Connect_inv in Hc as (server & txn & req & raw & ep & H1 & _ & H2 & H3 & H4 & H5 & H6);
    [|by eapply lookup_law|done].
  by exists t, n, s, server, txn, req, raw, ep.
Qed.

Lemma resolveFamily_sound device family raw :
  resolveFamily device family = (raw, None) ->
  exists t n stunAddr server txn req msg ep, lookup (dName device) = Ok t /\ In stunAddr (GetServers cfg) /\
    ResolveAddrPort (env_lookup n) (if family =s "ipv6" then "udp6" else "udp4") stunAddr = Ok server /\
    transport_Exchange t n server txn req = Ok msg /\ ParseResponse msg txn = Ok ep /\ good_mapped ep /\
    raw = AddrPort_String ep /\ Endpoint raw = Ok ep.
Proof.
  unfold resolveFamily. destruct (Resolve _ _ _ _) as [[host p]|] eqn:E; [|done]. intros [= <-].
  apply relay_Resolve_inv in E as (t & n & s & server & txn & req & msg & ep & H1 & H2 & H3 & H4 & H5 & H6 & -> & ->).
  destruct (good_mapped_endpoint _ H6) as [Hok Hu]. pose proof Hok as (Hwf & _ & Hz & Hm & _).
  exists t, n, s, server, txn, req, msg, ep. rewrite <-(AddrPort_join ep) by done. split_and!; try done.
  by apply Endpoint_reads.
Qed.

(** A server answers with an address of the family it was asked over. *)
Definition family_faithful (t : StunTransport) : Prop :=
  forall n server txn req msg ep, transport_Exchange t n server txn req = Ok msg ->
    ParseResponse msg txn = Ok ep -> Is4 (ap_addr ep) = Is4 (ap_addr server).
(** [LookupNetIP] gives addresses of the network asked for. *)
Definition lookup_families : Prop :=
  forall n network host a l, env_lookup n network host = Ok (a, l) ->
    Is4 (Unmap a) = negb (network =s "ip6").

Lemma ResolveAddrPort_family n network stunAddr server : lookup_families ->
  ResolveAddrPort (env_lookup n) network stunAddr = Ok server ->
  Is4 (ap_addr server) = negb (ipNetwork network =s "ip6").
Proof.
  intros Hl. unfold ResolveAddrPort. destruct (split_host_port _) as [[h ps]|]; [|done].
  destruct (parse_uint10 16 ps); [|done]. destruct (env_lookup _ _ _) as [[a l]|] eqn:E; [|done].
  intros [= <-]. by apply (Hl _ _ _ _ _ E).
Qed.

Lemma family_validates device family raw : lookup_families ->
  (forall device t, lookup device = Ok t -> family_faithful t) -> family = "ipv4" \/ family = "ipv6" ->
  resolveFamily device family = (raw, None) ->
  raw <> "" /\ validate_family (if family =s "ipv4" then 4 else 6) raw = Ok tt.
Proof.
  intros Hl Hf Hfam E.
  apply resolveFamily_sound in E as (t & n & s & server & txn & req & msg & ep & H1 & _ & H3 & H4 & H5 & H6 & -> & Hep).
  assert (AddrPort_String ep <> "") as Hne by (intros He; rewrite He in Hep; vm_compute in Hep; discriminate Hep).
  split; [done|]. unfold validate_family. rewrite (proj2 (String.eqb_neq _ _) Hne), Hep.
  apply ResolveAddrPort_family in H3; [|done]. rewrite (Hf _ _ H1 _ _ _ _ _ _ H4 H5), H3.
  destruct H6 as (_ & Hg & H46 & _). rewrite Hg. assert (IsLoopback (ap_addr ep) = false) as ->.
  { unfold IsGlobalUnicast in Hg. rewrite Unmap_fixed in Hg by done.
    destruct (ap_addr ep) as [|v|v z]; [done|..]; rewrite !andb_true_iff, !negb_true_iff in Hg; tauto. }
  by destruct Hfam as [-> | ->].
Qed.

(** Whatever discovery through the relay finds can be published: each endpoint is
    a public address of its family, taken from the answer of a configured
    server, and the record encodes. *)
Theorem discovered_encodes device e4 e6 : lookup_families ->
  (forall device t, lookup device = Ok t -> family_faithful t) ->
  discoverEndpoints device = Ok (e4, e6) ->
  exists data, Encode (mkRecord 0 e4 e6) = Ok data.
Proof.
  intros Hl Hf. unfold discoverEndpoints.
  pose proof (fun raw => family_validates device "ipv4" raw Hl Hf (or_introl eq_refl)) as H4.
  pose proof (fun raw => family_validates device "ipv6" raw Hl Hf (or_intror eq_refl)) as H6.
  assert (forall fam raw e, resolveFamily device fam = (raw, Some e) -> raw = "") as Herr.
  { intros fam raw e. unfold resolveFamily. by destruct (Resolve _ _ _ _) as [[? ?]|]; intros; simplify_eq. }
  pose proof (Herr "ipv4") as G4. pose proof (Herr "ipv6") as G6.
  destruct (resolveFamily device "ipv4") as [r4 o4], (resolveFamily device "ipv6") as [r6 o6].
  destruct (DiscoverEndpoints _ _ _) as [r w] eqn:E. destruct r as [[a b]|]; [|done]. intros [= -> ->].
  assert (forall fam (o : option error) raw, (forall e, (raw, o) = (raw, Some e) -> raw = "") ->
    (forall raw', (raw, o) = (raw', None) -> raw' <> "" /\ validate_family fam raw' = Ok tt) ->
    validate_family fam raw = Ok tt) as V.
  { intros fam [e|] raw Ha Hb; [by rewrite (Ha e eq_refl)|by apply Hb]. }
  assert (validate (mkRecord 2 e4 e6) = Ok tt) as Hv.
  { apply validate_ok. cbn. split; [done|].
    apply DiscoverEndpoints_ok in E as [(_ & [= -> <-] & ->)|[(_ & -> & [= -> <-])|(_ & -> & -> & Hne)]].
    - destruct (H4 _ eq_refl) as [? ?]. split_and!; [by left|done..].
    - destruct (H6 _ eq_refl) as [? ?]. split_and!; [by right|done..].
    - split_and!; [done|by eapply V; eauto..]. }
  unfold Encode. cbn [rIPv4 rIPv6]. rewrite Hv. by eexists.
Qed.
End discovery.

(** ** Witnesses *)

#[local] Instance w_env : StunEnv := {|
  env_lookup _ network _ := Ok (if network =s "ip6" then Addr6 (2 ^ 120) "" else Addr4 (9 * 2 ^ 24 + 9), []);
  env_random _ := Some w_txn
|}.
Definition w_transport : StunTransport :=
  mkTransport (fun _ server txn _ =>
    if bool_decide (txn = w_txn) && Is4 (ap_addr server) then Ok w_reply else Err (ENew "timeout")).
Definition w_stun : Stun := mkStun "a.example:3478" (Some ["bad"; "b.example:3478"]).
Definition w_lookup (device : string) : result StunTransport :=
  if device =s "wg0" then Ok w_transport else Err (ENew "no proxy").

Lemma w_transport_reply n server txn req raw :
  transport_Exchange w_transport n server txn req = Ok raw ->
  txn = w_txn /\ Is4 (ap_addr server) = true /\ raw = w_reply.
Proof. cbn. case_bool_decide; [|done]. cbn. destruct (Is4 _); [|done]. by intros [= <-]. Qed.

Lemma w_transport_law : TransportLaw w_transport.
Proof.
  constructor. intros n server txn req raw _ (-> & _ & ->)%w_transport_reply.
  split; [by apply bytes_ok_compute; vm_compute|by vm_compute].
Qed.

Lemma w_lookup_inv device t : w_lookup device = Ok t -> t = w_transport.
Proof. unfold w_lookup. destruct (device =s "wg0"); [|done]. by intros [= <-]. Qed.

Lemma w_random : random_ok.
Proof. intros n txn [= <-]. split; [done|]. by apply bytes_ok_compute; vm_compute. Qed.

Lemma Resolver_Resolve_spec_witness :
  exists asked later r, GetServers w_stun = asked ++ later /\
    Resolver_Resolve w_stun ∅ (NewProxyLookupFactory w_lookup) "wg0" 0 "ipv4" 0
      = (r, CallStart :: map CallConnect asked ++ [CallStop]) /\
    r = Ok ("203.0.113.9", 51820) /\ asked = ["a.example:3478"].
Proof.
  destruct (Resolver_Resolve_spec w_stun ∅ (NewProxyLookupFactory w_lookup) "wg0" 0 "ipv4" 0
    (NewProxyBacked w_transport "ipv4") eq_refl) as (asked & later & r & H1 & H2 & _).
  exists asked, later, r. split; [exact H1|]. split; [exact H2|].
  assert (Resolver_Resolve w_stun ∅ (NewProxyLookupFactory w_lookup) "wg0" 0 "ipv4" 0
    = (Ok ("203.0.113.9", 51820), [CallStart; CallConnect "a.example:3478"; CallStop])) as E by (vm_compute; reflexivity).
  rewrite E in H2. injection H2 as <- H2. split; [reflexivity|].
  destruct asked as [|a [|b asked]]; cbn in H2; [discriminate H2|by injection H2 as <-|].
  injection H2 as _ H2. discriminate H2.
Defined.

Definition w_device4 : Device := NewDevice "wg0" 51820 "dualstack" 0.
Lemma discovered_encodes_witness :
  exists data, Encode (mkRecord 0 "203.0.113.9:51820" "") = Ok data.
Proof.
  apply (discovered_encodes w_stun ∅ w_lookup) with (device := w_device4).
  - intros device t ->%w_lookup_inv. apply w_transport_law.
  - apply w_random.
  - intros n network host a l. cbn. intros [= <- <-]. by destruct (network =s "ip6").
  - intros device t ->%w_lookup_inv n server txn req msg ep (-> & Hs & ->)%w_transport_reply Hp.
    rewrite Hs. assert (ParseResponse w_reply w_txn = Ok w_ep) as E by (vm_compute; reflexivity).
    rewrite E in Hp. injection Hp as <-. reflexivity.
  - vm_compute. reflexivity.
Defined.
