(* ===== verification/MobileBind.v ===== *)
(** * internal/mobilebind: the mobile library's sockets

    One UDP socket per family carries WireGuard's packets and the STUN
    exchanges (bind.go); STUN packets are taken out of the receive path and
    routed to their transaction (demux.go); discovery sends a binding request
    from the same socket with a doubling retransmission timer (stun.go).  The
    registry's state is that of [Demux]: transactions and the contents of
    their reply channels. *)

From S2P Require Import Prelude GoStr Netip Stunwire Demux Routeprobe Dialer.

Definition mb_stunHeaderSize : Z := 20.

(** ** demux.go *)

Definition mb_IsSTUN (b : list Z) : bool :=
  if blen b <? mb_stunHeaderSize then false
  else if negb (Z.land (byte_at b 0) 0xc0 =? 0) then false
  else if negb (be32 (slice b 4 8) =? stunMagicCookie) then false
  else
    let msgLen := be16 (slice b 2 4) in
    (msgLen mod 4 =? 0) && (mb_stunHeaderSize + msgLen =? blen b) && (blen b <=? 2048).

Definition mb_TxnIDOf (b : list Z) : TxnID := slice b 8 20.

(** A second registration of an identifier replaces the first. *)
Definition mb_Register (r : TxnRegistry) (id : TxnID) (server : AddrPort) : TxnRegistry * nat :=
  let ch := next_chan r in
  (mkReg (<[id := mkTxn (normalize server) ch]> (pending r)) (<[ch := []]> (chans r)) (S ch), ch).
Definition mb_Unregister (r : TxnRegistry) (id : TxnID) : TxnRegistry := Unregister r id.

(** The answer is [true] also when the channel was full. *)
Definition Dispatch (r : TxnRegistry) (b : list Z) (src : AddrPort) : TxnRegistry * bool :=
  if negb (mb_IsSTUN b) then (r, false)
  else
    let id := mb_TxnIDOf b in
    match pending r !! id with
    | None => (r, false)
    | Some txn =>
        if negb (bool_decide (pt_server txn = normalize src)) then (r, false)
        else match ParseResponse b id with
             | Err _ => (r, false)
             | Ok _ => (mkReg (pending r) (try_send (chans r) (pt_reply txn) b).1 (next_chan r), true)
             end
    end.

(** ** bind.go *)

Definition ErrBindAlreadyOpen : error := ENew "bind is already open".
Definition net_ErrClosed : error := ENew "use of closed network connection".

(** [conn4] and [conn6] are the local ports of the open sockets. *)
Record Bind := mkBind { bd_registry : TxnRegistry; bd_conn4 : option Z; bd_conn6 : option Z; bd_open : bool }.
Definition Bind_New : Bind := mkBind NewTxnRegistry None None false.

(** [listen network port]: the port bound, after the protector's answer. *)
Definition listen (bind_udp : string -> Z -> result Z) (protect : option bool) (network : string) (port : Z)
  : result Z :=
  match protect with
  | Some false => Err (ENew "socket protect failed")
  | _ => bind_udp network port
  end.

(** The sockets receive functions are returned for, and the port. *)
Definition Bind_Open (bind_udp : string -> Z -> result Z) (protect : option bool) (b : Bind) (port : Z)
  : Bind * result (list Family * Z) :=
  if bd_open b then (b, Err ErrBindAlreadyOpen)
  else match listen bind_udp protect "udp4" port with
       | Err e => (b, Err (EWrap "listen udp4" [e]))
       | Ok p4 =>
           let actualPort := wrap16 p4 in
           let conn6 := match listen bind_udp protect "udp6" actualPort with Ok p6 => Some p6 | Err _ => None end in
           (mkBind (bd_registry b) (Some p4) conn6 true,
            Ok (match conn6 with Some _ => [IPv4; IPv6] | None => [IPv4] end, actualPort))
       end.

(** One datagram in a receive function: consumed as STUN, or handed to
    WireGuard with its source. *)
Definition receive_body (b : Bind) (src : AddrPort) (pkt : list Z) : Bind * option (list Z * AddrPort) :=
  if mb_IsSTUN pkt
  then (mkBind (Dispatch (bd_registry b) pkt src).1 (bd_conn4 b) (bd_conn6 b) (bd_open b), None)
  else (b, Some (pkt, src)).

Definition Bind_Close (b : Bind) : Bind := mkBind (bd_registry b) None None false.

Definition connFor (b : Bind) (addr : Addr) : option Family :=
  let v4 := match bd_conn4 b with Some _ => Some IPv4 | None => None end in
  if Is4 addr || Is4In6 addr then v4
  else match bd_conn6 b with Some _ => Some IPv6 | None => v4 end.

(** A packet written: the socket, the destination, the bytes. *)
Record BindSend := mkBindSend { bs_socket : Family; bs_to : AddrPort; bs_bytes : list Z }.

(** [write] is the outcome of each write. *)
Definition SendTo (write : BindSend -> option error) (b : Bind) (addr : AddrPort) (payload : list Z)
  : result unit * list BindSend :=
  match connFor b (ap_addr addr) with
  | None => (Err net_ErrClosed, [])
  | Some s =>
      let w := mkBindSend s addr payload in
      (match write w with Some e => Err e | None => Ok tt end, [w])
  end.
(** WireGuard's [Send]: the buffers in order, up to the first failure. *)
Fixpoint send_bufs (write : BindSend -> option error) (s : Family) (ep : AddrPort) (bufs : list (list Z))
  : result unit * list BindSend :=
  match bufs with
  | [] => (Ok tt, [])
  | buf :: rest =>
      let w := mkBindSend s ep buf in
      match write w with
      | Some e => (Err e, [w])
      | None => let '(r, l) := send_bufs write s ep rest in (r, w :: l)
      end
  end.
Definition Bind_Send (write : BindSend -> option error) (b : Bind) (bufs : list (list Z)) (ep : AddrPort)
  : result unit * list BindSend :=
  match connFor b (ap_addr ep) with
  | None => (Err net_ErrClosed, [])
  | Some s => send_bufs write s ep bufs
  end.

Definition Bind_ParseEndpoint (s : string) : result AddrPort :=
  match ParseAddrPort s with Some ap => Ok ap | None => Err (ENew "ParseAddrPort") end.

(** ** stun.go *)

Definition Millisecond : Z := 1000000.
Definition stunInitialRTO : Z := 500 * Millisecond.
Definition stunMaxRetries : nat := 4.
Definition ErrStunTimeout : error := ENew "stun: no response".

(** What a [select] of the wait can see, in order of arrival. *)
Inductive DiscoverEvent : Type := EvReply (resp : list Z) | EvDone (e : error) | EvTimer.
(** How one wait ends, and the events it left. *)
Inductive WaitEnd : Type := WaitResult (r : result AddrPort) | WaitTimer | WaitBlocked.

Fixpoint wait_reply (txn : TxnID) (events : list DiscoverEvent) : WaitEnd * list DiscoverEvent :=
  match events with
  | [] => (WaitBlocked, [])
  | EvReply resp :: rest =>
      match ParseResponse resp txn with
      | Ok ep => (WaitResult (Ok ep), rest)
      | Err _ => wait_reply txn rest
      end
  | EvDone e :: rest => (WaitResult (Err e), rest)
  | EvTimer :: rest => (WaitTimer, rest)
  end.

(** The attempts; the timers started are in the result.  [None] is a wait that
    the events do not end. *)
Fixpoint discover_loop (attempts : nat) (send : nat -> option error) (n : nat) (rto : Z) (txn : TxnID)
    (events : list DiscoverEvent) : option (result AddrPort) * list Z :=
  match attempts with
  | O => (Some (Err ErrStunTimeout), [])
  | S attempts' =>
      match send n with
      | Some e => (Some (Err (EWrap "stun: send" [e])), [])
      | None =>
          match wait_reply txn events with
          | (WaitResult r, _) => (Some r, [rto])
          | (WaitBlocked, _) => (None, [rto])
          | (WaitTimer, rest) =>
              let '(r, timers) := discover_loop attempts' send (S n) (rto * 2) txn rest in (r, rto :: timers)
          end
      end
  end.

(** [Discover] up to its loop: the request and its transaction. *)
Definition Discover_start (b : Bind) (random : option TxnID) (dst : AddrPort)
  : result (Bind * nat * TxnID * list Z) :=
  if negb (AddrPort_IsValid dst) then Err (ENew "stun: invalid destination")
  else
    let? (req, txn) := BuildRequest random in
    let '(r, ch) := mb_Register (bd_registry b) txn dst in
    Ok (mkBind r (bd_conn4 b) (bd_conn6 b) (bd_open b), ch, txn, req).
(** The loop, then the deferred [Unregister]; nothing changes while it waits. *)
Definition Discover_finish (b : Bind) (txn : TxnID) (send : nat -> option error) (events : list DiscoverEvent)
  : Bind * option (result AddrPort) * list Z :=
  let '(r, timers) := discover_loop stunMaxRetries send 0 stunInitialRTO txn events in
  match r with
  | None => (b, None, timers)
  | Some r => (mkBind (mb_Unregister (bd_registry b) txn) (bd_conn4 b) (bd_conn6 b) (bd_open b), Some r, timers)
  end.
