(* ===== verification/MobileBindFacts.v ===== *)
(** * Theorems on the mobile library's sockets *)

From S2P Require Import Prelude GoStr Netip Stunwire Demux Routeprobe Dialer MobileBind.

(** ** Two classifiers, one rule *)

Lemma IsSTUN_mb b : mb_IsSTUN b = IsSTUN b.
Proof.
  unfold mb_IsSTUN, IsSTUN, mb_stunHeaderSize. cbv zeta. rewrite (Z.leb_antisym (blen b) 20).
  destruct (blen b <? 20), (blen b <=? 2048), (Z.land (byte_at b 0) 0xc0 =? 0), (be32 (slice b 4 8) =? stunMagicCookie),
    (be16 (slice b 2 4) mod 4 =? 0), (20 + be16 (slice b 2 4) =? blen b); reflexivity.
Qed.

(** The mobile classifier and the shared parser agree on what a STUN packet is,
    for every packet. *)
Theorem mb_IsSTUN_equiv b : mb_IsSTUN b = IsSTUN b.
Proof. apply IsSTUN_mb. Qed.

Lemma ParseResponse_type b id : is_ok (ParseResponse b id) = true -> be16 (slice b 0 2) = stunBindingSuccess.
Proof.
  unfold ParseResponse. destruct (_ || _) eqn:E; [done|]. intros _.
  apply orb_false_iff in E as [_ E]. apply negb_false_iff in E. by apply Z.eqb_eq.
Qed.

(** C35: Taking the STUN packets out of the receive path gives each transaction the
    same packets on mobile as the relay's demultiplexer does on the desktop:
    on every well-formed STUN packet the two dispatchers change the registry
    alike, and the mobile one also reports a packet its channel had no room for. *)
Theorem Dispatch_equiv r src b :
  IsSTUN b = true ->
  (Dispatch r b src).1 = (route r src b).1 /\
  ((route r src b).2 = true -> (Dispatch r b src).2 = true) /\
  ((Dispatch r b src).2 = true -> exists txn, pending r !! slice b 8 20 = Some txn /\
     pt_server txn = normalize src /\ is_ok (ParseResponse b (slice b 8 20)) = true).
Proof.
  intros Hs. unfold Dispatch, route, mb_TxnIDOf, stunHeaderLen. rewrite IsSTUN_mb, Hs. cbn [negb].
  cbv zeta. set (id := slice b 8 20).
  destruct (pending r !! id) as [txn|] eqn:Ep; [|by destruct (_ && _)].
  case_bool_decide as Hsrc; cbn [negb]; [|by destruct (_ && _)].
  destruct (ParseResponse b id) as [ep|] eqn:E; [|by destruct (_ && _)].
  rewrite (ParseResponse_type b id) by (by rewrite E). cbn.
  destruct (try_send (chans r) (pt_reply txn) b) as [c sent] eqn:Et. cbn. split_and!; try done. intros _.
  by exists txn.
Qed.

(** ** The receive path *)

Lemma mb_Register_ok r id server : registry_ok r -> registry_ok (mb_Register r id server).1.
Proof.
  intros (Hc & Hp & Hd). unfold mb_Register. cbn.
  assert (forall id' t, pending r !! id' = Some t -> pt_reply t <> next_chan r) as Hfresh.
  { intros id' t Ht He. destruct (Hp _ _ Ht) as (buf & Hb & _). apply Hc in Hb as [Hb _]. lia. }
  split_and!; cbn.
  - intros ch buf. rewrite lookup_insert. case_decide; intros ?; simplify_eq/=; [lia|].
    destruct (Hc ch buf); [done|lia].
  - intros id' t. rewrite lookup_insert. case_decide; intros Ht; simplify_eq/=.
    + exists []. by rewrite lookup_insert_eq.
    + destruct (Hp _ _ Ht) as (buf & Hb & Hf). exists buf.
      by rewrite lookup_insert_ne by exact (not_eq_sym (Hfresh _ _ Ht)).
  - intros id1 id2 t1 t2. rewrite !lookup_insert.
    repeat case_decide; intros H1 H2 H3; simplify_eq/=; [done|..].
    + by destruct (Hfresh _ _ H2).
    + by destruct (Hfresh _ _ H1).
    + by eapply Hd.
Qed.

Lemma Dispatch_ok r b src : bytes_ok b -> registry_ok r -> registry_ok (Dispatch r b src).1.
Proof.
  intros Hb Hr. destruct (mb_IsSTUN b) eqn:E.
  - rewrite IsSTUN_mb in E. destruct (Dispatch_equiv r src b E) as [-> _]. by apply route_ok.
  - unfold Dispatch. by rewrite E.
Qed.

(** What a receive function does with a datagram: everything that is not a
    well-formed STUN message goes to WireGuard unchanged, and a STUN message
    reaches a waiting discovery only when it answers that very transaction and
    comes from the server that was asked. *)
Theorem receive_spec b src pkt b' out :
  bytes_ok pkt -> registry_ok (bd_registry b) -> receive_body b src pkt = (b', out) ->
  registry_ok (bd_registry b') /\ bd_conn4 b' = bd_conn4 b /\ bd_conn6 b' = bd_conn6 b /\
  match out with
  | Some (p, s) => p = pkt /\ s = src /\ IsSTUN pkt = false /\ b' = b
  | None => IsSTUN pkt = true /\
      (chans (bd_registry b') <> chans (bd_registry b) ->
       exists txn, pending (bd_registry b) !! slice pkt 8 20 = Some txn /\ pt_server txn = normalize src /\
         is_ok (ParseResponse pkt (slice pkt 8 20)) = true)
  end.
Proof.
  intros Hb Hr. unfold receive_body. destruct (mb_IsSTUN pkt) eqn:E; rewrite IsSTUN_mb in E; intros [= <- <-];
    [|by split_and!].
  cbn. split_and!; try done; [by apply Dispatch_ok|]. intros Hne.
  destruct (Dispatch_equiv (bd_registry b) src pkt E) as (_ & _ & Hd).
  destruct (Dispatch (bd_registry b) pkt src) as [r' ok] eqn:Ed. destruct ok; [by apply Hd|].
  exfalso. apply Hne. revert Ed. unfold Dispatch. rewrite IsSTUN_mb, E. cbn [negb].
  destruct (pending _ !! _); [|by intros [= <-]]. destruct (negb _); [by intros [= <-]|].
  by destruct (ParseResponse _ _); [|intros [= <-]].
Qed.

(** The packet that the relay's coarser test loses is delivered here. *)
Theorem cookie_packet_delivered b src :
  receive_body b src cookie_transport_packet = (b, Some (cookie_transport_packet, src)).
Proof. unfold receive_body. by assert (mb_IsSTUN cookie_transport_packet = false) as -> by (vm_compute; reflexivity). Qed.

(** The socket a packet leaves by fits the destination's family when there is one. *)
Lemma connFor_family b a s : connFor b a = Some s ->
  (s = IPv4 -> bd_conn4 b <> None) /\ (s = IPv6 -> bd_conn6 b <> None /\ Is4 a = false).
Proof.
  unfold connFor. destruct (Is4 a) eqn:E4; cbn [orb].
  - destruct (bd_conn4 b); [|done]. by intros [= <-].
  - destruct (Is4In6 a); [destruct (bd_conn4 b); [|done]; by intros [= <-]|].
    destruct (bd_conn6 b); [by intros [= <-]|]. destruct (bd_conn4 b); [|done]. by intros [= <-].
Qed.

(** ** Discovery *)

Definition rto_schedule : list Z :=
  [500 * Millisecond; 1000 * Millisecond; 2000 * Millisecond; 4000 * Millisecond].

Lemma wait_reply_timers txn events e rest : wait_reply txn events = (e, rest) ->
  (length rest <= length events)%nat /\
  (count_occ bool_dec (map (fun ev => match ev with EvTimer => true | _ => false end) events) true <=
   S (count_occ bool_dec (map (fun ev => match ev with EvTimer => true | _ => false end) rest) true))%nat \/
  exists r, e = WaitResult r.
Proof.
  revert e rest. induction events as [|ev events IH]; intros e rest; cbn [wait_reply].
  - intros [= <- <-]. left. cbn. lia.
  - destruct ev as [resp|err|]; cbn.
    + destruct (ParseResponse resp txn); [intros [= <- <-]; right; by eexists|].
      intros E. destruct (IH _ _ E) as [[H1 H2]|?]; [left|by right]. cbn in *. lia.
    + intros [= <- <-]. right. by eexists.
    + intros [= <- <-]. left. cbn. lia.
Qed.

Lemma wait_reply_ok txn events ep rest :
  wait_reply txn events = (WaitResult (Ok ep), rest) ->
  exists resp, In (EvReply resp) events /\ ParseResponse resp txn = Ok ep.
Proof.
  induction events as [|ev events IH]; [done|]. cbn [wait_reply]. destruct ev as [resp|err|]; [|done..].
  destruct (ParseResponse resp txn) as [ep'|] eqn:E.
  - intros [= <- <-]. exists resp. split; [by left|done].
  - intros Hr. destruct (IH Hr) as (r & ? & ?). exists r. split; [by right|done].
Qed.

Lemma wait_reply_rest txn events e rest ev : wait_reply txn events = (e, rest) -> In ev rest -> In ev events.
Proof.
  revert e rest. induction events as [|x events IH]; intros e rest; cbn [wait_reply]; [by intros [= <- <-]|].
  destruct x as [resp|err|]; [|intros [= <- <-]; by right..].
  destruct (ParseResponse resp txn); [intros [= <- <-]; by right|]. intros E Hin. right. by eapply IH.
Qed.

Lemma discover_loop_ok attempts send txn : forall n rto events r timers ep,
  discover_loop attempts send n rto txn events = (r, timers) -> r = Some (Ok ep) ->
  exists resp, In (EvReply resp) events /\ ParseResponse resp txn = Ok ep.
Proof.
  induction attempts as [|k IH]; intros n rto events r timers ep; cbn [discover_loop]; [by intros [= <- _]|].
  destruct (send n); [by intros [= <- _]|]. destruct (wait_reply txn events) as [e rest] eqn:Ew.
  destruct e as [w| |]; [| |by intros [= <- _]].
  - intros [= <- _] [= ->]. by eapply wait_reply_ok.
  - destruct (discover_loop k send (S n) (rto * 2) txn rest) as [r' t'] eqn:El. intros [= <- _] Hr.
    destruct (IH _ _ _ _ _ _ El Hr) as (resp & Hin & Hp). exists resp. split; [by eapply wait_reply_rest|done].
Qed.

Lemma discover_loop_timers attempts send txn : forall n rto events,
  exists k, (k <= attempts)%nat /\
    (discover_loop attempts send n rto txn events).2 = map (fun i => rto * 2 ^ Z.of_nat i) (seq 0 k).
Proof.
  induction attempts as [|a IH]; intros n rto events; cbn [discover_loop]; [by exists 0%nat|].
  destruct (send n); [exists 0%nat; split; [lia|done]|].
  destruct (wait_reply txn events) as [e rest]. destruct e as [w| |].
  - exists 1%nat. cbn. split; [lia|]. f_equal. lia.
  - destruct (IH (S n) (rto * 2) rest) as (k & Hk & E). destruct (discover_loop a _ _ _ _ _) as [r t].
    cbn in *. exists (S k). split; [lia|]. cbn [seq map]. rewrite E. f_equal; [lia|].
    rewrite <-seq_shift, map_map. apply map_ext. intros i. rewrite Nat2Z.inj_succ, Z.pow_succ_r by lia. lia.
  - exists 1%nat. cbn. split; [lia|]. f_equal. lia.
Qed.

Lemma discover_loop_unblocked attempts send txn : forall n rto events,
  (attempts <= count_occ bool_dec (map (fun ev => match ev with EvTimer => true | _ => false end) events) true)%nat ->
  (discover_loop attempts send n rto txn events).1 <> None.
Proof.
  induction attempts as [|a IH]; intros n rto events Hc; cbn [discover_loop]; [done|].
  destruct (send n); [done|]. destruct (wait_reply txn events) as [e rest] eqn:Ew.
  pose proof (wait_reply_timers _ _ _ _ Ew) as Ht. destruct e as [w| |]; [done| |].
  - specialize (IH (S n) (rto * 2) rest). destruct (discover_loop a _ _ _ _ _) as [r t]. cbn in *. apply IH.
    destruct Ht as [[_ Ht]|[? ?]]; [lia|done].
  - exfalso. assert (rest = [] /\ count_occ bool_dec (map (fun ev => match ev with EvTimer => true | _ => false end) events) true = 0%nat) as [_ H0].
    { clear -Ew. revert Ew. induction events as [|x events IH]; [by intros [= <-]|]. cbn [wait_reply].
      destruct x as [resp|err|]; [|done..]. destruct (ParseResponse resp txn); [done|]. intros E. by destruct (IH E). }
    lia.
Qed.


(** ** Witnesses *)

Definition w_bind0 : Bind := mkBind NewTxnRegistry (Some 40000) None true.
Definition w_bind : Bind := mkBind (mb_Register NewTxnRegistry w_txn w_ep).1 (Some 40000) None true.
Definition w_answer : list Z := encode_success w_txn [w_attr].

Lemma Dispatch_equiv_witness :
  (Dispatch (bd_registry w_bind) w_answer w_ep).1 = (route (bd_registry w_bind) w_ep w_answer).1 /\
  (Dispatch (bd_registry w_bind) w_answer w_ep).2 = true.
Proof.
  destruct (Dispatch_equiv (bd_registry w_bind) w_ep w_answer) as (H1 & H2 & _); [vm_compute; reflexivity|].
  split; [exact H1|]. apply H2. vm_compute. reflexivity.
Defined.

Lemma w_bind_ok : registry_ok (bd_registry w_bind).
Proof. apply mb_Register_ok. split_and!; intros *; cbn; by rewrite ?lookup_empty. Qed.

Lemma receive_spec_witness :
  registry_ok (bd_registry (receive_body w_bind w_ep w_answer).1) /\
  (receive_body w_bind w_ep w_answer).2 = None /\ IsSTUN w_answer = true.
Proof.
  assert ((receive_body w_bind w_ep w_answer).2 = None) as E by (vm_compute; reflexivity).
  destruct (receive_spec w_bind w_ep w_answer (receive_body w_bind w_ep w_answer).1 None) as (H1 & _ & _ & H2 & _).
  - apply bytes_ok_compute. vm_compute. reflexivity.
  - apply w_bind_ok.
  - rewrite <-E. apply surjective_pairing.
  - split; [exact H1|]. split; [exact E|exact H2].
Defined.

(** A malformed reply, an expired timer, then the answer. *)
Definition w_events : list DiscoverEvent := [EvReply [1; 2; 3]; EvTimer; EvReply w_answer].
