(* ===== verification/MobileConfig.v ===== *)
(** * mobile/{config,uapi,health,keys}.go: the mobile library's configuration

    The tunnel configuration as the app hands it over in JSON and its
    validation, its rendering in WireGuard's configuration protocol, and the
    reader of WireGuard's status.  The random source and the TUN device are
    the platform's. *)

From Stdlib Require Import SpecFloat.
From S2P Require Import Prelude GoStr Codec Netip GoTime Json Validation Discovery Plugin JsonDecode Wg.

(** ** config.go: data *)

Record ifaceConfig := mkIface {
  icPrivateKey : string; icAddresses : list string; icDNSServers : list string;
  icListenPort : Z; icMTU : Z; icProtocol : string
}.
Record peerConfig := mkPeerConfig {
  pcName : string; pcDescription : string; pcPublicKey : string; pcPresharedKey : string;
  pcAllowedIPs : list string; pcEndpoint : string; pcPlugin : string; pcProtocol : string;
  pcPersistentKeepalive : Z
}.
Record pluginDef := mkPluginDef {
  pdInstance : string; pdType : string; pdName : string; pdConfig : gmap string any
}.
Record tunnelConfig := mkTunnel {
  tcID : string; tcName : string; tcInterface : ifaceConfig; tcPeers : list peerConfig;
  tcPlugins : list pluginDef; tcStun : list string; tcRefreshIntervalSeconds : Z; tcLogLevel : string
}.
Definition defaultStunServer : string := "stun.l.google.com:19302".

(** ** Decoding, unknown fields refused *)

Definition iface_field (c : ifaceConfig) (m : string * json) : option ifaceConfig :=
  let '(k, v) := m in
  let '(mkIface pk ad dn lp mtu pr) := c in
  if field_match "private_key" k then option_map (fun x => mkIface x ad dn lp mtu pr) (decode_string v pk)
  else if field_match "addresses" k then option_map (fun x => mkIface pk x dn lp mtu pr) (decode_strings v)
  else if field_match "dns_servers" k then option_map (fun x => mkIface pk ad x lp mtu pr) (decode_strings v)
  else if field_match "listen_port" k then option_map (fun x => mkIface pk ad dn x mtu pr) (decode_int v lp)
  else if field_match "mtu" k then option_map (fun x => mkIface pk ad dn lp x pr) (decode_int v mtu)
  else if field_match "protocol" k then option_map (fun x => mkIface pk ad dn lp mtu x) (decode_string v pr)
  else None.
Definition peerConfig0 : peerConfig := mkPeerConfig "" "" "" "" [] "" "" "" 0.
Definition peer_field (c : peerConfig) (m : string * json) : option peerConfig :=
  let '(k, v) := m in
  let '(mkPeerConfig na de pub psk ips ep pl pr ka) := c in
  if field_match "name" k then option_map (fun x => mkPeerConfig x de pub psk ips ep pl pr ka) (decode_string v na)
  else if field_match "description" k then option_map (fun x => mkPeerConfig na x pub psk ips ep pl pr ka) (decode_string v de)
  else if field_match "public_key" k then option_map (fun x => mkPeerConfig na de x psk ips ep pl pr ka) (decode_string v pub)
  else if field_match "preshared_key" k then option_map (fun x => mkPeerConfig na de pub x ips ep pl pr ka) (decode_string v psk)
  else if field_match "allowed_ips" k then option_map (fun x => mkPeerConfig na de pub psk x ep pl pr ka) (decode_strings v)
  else if field_match "endpoint" k then option_map (fun x => mkPeerConfig na de pub psk ips x pl pr ka) (decode_string v ep)
  else if field_match "plugin" k then option_map (fun x => mkPeerConfig na de pub psk ips ep x pr ka) (decode_string v pl)
  else if field_match "protocol" k then option_map (fun x => mkPeerConfig na de pub psk ips ep pl x ka) (decode_string v pr)
  else if field_match "persistent_keepalive" k then option_map (fun x => mkPeerConfig na de pub psk ips ep pl pr x) (decode_int v ka)
  else None.
Definition plugin_field (c : pluginDef) (m : string * json) : option pluginDef :=
  let '(k, v) := m in
  let '(mkPluginDef ins ty na co) := c in
  if field_match "instance" k then option_map (fun x => mkPluginDef x ty na co) (decode_string v ins)
  else if field_match "type" k then option_map (fun x => mkPluginDef ins x na co) (decode_string v ty)
  else if field_match "name" k then option_map (fun x => mkPluginDef ins ty x co) (decode_string v na)
  else if field_match "config" k then option_map (fun x => mkPluginDef ins ty na x) (decode_any_map v co)
  else None.
Definition stun_field (c : list string) (m : string * json) : option (list string) :=
  if field_match "addresses" m.1 then decode_strings m.2 else None.
Definition log_field (c : string) (m : string * json) : option string :=
  if field_match "level" m.1 then decode_string m.2 c else None.
Definition tunnel_field (c : tunnelConfig) (m : string * json) : option tunnelConfig :=
  let '(k, v) := m in
  let '(mkTunnel id na ifc ps pls st re lo) := c in
  if field_match "id" k then option_map (fun x => mkTunnel x na ifc ps pls st re lo) (decode_string v id)
  else if field_match "name" k then option_map (fun x => mkTunnel id x ifc ps pls st re lo) (decode_string v na)
  else if field_match "interface" k then
    option_map (fun x => mkTunnel id na x ps pls st re lo) (decode_struct iface_field v ifc)
  else if field_match "peers" k then
    option_map (fun x => mkTunnel id na ifc x pls st re lo)
      (decode_slice (fun p => decode_struct peer_field p peerConfig0) v)
  else if field_match "plugins" k then
    option_map (fun x => mkTunnel id na ifc ps x st re lo)
      (decode_slice (fun p => decode_struct plugin_field p (mkPluginDef "" "" "" ∅)) v)
  else if field_match "stun" k then option_map (fun x => mkTunnel id na ifc ps pls x re lo) (decode_struct stun_field v st)
  else if field_match "refresh_interval_seconds" k then
    option_map (fun x => mkTunnel id na ifc ps pls st x lo) (decode_int v re)
  else if field_match "log" k then option_map (fun x => mkTunnel id na ifc ps pls st re x) (decode_struct log_field v lo)
  else None.
Definition tunnel_default : tunnelConfig :=
  mkTunnel "" "" (mkIface "" [] [] 0 1420 "") [] [] [] 180 "".
Definition decode_tunnel (v : json) : option tunnelConfig := decode_struct tunnel_field v tunnel_default.

(** ** uapi.go *)

Definition keyToBytes (b64 : string) : result (list Z) := Validation.Key b64.
Definition keyToHex (b64 : string) : result string :=
  let? raw := Validation.Key b64 in Ok (hex_encode raw).

Definition newline : string := String (zb 10) "".
Definition uapi_line (field value : string) : string := field +:+ "=" +:+ value +:+ newline.

Fixpoint route_lines_uapi (l : list string) : result string :=
  match l with
  | [] => Ok ""
  | cidr :: rest =>
      let? route := ServiceRoute cidr in
      let? s := route_lines_uapi rest in
      Ok (uapi_line "allowed_ip" (Prefix_String route) +:+ s)
  end.
Fixpoint peers_uapi (seen : list (list Z)) (l : list peerConfig) : result string :=
  match l with
  | [] => Ok ""
  | p :: rest =>
      let? pub := PublicKey (pcPublicKey p) in
      if bool_decide (pub ∈ seen) then Err (ENew "duplicate peer public key")
      else if (pcPersistentKeepalive p <? 0) || (65535 <? pcPersistentKeepalive p)
              || (MaxRoutes <? Z.of_nat (length (pcAllowedIPs p)))
      then Err (ENew "invalid keepalive or route count")
      else
        let? psk := (if pcPresharedKey p =s "" then Ok ""
                     else let? h := keyToHex (pcPresharedKey p) in Ok (uapi_line "preshared_key" h)) in
        let? endpoint := (if pcEndpoint p =s "" then Ok ""
                          else let? ep := Endpoint (pcEndpoint p) in
                               Ok (uapi_line "endpoint" (AddrPort_String ep))) in
        let? routes := route_lines_uapi (pcAllowedIPs p) in
        let? s := peers_uapi (pub :: seen) rest in
        Ok (uapi_line "public_key" (hex_encode pub) +:+ psk +:+ endpoint +:+
            (if 0 <? pcPersistentKeepalive p
             then uapi_line "persistent_keepalive_interval" (itoa (pcPersistentKeepalive p)) else "") +:+
            uapi_line "replace_allowed_ips" "true" +:+ routes +:+ s)
  end.
(** A nil configuration is [None]. *)
Definition buildUAPI (cfg : option tunnelConfig) : result string :=
  match cfg with
  | None => Err (ENew "invalid interface port or peer count")
  | Some cfg =>
      let port := icListenPort (tcInterface cfg) in
      if (port <? 0) || (65535 <? port) || (MaxPeers <? Z.of_nat (length (tcPeers cfg)))
      then Err (ENew "invalid interface port or peer count")
      else
        let? privHex := keyToHex (icPrivateKey (tcInterface cfg)) in
        let? peers := peers_uapi [] (tcPeers cfg) in
        Ok (uapi_line "private_key" privHex +:+
            (if 0 <? port then uapi_line "listen_port" (itoa port) else "") +:+
            uapi_line "replace_peers" "true" +:+ peers)
  end.

Definition buildPeerEndpointUAPI (publicKeyB64 endpoint : string) : result string :=
  let? pub := PublicKey publicKeyB64 in
  let? ep := Endpoint endpoint in
  Ok (uapi_line "public_key" (hex_encode pub) +:+ uapi_line "update_only" "true" +:+
      uapi_line "endpoint" (AddrPort_String ep)).

(** ** parseConfig *)

Definition zero_private_key : string := "AAAAAAAAAAAAAAAAAAAAAAAAAAAAAAAAAAAAAAAAAAA=".

Section parse.
Context `{UnicodeTables} `{UrlLib}.

(** [conf[k] = v] over a map without the key "name". *)
Definition plugin_conf (def : pluginDef) : gmap string any := <["name" := AStr (pdName def)]> (pdConfig def).
Fixpoint check_plugins (stores : list string) (l : list pluginDef) : result (list string) :=
  match l with
  | [] => Ok stores
  | def :: rest =>
      if (pdInstance def =s "") || bool_decide (pdInstance def ∈ stores) || (128 <? slen (pdInstance def))
      then Err (ENew "invalid or duplicate store instance")
      else if match pdConfig def !! "name" with Some _ => true | None => false end
      then Err (ENew "store name must not be overridden")
      else
        let conf := plugin_conf def in
        let? _ := ValidateDefinition (mkDef (pdType def) conf) in
        let? _ := NewOpenDHTPlugin conf in
        check_plugins (pdInstance def :: stores) rest
  end.
Fixpoint check_peers (stores seen : list string) (l : list peerConfig) : result unit :=
  match l with
  | [] => Ok tt
  | p :: rest =>
      if (pcPlugin p <>s "") && negb (bool_decide (pcPlugin p ∈ stores)) then Err (ENew "unknown peer store")
      else match PublicKey (pcPublicKey p) with
           | Err e => Err (EWrap "public_key" [e])
           | Ok _ =>
               if bool_decide (pcPublicKey p ∈ seen) then Err (ENew "duplicate peer public key")
               else if (pcPresharedKey p <>s "") && negb (is_ok (keyToHex (pcPresharedKey p)))
               then Err (ENew "preshared_key")
               else check_peers stores (pcPublicKey p :: seen) rest
           end
  end.
Definition one_of (l : list string) (s : string) : bool := existsb (fun x => s =s x) l.
Fixpoint check_each {A} (ok : A -> bool) (e : error) (l : list A) : result unit :=
  match l with
  | [] => Ok tt
  | x :: rest => if ok x then check_each ok e rest else Err e
  end.

Definition with_defaults (cfg : tunnelConfig) : tunnelConfig :=
  let i := tcInterface cfg in
  mkTunnel (tcID cfg) (tcName cfg)
    (mkIface (icPrivateKey i) (icAddresses i) (icDNSServers i) (icListenPort i) (icMTU i)
       (if icProtocol i =s "" then "ipv4" else icProtocol i))
    (tcPeers cfg) (tcPlugins cfg)
    (match tcStun cfg with [] => [defaultStunServer] | l => l end)
    (tcRefreshIntervalSeconds cfg) (tcLogLevel cfg).

Definition parseConfig (configJSON : string) : result tunnelConfig :=
  let? cfg := DecodeJSON decode_tunnel configJSON in
  let i := tcInterface cfg in
  require negb ((icPrivateKey i =s "") || (icPrivateKey i =s zero_private_key))
    else ENew "interface.private_key is required";
  let? _ := map_err (ENew "interface.private_key") (keyToHex (icPrivateKey i)) in
  require negb ((MaxPeers <? Z.of_nat (length (tcPeers cfg))) || (MaxStores <? Z.of_nat (length (tcPlugins cfg)))
                || (MaxServers <? Z.of_nat (length (tcStun cfg))))
    else ENew "too many peers, stores or STUN servers";
  require negb ((tcRefreshIntervalSeconds cfg <? 60) || (240 <? tcRefreshIntervalSeconds cfg))
    else ENew "refresh interval must be within 60-240 seconds";
  require negb ((icMTU i <? 1280) || (1500 <? icMTU i)) else ENew "MTU must be within 1280-1500";
  require negb ((MaxRoutes <? Z.of_nat (length (icAddresses i))) || (MaxServers <? Z.of_nat (length (icDNSServers i))))
    else ENew "too many interface addresses or DNS servers";
  let? _ := check_each (fun a => is_ok (ValidPrefix a)) (ENew "invalid interface address") (icAddresses i) in
  let? stores := check_plugins [] (tcPlugins cfg) in
  let? _ := check_peers stores [] (tcPeers cfg) in
  require (icProtocol i =s "") || one_of ["ipv4"; "ipv6"; "dualstack"] (icProtocol i)
    else ENew "invalid interface protocol";
  let? _ := check_each (fun p => (pcProtocol p =s "") || one_of ["ipv4"; "ipv6"; "prefer_ipv4"; "prefer_ipv6"] (pcProtocol p))
              (ENew "invalid protocol for peer") (tcPeers cfg) in
  let cfg := with_defaults cfg in
  let? _ := check_each (fun s => is_ok (Server s)) (ENew "invalid STUN server") (tcStun cfg) in
  let? _ := buildUAPI (Some cfg) in
  Ok cfg.
End parse.

(** ** health.go *)

Definition key_text_of (raw : list Z) : string := b64_encode raw.
(** One line of the status; [peer] is "" before the first key. *)
Definition health_line (peers : gmap string Health) (peer : string) (line : string)
  : result (gmap string Health * string) :=
  match cut "=" line with
  | None => Ok (peers, peer)
  | Some (field, value) =>
      if field =s "public_key" then
        match hex_decode value with
        | None => Err (ENew "invalid public health key")
        | Some raw =>
            if negb (length raw =? 32)%nat then Err (ENew "invalid public health key")
            else let peer := b64_encode raw in Ok (<[peer := Health0]> peers, peer)
        end
      else if (field =s "endpoint") || (field =s "last_handshake_time_sec") || (field =s "rx_bytes") then
        if peer =s "" then Ok (peers, peer)
        else
          let h := default Health0 (peers !! peer) in
          let? h := (if field =s "endpoint" then Ok (set_endpoint h value)
                     else if field =s "last_handshake_time_sec" then
                       match parse_int64 value with
                       | None => Err (ENew "ParseInt")
                       | Some n => Ok (if 0 <? n then set_handshake h (time_Unix n) else h)
                       end
                     else match parse_uint10 64 value with
                          | None => Err (ENew "ParseUint")
                          | Some n => Ok (set_received h n)
                          end) in
          Ok (<[peer := h]> peers, peer)
      else Ok (peers, peer)
  end.
(** [bytes.Cut] at each newline; nothing is read after the last one. *)
Fixpoint health_write_lines (peers : gmap string Health) (peer : string) (lines : list string)
  : result (gmap string Health) :=
  match lines with
  | [] => Ok peers
  | [last] => if last =s "" then Ok peers
              else let? (peers, _) := health_line peers peer last in Ok peers
  | line :: rest =>
      let? (peers, peer) := health_line peers peer line in health_write_lines peers peer rest
  end.
Definition healthWriter_Write (peers : gmap string Health) (b : string) : result (gmap string Health) :=
  if 128 * 1024 <? slen b then Err (ENew "oversized WireGuard status")
  else health_write_lines peers "" (split_on (zb 10) b).
