(* ===== verification/MobileConfigFacts.v ===== *)
(** * Theorems on the mobile configuration *)

From S2P Require Import Prelude GoStr Codec Netip NetipFacts GoTime Json Validation Discovery TextFacts Plugin Wg WgFacts MobileConfig.

(** ** What a parsed configuration satisfies *)

Section parse.
Context `{UnicodeTables} `{UrlLib}.

Lemma check_each_ok {A} (ok : A -> bool) e l : check_each ok e l = Ok tt -> Forall (fun x => ok x = true) l.
Proof.
  induction l as [|x l IH]; [by constructor|]. cbn. destruct (ok x) eqn:E; [|done]. intros Hl. constructor; auto.
Qed.

Lemma check_plugins_ok l : forall stores stores', check_plugins stores l = Ok stores' -> NoDup stores ->
  NoDup stores' /\ (forall s, In s stores' <-> In s stores \/ In s (map pdInstance l)) /\
  Forall (fun d => is_ok (NewOpenDHTPlugin (plugin_conf d)) = true /\ pdInstance d <> "") l /\
  NoDup (map pdInstance l) /\ (forall s, In s stores -> ~ In s (map pdInstance l)).
Proof.
  induction l as [|d l IH]; intros stores stores'; cbn [check_plugins].
  { intros [= ->] Hnd. split_and!; [done|cbn; tauto|constructor|constructor|by intros ? _ []]. }
  destruct (_ || _) eqn:E; [done|]. apply orb_false_iff in E as [[E1 E2]%orb_false_iff E3].
  destruct (match pdConfig d !! "name" with Some _ => true | None => false end); [done|]. cbv zeta.
  destruct (ValidateDefinition _); [|done]. destruct (NewOpenDHTPlugin (plugin_conf d)) eqn:En; [|done].
  intros Hl Hnd. apply bool_decide_eq_false in E2. rewrite list_elem_of_In in E2.
  apply IH in Hl as (H1 & H2 & H3 & H4 & H5).
  2: { apply list.NoDup_cons. rewrite list_elem_of_In. done. }
  split_and!; [done| | | |].
  - intros s. rewrite H2. cbn. tauto.
  - constructor; [|done]. rewrite En. split; [done|]. by apply String.eqb_neq.
  - cbn. apply list.NoDup_cons. split; [|done]. rewrite list_elem_of_In. apply H5. by left.
  - intros s Hs [<-|Hin]; [done|]. apply (H5 s); [by right|done].
Qed.

Lemma check_peers_ok stores l : forall seen, check_peers stores seen l = Ok tt ->
  Forall (fun p => is_ok (PublicKey (pcPublicKey p)) = true /\ (pcPlugin p = "" \/ In (pcPlugin p) stores) /\
                   (pcPresharedKey p = "" \/ is_ok (Validation.Key (pcPresharedKey p)) = true)) l /\
  NoDup (map pcPublicKey l) /\ (forall s, In s seen -> ~ In s (map pcPublicKey l)).
Proof.
  induction l as [|p l IH]; intros seen; cbn [check_peers].
  { intros _. split_and!; [constructor|constructor|by intros ? _ []]. }
  destruct ((pcPlugin p <>s "") && _) eqn:E1; [done|]. destruct (PublicKey (pcPublicKey p)) eqn:Ek; [|done].
  destruct (bool_decide (pcPublicKey p ∈ seen)) eqn:Hs; [done|].
  destruct ((pcPresharedKey p <>s "") && _) eqn:E2; [done|].
  apply bool_decide_eq_false in Hs. rewrite list_elem_of_In in Hs.
  intros Hl. apply IH in Hl as (H1 & H2 & H3). split_and!.
  - constructor; [|done]. rewrite Ek. split_and!; [done| |].
    + apply andb_false_iff in E1 as [E1|E1]; apply negb_false_iff in E1; [left; by apply String.eqb_eq|right].
      apply bool_decide_eq_true in E1. by apply list_elem_of_In.
    + apply andb_false_iff in E2 as [E2|E2]; apply negb_false_iff in E2; [left; by apply String.eqb_eq|right].
      unfold keyToHex in E2. by destruct (Validation.Key _).
  - cbn. apply list.NoDup_cons. split; [|done]. rewrite list_elem_of_In. apply H3. by left.
  - intros s Hin [<-|Hin']; [done|]. apply (H3 s); [by right|done].
Qed.

Record mobile_ok (cfg : tunnelConfig) : Prop := {
  mo_private : is_ok (Validation.Key (icPrivateKey (tcInterface cfg))) = true;
  mo_refresh : 60 <= tcRefreshIntervalSeconds cfg <= 240;
  mo_mtu : 1280 <= icMTU (tcInterface cfg) <= 1500;
  mo_counts : Z.of_nat (length (tcPeers cfg)) <= MaxPeers /\ Z.of_nat (length (tcPlugins cfg)) <= MaxStores /\
              1 <= Z.of_nat (length (tcStun cfg)) <= MaxServers;
  mo_addresses : Forall (fun a => is_ok (ValidPrefix a) = true) (icAddresses (tcInterface cfg));
  mo_protocol : one_of ["ipv4"; "ipv6"; "dualstack"] (icProtocol (tcInterface cfg)) = true;
  mo_stores : NoDup (map pdInstance (tcPlugins cfg)) /\
              Forall (fun d => is_ok (NewOpenDHTPlugin (plugin_conf d)) = true) (tcPlugins cfg);
  mo_peers : NoDup (map pcPublicKey (tcPeers cfg)) /\
             Forall (fun p => is_ok (PublicKey (pcPublicKey p)) = true /\
                              (pcPlugin p = "" \/ In (pcPlugin p) (map pdInstance (tcPlugins cfg))) /\
                              (pcProtocol p = "" \/ one_of ["ipv4"; "ipv6"; "prefer_ipv4"; "prefer_ipv6"] (pcProtocol p) = true))
                    (tcPeers cfg);
  mo_servers : Forall (fun s => is_ok (Server s) = true) (tcStun cfg);
  mo_uapi : is_ok (buildUAPI (Some cfg)) = true
}.

Lemma parseConfig_ok text cfg : parseConfig text = Ok cfg -> mobile_ok cfg.
Proof.
  unfold parseConfig. destruct (DecodeJSON decode_tunnel text) as [c|]; [|done]. cbv zeta.
  destruct (negb ((icPrivateKey _ =s "") || _)) eqn:E1; [|done]. unfold keyToHex at 1. destruct (Validation.Key _) as [k|] eqn:Ek; [|done].
  cbv beta iota delta [map_err]. destruct (negb ((MaxPeers <? _) || _ || _)) eqn:E2; [|done].
  destruct (negb ((tcRefreshIntervalSeconds c <? 60) || _)) eqn:E3; [|done].
  destruct (negb ((icMTU _ <? 1280) || _)) eqn:E4; [|done]. destruct (negb ((MaxRoutes <? _) || _)) eqn:E5; [|done].
  destruct (check_each (fun a => is_ok (ValidPrefix a)) _ _) as [[]|] eqn:E6; [|done].
  destruct (check_plugins [] (tcPlugins c)) as [stores|] eqn:E7; [|done].
  destruct (check_peers stores [] (tcPeers c)) as [[]|] eqn:E8; [|done].
  destruct ((icProtocol (tcInterface c) =s "") || _) eqn:E9; [|done].
  destruct (check_each _ (ENew "invalid protocol for peer") _) as [[]|] eqn:E10; [|done].
  destruct (check_each (fun s => is_ok (Server s)) _ _) as [[]|] eqn:E11; [|done].
  destruct (buildUAPI (Some (with_defaults c))) eqn:E12; [|done]. intros [= <-].
  apply negb_true_iff in E2, E3, E4, E5.
  repeat match goal with Hx : _ || _ = false |- _ => apply orb_false_iff in Hx as [? ?] end.
  rewrite ?Z.ltb_ge in *. apply check_each_ok in E6, E10, E11.
  apply check_plugins_ok in E7 as (_ & Hst & Hp1 & Hp2 & _); [|constructor].
  apply check_peers_ok in E8 as (Hq1 & Hq2 & _).
  constructor; cbn [with_defaults tcInterface icPrivateKey icMTU icAddresses icProtocol tcPeers tcPlugins tcStun
    tcRefreshIntervalSeconds]; try done; try lia.
  - by rewrite Ek.
  - split_and!; try lia; destruct (tcStun c); cbn [length] in *; unfold MaxServers in *; lia.
  - destruct (icProtocol (tcInterface c) =s "") eqn:Ep; [done|]. exact E9.
  - split; [done|]. eapply Forall_impl; [|exact Hp1]. by intros d [? _].
  - split; [done|]. rewrite List.Forall_forall in *. intros p Hp. destruct (Hq1 p Hp) as (? & Hpl & _).
    split_and!; [done| |].
    + destruct Hpl as [|Hin]; [by left|right]. by apply Hst in Hin as [[]|].
    + specialize (E10 p Hp). cbn in E10. apply orb_true_iff in E10 as [Hs|Hs]; [left; by apply String.eqb_eq|by right].
  - by rewrite E12.
Qed.

End parse.

(** ** The configuration text has the lines it should have, and no other *)

Notation nl := (zb 10).

Lemma nl_hex l : bytes_ok l -> smem nl (hex_encode l) = false.
Proof.
  induction 1 as [|b l Hb Hl IH]; [done|]. cbn [hex_encode smem]. unfold is_byte in Hb.
  rewrite !hex_digit_not by (done || (Z.to_euclidean_division_equations; lia)). exact IH.
Qed.
Lemma nl_itoa n : 0 <= n -> smem nl (itoa n) = false.
Proof. intros. by apply smem_itoa. Qed.
Lemma nl_v4 v : smem nl (v4_string v) = false.
Proof.
  assert (forall x, smem nl (dec_nonneg (x mod 256)) = false) as Hd.
  { intros x. pose proof (Z.mod_pos_bound x 256 ltac:(lia)). pose proof (nl_itoa (x mod 256) ltac:(lia)) as Hi.
    unfold itoa in Hi. destruct (Z.ltb_spec (x mod 256) 0); [lia|done]. }
  unfold v4_string. by rewrite !smem_app, !Hd.
Qed.
Lemma nl_addr a : Zone a = "" -> smem nl (Addr_String a) = false.
Proof.
  destruct a as [|v|v z]; [done|intros _; apply nl_v4|]. cbn [Zone]. intros ->. unfold Addr_String.
  rewrite smem_app. cbn [String.eqb smem]. rewrite orb_false_r. destruct (Is4In6 _).
  - rewrite smem_app, nl_v4. done.
  - by apply smem_v6_string.
Qed.
Lemma nl_addrport ep : Zone (ap_addr ep) = "" -> 0 <= ap_port ep -> smem nl (AddrPort_String ep) = false.
Proof.
  intros Hz Hp. unfold AddrPort_String. pose proof (nl_addr _ Hz) as Ha. destruct (ap_addr ep); [done|..];
    rewrite !smem_app, Ha, nl_itoa by done; done.
Qed.
Lemma nl_prefix p : Zone (pf_addr p) = "" -> smem nl (Prefix_String p) = false.
Proof.
  intros Hz. unfold Prefix_String. destruct (Prefix_IsValid p) eqn:E; [|done].
  unfold Prefix_IsValid in E. rewrite !smem_app, nl_addr by done.
  repeat (apply andb_true_iff in E as [E ?]). rewrite nl_itoa by lia. done.
Qed.

Definition kv (field value : string) : string := field +:+ "=" +:+ value.
Lemma uapi_line_kv field value s : uapi_line field value +:+ s = unlines [kv field value] +:+ s.
Proof. unfold uapi_line, kv, newline. cbn [unlines]. by rewrite !sapp_assoc. Qed.
Lemma one_line_kv field value : one_line field -> one_line value -> one_line (kv field value).
Proof. unfold one_line, kv. intros H1 H2. by rewrite !smem_app, H1, H2. Qed.

(** What a peer of the configuration amounts to, its texts read. *)
Record uapi_peer := mkUp {
  up_key : list Z; up_psk : option (list Z); up_endpoint : option AddrPort;
  up_keepalive : Z; up_routes : list Prefix
}.
Definition reads {A} (parse : string -> result A) (text : string) (o : option A) : Prop :=
  match o with None => text = "" | Some a => text <> "" /\ parse text = Ok a end.
Record uapi_reads (p : peerConfig) (u : uapi_peer) : Prop := {
  ur_key : PublicKey (pcPublicKey p) = Ok (up_key u);
  ur_psk : reads Validation.Key (pcPresharedKey p) (up_psk u);
  ur_endpoint : reads Endpoint (pcEndpoint p) (up_endpoint u);
  ur_keepalive : up_keepalive u = pcPersistentKeepalive p /\ 0 <= up_keepalive u <= 65535;
  ur_routes : Forall2 (fun text r => ServiceRoute text = Ok r) (pcAllowedIPs p) (up_routes u);
  ur_count : Z.of_nat (length (up_routes u)) <= MaxRoutes
}.
Definition opt_line {A} (f : A -> string) (o : option A) : list string :=
  match o with Some a => [f a] | None => [] end.
Definition peer_block (u : uapi_peer) : list string :=
  [kv "public_key" (hex_encode (up_key u))] ++
  opt_line (fun k => kv "preshared_key" (hex_encode k)) (up_psk u) ++
  opt_line (fun ep => kv "endpoint" (AddrPort_String ep)) (up_endpoint u) ++
  (if 0 <? up_keepalive u then [kv "persistent_keepalive_interval" (itoa (up_keepalive u))] else []) ++
  [kv "replace_allowed_ips" "true"] ++
  map (fun r => kv "allowed_ip" (Prefix_String r)) (up_routes u).
Definition config_block (private : list Z) (port : Z) (peers : list uapi_peer) : list string :=
  [kv "private_key" (hex_encode private)] ++
  (if 0 <? port then [kv "listen_port" (itoa port)] else []) ++
  [kv "replace_peers" "true"] ++ concat (map peer_block peers).

Lemma Key_bytes text k : Validation.Key text = Ok k -> length k = 32%nat /\ bytes_ok k.
Proof. intros (? & ? & _)%Key_ok_iff. done. Qed.
Lemma PublicKey_bytes text k : PublicKey text = Ok k -> length k = 32%nat /\ bytes_ok k.
Proof.
  unfold PublicKey. destruct (Validation.Key text) as [k'|] eqn:E; [|done]. destruct (ecdh_ok _ _); [|done].
  intros [= <-]. by eapply Key_bytes.
Qed.
Lemma ServiceRoute_zone text r : ServiceRoute text = Ok r -> Zone (pf_addr r) = "".
Proof.
  unfold ServiceRoute, ValidPrefix. destruct (64 <? slen text); [done|].
  destruct (ParsePrefix text) as [q|] eqn:E; [|done]. destruct (Is4In6 _ || _ || _ || _ || _); [done|].
  cbn zeta. apply ParsePrefix_wf in E as (_ & Hz & _). destruct (_ <? _); [done|]. intros [= <-].
  unfold Masked. destruct q as [[|v|v z] b]; cbn [pf_addr pf_bits Zone] in *; destruct (_ || _); try done.
Qed.

Lemma one_line_block u p : uapi_reads p u -> Forall one_line (peer_block u).
Proof.
  intros [Hk Hp He [_ Hka] Hr _]. unfold peer_block. rewrite !Forall_app. split_and!.
  - repeat constructor. apply one_line_kv; [done|]. apply nl_hex. by eapply PublicKey_bytes.
  - destruct (up_psk u) as [k|]; [|constructor]. destruct Hp as [_ Hp]. repeat constructor.
    apply one_line_kv; [done|]. apply nl_hex. by eapply Key_bytes.
  - destruct (up_endpoint u) as [ep|]; [|constructor]. destruct He as [_ He]. repeat constructor.
    apply one_line_kv; [done|]. apply Endpoint_endpoint_ok in He as (_ & ? & ? & _). apply nl_addrport; [done|lia].
  - destruct (0 <? _); repeat constructor. apply one_line_kv; [done|]. apply nl_itoa. lia.
  - by repeat constructor.
  - clear -Hr. induction Hr as [|t r ts rs H _ IH]; constructor; [|exact IH].
    apply one_line_kv; [done|]. apply nl_prefix. by eapply ServiceRoute_zone.
Qed.

Lemma route_lines_text l : forall text, route_lines_uapi l = Ok text ->
  exists rs, Forall2 (fun t r => ServiceRoute t = Ok r) l rs /\
             text = unlines (map (fun r => kv "allowed_ip" (Prefix_String r)) rs).
Proof.
  induction l as [|c l IH]; intros text; cbn [route_lines_uapi].
  { intros [= <-]. exists []. by split; [constructor|]. }
  destruct (ServiceRoute c) as [r|] eqn:Er; [|done]. destruct (route_lines_uapi l) as [s|] eqn:El; [|done].
  intros <-%Ok_inj. destruct (IH _ eq_refl) as (rs & Hrs & ->). exists (r :: rs). split; [by constructor|].
  rewrite uapi_line_kv. cbn [map]. by rewrite <-unlines_app.
Qed.
Lemma opt_text {A} (parse : string -> result A) (f : A -> string) t text :
  (if t =s "" then Ok "" else let? a := parse t in Ok (f a)) = Ok text ->
  exists o, reads parse t o /\ text = match o with Some a => f a | None => "" end.
Proof.
  destruct (String.eqb_spec t "") as [Ht|Ht]; [intros [= <-]; by exists None|].
  destruct (parse t) as [a|] eqn:E; [|done]. intros [= <-]. by exists (Some a).
Qed.

Lemma opt_line_text {A} (f : A -> string) name (o : option A) :
  match o with Some a => uapi_line name (f a) | None => "" end = unlines (opt_line (fun a => kv name (f a)) o).
Proof. destruct o as [a|]; [|done]. unfold uapi_line, kv, newline. cbn [opt_line unlines]. by rewrite !sapp_assoc. Qed.
Lemma if_line_text (b : bool) name value :
  (if b then uapi_line name value else "") = unlines (if b then [kv name value] else []).
Proof. apply (opt_line_text (fun v => v) name (if b then Some value else None)) || by destruct b; [apply (opt_line_text (fun v => v) name (Some value))|]. Qed.

Lemma peers_text l : forall seen text, peers_uapi seen l = Ok text ->
  exists us, Forall2 uapi_reads l us /\ text = unlines (concat (map peer_block us)) /\
             NoDup (map up_key us) /\ (forall k, k ∈ seen -> ~ In k (map up_key us)).
Proof.
  induction l as [|p l IH]; intros seen text; cbn [peers_uapi].
  { intros [= <-]. exists []. split_and!; [constructor|done|constructor|by intros ? _ []]. }
  destruct (PublicKey (pcPublicKey p)) as [pub|] eqn:Epub; [|done].
  destruct (bool_decide (pub ∈ seen)) eqn:Eseen; [done|].
  destruct ((pcPersistentKeepalive p <? 0) || _ || _) eqn:Eka; [done|].
  destruct (if pcPresharedKey p =s "" then _ else _) as [psk|] eqn:Epsk; [|done].
  destruct (if pcEndpoint p =s "" then _ else _) as [ep|] eqn:Eep; [|done].
  destruct (route_lines_uapi (pcAllowedIPs p)) as [routes|] eqn:Er; [|done].
  destruct (peers_uapi (pub :: seen) l) as [rest|] eqn:Erest; [|done]. intros <-%Ok_inj.
  apply IH in Erest as (us & Hus & -> & Hnd & Hfresh).
  apply route_lines_text in Er as (rs & Hrs & ->).
  apply (opt_text Endpoint) in Eep as (oep & Hep & ->).
  assert (exists o, reads Validation.Key (pcPresharedKey p) o /\
                    psk = match o with Some k => uapi_line "preshared_key" (hex_encode k) | None => "" end) as (opsk & Hpsk & ->).
  { apply (opt_text Validation.Key (fun k => uapi_line "preshared_key" (hex_encode k))).
    rewrite <-Epsk. unfold keyToHex. destruct (_ =s _); [done|]. by destruct (Validation.Key _). }
  apply orb_false_iff in Eka as [[Hk1 Hk2]%orb_false_iff Hk3]. rewrite Z.ltb_ge in *.
  exists (mkUp pub opsk oep (pcPersistentKeepalive p) rs :: us). split_and!.
  - constructor; [|done]. constructor; cbn; try done. by rewrite <-(Forall2_length Hrs).
  - rewrite !opt_line_text, if_line_text. cbn [map concat]. unfold peer_block. cbn [up_key up_psk up_endpoint up_keepalive up_routes].
    rewrite !unlines_app, !sapp_assoc. rewrite !uapi_line_kv. done.
  - cbn. apply list.NoDup_cons. split; [|done]. rewrite list_elem_of_In. apply Hfresh. set_solver.
  - intros k Hk [<-|Hin].
    + cbn in Hk. by apply bool_decide_eq_false in Eseen.
    + eapply Hfresh; [|exact Hin]. set_solver.
Qed.

(** C20: What the node hands to WireGuard is, line by line, the configuration: the
    private key, the port when one is set, the order to replace all peers, and
    for each peer its key, its secret, endpoint and keepalive where present and
    exactly its service routes.  Whatever texts the app supplied, they add no
    line of their own, and no key appears twice. *)
Theorem buildUAPI_lines cfg text :
  buildUAPI (Some cfg) = Ok text ->
  exists private peers,
    Validation.Key (icPrivateKey (tcInterface cfg)) = Ok private /\
    Forall2 uapi_reads (tcPeers cfg) peers /\ NoDup (map up_key peers) /\
    split_on nl text = config_block private (icListenPort (tcInterface cfg)) peers ++ [""].
Proof.
  unfold buildUAPI. cbv zeta. set (port := icListenPort _).
  destruct ((port <? 0) || _ || _) eqn:Ep; [done|]. apply orb_false_iff in Ep as [[Hp1 Hp2]%orb_false_iff _].
  rewrite Z.ltb_ge in *. unfold keyToHex. destruct (Validation.Key _) as [k|] eqn:Ek; [|done].
  destruct (peers_uapi [] (tcPeers cfg)) as [s|] eqn:Es; [|done]. intros <-%Ok_inj.
  apply peers_text in Es as (us & Hus & -> & Hnd & _). exists k, us. split_and!; try done.
  rewrite if_line_text, !uapi_line_kv, <-!unlines_app. apply split_unlines. unfold config_block.
  rewrite !Forall_app. split_and!.
  - repeat constructor. apply one_line_kv; [done|]. apply nl_hex. by eapply Key_bytes.
  - destruct (0 <? port); repeat constructor. apply one_line_kv; [done|]. by apply nl_itoa.
  - by repeat constructor.
  - clear -Hus. induction Hus as [|p u ps us H _ IH]; [constructor|]. cbn [map concat]. apply Forall_app. split; [|exact IH].
    by eapply one_line_block.
Qed.

Lemma endpoint_uapi_lines key endpoint text :
  buildPeerEndpointUAPI key endpoint = Ok text ->
  exists pub ep, PublicKey key = Ok pub /\ Endpoint endpoint = Ok ep /\
    split_on nl text = [kv "public_key" (hex_encode pub); kv "update_only" "true"; kv "endpoint" (AddrPort_String ep); ""].
Proof.
  unfold buildPeerEndpointUAPI. destruct (PublicKey key) as [pub|] eqn:Ek; [|done].
  destruct (Endpoint endpoint) as [ep|] eqn:Ee; [|done]. intros <-%Ok_inj. exists pub, ep. split_and!; try done.
  pose proof (opt_line_text (fun v => v) "endpoint" (Some (AddrPort_String ep))) as Hl. cbn [opt_line] in Hl.
  rewrite Hl, !uapi_line_kv, <-!unlines_app. cbn [app].
  rewrite split_unlines; [done|]. repeat constructor; apply one_line_kv; try done.
  - apply nl_hex. by eapply PublicKey_bytes.
  - apply Endpoint_endpoint_ok in Ee as (_ & ? & ? & _). apply nl_addrport; [done|lia].
Qed.

(** A run-time endpoint update names one peer by its key, may not create one,
    and sets its endpoint: three lines whatever the texts were. *)
Theorem buildPeerEndpointUAPI_lines key endpoint text :
  buildPeerEndpointUAPI key endpoint = Ok text ->
  exists pub ep, PublicKey key = Ok pub /\ Endpoint endpoint = Ok ep /\
    split_on nl text = [kv "public_key" (hex_encode pub); kv "update_only" "true"; kv "endpoint" (AddrPort_String ep); ""].
Proof. apply endpoint_uapi_lines. Qed.

(** ** Reading WireGuard's status *)

(** A peer as WireGuard describes it: its tracked lines among others. *)
Record status_peer := mkSp {
  sp_key : list Z; sp_other : list string; sp_endpoint : option AddrPort; sp_handshake : Z; sp_received : Z
}.
Definition tracked : list string := ["public_key"; "endpoint"; "last_handshake_time_sec"; "rx_bytes"].
(** A line the reader has no use for. *)
Definition untracked (line : string) : Prop :=
  one_line line /\ match cut "=" line with Some (field, _) => ~ In field tracked | None => True end.
Record status_ok (p : status_peer) : Prop := {
  so_key : length (sp_key p) = 32%nat /\ bytes_ok (sp_key p);
  so_other : Forall untracked (sp_other p);
  so_endpoint : forall ep, sp_endpoint p = Some ep -> Zone (ap_addr ep) = "" /\ 0 <= ap_port ep;
  so_counts : 0 <= sp_handshake p < 2 ^ 63 /\ 0 <= sp_received p < 2 ^ 64
}.
Definition status_block (p : status_peer) : list string :=
  [kv "public_key" (hex_encode (sp_key p))] ++ sp_other p ++
  opt_line (fun ep => kv "endpoint" (AddrPort_String ep)) (sp_endpoint p) ++
  [kv "last_handshake_time_sec" (itoa (sp_handshake p)); kv "rx_bytes" (itoa (sp_received p))].
Definition status_health (p : status_peer) : Health :=
  mkHealth (match sp_endpoint p with Some ep => AddrPort_String ep | None => "" end)
    (if 0 <? sp_handshake p then time_Unix (sp_handshake p) else 0) (sp_received p).

Lemma cut_kv field value : smem "=" field = false -> cut "=" (kv field value) = Some (field, value).
Proof.
  unfold kv. change ("=" +:+ value) with (String "=" value). induction field as [|c s IH]; [done|].
  cbn [smem]. intros [Hc Hs]%orb_false_iff. specialize (IH Hs).
  change (String c s +:+ String "=" value) with (String c (s +:+ String "=" value)). cbn [cut]. by rewrite Hc, IH.
Qed.
Lemma untracked_line peers peer line : untracked line -> health_line peers peer line = Ok (peers, peer).
Proof.
  intros [_ Hu]. unfold health_line. destruct (cut "=" line) as [[f v]|]; [|done].
  unfold tracked in Hu. cbn [In] in Hu.
  destruct (String.eqb_spec f "public_key"); [naive_solver|]. destruct (String.eqb_spec f "endpoint"); [naive_solver|].
  destruct (String.eqb_spec f "last_handshake_time_sec"); [naive_solver|].
  destruct (String.eqb_spec f "rx_bytes"); [naive_solver|]. done.
Qed.

(** The reader, line after line. *)
Fixpoint read_lines (peers : gmap string Health) (peer : string) (lines : list string)
  : result (gmap string Health * string) :=
  match lines with
  | [] => Ok (peers, peer)
  | line :: rest => let? (peers, peer) := health_line peers peer line in read_lines peers peer rest
  end.
Lemma read_lines_app a b : forall peers peer,
  read_lines peers peer (a ++ b) = (let? (ps, p) := read_lines peers peer a in read_lines ps p b).
Proof.
  induction a as [|x a IH]; intros peers peer; [done|]. cbn [read_lines app].
  destruct (health_line peers peer x) as [[ps p]|]; [apply IH|done].
Qed.
Lemma write_lines_read lines : forall peers peer,
  health_write_lines peers peer (lines ++ [""]) = (let? (ps, _) := read_lines peers peer lines in Ok ps).
Proof.
  induction lines as [|x l IH]; intros peers peer; [done|]. cbn [read_lines app].
  assert (health_write_lines peers peer (x :: l ++ [""]) =
          (let? (ps, p) := health_line peers peer x in health_write_lines ps p (l ++ [""]))) as ->.
  { by destruct l. }
  destruct (health_line peers peer x) as [[ps p]|]; [apply IH|done].
Qed.
Lemma untracked_lines ls : Forall untracked ls -> forall peers peer, read_lines peers peer ls = Ok (peers, peer).
Proof.
  induction 1 as [|x l Hx _ IH]; intros peers peer; [done|]. cbn [read_lines]. by rewrite untracked_line.
Qed.

Lemma read_block peers peer p : status_ok p ->
  read_lines peers peer (status_block p) =
  Ok (<[b64_encode (sp_key p) := status_health p]> peers, b64_encode (sp_key p)).
Proof.
  intros [[Hl Hb] Ho He [Hh Hr]]. unfold status_block. rewrite read_lines_app. cbn [read_lines].
  unfold health_line at 1. rewrite cut_kv by done. cbn [String.eqb Ascii.eqb Bool.eqb].
  rewrite hex_roundtrip, Hl by done. cbn [Nat.eqb negb]. cbv beta iota zeta.
  rewrite read_lines_app, untracked_lines by done. cbv beta iota. rewrite read_lines_app.
  set (k := b64_encode (sp_key p)). assert (k =s "" = false) as Hk.
  { subst k. destruct (sp_key p) as [|a [|b [|c l]]]; done. }
  assert (forall ps f v h, ps !! k = Some h -> f = "endpoint" \/ f = "last_handshake_time_sec" \/ f = "rx_bytes" ->
    health_line ps k (kv f v) =
      let? h := (if f =s "endpoint" then Ok (set_endpoint h v)
                     else if f =s "last_handshake_time_sec" then
                       match parse_int64 v with
                       | None => Err (ENew "ParseInt")
                       | Some n => Ok (if 0 <? n then set_handshake h (time_Unix n) else h)
                       end
                     else match parse_uint10 64 v with
                          | None => Err (ENew "ParseUint")
                          | Some n => Ok (set_received h n)
                          end) in
      Ok (<[k := h]> ps, k)) as Hline.
  { intros ps f v h Hps Hf. unfold health_line. rewrite cut_kv by (destruct Hf as [->|[->| ->]]; done).
    rewrite Hk, Hps. destruct Hf as [->|[->| ->]]; done. }
  assert (read_lines (<[k := Health0]> peers) k
            (opt_line (fun ep => kv "endpoint" (AddrPort_String ep)) (sp_endpoint p)) =
          Ok (<[k := mkHealth (hEndpoint (status_health p)) 0 0]> peers, k)) as ->.
  { unfold status_health. destruct (sp_endpoint p) as [ep|]; [|done]. cbn [opt_line read_lines hEndpoint].
    rewrite (Hline _ _ _ Health0) by (apply lookup_insert_eq || by left). cbn. by rewrite insert_insert_eq. }
  cbv beta iota. cbn [read_lines].
  erewrite Hline by (apply lookup_insert_eq || by right; left). cbn [String.eqb Ascii.eqb Bool.eqb].
  rewrite parse_int64_itoa by done. cbv beta iota. rewrite insert_insert_eq.
  erewrite Hline by (apply lookup_insert_eq || by right; right). cbn [String.eqb Ascii.eqb Bool.eqb].
  rewrite parse_uint10_itoa by done. cbv beta iota. rewrite insert_insert_eq.
  unfold status_health. by destruct (0 <? sp_handshake p).
Qed.

Lemma one_line_status p : status_ok p -> Forall one_line (status_block p).
Proof.
  intros [[_ Hb] Ho He [[Hh _] [Hr _]]]. unfold status_block. rewrite !Forall_app. split_and!.
  - repeat constructor. apply one_line_kv; [done|]. by apply nl_hex.
  - eapply Forall_impl; [|exact Ho]. by intros ? [? _].
  - destruct (sp_endpoint p) as [ep|]; [|constructor]. destruct (He ep eq_refl). repeat constructor.
    apply one_line_kv; [done|]. by apply nl_addrport.
  - repeat constructor; apply one_line_kv; try done; by apply nl_itoa.
Qed.
Definition status_map (peers : gmap string Health) (ps : list status_peer) : gmap string Health :=
  foldl (fun m p => <[b64_encode (sp_key p) := status_health p]> m) peers ps.
Lemma read_blocks ps : Forall status_ok ps -> forall peers peer,
  exists peer', read_lines peers peer (concat (map status_block ps)) = Ok (status_map peers ps, peer').
Proof.
  induction 1 as [|p ps Hp _ IH]; intros peers peer; [by eexists|].
  cbn [map concat]. rewrite read_lines_app, read_block by done. cbv beta iota.
  destruct (IH (<[b64_encode (sp_key p) := status_health p]> peers) (b64_encode (sp_key p))) as [peer' ->]. by exists peer'.
Qed.
Lemma status_map_other ps k : forall m, ~ In k (map (fun p => b64_encode (sp_key p)) ps) -> status_map m ps !! k = m !! k.
Proof.
  induction ps as [|p ps IH]; intros m Hk; [done|]. cbn in *. unfold status_map in *. rewrite IH by tauto.
  rewrite lookup_insert_ne; [done|]. intros E. apply Hk. by left.
Qed.
Lemma status_map_spec ps : NoDup (map (fun p => b64_encode (sp_key p)) ps) ->
  forall m p, In p ps -> status_map m ps !! b64_encode (sp_key p) = Some (status_health p).
Proof.
  induction ps as [|q ps IH]; intros Hnd m p Hp; [done|]. cbn [map] in Hnd. apply list.NoDup_cons in Hnd as [Hq Hnd].
  rewrite list_elem_of_In in Hq. unfold status_map. cbn [foldl]. destruct Hp as [->|Hp].
  - fold (status_map (<[b64_encode (sp_key p) := status_health p]> m) ps). rewrite status_map_other by done.
    apply lookup_insert_eq.
  - by apply IH.
Qed.

(** The health the controller works with is WireGuard's own: whatever other
    lines a status holds, secrets among them, the reader yields for each listed
    peer its endpoint, the time of its last handshake and its received bytes,
    and an entry for no other peer. *)
Theorem healthWriter_reads pre ps :
  Forall untracked pre -> Forall status_ok ps -> NoDup (map sp_key ps) ->
  slen (unlines (pre ++ concat (map status_block ps))) <= 128 * 1024 ->
  exists m, healthWriter_Write ∅ (unlines (pre ++ concat (map status_block ps))) = Ok m /\
    (forall p, In p ps -> m !! b64_encode (sp_key p) = Some (status_health p)) /\
    (forall key h, m !! key = Some h -> exists p, In p ps /\ key = b64_encode (sp_key p)).
Proof.
  intros Hpre Hps Hnd Hlen. exists (status_map ∅ ps). unfold healthWriter_Write.
  destruct (Z.ltb_spec (128 * 1024) (slen (unlines (pre ++ concat (map status_block ps))))); [lia|].
  rewrite split_unlines.
  2: { apply Forall_app. split; [eapply Forall_impl; [|exact Hpre]; by intros ? [? _]|].
       clear -Hps. induction Hps as [|p ps H _ IH]; [constructor|]. cbn [map concat]. apply Forall_app. split; [|exact IH].
       by apply one_line_status. }
  rewrite write_lines_read, read_lines_app, untracked_lines by done. cbv beta iota.
  destruct (read_blocks ps Hps ∅ "") as [peer' ->]. cbv beta iota.
  assert (NoDup (map (fun p => b64_encode (sp_key p)) ps)) as Hnd'.
  { clear -Hps Hnd. induction Hps as [|p ps Hp Hps IH]; [constructor|]. cbn [map] in *.
    apply list.NoDup_cons in Hnd as [Hn Hnd]. apply list.NoDup_cons. split; [|by apply IH].
    rewrite list_elem_of_In. intros (q & Eq & Hq)%in_map_iff. apply Hn, list_elem_of_In, in_map_iff. exists q. split; [|done].
    rewrite List.Forall_forall in Hps. destruct Hp as [[_ Hb] _ _ _], (Hps q Hq) as [[_ Hb'] _ _ _].
    by apply b64_inj in Eq. }
  split_and!; [done|by apply status_map_spec|].
  intros key h Hm. destruct (in_dec String.string_dec key (map (fun p => b64_encode (sp_key p)) ps)) as [(p & <- & Hp)%in_map_iff|Hk].
  - by exists p.
  - by rewrite status_map_other in Hm by done.
Qed.

(** ** Witnesses *)

#[local] Instance w_tables : UnicodeTables := {| lower_rune := fun r => r |}.
#[local] Instance w_urls : UrlLib :=
  {| url_Parse := fun s => if s =s "https://d" then Some (mkURL "https" "d" false "" "" "" "") else None;
     URL_String := fun u => Scheme u +:+ "://" +:+ Host u +:+ Path u |}.
(** The text with its single quotes doubled up to JSON's. *)
Fixpoint dq (s : string) : string :=
  match s with "" => "" | String c s' => String (if Ascii.eqb c "'" then zb 34 else c) (dq s') end.
Definition w_key (n : Z) : string := b64_encode (n :: replicate 31 0).
Lemma PublicKey_w_key : PublicKey (w_key 9) = Ok base_key.
Proof. exact PublicKey_base. Qed.
Definition w_text : string :=
  dq ("{'id':'t','interface':{'private_key':'" +:+ w_key 1 +:+ "','addresses':['10.9.0.1/24'],'listen_port':51820}," +:+
      "'plugins':[{'instance':'dht','type':'builtin','name':'opendht','config':{'endpoint':'https://d'}}]," +:+
      "'peers':[{'public_key':'" +:+ w_key 9 +:+ "','plugin':'dht','endpoint':'203.0.113.7:51820'," +:+
      "'allowed_ips':['10.9.0.2/32'],'persistent_keepalive':25}],'refresh_interval_seconds':120}").
Definition w_config : tunnelConfig :=
  mkTunnel "t" "" (mkIface (w_key 1) ["10.9.0.1/24"] [] 51820 1420 "ipv4")
    [mkPeerConfig "" "" (w_key 9) "" ["10.9.0.2/32"] "203.0.113.7:51820" "dht" "" 25]
    [mkPluginDef "dht" "builtin" "opendht" {[ "endpoint" := AStr "https://d" ]}] [defaultStunServer] 120 "".
Definition w_uapi : string :=
  unlines [kv "private_key" (hex_encode (1 :: replicate 31 0)); "listen_port=51820"; "replace_peers=true";
           kv "public_key" (hex_encode base_key); "endpoint=203.0.113.7:51820";
           "persistent_keepalive_interval=25"; "replace_allowed_ips=true"; "allowed_ip=10.9.0.2/32"].
Lemma w_peers_uapi : exists text, peers_uapi [] (tcPeers w_config) = Ok text /\
  w_uapi = uapi_line "private_key" (hex_encode (1 :: replicate 31 0)) +:+ uapi_line "listen_port" "51820" +:+
           uapi_line "replace_peers" "true" +:+ text.
Proof.
  cbn [w_config tcPeers peers_uapi pcPublicKey]. rewrite PublicKey_w_key. cbv beta iota.
  eexists. split; vm_compute; reflexivity.
Qed.
Example w_uapi_built : buildUAPI (Some w_config) = Ok w_uapi.
Proof.
  unfold buildUAPI. cbv zeta. do 2 eval_head. destruct w_peers_uapi as (text & -> & ->). vm_compute. reflexivity.
Qed.
Lemma w_peers_checked : check_peers ["dht"] [] (tcPeers w_config) = Ok tt.
Proof. cbn [w_config tcPeers check_peers pcPlugin]. eval_head. cbn [pcPublicKey]. rewrite PublicKey_w_key. vm_compute. reflexivity. Qed.
Example w_text_parses : parseConfig w_text = Ok w_config.
Proof.
  unfold parseConfig. eval_head.
  match goal with |- context [tcInterface ?c] => change (with_defaults c) with w_config; set (d := c) end. cbv zeta.
  do 8 eval_head. change (tcPeers d) with (tcPeers w_config). rewrite w_peers_checked. do 3 eval_head.
  rewrite w_uapi_built. reflexivity.
Qed.

Lemma buildUAPI_lines_witness : exists private peers,
  Validation.Key (w_key 1) = Ok private /\ Forall2 uapi_reads (tcPeers w_config) peers /\ NoDup (map up_key peers) /\
  split_on nl w_uapi = config_block private 51820 peers ++ [""].
Proof. apply (buildUAPI_lines w_config w_uapi). exact w_uapi_built. Defined.

Lemma buildPeerEndpointUAPI_lines_witness : exists pub ep,
  PublicKey (w_key 9) = Ok pub /\ Endpoint "203.0.113.7:51820" = Ok ep /\
  split_on nl (unlines [kv "public_key" (hex_encode base_key); "update_only=true"; "endpoint=203.0.113.7:51820"]) =
  [kv "public_key" (hex_encode pub); kv "update_only" "true"; kv "endpoint" (AddrPort_String ep); ""].
Proof. apply buildPeerEndpointUAPI_lines. unfold buildPeerEndpointUAPI. rewrite PublicKey_w_key. vm_compute. reflexivity. Defined.

Definition w_status (n : Z) : status_peer :=
  mkSp (replicate 32 n) ["preshared_key=00"; "tx_bytes=7"] (Some (mkAP (Addr4 n) 51820)) (n * 1000) (n * 10).
Lemma w_status_ok n : 0 <= n < 256 -> status_ok (w_status n).
Proof.
  intros Hn. constructor; cbn [w_status sp_key sp_other sp_endpoint sp_handshake sp_received].
  - split; [by rewrite length_replicate|]. apply Forall_replicate. exact Hn.
  - repeat constructor; cbn; intuition discriminate.
  - intros ep [= <-]. by split.
  - lia.
Qed.
Lemma healthWriter_reads_witness :
  let text := unlines (["private_key=00"; "listen_port=51820"] ++ concat (map status_block [w_status 1; w_status 2])) in
  exists m, healthWriter_Write ∅ text = Ok m /\
    (forall p, In p [w_status 1; w_status 2] -> m !! b64_encode (sp_key p) = Some (status_health p)) /\
    (forall key h, m !! key = Some h -> exists p, In p [w_status 1; w_status 2] /\ key = b64_encode (sp_key p)).
Proof.
  apply (healthWriter_reads ["private_key=00"; "listen_port=51820"] [w_status 1; w_status 2]).
  - repeat constructor; cbn; intuition discriminate.
  - constructor; [by apply w_status_ok|]. constructor; [by apply w_status_ok|constructor].
  - cbn. apply list.NoDup_cons. split; [|apply NoDup_singleton]. rewrite list_elem_of_In. cbn. intuition discriminate.
  - vm_compute. discriminate.
Defined.
