(* ===== verification/MobileController.v ===== *)
(** * mobile/{controller,transport}.go: the mobile discovery cycle

    The controller of a running node: it discovers the node's reflexive
    addresses through the shared socket, publishes them for each peer, looks the
    peers' records up and applies a candidate endpoint to those that do not
    work, with a bounded backoff between cycles.  What it calls on the node
    ([MobileNode]) is a class; lookups, STUN exchanges and the clock are
    answered by the environment. *)

From S2P Require Import Prelude GoStr Codec Netip Json Validation Discovery Entity GoTime Plugin Dialer Wg Ctrl MobileConfig.

(** ** Data *)

Record underlayState := mkUnderlay { online : bool; ipv4 : bool; ipv6 : bool }.

(** The discovery view contains no private key or PSK. *)
Record discoveryPeer := mkDp {
  dp_Name : string; dp_PublicKey : string; dp_Plugin : string; dp_Protocol : string; dp_Bootstrap : string
}.
Record controllerConfig := mkCc {
  cc_Protocol : string; cc_Stun : list string; cc_RefreshIntervalSeconds : Z; cc_Peers : list discoveryPeer
}.
(** [changed] is the channel of capacity one; [cycleCancel] is the cycle under
    way, if any, and whether it was cancelled. *)
Record controller := mkController {
  c_cfg : controllerConfig; c_pub : list Z; c_pluginDefs : gmap string PluginDefinition;
  c_manager : Manager; c_pluginsReady : bool; c_selection : gmap string Selection;
  c_network : underlayState; c_changed : bool; c_cycleCancel : option bool
}.

Definition discovery_view (cfg : tunnelConfig) : controllerConfig :=
  mkCc (icProtocol (tcInterface cfg)) (tcStun cfg) (tcRefreshIntervalSeconds cfg)
    (map (fun p => mkDp (pcName p) (pcPublicKey p) (pcPlugin p) (pcProtocol p) (pcEndpoint p)) (tcPeers cfg)).
(** The given name first, then every configured entry over it. *)
Definition controller_defs (l : list pluginDef) : gmap string PluginDefinition :=
  fold_left (fun defs d =>
    <[pdInstance d := mkDef (pdType d) (pdConfig d ∪ {[ "name" := AStr (pdName d) ]})]> defs) l ∅.
Definition newController (cfg : tunnelConfig) (network : underlayState) (pub : list Z) : controller :=
  mkController (discovery_view cfg) pub (controller_defs (tcPlugins cfg)) NewManager false ∅ network false None.

Definition with_plugins (c : controller) (m : Manager) (ready : bool) : controller :=
  mkController (c_cfg c) (c_pub c) (c_pluginDefs c) m ready (c_selection c) (c_network c) (c_changed c) (c_cycleCancel c).
Definition with_selection (c : controller) (s : gmap string Selection) : controller :=
  mkController (c_cfg c) (c_pub c) (c_pluginDefs c) (c_manager c) (c_pluginsReady c) s (c_network c) (c_changed c)
    (c_cycleCancel c).
Definition with_network (c : controller) (n : underlayState) (changed : bool) (cycle : option bool) : controller :=
  mkController (c_cfg c) (c_pub c) (c_pluginDefs c) (c_manager c) (c_pluginsReady c) (c_selection c) n changed cycle.

(** What the cycle does that can be seen outside. *)
Inductive mobile_act : Type :=
| OnLog (level message : string)
| OnEvent (kind peer detail : string)
| ASet (s : StoreSet)
| AUpdate (publicKey endpoint : string).

(** The node the controller belongs to. *)
Class MobileHost := {
  peerHealth : result (gmap string Health);
  node_SetPeerEndpoint : string -> string -> result unit;
  pluginDNSServers : list string
}.
(** The platform: the protector's answer, a lookup over an escaped socket, a
    STUN exchange over the shared socket ([mobilebind.Bind.Discover]). *)
Class MobileEnv := {
  env_protector : option bool;
  env_lookup : Escape -> string -> string -> result (Addr * list Addr);
  env_Discover : AddrPort -> result AddrPort
}.

(** ** transport.go *)

Definition protectedContext (protector : option bool) (dnsServers : list string) : Escape :=
  mkEscapeOf 0 0 ∅ protector dnsServers.

(** ** Discovery *)

Section cycle.
Context `{MobileHost} `{MobileEnv}.

Definition resolveSTUN (network server : string) : result AddrPort :=
  ResolveAddrPort (env_lookup (protectedContext env_protector pluginDNSServers)) network server.
Definition probeServer (network server : string) : result AddrPort :=
  let? dst := resolveSTUN network server in env_Discover dst.
(** The servers in order, the last error kept. *)
Fixpoint probe_servers (network : string) (lastErr : list error) (servers : list string) : result string :=
  match servers with
  | [] => Err (EWrap "all stun servers failed" lastErr)
  | server :: rest =>
      match probeServer network server with
      | Err e => probe_servers network [e] rest
      | Ok addr => Ok (AddrPort_String addr)
      end
  end.
(** [state] is [c.network], read under its mutex when the family's turn comes. *)
Definition discoverFamily (c : controller) (state : underlayState) (network : string) : result string :=
  if negb (online state) || ((network =s "udp4") && negb (ipv4 state)) || ((network =s "udp6") && negb (ipv6 state))
  then Err (ENew "underlay family unavailable")
  else probe_servers network [] (cc_Stun (c_cfg c)).

(** The resolver of a family, with the event of a success. *)
Definition resolve_family (c : controller) (state : underlayState) (network family : string) : (string * option error) * list mobile_act :=
  match discoverFamily c state network with
  | Err e => (("", Some e), [])
  | Ok ep => ((ep, None), [OnEvent "endpoint_discovered" "" (family +:+ " " +:+ ep)])
  end.
Definition discover (c : controller) (state4 state6 : underlayState) : result Record_ * list mobile_act :=
  let protocol := cc_Protocol (c_cfg c) in
  let '(r4, a4) := resolve_family c state4 "udp4" "ipv4" in
  let '(r6, a6) := resolve_family c state6 "udp6" "ipv6" in
  let '(r, warned) := DiscoverEndpoints protocol r4 r6 in
  let acts := (if (protocol =s "ipv4") || (protocol =s "dualstack") then a4 else []) ++
              (if (protocol =s "ipv6") || (protocol =s "dualstack") then a6 else []) ++
              map (fun family => OnLog "warn" (family +:+ " discovery unavailable")) warned in
  (match r with
   | Err e => Err e
   | Ok (ep4, ep6) => Ok (mkRecord 0 ep4 ep6)
   end, acts).

(** ** Publication *)

Context `{UnicodeTables} `{Transport}.

Definition failed : mobile_act := OnLog "warn" "discovery operation failed".
Definition peer_id (c : controller) (peerPub : list Z) : PeerId := NewPeerId (c_pub c) peerPub.

Definition publish_peer (c : controller) (record : string) (peer : discoveryPeer) : bool * list mobile_act :=
  if dp_Plugin peer =s "" then (true, [])
  else
    match keyToBytes (dp_PublicKey peer) with
    | Err _ => (false, [])
    | Ok peerPub =>
        let localId := EndpointKey (peer_id c peerPub) in
        match GetPlugin (c_manager c) (dp_Plugin peer) with
        | Err _ => (false, [failed])
        | Ok store =>
            let call := ASet (mkSet (dp_Plugin peer) localId record) in
            match Set_ store localId record with
            | Err _ => (false, [call; failed])
            | Ok _ => (true, [call; OnEvent "publish_ok" (dp_PublicKey peer) localId])
            end
        end
    end.
Definition publish (c : controller) (data : Record_) : bool * list mobile_act :=
  match Encode data with
  | Err _ => (false, [OnLog "warn" "invalid local discovery result"])
  | Ok record =>
      fold_left (fun '(ok, acts) peer => let '(ok', acts') := publish_peer c record peer in (ok && ok', acts ++ acts'))
        (cc_Peers (c_cfg c)) (true, [])
  end.

(** ** Lookup *)

(** [add]: not empty, not seen, and at most four. *)
Definition add_candidate (endpoints : list string) (endpoint : string) : list string :=
  if (endpoint <>s "") && negb (bool_decide (endpoint ∈ endpoints)) && (length endpoints <? 4)%nat
  then endpoints ++ [endpoint] else endpoints.
Fixpoint add_records (peer : discoveryPeer) (local : option LocalStatus) (endpoints : list string)
    (records : list string) : list string :=
  match records with
  | [] => endpoints
  | record :: rest =>
      if (length endpoints =? 4)%nat then endpoints
      else match Decode record with
           | Err _ => add_records peer local endpoints rest
           | Ok data =>
               match SelectEndpoint data (dp_Protocol peer) local with
               | Ok endpoint =>
                   add_records peer local (if Allowed endpoint [] then add_candidate endpoints endpoint else endpoints) rest
               | Err _ => add_records peer local endpoints rest
               end
           end
  end.
Definition recoveryCandidates (peer : discoveryPeer) (records : list string) (local : option LocalStatus) : list string :=
  add_records peer local (add_candidate [] (dp_Bootstrap peer)) records.

(** One peer: whether it is fine, what was done, and its selection. *)
Definition establish_peer (c : controller) (now : Z) (health : gmap string Health) (local : option LocalStatus)
    (peer : discoveryPeer) : controller * bool * list mobile_act :=
  if dp_Plugin peer =s "" then (c, true, [])
  else
    match keyToBytes (dp_PublicKey peer) with
    | Err _ => (c, false, [])
    | Ok peerPub =>
        match GetPlugin (c_manager c) (dp_Plugin peer) with
        | Err _ => (c, false, [])
        | Ok store =>
            let key := dp_PublicKey peer in
            let selection := default Selection0 (c_selection c !! key) in
            let save s := with_selection c (<[key := s]> (c_selection c)) in
            match health !! key with
            | None => (save selection, false, [])
            | Some status =>
                let '(selection, working) := Working selection status now in
                if working then (save selection, true, [OnEvent "peer_authenticated" key ""])
                else
                  let records := Get store (RemoteEndpointKey (peer_id c peerPub)) in
                  let hints := match records with Ok l => l | Err _ => [] end in
                  let acts := match hints with [] => [OnLog "debug" "peer hint unavailable"] | _ => [] end in
                  let '(selection, endpoint) := Next selection (recoveryCandidates peer hints local) in
                  if (endpoint =s "") || (endpoint =s hEndpoint status) then (save selection, false, acts)
                  else
                    let acts := acts ++ [AUpdate key endpoint] in
                    match node_SetPeerEndpoint key endpoint with
                    | Err _ => (save selection, false, acts ++ [OnLog "error" "discovery operation failed"])
                    | Ok _ => (save selection, false, acts)
                    end
            end
        end
    end.
Fixpoint establish_peers (c : controller) (now : Z) (health : gmap string Health) (local : option LocalStatus)
    (peers : list discoveryPeer) : controller * bool * list mobile_act :=
  match peers with
  | [] => (c, true, [])
  | peer :: rest =>
      let '(c, ok, acts) := establish_peer c now health local peer in
      let '(c, ok', acts') := establish_peers c now health local rest in
      (c, ok && ok', acts ++ acts')
  end.
Definition establish (c : controller) (now : Z) (local : option LocalStatus) : controller * bool * list mobile_act :=
  match peerHealth with
  | Err _ => (c, false, [])
  | Ok health => establish_peers c now health local (cc_Peers (c_cfg c))
  end.

(** ** The cycle *)

Context `{UrlLib}.

(** [state4] and [state6] are the underlay as discovery reads it, and [alive]
    says that the context was not cancelled when the cycle ended. *)
Definition cycle (c : controller) (state4 state6 : underlayState) (now : Z) (alive : bool) : controller * bool * list mobile_act :=
  let '(c, loaded) :=
    (if c_pluginsReady c then (c, true)
     else match LoadPlugins (c_manager c) (c_pluginDefs c) with
          | (m, Ok _) => (with_plugins c m true, true)
          | (m, Err _) => (with_plugins c m false, false)
          end) in
  if negb loaded then (c, false, [failed])
  else
    let '(data, acts) := discover c state4 state6 in
    let '(local, ok, acts) :=
      match data with
      | Err _ => (None, false, acts ++ [failed])
      | Ok data => let '(ok, published) := publish c data in
                   (Some (mkStatus (rIPv4 data) (rIPv6 data) 0), ok, acts ++ published)
      end in
    let '(c, established, acts') := establish c now local in
    (c, ok && established && alive, acts ++ acts').
End cycle.

(** ** run *)

(** [l_timer] is the seconds the timer was last armed for, [None] when it is
    not armed; [l_running] is false once the loop has returned. *)
Record runLoop := mkLoop { l_ctl : controller; l_failures : Z; l_timer : option Z; l_running : bool }.

Definition has_stores (c : controller) : bool := negb (size (c_pluginDefs c) =? 0)%nat.
(** Without stores the loop only waits for the end. *)
Definition run_start (c : controller) : runLoop :=
  mkLoop c 0 (if has_stores c then Some 0 else None) true.

Definition reset_selection (health : gmap string Health) (s : gmap string Selection) : gmap string Selection :=
  map_imap (fun key s => Some (Reset_ s (default Health0 (health !! key)))) s.
(** A change of the underlay; an error of [peerHealth] leaves a nil map. *)
Definition run_changed (health : result (gmap string Health)) (l : runLoop) : runLoop :=
  let c := l_ctl l in
  let m := (Manager_Close (c_manager c)).1 in
  let h := match health with Ok h => h | Err _ => ∅ end in
  let c := with_selection (with_plugins c m false) (reset_selection h (c_selection c)) in
  mkLoop (with_network c (c_network c) false (c_cycleCancel c)) 0 (Some 1) (l_running l).

(** The timer fired: the cycle that starts, if the underlay is there. *)
Definition run_begin (l : runLoop) : runLoop * bool :=
  let c := l_ctl l in
  if online (c_network c)
  then (mkLoop (with_network c (c_network c) (c_changed c) (Some false)) (l_failures l) None (l_running l), true)
  else (mkLoop (with_network c (c_network c) (c_changed c) (Some true)) (l_failures l) None (l_running l), false).

Definition run_seconds (refresh failures jitter : Z) : Z :=
  let seconds := if 0 <? failures
                 then Z.min (Z.shiftl 20 (Z.min (failures - 1) 4)) 240
                 else refresh in
  Z.max 10 (Z.min 240 (seconds - 5 + jitter)).
(** The cycle ended, with [c] what it left of the loop's own fields; the network
    may have changed meanwhile.  [jitter] is [rand.IntN(11)]. *)
Definition run_end (l : runLoop) (c : controller) (ok : bool) (jitter : Z) : runLoop :=
  let failures := if ok then 0 else l_failures l + 1 in
  mkLoop (with_network c (c_network (l_ctl l)) (c_changed (l_ctl l)) None) failures
    (Some (run_seconds (cc_RefreshIntervalSeconds (c_cfg c)) failures jitter)) (l_running l).
Definition run_cancelled (l : runLoop) : runLoop := mkLoop (l_ctl l) (l_failures l) None false.

(** network.go: [networkChanged] *)
Definition networkChanged (c : controller) (state : underlayState) : controller :=
  with_network c state true (match c_cycleCancel c with Some _ => Some true | None => None end).

(** The loop, with the cycle it may be in, among what happens around it. *)
Definition on_ctl (f : controller -> controller) (l : runLoop) : runLoop :=
  mkLoop (f (l_ctl l)) (l_failures l) (l_timer l) (l_running l).
(** The loop's own steps. *)
Inductive loop_own_step : runLoop * bool -> runLoop * bool -> Prop :=
| ls_changed l health :
    l_running l = true -> has_stores (l_ctl l) = true -> c_changed (l_ctl l) = true ->
    loop_own_step (l, false) (run_changed health l, false)
| ls_timer l s :
    l_running l = true -> l_timer l = Some s -> loop_own_step (l, false) (run_begin l)
| ls_cycle l s4 s6 now alive c ok acts jitter
    `{host : MobileHost} `{env : MobileEnv} `{tables : UnicodeTables} `{transport : Transport} `{urls : UrlLib} :
    cycle (l_ctl l) s4 s6 now alive = (c, ok, acts) -> 0 <= jitter <= 10 ->
    loop_own_step (l, true) (run_end l c ok jitter, false)
| ls_stop l : loop_own_step (l, false) (run_cancelled l, false).
(** [cancel]: the context of the loop, and of the cycle under way, is done. *)
Definition cancel (c : controller) : controller :=
  with_network c (c_network c) (c_changed c) (match c_cycleCancel c with Some _ => Some true | None => None end).
Inductive loop_step : runLoop * bool -> runLoop * bool -> Prop :=
| ls_own s s' : loop_own_step s s' -> loop_step s s'
| ls_network l b state : loop_step (l, b) (on_ctl (fun c => networkChanged c state) l, b)
| ls_cancel l b : loop_step (l, b) (on_ctl cancel l, b).
Inductive loop_reachable (cfg : tunnelConfig) (network : underlayState) (pub : list Z) : runLoop * bool -> Prop :=
| lr_start : loop_reachable cfg network pub (run_start (newController cfg network pub), false)
| lr_step s s' : loop_reachable cfg network pub s -> loop_step s s' -> loop_reachable cfg network pub s'.
