(* ===== verification/MobileControllerFacts.v ===== *)
(** * Theorems on the mobile controller *)

From S2P Require Import Prelude GoStr Codec Netip Json Validation Discovery Entity GoTime Plugin PluginFacts Dialer Wg Ctrl CtrlFacts MobileConfig MobileConfigFacts MobileController.

(** ** Candidates *)

Section candidates.
Context `{UnicodeTables}.
Variable peer : discoveryPeer.
Variable local : option LocalStatus.

Definition candidate_ok (records : list string) (e : string) : Prop :=
  e <> "" /\ (e = dp_Bootstrap peer \/ offered (dp_Protocol peer) local records e).

Lemma add_candidate_ok (P : string -> Prop) endpoints e :
  Forall P endpoints -> NoDup endpoints -> (length endpoints <= 4)%nat -> (e <> "" -> P e) ->
  let l := add_candidate endpoints e in
  Forall P l /\ NoDup l /\ (length l <= 4)%nat /\ exists more, l = endpoints ++ more.
Proof.
  intros Hf Hnd Hl He. unfold add_candidate.
  destruct (e <>s "") eqn:E; cbn [andb]; [|by split_and!; try done; exists []; rewrite app_nil_r].
  destruct (bool_decide (e ∈ endpoints)) eqn:Ein; cbn [negb andb]; [by split_and!; try done; exists []; rewrite app_nil_r|].
  destruct (Nat.ltb_spec (length endpoints) 4); [|by split_and!; try done; exists []; rewrite app_nil_r].
  apply bool_decide_eq_false in Ein. apply negb_true_iff, String.eqb_neq in E. cbn zeta.
  split_and!; [|apply list.NoDup_app; split_and!; [done| |apply NoDup_singleton]|rewrite length_app; cbn; lia|by eexists].
  - apply Forall_app. split; [done|]. constructor; [by apply He|constructor].
  - intros x Hx. rewrite list_elem_of_singleton. by intros ->.
Qed.

Lemma add_records_ok all records : forall endpoints,
  (forall r, In r records -> In r all) ->
  Forall (candidate_ok all) endpoints -> NoDup endpoints -> (length endpoints <= 4)%nat ->
  let l := add_records peer local endpoints records in
  Forall (candidate_ok all) l /\ NoDup l /\ (length l <= 4)%nat /\ exists more, l = endpoints ++ more.
Proof.
  induction records as [|r records IH]; intros endpoints Hsub Hf Hnd Hl.
  { cbn. split_and!; try done. exists []. by rewrite app_nil_r. }
  assert (forall q, In q records -> In q all) as Hsub' by (intros q ?; apply Hsub; by right).
  cbn [add_records]. destruct (length endpoints =? 4)%nat; [split_and!; try done; exists []; by rewrite app_nil_r|].
  destruct (Decode r) as [data|] eqn:Ed; [|by apply IH].
  destruct (SelectEndpoint data (dp_Protocol peer) local) as [e|] eqn:Es; [|by apply IH].
  destruct (Allowed e []) eqn:Ea; [|by apply IH].
  destruct (add_candidate_ok (candidate_ok all) endpoints e) as (H1 & H2 & H3 & more & Hm); try done.
  { intros Hne. split; [done|]. right. exists r, data. split_and!; try done. apply Hsub. by left. }
  destruct (IH (add_candidate endpoints e) Hsub' H1 H2 H3) as (? & ? & ? & more' & Hm').
  split_and!; try done. exists (more ++ more'). cbn zeta in *. by rewrite Hm', Hm, app_assoc.
Qed.

Lemma recoveryCandidates_ok records :
  let l := recoveryCandidates peer records local in
  Forall (candidate_ok records) l /\ NoDup l /\ (length l <= 4)%nat /\
  (dp_Bootstrap peer <> "" -> hd_error l = Some (dp_Bootstrap peer)).
Proof.
  unfold recoveryCandidates.
  destruct (add_candidate_ok (candidate_ok records) [] (dp_Bootstrap peer)) as (H1 & H2 & H3 & _);
    [constructor|constructor|cbn; lia|by split; [|left]|].
  destruct (add_records_ok records records _ (fun r Hr => Hr) H1 H2 H3) as (? & ? & ? & more & Hm).
  split_and!; try done. intros Hb. cbn zeta in Hm |- *. rewrite Hm. unfold add_candidate.
  apply String.eqb_neq in Hb. by rewrite Hb.
Qed.
End candidates.

(** What a node may try for a peer: at most four distinct endpoints, the
    configured bootstrap first when there is one, and every other one a public
    address offered by a well-formed record of the peer.  In particular a record
    can never bring in a private address. *)
Theorem recoveryCandidates_spec `{UnicodeTables} peer records local :
  let l := recoveryCandidates peer records local in
  NoDup l /\ (length l <= 4)%nat /\
  (dp_Bootstrap peer <> "" -> hd_error l = Some (dp_Bootstrap peer)) /\
  (forall e, In e l -> e = dp_Bootstrap peer \/
     offered (dp_Protocol peer) local records e /\ exists ep, Endpoint e = Ok ep /\ public_ep ep).
Proof.
  destruct (recoveryCandidates_ok peer local records) as (Hf & Hnd & Hl & Hb). cbn zeta in *. split_and!; try done.
  intros e He. rewrite List.Forall_forall in Hf. destruct (Hf e He) as (_ & [->|Ho]); [by left|right]. split; [done|].
  destruct Ho as (r & data & _ & _ & _ & Ha). by apply Allowed_endpoint.
Qed.

(** ** The delay between cycles *)

(** A healthy node publishes again within four minutes, before its record of
    ten minutes expires; a failing one backs off 20, 40, 80, 160 and then 240
    seconds, always give or take five. *)
Theorem run_seconds_bounds refresh failures jitter :
  0 <= failures -> 60 <= refresh <= 240 -> 0 <= jitter <= 10 ->
  let base := match Z.to_nat failures with
              | O => refresh | 1%nat => 20 | 2%nat => 40 | 3%nat => 80 | 4%nat => 160 | _ => 240
              end in
  base - 5 <= run_seconds refresh failures jitter <= base + 5 /\ 15 <= run_seconds refresh failures jitter <= 240.
Proof.
  intros Hf Hr Hj. cbv zeta. unfold run_seconds.
  destruct (Z.ltb_spec 0 failures) as [H|H].
  2: { replace failures with 0 by lia. change (Z.to_nat 0) with O. cbv iota. lia. }
  destruct (decide (failures <= 4)) as [H4|H4].
  - assert (failures = 1 \/ failures = 2 \/ failures = 3 \/ failures = 4) as [->|[->|[->| ->]]] by lia;
      cbv [Z.to_nat Pos.to_nat Pos.iter_op Nat.add].
    + change (Z.shiftl 20 (Z.min (1 - 1) 4)) with 20. lia.
    + change (Z.shiftl 20 (Z.min (2 - 1) 4)) with 40. lia.
    + change (Z.shiftl 20 (Z.min (3 - 1) 4)) with 80. lia.
    + change (Z.shiftl 20 (Z.min (4 - 1) 4)) with 160. lia.
  - rewrite (Z.min_r (failures - 1) 4) by lia. change (Z.shiftl 20 4) with 320.
    assert (exists n, Z.to_nat failures = S (S (S (S (S n))))) as [n ->] by (exists (Z.to_nat failures - 5)%nat; lia).
    lia.
Qed.

(** ** One cycle *)

Section cycle.
Context `{host : MobileHost} `{env : MobileEnv} `{tables : UnicodeTables} `{transport : Transport} `{urls : UrlLib}.

Definition outward (a : mobile_act) : bool := match a with ASet _ | AUpdate _ _ => true | _ => false end.

Lemma discover_inward c s4 s6 a : In a (discover c s4 s6).2 -> outward a = false.
Proof.
  unfold discover, resolve_family.
  destruct (discoverFamily c s4 "udp4"), (discoverFamily c s6 "udp6");
    destruct (DiscoverEndpoints _ _ _) as [r warned]; cbn [snd];
    intros [Ha|[Ha|Ha]%in_app_or]%in_app_or;
    try (apply in_map_iff in Ha as (f & <- & _); done);
    destruct (_ || _); cbn in Ha; intuition; by subst.
Qed.

Lemma publish_fold c record peers : forall ok acts,
  fold_left (fun '(ok, acts) peer => let '(ok', acts') := publish_peer c record peer in (ok && ok', acts ++ acts'))
    peers (ok, acts) =
  (ok && forallb (fun p => (publish_peer c record p).1) peers, acts ++ flat_map (fun p => (publish_peer c record p).2) peers).
Proof.
  induction peers as [|p peers IH]; intros ok acts; cbn [fold_left forallb flat_map].
  { by rewrite andb_true_r, app_nil_r. }
  destruct (publish_peer c record p) as [ok' acts'] eqn:E. rewrite IH. cbn [fst snd].
  by rewrite andb_assoc, app_assoc.
Qed.

(** What a publication for a peer is. *)
Definition published_for (c : controller) (record : string) (peer : discoveryPeer) (s : StoreSet) : Prop :=
  dp_Plugin peer <> "" /\ is_ok (GetPlugin (c_manager c) (dp_Plugin peer)) = true /\
  exists peerPub, keyToBytes (dp_PublicKey peer) = Ok peerPub /\
    s = mkSet (dp_Plugin peer) (EndpointKey (peer_id c peerPub)) record.
Lemma publish_peer_ok c record peer :
  (forall s, In (ASet s) (publish_peer c record peer).2 <-> published_for c record peer s) /\
  (forall k e, ~ In (AUpdate k e) (publish_peer c record peer).2) /\
  ((publish_peer c record peer).1 = true -> dp_Plugin peer = "" \/
     exists peerPub store, keyToBytes (dp_PublicKey peer) = Ok peerPub /\
       GetPlugin (c_manager c) (dp_Plugin peer) = Ok store /\
       Set_ store (EndpointKey (peer_id c peerPub)) record = Ok tt).
Proof.
  unfold publish_peer, published_for. destruct (String.eqb_spec (dp_Plugin peer) "") as [Hp|Hp].
  { cbn. split_and!; [|tauto|by left]. intros s. split; [done|by intros [? _]]. }
  destruct (keyToBytes (dp_PublicKey peer)) as [pub|] eqn:Ek.
  2: { cbn. split_and!; [|tauto|done]. intros s. split; [done|]. by intros (_ & _ & ? & ? & _). }
  destruct (GetPlugin (c_manager c) (dp_Plugin peer)) as [store|] eqn:Eg; cbn [is_ok].
  2: { cbn. split_and!; [|intros ? ? [?|[]]; done|done]. intros s. split; [|by intros (_ & ? & _)]. by intros [?|[]]. }
  cbv zeta. destruct (Set_ store _ record) as [[]|] eqn:Es; cbn [fst snd In]; split_and!; try done.
  - intros s. split.
    + intros [[= <-]|[?|[]]]; [|done]. split_and!; try done. by exists pub.
    + intros (_ & _ & ? & [= <-] & ->). by left.
  - intros ? ? [?|[?|[]]]; done.
  - intros _. right. by exists pub, store.
  - intros s. split.
    + intros [[= <-]|[?|[]]]; [|done]. split_and!; try done. by exists pub.
    + intros (_ & _ & ? & [= <-] & ->). by left.
  - intros ? ? [?|[?|[]]]; done.
Qed.

(** A change of selections only, and only of some keys. *)
Definition selections_only (keys : list string) (c c' : controller) : Prop :=
  (exists s, c' = with_selection c s) /\ forall k, ~ In k keys -> c_selection c' !! k = c_selection c !! k.
Lemma selections_only_refl keys c : selections_only keys c c.
Proof. split; [|done]. exists (c_selection c). by destruct c. Qed.
Lemma selections_only_trans k1 k2 c1 c2 c3 :
  selections_only k1 c1 c2 -> selections_only k2 c2 c3 -> selections_only (k1 ++ k2) c1 c3.
Proof.
  intros [[s ->] H1'] [[s' ->] H2']. split; [by exists s'|]. intros k Hk.
  rewrite H2' by (intros ?; apply Hk, in_or_app; by right). apply H1'. intros ?. apply Hk, in_or_app. by left.
Qed.
Lemma selections_only_save c k s : selections_only [k] c (with_selection c (<[k := s]> (c_selection c))).
Proof.
  split; [by eexists|]. intros k' Hk. cbn [with_selection c_selection]. apply lookup_insert_ne.
  intros ->. apply Hk. by left.
Qed.

(** What an endpoint update is made for. *)
Definition update_for (c : controller) (now : Z) (health : gmap string Health) (local : option LocalStatus)
    (peer : discoveryPeer) (key e : string) : Prop :=
  key = dp_PublicKey peer /\ dp_Plugin peer <> "" /\ e <> "" /\
  exists peerPub store status,
    keyToBytes key = Ok peerPub /\ GetPlugin (c_manager c) (dp_Plugin peer) = Ok store /\
    health !! key = Some status /\ e <> hEndpoint status /\
    (Working (default Selection0 (c_selection c !! key)) status now).2 = false /\
    In e (recoveryCandidates peer
            (match Get store (RemoteEndpointKey (peer_id c peerPub)) with Ok l => l | Err _ => [] end) local).
Definition peer_fine (c : controller) (now : Z) (health : gmap string Health) (peer : discoveryPeer) : Prop :=
  dp_Plugin peer = "" \/
  exists status, health !! dp_PublicKey peer = Some status /\
    (Working (default Selection0 (c_selection c !! dp_PublicKey peer)) status now).2 = true.

Lemma establish_peer_ok c now health local peer c' ok acts :
  establish_peer c now health local peer = (c', ok, acts) ->
  selections_only [dp_PublicKey peer] c c' /\
  (forall s, ~ In (ASet s) acts) /\
  (forall k e, In (AUpdate k e) acts -> update_for c now health local peer k e) /\
  (ok = true -> peer_fine c now health peer).
Proof.
  unfold establish_peer, peer_fine, update_for. destruct (String.eqb_spec (dp_Plugin peer) "") as [Hp|Hp].
  { intros (<- & <- & <-)%triple_inj. split_and!; [apply selections_only_refl|tauto|by intros ? ? []|by left]. }
  destruct (keyToBytes (dp_PublicKey peer)) as [pub|] eqn:Ek.
  2: { intros (<- & <- & <-)%triple_inj. split_and!; [apply selections_only_refl|tauto|by intros ? ? []|done]. }
  destruct (GetPlugin (c_manager c) (dp_Plugin peer)) as [store|] eqn:Eg.
  2: { intros (<- & <- & <-)%triple_inj. split_and!; [apply selections_only_refl|tauto|by intros ? ? []|done]. }
  cbv zeta. destruct (health !! dp_PublicKey peer) as [status|] eqn:Eh.
  2: { intros (<- & <- & <-)%triple_inj. split_and!; [apply selections_only_save|tauto|by intros ? ? []|done]. }
  destruct (Working _ status now) as [sel working] eqn:Ew. destruct working.
  { intros (<- & <- & <-)%triple_inj. split_and!; [apply selections_only_save|by intros s [?|[]]|by intros ? ? [?|[]]|].
    intros _. right. exists status. by rewrite Ew. }
  set (hints := match Get _ _ with Ok l => l | Err _ => [] end).
  destruct (Next sel (recoveryCandidates peer hints local)) as [sel' e] eqn:En.
  set (pre := match hints with [] => _ | _ => _ end).
  assert (forall a, In a pre -> outward a = false) as Hpre.
  { subst pre. intros a. destruct hints; [|intros []]. by intros [<-|[]]. }
  assert (forall s, ~ In (ASet s) pre) as Hpre1 by (intros s Hs; by apply Hpre in Hs).
  assert (forall k x, ~ In (AUpdate k x) pre) as Hpre2 by (intros k x Hs; by apply Hpre in Hs).
  destruct ((e =s "") || (e =s hEndpoint status)) eqn:Ee.
  { intros (<- & <- & <-)%triple_inj. split_and!; [apply selections_only_save|done|intros k x Hx; by apply Hpre2 in Hx|done]. }
  apply orb_false_iff in Ee as [Ee1%String.eqb_neq Ee2%String.eqb_neq].
  assert (forall more, (forall a, In a more -> outward a = false) ->
    (forall s, ~ In (ASet s) ((pre ++ [AUpdate (dp_PublicKey peer) e]) ++ more)) /\
    (forall k x, In (AUpdate k x) ((pre ++ [AUpdate (dp_PublicKey peer) e]) ++ more) ->
       k = dp_PublicKey peer /\ x = e)) as Hacts.
  { intros more Hm. split.
    - intros s [[Hs|[?|[]]]%in_app_or|Hs]%in_app_or; [by apply Hpre1 in Hs|done|by apply Hm in Hs].
    - intros k x [[Hs|[[= <- <-]|[]]]%in_app_or|Hs]%in_app_or; [by apply Hpre2 in Hs|done|by apply Hm in Hs]. }
  assert (forall k x, k = dp_PublicKey peer /\ x = e ->
    k = dp_PublicKey peer /\ dp_Plugin peer <> "" /\ x <> "" /\
    exists peerPub store0 status0, keyToBytes k = Ok peerPub /\ Ok store = Ok store0 /\
      health !! k = Some status0 /\ x <> hEndpoint status0 /\
      (Working (default Selection0 (c_selection c !! k)) status0 now).2 = false /\
      In x (recoveryCandidates peer
        (match Get store0 (RemoteEndpointKey (peer_id c peerPub)) with Ok l => l | Err _ => [] end) local)) as Hup.
  { intros k x [-> ->]. split_and!; try done. exists pub, store, status. rewrite Ew. split_and!; try done.
    by eapply Next_selected. }
  destruct (node_SetPeerEndpoint _ e) as [|]; intros (<- & <- & <-)%triple_inj.
  - destruct (Hacts []) as [Ha1 Ha2]; [by intros ? []|]. rewrite app_nil_r in Ha1, Ha2.
    split_and!; [apply selections_only_save|done|intros k x Hx; apply Hup; by apply Ha2|done].
  - destruct (Hacts [OnLog "error" "discovery operation failed"]) as [Ha1 Ha2]; [by intros ? [<-|[]]|].
    split_and!; [apply selections_only_save|done|intros k x Hx; apply Hup; by apply Ha2|done].
Qed.

Lemma update_for_before c c1 keys now health local peer k e :
  selections_only keys c c1 -> ~ In (dp_PublicKey peer) keys ->
  update_for c1 now health local peer k e -> update_for c now health local peer k e.
Proof.
  intros [[s ->] Hs] Hk (-> & Hp & He & pub & store & status & H1 & H2 & H3 & H4 & H5 & H6).
  split_and!; try done. exists pub, store, status. rewrite <-Hs by done. by split_and!.
Qed.
Lemma peer_fine_before c c1 keys now health peer :
  selections_only keys c c1 -> ~ In (dp_PublicKey peer) keys -> peer_fine c1 now health peer -> peer_fine c now health peer.
Proof.
  intros [_ Hs] Hk [Hp|(status & H1 & H2)]; [by left|right]. exists status. by rewrite <-Hs.
Qed.
Lemma establish_peers_ok now health local peers : forall c c' ok acts,
  NoDup (map dp_PublicKey peers) ->
  establish_peers c now health local peers = (c', ok, acts) ->
  selections_only (map dp_PublicKey peers) c c' /\
  (forall s, ~ In (ASet s) acts) /\
  (forall k e, In (AUpdate k e) acts -> exists peer, In peer peers /\ update_for c now health local peer k e) /\
  (ok = true -> forall peer, In peer peers -> peer_fine c now health peer).
Proof.
  induction peers as [|p peers IH]; intros c c' ok acts Hnd; cbn [establish_peers].
  { intros (<- & <- & <-)%triple_inj. split_and!; [apply selections_only_refl|tauto|by intros ? ? []|by intros ? ? []]. }
  cbn [map] in *. apply list.NoDup_cons in Hnd as [Hp Hnd]. rewrite list_elem_of_In in Hp.
  destruct (establish_peer c now health local p) as [[c1 ok1] acts1] eqn:E1.
  destruct (establish_peers c1 now health local peers) as [[c2 ok2] acts2] eqn:E2.
  intros (<- & <- & <-)%triple_inj.
  apply establish_peer_ok in E1 as (Hs1 & Hset1 & Hup1 & Hok1).
  apply IH in E2 as (Hs2 & Hset2 & Hup2 & Hok2); [|done].
  assert (forall q, In q peers -> ~ In (dp_PublicKey q) [dp_PublicKey p]) as Hq.
  { intros q Hq [E|[]]. apply Hp. rewrite E. by apply in_map. }
  split_and!.
  - exact (selections_only_trans [dp_PublicKey p] _ _ _ _ Hs1 Hs2).
  - intros s [Hs|Hs]%in_app_or; [by eapply Hset1|by eapply Hset2].
  - intros k e [Hs|Hs]%in_app_or; [exists p; split; [by left|by apply Hup1]|].
    apply Hup2 in Hs as (q & Hin & Hu). exists q. split; [by right|]. eapply update_for_before; eauto.
  - intros [H1 H2]%andb_true_iff q [<-|Hin]; [by apply Hok1|]. eapply peer_fine_before; eauto.
Qed.

(** The controller a cycle works with, its stores loaded. *)
Definition loaded (c : controller) : option controller :=
  if c_pluginsReady c then Some c
  else match LoadPlugins (c_manager c) (c_pluginDefs c) with (m, Ok _) => Some (with_plugins c m true) | _ => None end.

Definition cycle_acts (c : controller) (s4 s6 : underlayState) (now : Z) (acts : list mobile_act) : Prop :=
  (forall s, In (ASet s) acts -> exists c1 peer data record,
     loaded c = Some c1 /\ (discover c1 s4 s6).1 = Ok data /\ Encode data = Ok record /\
     In peer (cc_Peers (c_cfg c)) /\ published_for c1 record peer s) /\
  (forall key e, In (AUpdate key e) acts -> exists c1 peer health local,
     loaded c = Some c1 /\ peerHealth = Ok health /\ In peer (cc_Peers (c_cfg c)) /\
     update_for c1 now health local peer key e /\
     local = match (discover c1 s4 s6).1 with
             | Ok data => Some (mkStatus (rIPv4 data) (rIPv6 data) 0) | Err _ => None end).
Definition cycle_fine (c : controller) (s4 s6 : underlayState) (now : Z) : Prop :=
  exists c1 data record health,
    loaded c = Some c1 /\ (discover c1 s4 s6).1 = Ok data /\ Encode data = Ok record /\ peerHealth = Ok health /\
    forall peer, In peer (cc_Peers (c_cfg c)) -> dp_Plugin peer = "" \/
      (exists peerPub store, keyToBytes (dp_PublicKey peer) = Ok peerPub /\
         GetPlugin (c_manager c1) (dp_Plugin peer) = Ok store /\
         Set_ store (EndpointKey (peer_id c1 peerPub)) record = Ok tt) /\
      exists status, health !! dp_PublicKey peer = Some status /\
        (Working (default Selection0 (c_selection c1 !! dp_PublicKey peer)) status now).2 = true.

Lemma loaded_frame c c1 : loaded c = Some c1 ->
  c_cfg c1 = c_cfg c /\ c_pub c1 = c_pub c /\ c_selection c1 = c_selection c /\ c_pluginsReady c1 = true.
Proof.
  unfold loaded. destruct (c_pluginsReady c) eqn:E; [by intros [= <-]|].
  destruct (LoadPlugins _ _) as [m []]; [|done]. by intros [= <-].
Qed.
Lemma cycle_loaded c s4 s6 now alive :
  cycle c s4 s6 now alive =
  match loaded c with
  | None => (with_plugins c (LoadPlugins (c_manager c) (c_pluginDefs c)).1 false, false, [failed])
  | Some c1 =>
      let '(data, acts) := discover c1 s4 s6 in
      let '(local, ok, acts) :=
        match data with
        | Err _ => (None, false, acts ++ [failed])
        | Ok data => let '(ok, published) := publish c1 data in
                     (Some (mkStatus (rIPv4 data) (rIPv6 data) 0), ok, acts ++ published)
        end in
      let '(c2, established, acts') := establish c1 now local in
      (c2, ok && established && alive, acts ++ acts')
  end.
Proof.
  unfold cycle, loaded. destruct (c_pluginsReady c); [done|]. by destruct (LoadPlugins _ _) as [m []].
Qed.

Lemma publish_spec c data ok acts : publish c data = (ok, acts) ->
  (forall s, In (ASet s) acts <-> exists peer record, Encode data = Ok record /\
     In peer (cc_Peers (c_cfg c)) /\ published_for c record peer s) /\
  (forall k e, ~ In (AUpdate k e) acts) /\
  (ok = true -> exists record, Encode data = Ok record /\
     forall peer, In peer (cc_Peers (c_cfg c)) -> (publish_peer c record peer).1 = true).
Proof.
  unfold publish. destruct (Encode data) as [record|] eqn:E.
  2: { intros [= <- <-]. split_and!; [|by intros ? ? [?|[]]|done]. intros s. split; [by intros [?|[]]|].
       by intros (? & ? & ? & _). }
  rewrite publish_fold. cbn [andb app]. intros [= <- <-]. split_and!.
  - intros s. rewrite in_flat_map. split.
    + intros (p & Hp & Hs). exists p, record. split_and!; try done. by apply publish_peer_ok.
    + intros (p & r & [= <-] & Hp & Hs). exists p. split; [done|]. by apply publish_peer_ok.
  - intros k e (p & _ & Hs)%in_flat_map. by apply publish_peer_ok in Hs.
  - intros Hall. exists record. split; [done|]. by apply forallb_forall.
Qed.

Lemma establish_spec c now local c' ok acts :
  NoDup (map dp_PublicKey (cc_Peers (c_cfg c))) -> establish c now local = (c', ok, acts) ->
  selections_only (map dp_PublicKey (cc_Peers (c_cfg c))) c c' /\
  (forall s, ~ In (ASet s) acts) /\
  (forall k e, In (AUpdate k e) acts -> exists health peer, peerHealth = Ok health /\
     In peer (cc_Peers (c_cfg c)) /\ update_for c now health local peer k e) /\
  (ok = true -> exists health, peerHealth = Ok health /\
     forall peer, In peer (cc_Peers (c_cfg c)) -> peer_fine c now health peer).
Proof.
  intros Hnd. unfold establish. destruct peerHealth as [health|] eqn:Eh.
  - intros E. apply establish_peers_ok in E as (H1 & H2 & H3 & H4); [|done]. split_and!; [done|done| |].
    + intros k e Hs. apply H3 in Hs as (p & Hp & Hu). by exists health, p.
    + intros Hok. exists health. split; [done|]. by apply H4.
  - intros (<- & <- & <-)%triple_inj. split_and!; [apply selections_only_refl|tauto|by intros ? ? []|done].
Qed.

Lemma cycle_ok c s4 s6 now alive c' ok acts :
  NoDup (map dp_PublicKey (cc_Peers (c_cfg c))) -> cycle c s4 s6 now alive = (c', ok, acts) ->
  cycle_acts c s4 s6 now acts /\ (ok = true -> alive = true /\ cycle_fine c s4 s6 now) /\
  c_cfg c' = c_cfg c /\ c_pub c' = c_pub c /\ c_pluginDefs c' = c_pluginDefs c.
Proof.
  intros Hnd. rewrite cycle_loaded. destruct (loaded c) as [c1|] eqn:El.
  2: { intros (<- & <- & <-)%triple_inj. split_and!; [|done..].
       split; [by intros ? [?|[]]|by intros ? ? [?|[]]]. }
  pose proof (loaded_frame _ _ El) as (Hcfg & Hpub & Hsel & _).
  assert (c_pluginDefs c1 = c_pluginDefs c) as Hdefs.
  { unfold loaded in El. destruct (c_pluginsReady c); [by simplify_eq|].
    destruct (LoadPlugins _ _) as [m []]; [|done]. by injection El as <-. }
  pose proof (discover_inward c1 s4 s6) as Hin. destruct (discover c1 s4 s6) as [data dacts] eqn:Ed. cbn [snd] in Hin.
  destruct (match data with Ok _ => _ | Err _ => _ end) as [[local okp] pacts] eqn:Ep.
  destruct (establish c1 now local) as [[c2 established] eacts] eqn:Ee.
  intros (<- & <- & <-)%triple_inj. rewrite <-Hcfg in Hnd.
  apply establish_spec in Ee as ([[s ->] _] & Hset & Hup & Hok); [|done].
  split_and!; [| |done|done|done].
  - split.
    + intros x [Hx|Hx]%in_app_or; [|by apply Hset in Hx]. destruct data as [data|e].
      * destruct (publish c1 data) as [ok' published] eqn:Epub.
        apply triple_inj in Ep as (<- & <- & <-). apply in_app_or in Hx as [Hx|Hx]; [by apply Hin in Hx|].
        apply publish_spec in Epub as (Hs & _). apply Hs in Hx as (p & record & Henc & Hp & Hfor).
        exists c1, p, data, record. rewrite Ed, <-Hcfg. by split_and!.
      * apply triple_inj in Ep as (<- & <- & <-). apply in_app_or in Hx as [Hx|[?|[]]]; [by apply Hin in Hx|done].
    + intros key x [Hx|Hx]%in_app_or.
      * exfalso. destruct data as [data|e].
        -- destruct (publish c1 data) as [ok' published] eqn:Epub. apply triple_inj in Ep as (<- & <- & <-).
           apply in_app_or in Hx as [Hx|Hx]; [by apply Hin in Hx|].
           apply publish_spec in Epub as (_ & Hs & _). by apply Hs in Hx.
        -- apply triple_inj in Ep as (<- & <- & <-). apply in_app_or in Hx as [Hx|[?|[]]]; [by apply Hin in Hx|done].
      * apply Hup in Hx as (health & p & Hh & Hp & Hu). exists c1, p, health, local. rewrite Ed, <-Hcfg.
        split_and!; try done. destruct data as [data|e]; [destruct (publish c1 data)|];
          by apply triple_inj in Ep as (<- & _ & _).
  - intros [[Hp He]%andb_true_iff Ha]%andb_true_iff. split; [done|]. destruct data as [data|e];
      [|by apply triple_inj in Ep as (_ & <- & _)].
    destruct (publish c1 data) as [ok' published] eqn:Epub. apply triple_inj in Ep as (_ & <- & _).
    apply publish_spec in Epub as (_ & _ & Hpub'). destruct (Hpub' Hp) as (record & Henc & Hpp).
    destruct (Hok He) as (health & Hh & Hfine). exists c1, data, record, health. rewrite Ed.
    split_and!; try done. rewrite <-Hcfg. intros p Hpin.
    destruct (Hfine p Hpin) as [|Hw]; [by left|].
    destruct (proj2 (proj2 (publish_peer_ok c1 record p)) (Hpp p Hpin)) as [|Hst]; [by left|by right].
Qed.
End cycle.

(** ** The loop *)

Record loop_inv (cfg : tunnelConfig) (pub : list Z) (s : runLoop * bool) : Prop := {
  li_cfg : c_cfg (l_ctl s.1) = discovery_view cfg;
  li_pub : c_pub (l_ctl s.1) = pub;
  li_defs : c_pluginDefs (l_ctl s.1) = controller_defs (tcPlugins cfg);
  li_timer : forall t, l_timer s.1 = Some t -> 0 <= t <= 240;
  li_failures : 0 <= l_failures s.1;
  li_awake : l_running s.1 = true -> has_stores (l_ctl s.1) = true -> online (c_network (l_ctl s.1)) = true ->
             s.2 = false -> l_timer s.1 <> None \/ c_changed (l_ctl s.1) = true
}.
Lemma run_seconds_range refresh failures jitter : 10 <= run_seconds refresh failures jitter <= 240.
Proof. unfold run_seconds. lia. Qed.

Lemma loop_own_step_inv cfg pub s s' :
  NoDup (map pcPublicKey (tcPeers cfg)) -> loop_own_step s s' -> loop_inv cfg pub s -> loop_inv cfg pub s'.
Proof.
  intros Hnd Hs [Hc Hp Hd Ht Hf Ha]. destruct Hs; cbn [fst snd] in *.
  - constructor; cbn; try done; [by intros t [= <-]|by left].
  - unfold run_begin. destruct (online (c_network (l_ctl l))) eqn:Eo; constructor; cbn; try done.
    intros _ _ Ho. by rewrite Eo in Ho.
  - apply cycle_ok in H as (_ & _ & Hc' & Hp' & Hd').
    2: { rewrite Hc. unfold discovery_view. cbn [cc_Peers]. by rewrite map_map. }
    constructor; cbn; try congruence.
    + intros t [= <-]. pose proof (run_seconds_range (cc_RefreshIntervalSeconds (c_cfg c)) (if ok then 0 else l_failures l + 1) jitter). lia.
    + destruct ok; lia.
    + by left.
  - by constructor.
Qed.
Lemma loop_step_inv cfg pub s s' :
  NoDup (map pcPublicKey (tcPeers cfg)) -> loop_step s s' -> loop_inv cfg pub s -> loop_inv cfg pub s'.
Proof.
  intros Hnd [? ? Ho|l b state|l b]; [by apply loop_own_step_inv|..];
    intros [Hc Hp Hd Ht Hf Ha]; constructor; cbn in *; try done.
  intros _ _ _ _. by right.
Qed.
Lemma loop_reachable_inv cfg network pub s :
  NoDup (map pcPublicKey (tcPeers cfg)) -> loop_reachable cfg network pub s -> loop_inv cfg pub s.
Proof.
  intros Hnd. induction 1 as [|s s' _ IH Hs]; [|by eapply loop_step_inv].
  constructor; cbn; try done.
  - intros t. destruct (has_stores _); [|done]. intros [= <-]. lia.
  - intros _ Hst _ _. left. unfold has_stores in *. cbn in *. by rewrite Hst.
Qed.

(** C36: The discovery loop never falls asleep: while the node has a store, the
    underlay is up and the loop has not been stopped, either a cycle is under
    way, or a change is waiting to be handled, or the timer is armed, and for no
    more than four minutes. *)
Theorem loop_never_sleeps cfg network pub l in_cycle :
  NoDup (map pcPublicKey (tcPeers cfg)) -> loop_reachable cfg network pub (l, in_cycle) ->
  l_running l = true -> controller_defs (tcPlugins cfg) <> ∅ -> online (c_network (l_ctl l)) = true ->
  in_cycle = true \/ c_changed (l_ctl l) = true \/ exists t, l_timer l = Some t /\ 0 <= t <= 240.
Proof.
  intros Hnd Hr Hrun Hst Hon. apply loop_reachable_inv in Hr as [_ _ Hd Ht _ Ha]; [|done]. cbn [fst snd] in *.
  destruct in_cycle; [by left|right].
  destruct (Ha Hrun) as [Htm|]; [|done|done| |by left].
  - unfold has_stores. rewrite Hd. apply negb_true_iff, Nat.eqb_neq. intros E. by apply Hst, map_size_empty_inv.
  - right. destruct (l_timer l) as [t|] eqn:E; [|done]. exists t. split; [done|]. by apply Ht.
Qed.

Lemma discover_cfg `{MobileHost} `{MobileEnv} c c1 s4 s6 : c_cfg c1 = c_cfg c -> discover c1 s4 s6 = discover c s4 s6.
Proof. intros E. unfold discover, resolve_family, discoverFamily. by rewrite E. Qed.

(** C5: What a running node does to the outside is bound to its configuration.  In
    every cycle of every reachable loop: a record is only published under the
    key of this node's own link to a configured peer, and holds exactly the
    endpoints just discovered; an endpoint is only applied to a configured peer
    that WireGuard reported and that was not found working, differs from the
    current one, and is the peer's own bootstrap or a public address.  And a
    cycle only counts as a success, resetting the backoff, when discovery and
    every publication succeeded and every peer works. *)
Theorem mobile_cycle_sound `{MobileHost} `{MobileEnv} `{UnicodeTables} `{Transport} `{UrlLib}
    cfg network pub l s4 s6 now alive c' ok acts :
  NoDup (map pcPublicKey (tcPeers cfg)) -> loop_reachable cfg network pub (l, true) ->
  cycle (l_ctl l) s4 s6 now alive = (c', ok, acts) ->
  (forall s, In (ASet s) acts -> exists p peerPub data,
     In p (tcPeers cfg) /\ pcPlugin p <> "" /\ keyToBytes (pcPublicKey p) = Ok peerPub /\
     (discover (l_ctl l) s4 s6).1 = Ok data /\ Encode data = Ok (ss_data s) /\
     ss_plugin s = pcPlugin p /\ ss_key s = EndpointKey (NewPeerId pub peerPub)) /\
  (forall key e, In (AUpdate key e) acts -> exists p health status,
     In p (tcPeers cfg) /\ key = pcPublicKey p /\ peerHealth = Ok health /\ health !! key = Some status /\
     (Working (default Selection0 (c_selection (l_ctl l) !! key)) status now).2 = false /\
     e <> hEndpoint status /\
     (e = pcEndpoint p \/ exists ep, Endpoint e = Ok ep /\ public_ep ep)) /\
  (ok = true -> alive = true /\ cycle_fine (l_ctl l) s4 s6 now).
Proof.
  intros Hnd Hr Hcy. apply loop_reachable_inv in Hr as [Hc Hp _ _ _ _]; [|done]. cbn [fst] in *.
  apply cycle_ok in Hcy as ([Hset Hup] & Hok & _).
  2: { rewrite Hc. unfold discovery_view. cbn [cc_Peers]. by rewrite map_map. }
  rewrite Hc in Hset, Hup. split_and!; [| |done].
  - intros s Hs. apply Hset in Hs as (c1 & peer & data & record & Hl & Hd & He & Hin & Hpl & _ & pub' & Hk & ->).
    apply loaded_frame in Hl as (Hc1 & Hp1 & _). cbn [discovery_view cc_Peers] in Hin.
    apply in_map_iff in Hin as (p & <- & Hin). exists p, pub', data.
    rewrite <-(discover_cfg _ _ s4 s6 Hc1). unfold peer_id. rewrite Hp1, Hp. by split_and!.
  - intros key e Hs.
    apply Hup in Hs as (c1 & peer & health & local & Hl & Hh & Hin & (-> & _ & _ & pub' & store & status & _ & _ & Hst & Hne & Hw & Hcand) & _).
    apply loaded_frame in Hl as (Hc1 & Hp1 & Hs1 & _). cbn [discovery_view cc_Peers] in Hin.
    apply in_map_iff in Hin as (p & <- & Hin). cbn in *. rewrite Hs1 in Hw.
    exists p, health, status. split_and!; try done.
    pose proof (recoveryCandidates_ok (mkDp (pcName p) (pcPublicKey p) (pcPlugin p) (pcProtocol p) (pcEndpoint p)) local
                  (match Get store (RemoteEndpointKey (peer_id c1 pub')) with Ok l => l | Err _ => [] end)) as [Hall _].
    rewrite List.Forall_forall in Hall. destruct (Hall _ Hcand) as (_ & [->|Ho]); [by left|right].
    destruct Ho as (r & data & _ & _ & _ & Ha). by apply Allowed_endpoint.
Qed.

(** ** Witnesses *)

Lemma run_seconds_bounds_witness :
  40 - 5 <= run_seconds 180 2 7 <= 40 + 5 /\ 15 <= run_seconds 180 2 7 <= 240.
Proof. apply (run_seconds_bounds 180 2 7); lia. Defined.

Definition w_underlay : underlayState := mkUnderlay true true false.
Definition w_loop : runLoop := run_start (newController w_config w_underlay (replicate 32 5)).
Lemma w_keys : NoDup (map pcPublicKey (tcPeers w_config)).
Proof. apply NoDup_singleton. Qed.
Lemma w_loop_reachable : loop_reachable w_config w_underlay (replicate 32 5) (run_begin w_loop).
Proof. eapply lr_step; [apply lr_start|]. apply ls_own. eapply ls_timer; [done|]. by vm_compute. Qed.
Lemma loop_never_sleeps_witness :
  false = true \/ c_changed (l_ctl w_loop) = true \/ exists t, l_timer w_loop = Some t /\ 0 <= t <= 240.
Proof.
  apply (loop_never_sleeps w_config w_underlay (replicate 32 5) w_loop false w_keys); [apply lr_start|done|by vm_compute|done].
Defined.

#[local] Instance w_mhost : MobileHost :=
  {| peerHealth := Ok {[ w_key 9 := Health0 ]}; node_SetPeerEndpoint _ _ := Ok tt; pluginDNSServers := ["9.9.9.9:53"] |}.
#[local] Instance w_menv : MobileEnv :=
  {| env_protector := Some true; env_lookup _ _ _ := Ok (Addr4 (1 * 2 ^ 24), []);
     env_Discover _ := Ok (mkAP (Addr4 (198 * 2 ^ 24 + 51 * 2 ^ 16 + 100 * 2 ^ 8 + 9)) 41000) |}.
#[local] Instance w_mtransport : Transport := {| client_Do _ _ := Some (200, Some ""); ctx_alive _ := true |}.
Definition w_cycle : controller * bool * list mobile_act :=
  @cycle w_mhost w_menv w_tables w_mtransport w_urls (l_ctl (run_begin w_loop).1) w_underlay w_underlay 1000 true.
Example w_cycle_acts :
  w_cycle.2 =
  [OnEvent "endpoint_discovered" "" "ipv4 198.51.100.9:41000";
   ASet (mkSet "dht" (EndpointKey (NewPeerId (replicate 32 5) base_key))
           (marshal_record (mkRecord 2 "198.51.100.9:41000" "")));
   OnEvent "publish_ok" (w_key 9) (EndpointKey (NewPeerId (replicate 32 5) base_key));
   OnLog "debug" "peer hint unavailable";
   AUpdate (w_key 9) "203.0.113.7:51820"].
Proof. vm_compute. reflexivity. Qed.
Lemma mobile_cycle_sound_witness :
  (exists p peerPub, In p (tcPeers w_config) /\ keyToBytes (pcPublicKey p) = Ok peerPub) /\
  (exists p, In p (tcPeers w_config) /\ w_key 9 = pcPublicKey p).
Proof.
  destruct (mobile_cycle_sound (H := w_mhost) (H0 := w_menv) (H1 := w_tables) (H2 := w_mtransport) (H3 := w_urls)
              w_config w_underlay (replicate 32 5) (run_begin w_loop).1 w_underlay w_underlay 1000 true
              w_cycle.1.1 w_cycle.1.2 w_cycle.2 w_keys w_loop_reachable) as (Hs & Hu & _).
  { change (w_cycle = (w_cycle.1.1, w_cycle.1.2, w_cycle.2)). by destruct w_cycle as [[??]?]. }
  rewrite w_cycle_acts in Hs, Hu. split.
  - destruct (Hs (mkSet "dht" (EndpointKey (NewPeerId (replicate 32 5) base_key))
           (marshal_record (mkRecord 2 "198.51.100.9:41000" "")))) as (p & pub & _ & Hp & _ & Hk & _);
      [right; left; reflexivity|]. exists p, pub. exact (conj Hp Hk).
  - destruct (Hu (w_key 9) "203.0.113.7:51820") as (p & _ & _ & Hp & Hk & _); [do 4 right; left; reflexivity|]. exists p. exact (conj Hp Hk).
Defined.
