(* ===== verification/MobileNode.v ===== *)
(** * mobile/{node,network,health,keys,version}.go: the mobile node

    The object the app holds: it starts and stops the embedded WireGuard device
    and the controller, follows the underlay network, hands the resolvers of
    the app to the plugins and applies endpoints.  The device, the TUN
    descriptor and key derivation are the platform's and WireGuard's: their
    answers are arguments. *)

From S2P Require Import Prelude GoStr Codec Netip Json Validation Discovery GoTime Plugin Dialer Wg MobileConfig MobileController.

(** ** State *)

(** The WireGuard device: down, up, or closed. *)
Inductive devState : Type := DevDown | DevUp | DevClosed.
(** Who holds the lifecycle mutex between two of its critical sections: [Stop]
    after it has taken the controller out, or [SetUnderlay] after it has stored
    the new network. *)
Inductive phase : Type :=
| PStop
| PUnderlay (previous : underlayState) (rebind : bool).

(** [n_stops] counts the [go n.Stop()] that have not run yet. *)
Record Node := mkNode {
  n_cfg : tunnelConfig; n_network : underlayState; n_dnsServers : list string;
  n_dev : option devState; n_ctrl : option (runLoop * bool); n_running : bool;
  n_phase : option phase; n_stops : nat
}.
(** What the listener hears, and the texts given to the device. *)
Inductive node_act : Type :=
| NState (s : string)
| NLog (level message : string)
| NEvent (kind peer detail : string)
| NIpcSet (uapi : string).

Definition StateDown : string := "down".
Definition StateStarting : string := "starting".
Definition StateUp : string := "up".
Definition StateStopping : string := "stopping".
Definition defaultPluginDNSServers : list string :=
  ["8.8.8.8:53"; "1.1.1.1:53"; "[2001:4860:4860::8888]:53"].

(** The flags an Android TUN descriptor must and must not have. *)
Definition IFF_TUN : Z := 0x1.
Definition IFF_NO_PI : Z := 0x1000.
Definition IFF_VNET_HDR : Z := 0x4000.

(** ** node.go *)

(** A nil interface is [false]. *)
Definition NewNode `{UnicodeTables} `{UrlLib} (configJSON : string) (tunProvider protector listener : bool) : result Node :=
  if negb tunProvider || negb protector || negb listener
  then Err (ENew "tunProvider, protector and listener are required")
  else
    let? cfg := parseConfig configJSON in
    Ok (mkNode cfg (mkUnderlay false false false) [] None None false None 0).

(** What the platform answers while a node starts: the descriptor, its flags
    ([None] when the ioctl fails), the TUN device, [IpcSet] and [Up]. *)
Record StartEnv := mkStartEnv {
  se_fd : Z; se_flags : option Z; se_tun : option error; se_ipc : option error; se_up : option error
}.
Definition tun_unfit (flags : option Z) : bool :=
  match flags with
  | None => true
  | Some f => negb (Z.land f IFF_VNET_HDR =? 0) || (Z.land f IFF_TUN =? 0) || (Z.land f IFF_NO_PI =? 0)
  end.
(** Up to the device's state; [derive] is the X25519 public key. *)
Definition start_device (env : StartEnv) (n : Node) : list node_act * result devState :=
  if se_fd env <? 0 then ([], Err (ENew "tun fd not available"))
  else if tun_unfit (se_flags env) then ([], Err (ENew "unsupported platform TUN descriptor"))
  else match se_tun env with
  | Some e => ([], Err (EWrap "create tun from fd" [e]))
  | None =>
      match buildUAPI (Some (n_cfg n)) with
      | Err e => ([], Err e)
      | Ok uapi =>
          ([NIpcSet uapi],
           match se_ipc env with
           | Some e => Err (EWrap "ipc set" [e])
           | None =>
               if online (n_network n)
               then match se_up env with Some e => Err (EWrap "device up" [e]) | None => Ok DevUp end
               else Ok DevDown
           end)
      end
  end.
Definition Node_Start (derive : list Z -> list Z) (env : StartEnv) (n : Node) : Node * list node_act * result unit :=
  if n_running n then (n, [], Err (ENew "node already running"))
  else
    match start_device env n with
    | (acts, Err e) =>
        (n, [NState StateStarting] ++ acts ++ [NLog "error" "WireGuard start failed"; NState StateDown], Err e)
    | (acts, Ok dev) =>
        let private := match keyToBytes (icPrivateKey (tcInterface (n_cfg n))) with Ok k => k | Err _ => [] end in
        let ctrl := run_start (newController (n_cfg n) (n_network n) (derive private)) in
        (mkNode (n_cfg n) (n_network n) (n_dnsServers n) (Some dev) (Some (ctrl, false)) true (n_phase n) (n_stops n),
         [NState StateStarting] ++ acts ++ [NLog "info" "wireguard device up"; NState StateUp], Ok tt)
    end.

(** [Stop] in its two critical sections; between them it waits for the
    controller. *)
Definition Stop_begin (n : Node) : Node * list node_act :=
  if negb (n_running n) then (n, [])
  else (mkNode (n_cfg n) (n_network n) (n_dnsServers n) (n_dev n) None false (Some PStop) (n_stops n),
        [NState StateStopping]).
Definition Stop_end (n : Node) : Node * list node_act :=
  (mkNode (n_cfg n) (n_network n) (n_dnsServers n) None (n_ctrl n) false None (n_stops n), [NState StateDown]).

Definition dns_entries (servers : string) : list string :=
  filter (fun s => (s <>s "") && ValidNameserver s) (map trim_space (split_on "," servers)).
Definition SetDNSServers (n : Node) (servers : string) : Node :=
  mkNode (n_cfg n) (n_network n) (dns_entries servers) (n_dev n) (n_ctrl n) (n_running n) (n_phase n) (n_stops n).
Definition node_pluginDNSServers (n : Node) : list string :=
  match n_dnsServers n with [] => defaultPluginDNSServers | l => l end.

Definition on_ctrl (f : controller -> controller) (c : option (runLoop * bool)) : option (runLoop * bool) :=
  option_map (fun s => (on_ctl f s.1, s.2)) c.
(** [ipc]: what the device says to the text. *)
Definition Node_SetPeerEndpoint (ipc : string -> option error) (n : Node) (publicKeyB64 endpoint : string)
  : Node * list node_act * result unit :=
  if negb (n_running n) then (n, [], Err (ENew "node not running"))
  else if negb (existsb (fun p => pcPublicKey p =s publicKeyB64) (tcPeers (n_cfg n)))
  then (n, [], Err (ENew "endpoint update requires an existing configured peer"))
  else
    match buildPeerEndpointUAPI publicKeyB64 endpoint with
    | Err e => (n, [], Err e)
    | Ok uapi =>
        match ipc uapi with
        | Some _ =>
            (mkNode (n_cfg n) (n_network n) (n_dnsServers n) (Some DevClosed) (on_ctrl cancel (n_ctrl n)) (n_running n)
               (n_phase n) (S (n_stops n)),
             [NIpcSet uapi], Err (ENew "endpoint update failed; device stopped"))
        | None => (n, [NIpcSet uapi; NEvent "peer_endpoint_updated" publicKeyB64 endpoint], Ok tt)
        end
    end.
Definition IsRunning (n : Node) : bool := n_running n.

(** ** health.go: [peerHealth]; [status] is what the device writes *)

Definition Node_peerHealth (status : result string) (n : Node) : result (gmap string Health) :=
  if negb (n_running n) || match n_dev n with None => true | Some _ => false end
  then Err (ENew "device unavailable")
  else match status with
       | Err _ => Err (ENew "WireGuard health unavailable")
       | Ok text => map_err (ENew "WireGuard health unavailable") (healthWriter_Write ∅ text)
       end.

(** ** network.go: [SetUnderlay] in its two critical sections *)

Definition SetUnderlay_begin (n : Node) (state : underlayState) (rebind : bool) : Node :=
  mkNode (n_cfg n) state (n_dnsServers n) (n_dev n) (on_ctrl (fun c => networkChanged c state) (n_ctrl n)) (n_running n)
    (Some (PUnderlay (n_network n) rebind)) (n_stops n).

Inductive DevOp : Type := OpDown | OpUp | OpBindUpdate.
Definition underlay_op (previous state : underlayState) (rebind : bool) : option DevOp :=
  if negb (online state) then Some OpDown
  else if negb (online previous) then Some OpUp
  else if rebind then Some OpBindUpdate
  else None.
(** A closed device stays closed. *)
Definition apply_op (o : DevOp) (d : devState) : devState :=
  match d, o with
  | DevClosed, _ => DevClosed
  | _, OpDown => DevDown
  | _, OpUp => DevUp
  | d, OpBindUpdate => d
  end.
(** The second component: whether keepalives are sent. *)
Definition SetUnderlay_end (op : DevOp -> option error) (n : Node) (previous : underlayState) (rebind : bool)
  : Node * bool * result unit :=
  let state := n_network n in
  let set dev stops := mkNode (n_cfg n) state (n_dnsServers n) dev (n_ctrl n) (n_running n) None stops in
  match n_dev n with
  | None => (set (n_dev n) (n_stops n), false, Ok tt)
  | Some d =>
      if negb (n_running n) then (set (n_dev n) (n_stops n), false, Ok tt)
      else
        match underlay_op previous state rebind with
        | None => (set (n_dev n) (n_stops n), online state && rebind, Ok tt)
        | Some o =>
            match op o with
            | Some _ => (set (Some DevClosed) (S (n_stops n)), false,
                         Err (ENew "underlay transition failed; device stopped"))
            | None => (set (Some (apply_op o d)) (n_stops n), online state && rebind, Ok tt)
            end
        end
  end.

(** ** What can happen to a node

    [Start], [Stop] and [SetUnderlay] exclude each other; the others only take
    the node's own mutex. *)
Inductive node_step : Node -> Node -> Prop :=
| ns_start derive env n : n_phase n = None -> node_step n (Node_Start derive env n).1.1
| ns_stop n : n_phase n = None -> node_step n (Stop_begin n).1
| ns_spawned n k :
    n_phase n = None -> n_stops n = S k ->
    node_step n (Stop_begin (mkNode (n_cfg n) (n_network n) (n_dnsServers n) (n_dev n) (n_ctrl n) (n_running n) None k)).1
| ns_stopped n : n_phase n = Some PStop -> node_step n (Stop_end n).1
| ns_underlay n state rebind : n_phase n = None -> node_step n (SetUnderlay_begin n state rebind)
| ns_underlay_end n op previous rebind :
    n_phase n = Some (PUnderlay previous rebind) -> node_step n (SetUnderlay_end op n previous rebind).1.1
| ns_endpoint n ipc key endpoint : node_step n (Node_SetPeerEndpoint ipc n key endpoint).1.1
| ns_dns n servers : node_step n (SetDNSServers n servers)
| ns_loop n s s' :
    n_ctrl n = Some s -> loop_own_step s s' ->
    node_step n (mkNode (n_cfg n) (n_network n) (n_dnsServers n) (n_dev n) (Some s') (n_running n) (n_phase n) (n_stops n)).
Inductive node_reachable `{UnicodeTables} `{UrlLib} : Node -> Prop :=
| nr_new text n : NewNode text true true true = Ok n -> node_reachable n
| nr_step n n' : node_reachable n -> node_step n n' -> node_reachable n'.

(** ** keys.go, version.go *)

(** [random] is what the key primitive answers. *)
Definition GeneratePrivateKey (random : option (list Z)) : result string :=
  match random with Some key => Ok (b64_encode key) | None => Err (ENew "key generation failed") end.
Definition mobile_PublicKey (derive : list Z -> list Z) (private : string) : result string :=
  match keyToBytes private with
  | Err _ => Err (ENew "invalid local key")
  | Ok raw => Ok (b64_encode (derive raw))
  end.
Definition ValidateConfig `{UnicodeTables} `{UrlLib} (text : string) : result unit :=
  let? _ := parseConfig text in Ok tt.
Definition ValidatePublicKey (key : string) : result unit := let? _ := Validation.PublicKey key in Ok tt.

(** [info]: the module's version and the build settings, [None] when there are
    none. *)
Fixpoint build_settings (revision : string) (modified : bool) (l : list (string * string)) : string * bool :=
  match l with
  | [] => (revision, modified)
  | (k, v) :: rest =>
      if k =s "vcs.revision" then build_settings v modified rest
      else if k =s "vcs.modified" then build_settings revision (v =s "true") rest
      else build_settings revision modified rest
  end.
Definition Version (version : string) (info : option (string * list (string * string))) : string :=
  if version <>s "" then version
  else match info with
  | None => "dev"
  | Some (main, settings) =>
      if (main <>s "") && (main <>s "(devel)") then main
      else
        let '(revision, modified) := build_settings "" false settings in
        if revision =s "" then "dev"
        else
          let revision := if 12 <? slen revision then String.substring 0 12 revision else revision in
          if modified then revision +:+ "-dirty" else revision
  end.
