(* ===== verification/MobileNodeFacts.v ===== *)
(** * Theorems on the mobile node *)

From S2P Require Import Prelude GoStr Codec Netip Json Validation Discovery GoTime Plugin TextFacts Dialer Wg MobileConfig MobileConfigFacts MobileController MobileControllerFacts MobileNode.

(** ** Starting *)

Definition env_good (env : StartEnv) : Prop :=
  0 <= se_fd env /\ tun_unfit (se_flags env) = false /\ se_tun env = None /\ se_ipc env = None /\ se_up env = None.

Section start.
Context `{UnicodeTables} `{UrlLib}.

Lemma start_device_ok text n env :
  parseConfig text = Ok (n_cfg n) -> env_good env ->
  exists uapi, buildUAPI (Some (n_cfg n)) = Ok uapi /\
    start_device env n = ([NIpcSet uapi], Ok (if online (n_network n) then DevUp else DevDown)).
Proof.
  intros Hp (H1 & H2 & H3 & H4 & H5). unfold start_device.
  destruct (Z.ltb_spec (se_fd env) 0); [lia|]. rewrite H2, H3, H4, H5.
  apply parseConfig_ok, mo_uapi in Hp. destruct (buildUAPI _) as [uapi|]; [|done]. exists uapi.
  split; [done|]. by destruct (online _).
Qed.

(** Starting fails only for the platform's reasons: with a configuration that was
    parsed, a sound descriptor and a device that takes the text, the node comes
    up, its device up exactly when the underlay is, its controller armed when
    there is a store, and the listener hears "starting" and then "up". *)
Theorem Node_Start_total derive text n env :
  parseConfig text = Ok (n_cfg n) -> n_running n = false -> env_good env ->
  exists n' uapi, buildUAPI (Some (n_cfg n)) = Ok uapi /\
    Node_Start derive env n =
      (n', [NState "starting"; NIpcSet uapi; NLog "info" "wireguard device up"; NState "up"], Ok tt) /\
    n_running n' = true /\ n_dev n' = Some (if online (n_network n) then DevUp else DevDown) /\
    exists private, keyToBytes (icPrivateKey (tcInterface (n_cfg n))) = Ok private /\
      n_ctrl n' = Some (run_start (newController (n_cfg n) (n_network n) (derive private)), false).
Proof.
  intros Hp Hr He. destruct (start_device_ok _ _ _ Hp He) as (uapi & Hu & Hs). unfold Node_Start. rewrite Hr, Hs.
  eexists _, uapi. split_and!; [done|reflexivity|done|done|].
  apply parseConfig_ok, mo_private in Hp. unfold keyToBytes. destruct (Validation.Key _) as [k|]; [|done]. by exists k.
Qed.
End start.

(** A start that fails changes nothing and ends in "down". *)
Theorem Node_Start_fails derive env n n' acts e :
  Node_Start derive env n = (n', acts, Err e) ->
  n' = n /\ (n_running n = false -> exists pre, acts = pre ++ [NLog "error" "WireGuard start failed"; NState "down"]).
Proof.
  unfold Node_Start. destruct (n_running n) eqn:Er; [by intros (<- & _ & _)%triple_inj|].
  destruct (start_device env n) as [dacts [d|e']]; intros E.
  - exfalso. apply triple_inj in E as (_ & _ & E). done.
  - apply triple_inj in E as (<- & <- & _). split; [done|]. intros _. by exists ([NState StateStarting] ++ dacts).
Qed.

(** ** Endpoints *)

(** Whatever the app or the controller asks for, a running device only ever
    receives an update of the endpoint of a peer that is already configured:
    its key, the order not to create one, a numeric endpoint, and nothing else.
    If the device refuses, it is closed at once and a stop is under way. *)
Theorem Node_SetPeerEndpoint_spec ipc n key endpoint n' acts r :
  Node_SetPeerEndpoint ipc n key endpoint = (n', acts, r) ->
  (forall text, In (NIpcSet text) acts ->
     n_running n = true /\ In key (map pcPublicKey (tcPeers (n_cfg n))) /\
     exists pub ep, Validation.PublicKey key = Ok pub /\ Endpoint endpoint = Ok ep /\
       split_on nl text = [kv "public_key" (hex_encode pub); kv "update_only" "true";
                           kv "endpoint" (AddrPort_String ep); ""]) /\
  (is_ok r = true -> n' = n) /\
  (acts <> [] -> is_ok r = false -> n_dev n' = Some DevClosed /\ n_stops n' = S (n_stops n)).
Proof.
  unfold Node_SetPeerEndpoint. destruct (n_running n) eqn:Er; cbn [negb].
  2: { intros (<- & <- & <-)%triple_inj. by split_and!. }
  destruct (existsb _ _) eqn:Ex; cbn [negb]; [|intros (<- & <- & <-)%triple_inj; by split_and!].
  destruct (buildPeerEndpointUAPI key endpoint) as [uapi|] eqn:Eu; [|intros (<- & <- & <-)%triple_inj; by split_and!].
  apply existsb_exists in Ex as (p & Hp & Hk%String.eqb_eq).
  assert (forall text, text = uapi -> true = true /\ In key (map pcPublicKey (tcPeers (n_cfg n))) /\
    exists pub ep, Validation.PublicKey key = Ok pub /\ Endpoint endpoint = Ok ep /\
       split_on nl text = [kv "public_key" (hex_encode pub); kv "update_only" "true";
                           kv "endpoint" (AddrPort_String ep); ""]) as Htext.
  { intros text ->. split; [done|]. split; [apply in_map_iff; by exists p|]. by apply endpoint_uapi_lines. }
  destruct (ipc uapi); intros (<- & <- & <-)%triple_inj; (split; [|by split]); intros text Hin; apply Htext.
  - by destruct Hin as [[= <-]|[]].
  - by destruct Hin as [[= <-]|[?|[]]].
Qed.

(** ** The node's state *)

(** The underlay the device's state answers to: the one before a change that is
    still being applied. *)
Definition applied_network (n : Node) : underlayState :=
  match n_phase n with Some (PUnderlay previous _) => previous | _ => n_network n end.

Section node.
Context `{tables : UnicodeTables} `{urls : UrlLib}.

Record node_ok (n : Node) : Prop := {
  no_config : mobile_ok (n_cfg n);
  no_dns : Forall (fun s => ValidNameserver s = true) (n_dnsServers n);
  no_running : n_running n = true <-> n_ctrl n <> None;
  no_phase : n_phase n = Some PStop -> n_running n = false;
  no_stopped : n_running n = false -> n_phase n <> Some PStop -> n_dev n = None;
  no_device : n_running n = true -> n_dev n = Some DevClosed /\ (0 < n_stops n)%nat \/
                n_dev n = Some (if online (applied_network n) then DevUp else DevDown);
  no_loop : forall s, n_ctrl n = Some s -> c_network (l_ctl s.1) = n_network n /\
              exists network pub, loop_reachable (n_cfg n) network pub s
}.

Lemma own_step_network s s' : 
  loop_own_step s s' -> c_network (l_ctl s'.1) = c_network (l_ctl s.1).
Proof.
  destruct 1; try done. unfold run_begin. by destruct (online _).
Qed.
Lemma dns_entries_valid servers : Forall (fun s => ValidNameserver s = true) (dns_entries servers).
Proof.
  unfold dns_entries. rewrite List.Forall_forall. intros s Hs. apply list_elem_of_In, list_elem_of_filter in Hs as [Hs _].
  by apply Is_true_true, andb_true_iff in Hs as [_ ?].
Qed.

Lemma start_ok derive env n : n_phase n = None -> node_ok n -> node_ok (Node_Start derive env n).1.1.
Proof.
  intros Hph Hn. unfold Node_Start. destruct (n_running n) eqn:Er; [done|].
  destruct (start_device env n) as [acts [d|e]] eqn:Es; [|done]. cbn [fst]. destruct Hn as [H1 H2 H3 H4 H5 H6 H7].
  assert (d = if online (n_network n) then DevUp else DevDown) as ->.
  { unfold start_device in Es. destruct (se_fd env <? 0); [done|]. destruct (tun_unfit _); [done|].
    destruct (se_tun env); [done|]. destruct (buildUAPI _); [|done]. destruct (se_ipc env); [done|].
    destruct (online (n_network n)); [destruct (se_up env); [done|]|]; by simplify_eq. }
  constructor; cbn; try done.
  - by rewrite Hph.
  - intros _. right. unfold applied_network. cbn. by rewrite Hph.
  - intros s [= <-]. split; [done|]. eexists _, _. apply lr_start.
Qed.
Lemma stop_begin_ok n : node_ok n -> node_ok (Stop_begin n).1.
Proof.
  unfold Stop_begin. destruct (n_running n) eqn:Er; cbn [negb fst]; [|done].
  intros [H1 H2 H3 H4 H5 H6 H7]. by constructor.
Qed.
Lemma spawned_ok n k : n_phase n = None -> node_ok n ->
  node_ok (Stop_begin (mkNode (n_cfg n) (n_network n) (n_dnsServers n) (n_dev n) (n_ctrl n) (n_running n) None k)).1.
Proof.
  intros Hph [H1 H2 H3 H4 H5 H6 H7]. unfold Stop_begin. cbn. destruct (n_running n) eqn:Er; [by constructor|].
  constructor; cbn; try done. intros _ _. apply H5; [done|]. by rewrite Hph.
Qed.
Lemma stop_end_ok n : n_phase n = Some PStop -> node_ok n -> node_ok (Stop_end n).1.
Proof.
  intros Hph [H1 H2 H3 H4 H5 H6 H7]. pose proof (H4 Hph) as Hr. constructor; cbn; try done.
  split; [done|]. intros Hc. apply H3 in Hc. congruence.
Qed.

Lemma underlay_begin_ok n state rebind : n_phase n = None -> node_ok n -> node_ok (SetUnderlay_begin n state rebind).
Proof.
  intros Hph [H1 H2 H3 H4 H5 H6 H7]. constructor; cbn; try done.
  - rewrite H3. by destruct (n_ctrl n).
  - intros Hr _. apply H5; [done|]. by rewrite Hph.
  - unfold applied_network in *. cbn. rewrite Hph in H6. done.
  - intros s. destruct (n_ctrl n) as [s0|]; [|done]. intros [= <-]. split; [done|].
    destruct (H7 _ eq_refl) as (_ & net & pub & Hr). exists net, pub. eapply lr_step; [exact Hr|].
    destruct s0. apply ls_network.
Qed.
(** What the device's state is once the transition is done. *)
Lemma underlay_end_device op n previous rebind d :
  n_dev n = Some d -> n_running n = true ->
  d = DevClosed /\ (0 < n_stops n)%nat \/ d = (if online previous then DevUp else DevDown) ->
  let n' := (SetUnderlay_end op n previous rebind).1.1 in
  n_dev n' = Some DevClosed /\ (0 < n_stops n')%nat \/
  n_dev n' = Some (if online (n_network n) then DevUp else DevDown).
Proof.
  intros Ed Er Hd. unfold SetUnderlay_end. rewrite Ed, Er. cbn [negb]. unfold underlay_op.
  destruct (online (n_network n)) eqn:Eo, (online previous) eqn:Ep, rebind; cbn [negb];
    try destruct (op _); cbn; try (left; split; [done|lia]);
    (destruct Hd as [[-> ?]| ->]; [by left|by right]).
Qed.
Lemma underlay_end_frame op n previous rebind :
  let n' := (SetUnderlay_end op n previous rebind).1.1 in
  n_cfg n' = n_cfg n /\ n_network n' = n_network n /\ n_dnsServers n' = n_dnsServers n /\ n_ctrl n' = n_ctrl n /\
  n_running n' = n_running n /\ n_phase n' = None /\ (n_running n = false -> n_dev n' = n_dev n).
Proof.
  unfold SetUnderlay_end. destruct (n_dev n) as [d|] eqn:Ed; [|by cbn].
  destruct (n_running n) eqn:Er; cbn [negb]; [|by cbn].
  destruct (underlay_op _ _ _) as [o|]; [|by cbn]. by destruct (op o).
Qed.
Lemma underlay_end_ok op n previous rebind :
  n_phase n = Some (PUnderlay previous rebind) -> node_ok n -> node_ok (SetUnderlay_end op n previous rebind).1.1.
Proof.
  intros Hph [H1 H2 H3 H4 H5 H6 H7]. unfold applied_network in H6. rewrite Hph in *.
  pose proof (underlay_end_device op n previous rebind) as Hdev.
  destruct (underlay_end_frame op n previous rebind) as (F1 & F2 & F3 & F4 & F5 & F6 & F7). cbn zeta in *.
  set (n' := (SetUnderlay_end op n previous rebind).1.1) in *.
  constructor; rewrite ?F1, ?F3, ?F4, ?F5, ?F6; try done.
  - intros Hr _. rewrite F7 by done. by apply H5.
  - intros Hr. unfold applied_network. rewrite F6, F2. destruct (n_dev n) as [d|] eqn:Ed.
    + apply (Hdev d); [done|done|]. destruct (H6 Hr) as [[[= ->] ?]|[= ->]]; [by left|by right].
    + destruct (H6 Hr) as [[? _]|?]; done.
  - intros s Hs. rewrite F2. by apply H7.
Qed.
Lemma set_endpoint_ok ipc n key endpoint : node_ok n -> node_ok (Node_SetPeerEndpoint ipc n key endpoint).1.1.
Proof.
  intros Hn. unfold Node_SetPeerEndpoint. destruct (n_running n) eqn:Er; cbn [negb]; [|done].
  destruct (existsb _ _); cbn [negb]; [|done].
  destruct (buildPeerEndpointUAPI key endpoint) as [uapi|]; [|done]. destruct (ipc uapi); [|done].
  destruct Hn as [H1 H2 H3 H4 H5 H6 H7]. constructor; cbn; rewrite ?Er; try done.
  - pose proof (proj1 H3 Er). by destruct (n_ctrl n).
  - intros Hp. apply H4 in Hp. congruence.
  - intros _. left. split; [done|lia].
  - intros s. destruct (n_ctrl n) as [s0|]; [|done]. intros [= <-].
    destruct (H7 _ eq_refl) as (Hc & net & pub & Hr). split; [done|]. exists net, pub. eapply lr_step; [exact Hr|].
    destruct s0. apply ls_cancel.
Qed.
Lemma node_step_ok n n' : node_step n n' -> node_ok n -> node_ok n'.
Proof.
  intros Hs Hn. destruct Hs.
  - by apply start_ok.
  - by apply stop_begin_ok.
  - by apply spawned_ok.
  - by apply stop_end_ok.
  - by apply underlay_begin_ok.
  - by apply underlay_end_ok.
  - by apply set_endpoint_ok.
  - destruct Hn as [H1 H2 H3 H4 H5 H6 H7]. constructor; cbn; try done. apply dns_entries_valid.
  - destruct Hn as [H1 H2 H3 H4 H5 H6 H7]. destruct (H7 _ H) as (Hc & net & pub & Hr). constructor; cbn; try done.
    + by rewrite H3, H.
    + intros s0 [= <-]. rewrite (own_step_network _ _ H0). split; [done|]. exists net, pub.
      eapply lr_step; [exact Hr|]. by apply ls_own.
Qed.
Lemma node_reachable_ok n : node_reachable n -> node_ok n.
Proof.
  induction 1 as [text n Hn|n n' _ IH Hs]; [|by eapply node_step_ok].
  unfold NewNode in Hn. cbn [negb orb] in Hn. destruct (parseConfig text) as [cfg|] eqn:E; [|done].
  injection Hn as <-. apply parseConfig_ok in E. constructor; cbn; try done.
Qed.


(** A device that was closed on failure does not stay: the stop that was started
    for it can run as soon as no other transition is under way, and leaves the
    node stopped and without a device. *)
Theorem closed_device_stops n :
  node_reachable n -> n_running n = true -> n_dev n = Some DevClosed -> n_phase n = None ->
  exists n1 n2, node_step n n1 /\ node_step n1 n2 /\ n_running n2 = false /\ n_dev n2 = None /\ n_phase n2 = None.
Proof.
  intros Hr Hrun Hd Hp. apply node_reachable_ok in Hr as [_ _ _ _ _ Hdev _].
  destruct (Hdev Hrun) as [[_ Hk]|E]; [|rewrite Hd in E; by destruct (online _)].
  destruct (n_stops n) as [|k] eqn:Ek; [lia|].
  set (n0 := mkNode (n_cfg n) (n_network n) (n_dnsServers n) (n_dev n) (n_ctrl n) (n_running n) None k).
  exists (Stop_begin n0).1, (Stop_end (Stop_begin n0).1).1. split_and!; try done; [by eapply ns_spawned|].
  apply ns_stopped. unfold Stop_begin. cbn. by rewrite Hrun.
Qed.

(** ** Resolvers *)

Lemma pick_from_valid servers start i n :
  Forall (fun s => ValidNameserver s = true) servers -> servers <> [] -> (0 < n)%nat ->
  exists addr entry, pick_from servers start i n = Some addr /\ In entry servers /\ normalizeDNSAddr entry = Some addr.
Proof.
  intros Hv Hne Hn. destruct n as [|n]; [lia|]. cbn [pick_from].
  set (j := Z.to_nat _). assert (j < length servers)%nat as Hj.
  { subst j. assert (0 < length servers)%nat by (destruct servers; [done|cbn; lia]).
    pose proof (Z.mod_pos_bound (start + Z.of_nat i) (Z.of_nat (length servers)) ltac:(lia)). lia. }
  pose proof (nth_In servers "" Hj) as Hin. rewrite List.Forall_forall in Hv. pose proof (Hv _ Hin) as Hvj.
  unfold ValidNameserver in Hvj. destruct (normalizeDNSAddr (nth j servers "")) as [a|] eqn:E; [|done].
  by exists a, (nth j servers "").
Qed.

(** Plugin lookups always have a nameserver: whatever the app passed to
    [SetDNSServers], the list handed to the plugin dialer is not empty and holds
    only addresses, so that every lookup is aimed at one of them, on whatever
    turn of the rotation. *)
Theorem plugin_lookup_server n rotation address :
  node_reachable n ->
  exists entry, In entry (node_pluginDNSServers n) /\
    normalizeDNSAddr entry = Some (dialDNS rotation (protectedContext (Some true) (node_pluginDNSServers n)) address).2.
Proof.
  intros Hr. apply node_reachable_ok in Hr as [_ Hdns _ _ _ _ _]. 
  assert (Forall (fun s => ValidNameserver s = true) (node_pluginDNSServers n) /\ node_pluginDNSServers n <> []) as [Hv Hne].
  { unfold node_pluginDNSServers. destruct (n_dnsServers n); [|done]. split; [|done]. repeat constructor. }
  set (servers := node_pluginDNSServers n) in *. unfold dialDNS, protectedContext. cbn [es_DNSServers].
  destruct (pick_from_valid servers (wrap32 (wrap32 (rotation + 1) - 1) mod wrap32 (Z.of_nat (length servers))) 0
              (length servers) Hv Hne) as (addr & entry & Ha & Hin & Hnorm); [destruct servers; [done|cbn; lia]|].
  unfold pickDNSServer. destruct servers as [|s0 l] eqn:Es; [done|]. cbn zeta. rewrite Ha.
  by exists entry.
Qed.

(** ** A stop that comes late *)

Lemma start_state derive text n env :
  parseConfig text = Ok (n_cfg n) -> n_running n = false -> env_good env -> exists c,
  (Node_Start derive env n).1.1 =
  mkNode (n_cfg n) (n_network n) (n_dnsServers n) (Some (if online (n_network n) then DevUp else DevDown)) c true
    (n_phase n) (n_stops n).
Proof.
  intros Hp Hr He. destruct (start_device_ok _ _ _ Hp He) as (uapi & Hu & Hs). unfold Node_Start. rewrite Hr, Hs.
  by eexists.
Qed.

Definition underlay_up : underlayState := mkUnderlay true true true.
Definition idle_node (cfg : tunnelConfig) (k : nat) : Node := mkNode cfg underlay_up [] None None false None k.
Definition good_start : StartEnv := mkStartEnv 3 (Some (IFF_TUN + IFF_NO_PI)) None None None.

Lemma idle_reachable text cfg : parseConfig text = Ok cfg -> node_reachable (idle_node cfg 0).
Proof.
  intros Hp. apply (nr_step (mkNode cfg underlay_up [] None None false (Some (PUnderlay (mkUnderlay false false false) false)) 0)).
  - apply (nr_step (mkNode cfg (mkUnderlay false false false) [] None None false None 0)).
    + apply (nr_new text). unfold NewNode. cbn [negb orb]. by rewrite Hp.
    + exact (ns_underlay (mkNode cfg (mkUnderlay false false false) [] None None false None 0) underlay_up false eq_refl).
  - exact (ns_underlay_end (mkNode cfg underlay_up [] None None false (Some (PUnderlay (mkUnderlay false false false) false)) 0)
             (fun _ => None) (mkUnderlay false false false) false eq_refl).
Qed.
Lemma started_reachable text cfg k : parseConfig text = Ok cfg -> node_reachable (idle_node cfg k) -> exists c,
  node_reachable (mkNode cfg underlay_up [] (Some DevUp) c true None k).
Proof.
  intros Hp Hn. assert (env_good good_start) as He by (by split_and!).
  destruct (start_state (fun k => k) text (idle_node cfg k) good_start Hp eq_refl He) as [c Ec].
  exists c. pose proof (ns_start (fun k => k) good_start (idle_node cfg k) eq_refl) as Hs.
  rewrite Ec in Hs. eapply nr_step; [exact Hn|exact Hs].
Qed.
Lemma failed_reachable text cfg key endpoint uapi :
  parseConfig text = Ok cfg -> In key (map pcPublicKey (tcPeers cfg)) -> buildPeerEndpointUAPI key endpoint = Ok uapi ->
  exists c, node_reachable (mkNode cfg underlay_up [] (Some DevClosed) c true None 1).
Proof.
  intros Hp Hk Hu. destruct (started_reachable _ _ _ Hp (idle_reachable _ _ Hp)) as [c Hr].
  assert (existsb (fun p => pcPublicKey p =s key) (tcPeers cfg) = true) as Hex.
  { apply in_map_iff in Hk as (p & Hpk & Hin). apply existsb_exists. exists p. split; [done|]. by apply String.eqb_eq. }
  exists (on_ctrl cancel c). eapply nr_step; [exact Hr|].
  pose proof (ns_endpoint (mkNode cfg underlay_up [] (Some DevUp) c true None 0) (fun _ => Some (ENew "ipc")) key endpoint) as Hs.
  unfold Node_SetPeerEndpoint in Hs. cbn [n_running n_cfg negb] in Hs. rewrite Hex, Hu in Hs. exact Hs.
Qed.

(** The stop started for a failed device is not tied to it: if the app stops and
    starts the node before that stop runs, it is still there beside the new,
    healthy device, and the next thing it does is to stop that one. *)
Theorem late_stop_hits_restart text cfg key endpoint uapi :
  parseConfig text = Ok cfg -> In key (map pcPublicKey (tcPeers cfg)) ->
  buildPeerEndpointUAPI key endpoint = Ok uapi ->
  exists n n', node_reachable n /\ n_running n = true /\ n_dev n = Some DevUp /\ online (n_network n) = true /\
    n_stops n = 1%nat /\ node_step n n' /\ n_running n' = false.
Proof.
  intros Hp Hk Hu. destruct (failed_reachable _ _ _ _ _ Hp Hk Hu) as [c Hr].
  assert (node_reachable (idle_node cfg 1)) as Hidle.
  { eapply nr_step; [|by apply (ns_stopped (mkNode cfg underlay_up [] (Some DevClosed) None false (Some PStop) 1))].
    eapply nr_step; [exact Hr|]. by apply (ns_stop (mkNode cfg underlay_up [] (Some DevClosed) c true None 1)). }
  destruct (started_reachable _ _ _ Hp Hidle) as [c' Hr']. eexists _, _. split_and!; [exact Hr'|done..| |].
  - exact (ns_spawned (mkNode cfg underlay_up [] (Some DevUp) c' true None 1) 0 eq_refl eq_refl).
  - done.
Qed.
End node.

(** ** Witnesses *)

Definition w_node0 : Node := mkNode w_config (mkUnderlay false false false) [] None None false None 0.
Lemma w_node0_reachable : @node_reachable w_tables w_urls w_node0.
Proof. apply (nr_new w_text). unfold NewNode. cbn [negb orb]. by rewrite w_text_parses. Qed.
Lemma w_env_good : env_good good_start.
Proof. by split_and!. Qed.
Example w_peer_uapi : is_ok (buildPeerEndpointUAPI (w_key 9) "203.0.113.7:51820") = true.
Proof. unfold buildPeerEndpointUAPI. rewrite PublicKey_w_key. vm_compute. reflexivity. Qed.

Lemma Node_Start_total_witness : exists n' uapi, buildUAPI (Some w_config) = Ok uapi /\
  Node_Start (fun k => k) good_start w_node0 =
    (n', [NState "starting"; NIpcSet uapi; NLog "info" "wireguard device up"; NState "up"], Ok tt) /\
  n_running n' = true /\ n_dev n' = Some DevDown /\
  exists private, keyToBytes (w_key 1) = Ok private /\
    n_ctrl n' = Some (run_start (newController w_config (mkUnderlay false false false) private), false).
Proof.
  exact (Node_Start_total (H := w_tables) (H0 := w_urls) (fun k => k) w_text w_node0 good_start w_text_parses eq_refl w_env_good).
Defined.
Lemma Node_Start_fails_witness :
  w_node0 = w_node0 /\ (false = false -> exists pre, [NState StateStarting; NLog "error" "WireGuard start failed"; NState StateDown] =
    pre ++ [NLog "error" "WireGuard start failed"; NState "down"]).
Proof.
  apply (Node_Start_fails (fun k => k) (mkStartEnv (-1) None None None None) w_node0 w_node0 _ (ENew "tun fd not available")).
  reflexivity.
Defined.
Lemma Node_SetPeerEndpoint_spec_witness :
  let n := mkNode w_config underlay_up [] (Some DevUp) None true None 0 in
  exists text pub, In (NIpcSet text) (Node_SetPeerEndpoint (fun _ => None) n (w_key 9) "203.0.113.7:51820").1.2 /\
    Validation.PublicKey (w_key 9) = Ok pub.
Proof.
  intros n. destruct (buildPeerEndpointUAPI (w_key 9) "203.0.113.7:51820") as [text|] eqn:E.
  2: { pose proof w_peer_uapi as Hw. rewrite E in Hw. discriminate Hw. }
  assert (Node_SetPeerEndpoint (fun _ => None) n (w_key 9) "203.0.113.7:51820" =
          (n, [NIpcSet text; NEvent "peer_endpoint_updated" (w_key 9) "203.0.113.7:51820"], Ok tt)) as Hs.
  { unfold Node_SetPeerEndpoint. rewrite E. reflexivity. }
  destruct (Node_SetPeerEndpoint_spec _ _ _ _ _ _ _ Hs) as (Ht & _).
  destruct (Ht text (or_introl eq_refl)) as (_ & _ & pub & ep & Hp & _).
  exists text, pub. rewrite Hs. split; [by left|exact Hp].
Defined.
Lemma plugin_lookup_server_witness :
  exists entry, In entry defaultPluginDNSServers /\
    normalizeDNSAddr entry = Some (dialDNS 7 (protectedContext (Some true) defaultPluginDNSServers) "[::1]:53").2.
Proof. exact (plugin_lookup_server (tables := w_tables) (urls := w_urls) w_node0 7 "[::1]:53" w_node0_reachable). Defined.
Lemma closed_device_stops_witness : exists n n1 n2, n_dev n = Some DevClosed /\ node_step n n1 /\ node_step n1 n2 /\
  n_running n2 = false /\ n_dev n2 = None.
Proof.
  destruct (buildPeerEndpointUAPI (w_key 9) "203.0.113.7:51820") as [text|] eqn:E.
  2: { pose proof w_peer_uapi as Hw. rewrite E in Hw. discriminate Hw. }
  destruct (failed_reachable (tables := w_tables) (urls := w_urls) w_text w_config _ _ _ w_text_parses (or_introl eq_refl) E)
    as [c Hr].
  destruct (closed_device_stops _ Hr eq_refl eq_refl eq_refl) as (n1 & n2 & H1 & H2 & H3 & H4 & _).
  exists (mkNode w_config underlay_up [] (Some DevClosed) c true None 1), n1, n2.
  exact (conj eq_refl (conj H1 (conj H2 (conj H3 H4)))).
Defined.
Lemma late_stop_hits_restart_witness : exists n n',
  @node_reachable w_tables w_urls n /\ n_running n = true /\ n_dev n = Some DevUp /\ online (n_network n) = true /\
  n_stops n = 1%nat /\ node_step n n' /\ n_running n' = false.
Proof.
  destruct (buildPeerEndpointUAPI (w_key 9) "203.0.113.7:51820") as [text|] eqn:E.
  2: { pose proof w_peer_uapi as Hw. rewrite E in Hw. discriminate Hw. }
  exact (late_stop_hits_restart w_text w_config _ _ _ w_text_parses (or_introl eq_refl) E).
Defined.
