(* ===== verification/Provision.v ===== *)
(** * internal/provision, cmd/provision: enrolling a phone

    The enrollment proposal a server hands out and the public reply it checks
    (provision.go), the allocation of the phone's address and the command that
    issues an enrollment (cmd/provision/server.go).  Files, randomness, the wg
    and qrencode tools are the environment's. *)

From S2P Require Import Prelude GoStr Codec Netip Json JsonFacts Validation Discovery Plugin JsonDecode.

(** ** provision.go *)

Definition Enroll_Schema : string := "stunmesh-enroll-v2".
Definition Enroll_MaxBytes : Z := 2048.
Definition Reply_Schema : string := "stunmesh-peer-v1".

Record Proposal := mkProposal {
  pp_Schema : string; pp_ID : string; pp_Name : string; pp_Address : string; pp_ServerPublicKey : string;
  pp_AllowedIPs : list string; pp_STUN : list string; pp_OpenDHT : list string; pp_Endpoint : string;
  pp_Protocol : string; pp_PresharedKey : string
}.
Record Reply := mkReply { rp_Schema : string; rp_ID : string; rp_PublicKey : string; rp_Addresses : list string }.

(** The pattern, character class by character class. *)
Fixpoint match_classes (l : list (ascii -> bool)) (s : string) : bool :=
  match l, s with
  | [], "" => true
  | p :: l', String c s' => p c && match_classes l' s'
  | _, _ => false
  end.
Definition is_char (a c : ascii) : bool := Ascii.eqb a c.
Definition hexes (n : nat) : list (ascii -> bool) := replicate n is_lower_hex.
Definition uuid_pattern : list (ascii -> bool) :=
  hexes 8 ++ [is_char "-"] ++ hexes 4 ++ [is_char "-"; is_char "4"] ++ hexes 3 ++ [is_char "-"] ++
  [fun c => smem c "89ab"] ++ hexes 3 ++ [is_char "-"] ++ hexes 12.
Definition uuid (s : string) : bool := match_classes uuid_pattern s.

(** [random] is what [rand.Read] filled in; its failure panics. *)
Definition NewID (random : list Z) : string :=
  let b := random in
  let b := take 6 b ++ [Z.lor (Z.land (byte_at b 6) 15) 64] ++ drop 7 b in
  let b := take 8 b ++ [Z.lor (Z.land (byte_at b 8) 63) 128] ++ drop 9 b in
  hex_encode (slice b 0 4) +:+ "-" +:+ hex_encode (slice b 4 6) +:+ "-" +:+ hex_encode (slice b 6 8) +:+ "-" +:+
  hex_encode (slice b 8 10) +:+ "-" +:+ hex_encode (slice b 10 16).

Definition enroll_error : error := ENew "invalid enrollment; check schema, keys, address, narrow routes and origins".
Definition name_forbidden : string := String (zb 13) (String (zb 10) (String (zb 9) "")).
Definition key_is_zero (k : list Z) : bool := forallb (fun b => b =? 0) k.
(** Distinct service routes, by their printed form. *)
Fixpoint routes_ok (seen : list string) (l : list string) : bool :=
  match l with
  | [] => true
  | s :: rest =>
      match ServiceRoute s with
      | Err _ => false
      | Ok r => if bool_decide (Prefix_String r ∈ seen) then false else routes_ok (Prefix_String r :: seen) rest
      end
  end.
Definition is_protocol (s : string) : bool :=
  existsb (fun x => s =s x) ["ipv4"; "ipv6"; "prefer_ipv4"; "prefer_ipv6"].

Section proposal.
Context `{UnicodeTables} `{UrlLib}.

Definition store_config (opendht : list string) : gmap string any :=
  {[ "name" := AStr "opendht"; "endpoints" := AStrs opendht ]}.
Definition Proposal_Validate (p : Proposal) : result unit :=
  require negb ((pp_Schema p <>s Enroll_Schema) || negb (uuid (pp_ID p)) || (slen (pp_Name p) <? 1)
                || (128 <? slen (pp_Name p)) || contains_any (pp_Name p) name_forbidden) else enroll_error;
  require is_ok (PublicKey (pp_ServerPublicKey p)) else enroll_error;
  require (pp_PresharedKey p =s "") ||
          match Validation.Key (pp_PresharedKey p) with Ok k => negb (key_is_zero k) | Err _ => false end else enroll_error;
  require match ValidPrefix (pp_Address p) with Ok a => pf_bits a =? BitLen (pf_addr a) | Err _ => false end else enroll_error;
  require negb ((Z.of_nat (length (pp_AllowedIPs p)) <? 1) || (MaxRoutes <? Z.of_nat (length (pp_AllowedIPs p)))
                || (Z.of_nat (length (pp_STUN p)) <? 1) || (MaxServers <? Z.of_nat (length (pp_STUN p)))) else enroll_error;
  require routes_ok [] (pp_AllowedIPs p) else enroll_error;
  require forallb (fun s => is_ok (Server s)) (pp_STUN p) else enroll_error;
  require (pp_Endpoint p =s "") ||
          match Endpoint (pp_Endpoint p) with Ok e => negb (IsLoopback (ap_addr e)) | Err _ => false end else enroll_error;
  require is_protocol (pp_Protocol p) else enroll_error;
  require is_ok (NewOpenDHTPlugin (store_config (pp_OpenDHT p))) else enroll_error;
  Ok tt.

Definition JStrs (l : list string) : json := JArr (map JStr l).
Definition omitempty (k v : string) : list (string * json) := if v =s "" then [] else [(k, JStr v)].
(** The struct's members in order; a list is never nil here. *)
Definition proposal_json (p : Proposal) : json :=
  JObj ([("schema", JStr (pp_Schema p)); ("proposal_id", JStr (pp_ID p)); ("name", JStr (pp_Name p));
         ("address", JStr (pp_Address p)); ("server_public_key", JStr (pp_ServerPublicKey p));
         ("allowed_ips", JStrs (pp_AllowedIPs p)); ("stun_servers", JStrs (pp_STUN p)); ("opendht", JStrs (pp_OpenDHT p))] ++
        omitempty "endpoint" (pp_Endpoint p) ++ [("protocol", JStr (pp_Protocol p))] ++
        omitempty "preshared_key" (pp_PresharedKey p)).
Definition Proposal_Encode (p : Proposal) : result string :=
  let? _ := Proposal_Validate p in
  let b := marshal (proposal_json p) in
  if Enroll_MaxBytes <? slen b then Err (ENew "enrollment exceeds QR limit") else Ok b.

Definition proposal_field (p : Proposal) (m : string * json) : option Proposal :=
  let '(k, v) := m in
  let '(mkProposal sc id na ad pk ips st dht ep pr psk) := p in
  if field_match "schema" k then option_map (fun x => mkProposal x id na ad pk ips st dht ep pr psk) (decode_string v sc)
  else if field_match "proposal_id" k then option_map (fun x => mkProposal sc x na ad pk ips st dht ep pr psk) (decode_string v id)
  else if field_match "name" k then option_map (fun x => mkProposal sc id x ad pk ips st dht ep pr psk) (decode_string v na)
  else if field_match "address" k then option_map (fun x => mkProposal sc id na x pk ips st dht ep pr psk) (decode_string v ad)
  else if field_match "server_public_key" k then option_map (fun x => mkProposal sc id na ad x ips st dht ep pr psk) (decode_string v pk)
  else if field_match "allowed_ips" k then option_map (fun x => mkProposal sc id na ad pk x st dht ep pr psk) (decode_strings v)
  else if field_match "stun_servers" k then option_map (fun x => mkProposal sc id na ad pk ips x dht ep pr psk) (decode_strings v)
  else if field_match "opendht" k then option_map (fun x => mkProposal sc id na ad pk ips st x ep pr psk) (decode_strings v)
  else if field_match "endpoint" k then option_map (fun x => mkProposal sc id na ad pk ips st dht x pr psk) (decode_string v ep)
  else if field_match "protocol" k then option_map (fun x => mkProposal sc id na ad pk ips st dht ep x psk) (decode_string v pr)
  else if field_match "preshared_key" k then option_map (fun x => mkProposal sc id na ad pk ips st dht ep pr x) (decode_string v psk)
  else None.
Definition Proposal0 : Proposal := mkProposal "" "" "" "" "" [] [] [] "" "" "".
(** [json.Unmarshal] into a map of raw messages: the document's own keys. *)
Definition document_keys (b : string) : option (list string) :=
  match parse_json b with
  | Some (JObj l) => Some (map fst l)
  | Some JNull => Some []
  | _ => None
  end.
Definition Proposal_Decode (b : string) : result Proposal :=
  if Enroll_MaxBytes <? slen b then Err (ENew "enrollment too large")
  else
    let? p := DecodeJSON (fun v => decode_struct proposal_field v Proposal0) b in
    match document_keys b with
    | None => Err (ENew "invalid enrollment")
    | Some fields =>
        require forallb (fun name => name =s to_lower name) fields else ENew "invalid enrollment field";
        require negb (existsb (fun name => name =s "preshared_key") fields && (pp_PresharedKey p =s ""))
          else ENew "empty enrollment PSK";
        let? _ := Proposal_Validate p in Ok p
    end.

Definition reply_field (r : Reply) (m : string * json) : option Reply :=
  let '(k, v) := m in
  let '(mkReply sc id pk ads) := r in
  if field_match "schema" k then option_map (fun x => mkReply x id pk ads) (decode_string v sc)
  else if field_match "proposal_id" k then option_map (fun x => mkReply sc x pk ads) (decode_string v id)
  else if field_match "public_key" k then option_map (fun x => mkReply sc id x ads) (decode_string v pk)
  else if field_match "addresses" k then option_map (fun x => mkReply sc id pk x) (decode_strings v)
  else None.
Definition CheckReply (p : Proposal) (b : string) : result Reply :=
  let? _ := Proposal_Validate p in
  if Enroll_MaxBytes <? slen b then Err (ENew "public reply too large")
  else
    let? r := DecodeJSON (fun v => decode_struct reply_field v (mkReply "" "" "" [])) b in
    if (rp_Schema r <>s Reply_Schema) || (rp_ID r <>s pp_ID p) || negb (bool_decide (rp_Addresses r = [pp_Address p]))
       || (rp_PublicKey r =s pp_ServerPublicKey p)
    then Err (ENew "reply does not match proposal")
    else let? _ := PublicKey (rp_PublicKey r) in Ok r.
End proposal.

(** ** cmd/provision/server.go *)

Definition v4_bytes (v : Z) : list Z := val_bytes 4 v.
(** The candidates [n] of the loop, in order. *)
Fixpoint first_free (base : list Z) (prefixes : list Prefix) (n : Z) (count : nat) : option string :=
  match count with
  | O => None
  | S count' =>
      let ip := AddrFrom4 (take 3 base ++ [n]) in
      if existsb (fun p => Contains p ip) prefixes then first_free base prefixes (n + 1) count'
      else Some (Addr_String ip +:+ "/32")
  end.
Fixpoint parse_prefixes (l : list string) : option (list Prefix) :=
  match l with
  | [] => Some []
  | s :: rest => match ParsePrefix s, parse_prefixes rest with Some p, Some ps => Some (p :: ps) | _, _ => None end
  end.
Definition phoneAddress (serverRoute : string) (used : list string) : result string :=
  match ParsePrefix serverRoute with
  | None => Err (ENew "first service route must be a private IPv4 /32")
  | Some server =>
      match pf_addr server with
      | Addr4 v =>
          if negb (IsPrivate (Addr4 v)) || negb (pf_bits server =? 32)
          then Err (ENew "first service route must be a private IPv4 /32")
          else match parse_prefixes used with
               | None => Err (ENew "invalid reserved address")
               | Some prefixes =>
                   match first_free (v4_bytes v) prefixes 2 253 with
                   | Some a => Ok a
                   | None => Err (ENew "phone address pool exhausted")
                   end
               end
      | _ => Err (ENew "first service route must be a private IPv4 /32")
      end
  end.

(** What the server's configuration says in public ([Server.Public]). *)
Record ServerPublic := mkServerPublic {
  sp_PublicKey : string; sp_STUN : list string; sp_DHT : list string; sp_PeerAddresses : list string
}.
Record EnrollArgs := mkEnrollArgs {
  ea_Config : string; ea_Out : string; ea_Name : string; ea_Endpoint : string; ea_Routes : string; ea_Reserved : string;
  ea_Extra : bool     (* arguments after the flags *)
}.
(** The environment's answers, in the order they are asked for; a file
    operation is [true] when it succeeds. *)
Record EnrollEnv := mkEnrollEnv {
  ee_dir_private : bool; ee_dir_empty : bool; ee_server : result ServerPublic; ee_random : list Z;
  ee_psk : result string; ee_json_create : bool; ee_json_write : bool; ee_qr_create : bool; ee_qr_run : bool
}.
Section serverNew.
Context `{UnicodeTables} `{UrlLib}.

Definition with_psk (p : Proposal) (psk : string) : Proposal :=
  mkProposal (pp_Schema p) (pp_ID p) (pp_Name p) (pp_Address p) (pp_ServerPublicKey p) (pp_AllowedIPs p) (pp_STUN p)
    (pp_OpenDHT p) (pp_Endpoint p) (pp_Protocol p) psk.
(** The enrollment to write out. *)
Definition issue (a : EnrollArgs) (env : EnrollEnv) : result (Proposal * string) :=
  require negb (ea_Extra a || (ea_Config a =s "") || (ea_Out a =s "") || (ea_Name a =s "") || (ea_Endpoint a =s ""))
    else ENew "missing server enrollment inputs";
  require ee_dir_private env else ENew "output directory must be private";
  require ee_dir_empty env else ENew "output directory must be empty";
  let? server := map_err (ENew "cannot validate server configuration") (ee_server env) in
  let routeList := split_on "," (ea_Routes a) in
  let used := sp_PeerAddresses server ++ routeList ++
              (if ea_Reserved a =s "" then [] else split_on "," (ea_Reserved a)) in
  let? address := phoneAddress (nth 0 routeList "") used in
  let p := mkProposal Enroll_Schema (NewID (ee_random env)) (ea_Name a) address (sp_PublicKey server) routeList
             (sp_STUN server) (sp_DHT server) (ea_Endpoint a) "ipv4" "" in
  let? _ := Proposal_Validate p in
  let? psk := map_err (ENew "WireGuard PSK generation failed") (ee_psk env) in
  let p := with_psk p (trim_space psk) in
  let? data := map_err (ENew "invalid generated enrollment") (Proposal_Encode p) in
  Ok (p, data).
(** The files the output directory holds afterwards, and the summary printed:
    a failure removes what was created. *)
Definition serverNew (a : EnrollArgs) (env : EnrollEnv) : list (string * string) * result (string * string) :=
  match issue a env with
  | Err e => ([], Err e)
  | Ok (p, data) =>
      let json := ("enrollment.json", data +:+ String (zb 10) "") in
      let qr := ("enrollment.svg", "") in
      let remove (created files : list (string * string)) :=
        filter (fun f => negb (existsb (fun g => f.1 =s g.1) created)) files in
      if negb (ee_json_create env) then ([], Err (ENew "cannot create enrollment file"))
      else if negb (ee_json_write env) then (remove [json] [json], Err (ENew "cannot save enrollment"))
      else if negb (ee_qr_create env) then (remove [json] [json], Err (ENew "cannot create QR file"))
      else if negb (ee_qr_run env) then (remove [json; qr] [json; qr], Err (ENew "QR generation failed"))
      else ([json; qr], Ok (pp_Address p, pp_ID p))
  end.
End serverNew.
