(* ===== verification/ProvisionFacts.v ===== *)
(** * Theorems on enrollment *)

From S2P Require Import Prelude GoStr Codec Netip NetipFacts Json JsonFacts Validation Discovery Plugin PluginFacts JsonDecode Provision.

(** ** Identifiers *)

Lemma all_bytes (P : Z -> bool) : forallb P (map Z.of_nat (seq 0 256)) = true -> forall b, is_byte b -> P b = true.
Proof.
  intros Hall b Hb. rewrite forallb_forall in Hall. apply Hall, in_map_iff. unfold is_byte in Hb.
  exists (Z.to_nat b). split; [lia|]. apply in_seq. lia.
Qed.
Lemma version_byte b : is_byte b ->
  is_char "4" (hex_digit (Z.lor (Z.land b 15) 64 / 16)) && is_lower_hex (hex_digit (Z.lor (Z.land b 15) 64 mod 16)) = true.
Proof. apply (all_bytes (fun b => is_char "4" (hex_digit (Z.lor (Z.land b 15) 64 / 16)) && is_lower_hex (hex_digit (Z.lor (Z.land b 15) 64 mod 16)))). vm_compute. reflexivity. Qed.
Lemma variant_byte b : is_byte b ->
  smem (hex_digit (Z.lor (Z.land b 63) 128 / 16)) "89ab" && is_lower_hex (hex_digit (Z.lor (Z.land b 63) 128 mod 16)) = true.
Proof. apply (all_bytes (fun b => smem (hex_digit (Z.lor (Z.land b 63) 128 / 16)) "89ab" && is_lower_hex (hex_digit (Z.lor (Z.land b 63) 128 mod 16)))). vm_compute. reflexivity. Qed.
Lemma hex_byte b : is_byte b -> is_lower_hex (hex_digit (b / 16)) && is_lower_hex (hex_digit (b mod 16)) = true.
Proof. apply (all_bytes (fun b => is_lower_hex (hex_digit (b / 16)) && is_lower_hex (hex_digit (b mod 16)))). vm_compute. reflexivity. Qed.

(** Whatever the random bytes, a generated identifier is a version 4 UUID, so
    the proposal it goes into is never refused for it. *)
Theorem NewID_is_uuid random : length random = 16%nat -> bytes_ok random -> uuid (NewID random) = true.
Proof.
  intros Hl Hb. do 16 (destruct random as [|? random]; [done|]). destruct random; [|done]. clear Hl.
  unfold bytes_ok in Hb. repeat match goal with Hx : Forall is_byte (_ :: _) |- _ => apply Forall_cons_iff in Hx as [? Hx] end.
  repeat match goal with Hx : is_byte ?b |- _ =>
    let Hh := fresh in pose proof (hex_byte b Hx) as Hh; apply andb_true_iff in Hh as [? ?];
    let Hv := fresh in pose proof (version_byte b Hx) as Hv; apply andb_true_iff in Hv as [? ?];
    let Hw := fresh in pose proof (variant_byte b Hx) as Hw; apply andb_true_iff in Hw as [? ?]; clear Hx end.
  unfold NewID, uuid, uuid_pattern, hexes.
  cbn [take drop app byte_at nth slice Nat.sub replicate hex_encode String.append match_classes].
  repeat match goal with Hx : ?e = true |- context [?e] => rewrite Hx end. reflexivity.
Qed.

(** ** Proposals *)

Section proposal.
Context `{tables : UnicodeTables} `{urls : UrlLib}.

Record proposal_ok (p : Proposal) : Prop := {
  po_id : pp_Schema p = Enroll_Schema /\ uuid (pp_ID p) = true;
  po_name : 1 <= slen (pp_Name p) <= 128 /\ contains_any (pp_Name p) name_forbidden = false;
  po_server : is_ok (PublicKey (pp_ServerPublicKey p)) = true;
  po_psk : pp_PresharedKey p = "" \/ exists k, Validation.Key (pp_PresharedKey p) = Ok k /\ key_is_zero k = false;
  po_address : exists a, ValidPrefix (pp_Address p) = Ok a /\ pf_bits a = BitLen (pf_addr a);
  po_routes : 1 <= Z.of_nat (length (pp_AllowedIPs p)) <= MaxRoutes /\
              exists rs, Forall2 (fun s r => ServiceRoute s = Ok r) (pp_AllowedIPs p) rs /\ NoDup (map Prefix_String rs);
  po_stun : 1 <= Z.of_nat (length (pp_STUN p)) <= MaxServers /\ Forall (fun s => is_ok (Server s) = true) (pp_STUN p);
  po_endpoint : pp_Endpoint p = "" \/ exists e, Endpoint (pp_Endpoint p) = Ok e /\ IsLoopback (ap_addr e) = false;
  po_protocol : is_protocol (pp_Protocol p) = true;
  po_store : is_ok (NewOpenDHTPlugin (store_config (pp_OpenDHT p))) = true
}.

Lemma routes_ok_spec l : forall seen, routes_ok seen l = true ->
  exists rs, Forall2 (fun s r => ServiceRoute s = Ok r) l rs /\ NoDup (map Prefix_String rs) /\
             forall s, s ∈ seen -> ~ In s (map Prefix_String rs).
Proof.
  induction l as [|s l IH]; intros seen; cbn [routes_ok].
  { intros _. exists []. split_and!; [constructor|constructor|by intros ? _ []]. }
  destruct (ServiceRoute s) as [r|] eqn:E; [|done]. destruct (bool_decide (Prefix_String r ∈ seen)) eqn:Es; [done|].
  apply bool_decide_eq_false in Es. intros (rs & H1 & H2 & H3)%IH. exists (r :: rs). split_and!.
  - by constructor.
  - cbn. apply list.NoDup_cons. split; [|done]. rewrite list_elem_of_In. apply H3. set_solver.
  - intros x Hx [<-|Hin]; [done|]. eapply H3; [|exact Hin]. set_solver.
Qed.

Lemma Validate_ok p : Proposal_Validate p = Ok tt -> proposal_ok p.
Proof.
  unfold Proposal_Validate.
  destruct (negb ((pp_Schema p <>s Enroll_Schema) || _ || _ || _ || _)) eqn:E1; [|done].
  destruct (is_ok (PublicKey _)) eqn:E2; [|done].
  destruct ((pp_PresharedKey p =s "") || _) eqn:E3; [|done].
  destruct (match ValidPrefix _ with Ok _ => _ | Err _ => _ end) eqn:E4; [|done].
  destruct (negb ((_ <? 1) || _ || _ || _)) eqn:E5; [|done].
  destruct (routes_ok [] _) eqn:E6; [|done]. destruct (forallb _ (pp_STUN p)) eqn:E7; [|done].
  destruct ((pp_Endpoint p =s "") || _) eqn:E8; [|done]. destruct (is_protocol _) eqn:E9; [|done].
  destruct (is_ok (NewOpenDHTPlugin _)) eqn:E10; [|done]. intros _.
  apply negb_true_iff in E1, E5. repeat match goal with Hx : _ || _ = false |- _ => apply orb_false_iff in Hx as [? ?] end.
  rewrite ?Z.ltb_ge in *. apply routes_ok_spec in E6 as (rs & Hrs & Hnd & _).
  constructor.
  - split; [by apply String.eqb_eq, negb_false_iff|by apply negb_false_iff].
  - split; [lia|assumption].
  - exact E2.
  - clear E2. apply orb_true_iff in E3 as [E3%String.eqb_eq|E3]; [left; exact E3|right].
    destruct (Validation.Key (pp_PresharedKey p)) as [k|]; [|discriminate E3]. exists k. split; [reflexivity|].
    apply negb_true_iff. exact E3.
  - clear E2. destruct (ValidPrefix (pp_Address p)) as [a|]; [|discriminate E4]. exists a. split; [reflexivity|].
    apply Z.eqb_eq. exact E4.
  - split; [lia|]. exists rs. split; assumption.
  - split; [lia|]. apply List.Forall_forall, forallb_forall. exact E7.
  - clear E2. apply orb_true_iff in E8 as [E8%String.eqb_eq|E8]; [left; exact E8|right].
    destruct (Endpoint (pp_Endpoint p)) as [k|]; [|discriminate E8]. exists k. split; [reflexivity|].
    apply negb_true_iff. exact E8.
  - exact E9.
  - exact E10.
Qed.

(** What a phone accepts is a complete, narrow enrollment: a version 4
    identifier, sound keys, a single host address, distinct service routes
    within the limit, a numeric endpoint that is not the phone itself, and
    stores and servers that can be used. *)
Theorem Proposal_Decode_sound b p : Proposal_Decode b = Ok p -> proposal_ok p.
Proof.
  unfold Proposal_Decode. destruct (Enroll_MaxBytes <? slen b); [done|].
  destruct (DecodeJSON _ b) as [q|]; [|done]. destruct (document_keys b) as [fields|]; [|done].
  destruct (forallb _ fields); [|done]. destruct (negb (_ && _)); [|done].
  destruct (Proposal_Validate q) as [[]|] eqn:E; [|done]. intros <-%Ok_inj. by apply Validate_ok.
Qed.

(** ** Printing and reading a proposal *)

(** Every text of the proposal is printable ASCII without HTML's specials. *)
Definition texts_ok (p : Proposal) : Prop :=
  Forall (fun s => sforall quotable s = true)
    ([pp_Schema p; pp_ID p; pp_Name p; pp_Address p; pp_ServerPublicKey p; pp_Endpoint p; pp_Protocol p; pp_PresharedKey p]
       ++ pp_AllowedIPs p ++ pp_STUN p ++ pp_OpenDHT p).

Lemma printable_strs l : Forall (fun s => sforall quotable s = true) l -> printable (JStrs l).
Proof.
  intros Hl. apply pr_arr. induction Hl as [|s l Hs _ IH]; constructor; [by apply pr_str|exact IH].
Qed.
Lemma printable_proposal p : texts_ok p -> printable (proposal_json p).
Proof.
  unfold texts_ok. rewrite !Forall_app. intros (Hs & Hips & Hstun & Hdht).
  repeat (apply Forall_cons_iff in Hs as [? Hs]). apply pr_obj. unfold omitempty.
  destruct (pp_Endpoint p =s ""), (pp_PresharedKey p =s ""); cbn [app];
    repeat (constructor; [split; [done|by apply pr_str || by apply printable_strs]|]); constructor.
Qed.
Lemma check_strs d l : d <= 16 -> d + 1 <= 16 -> check d (JStrs l) = Ok tt.
Proof.
  intros H1 H2. unfold JStrs. rewrite check_arr. destruct (Z.ltb_spec 16 d); [lia|]. apply elements_ok.
  intros x (s & <- & _)%in_map_iff. cbn. by destruct (Z.ltb_spec 16 (d + 1)); [lia|].
Qed.
Lemma check_proposal p : check 0 (proposal_json p) = Ok tt.
Proof.
  unfold proposal_json. rewrite check_obj. apply members_ok. split_and!.
  - intros k x Hx. assert ((exists s, x = JStr s) \/ exists l, x = JStrs l) as [[s ->]|[l ->]]; [|done|by apply check_strs].
    unfold omitempty in Hx. apply in_app_or in Hx as [Hx|Hx].
    + cbn in Hx. repeat destruct Hx as [Hx|Hx]; try done; injection Hx as <- <-; eauto.
    + destruct (pp_Endpoint p =s ""), (pp_PresharedKey p =s ""); cbn in Hx;
        repeat destruct Hx as [Hx|Hx]; try done; injection Hx as <- <-; eauto.
  - unfold omitempty. destruct (pp_Endpoint p =s ""), (pp_PresharedKey p =s "");
      (apply (bool_decide_unpack _); reflexivity).
  - intros m _. apply not_elem_of_nil.
Qed.
Lemma decode_strs l : decode_strings (JStrs l) = Some l.
Proof. unfold decode_strings, JStrs. cbn. induction l as [|s l IH]; [done|]. cbn. by rewrite IH. Qed.
Lemma decode_proposal p : decode_struct proposal_field (proposal_json p) Proposal0 = Some p.
Proof.
  destruct p as [sc id na ad pk ips st dht ep pr psk]. unfold proposal_json, omitempty. cbn [pp_Schema pp_ID pp_Name pp_Address
    pp_ServerPublicKey pp_AllowedIPs pp_STUN pp_OpenDHT pp_Endpoint pp_Protocol pp_PresharedKey].
  pose proof (decode_strs ips) as H1. pose proof (decode_strs st) as H2. pose proof (decode_strs dht) as H3.
  destruct (String.eqb_spec ep ""), (String.eqb_spec psk ""); subst;
    cbn -[decode_strings JStrs]; rewrite H1; cbn -[decode_strings JStrs]; rewrite H2; cbn -[decode_strings JStrs]; rewrite H3; reflexivity.
Qed.

(** What is encoded reads back, white space after it or not, as long as the
    whole keeps to the limit. *)
Lemma Encode_read_tail p b t : texts_ok p -> Proposal_Encode p = Ok b -> skip_ws t = "" -> slen (b +:+ t) <= Enroll_MaxBytes ->
  Proposal_Decode (b +:+ t) = Ok p.
Proof.
  intros Ht. unfold Proposal_Encode. destruct (Proposal_Validate p) as [[]|] eqn:Ev; [|discriminate].
  cbv zeta. destruct (Enroll_MaxBytes <? _) eqn:El; [discriminate|]. intros <-%Ok_inj Hws Hlim.
  pose proof (parse_json_tail _ t (printable_proposal p Ht) Hws) as Hp.
  unfold Proposal_Decode, document_keys. rewrite (proj2 (Z.ltb_ge _ _) Hlim). unfold DecodeJSON.
  assert (slen (marshal (proposal_json p) +:+ t) <> 0) as Hne.
  { unfold proposal_json. rewrite marshal_obj. unfold slen. rewrite !slength_app. cbn [String.length]. lia. }
  rewrite (proj2 (Z.eqb_neq _ 0) Hne).
  destruct (Z.ltb_spec MaxConfigBytes (slen (marshal (proposal_json p) +:+ t))) as [Hbig|_].
  { unfold MaxConfigBytes, Enroll_MaxBytes in *. lia. }
  cbn [orb]. rewrite Hp, check_proposal, decode_proposal. unfold proposal_json. cbv beta iota.
  assert (forallb (fun name => name =s to_lower name)
    (map fst ([("schema", JStr (pp_Schema p)); ("proposal_id", JStr (pp_ID p)); ("name", JStr (pp_Name p));
         ("address", JStr (pp_Address p)); ("server_public_key", JStr (pp_ServerPublicKey p));
         ("allowed_ips", JStrs (pp_AllowedIPs p)); ("stun_servers", JStrs (pp_STUN p)); ("opendht", JStrs (pp_OpenDHT p))] ++
        omitempty "endpoint" (pp_Endpoint p) ++ [("protocol", JStr (pp_Protocol p))] ++
        omitempty "preshared_key" (pp_PresharedKey p))) = true) as ->.
  { unfold omitempty. destruct (pp_Endpoint p =s ""), (pp_PresharedKey p =s ""); reflexivity. }
  destruct (pp_PresharedKey p =s "") eqn:Epsk; [|rewrite andb_false_r; cbn [negb]; rewrite Ev; reflexivity].
  assert (existsb (fun name => name =s "preshared_key")
    (map fst ([("schema", JStr (pp_Schema p)); ("proposal_id", JStr (pp_ID p)); ("name", JStr (pp_Name p));
         ("address", JStr (pp_Address p)); ("server_public_key", JStr (pp_ServerPublicKey p));
         ("allowed_ips", JStrs (pp_AllowedIPs p)); ("stun_servers", JStrs (pp_STUN p)); ("opendht", JStrs (pp_OpenDHT p))] ++
        omitempty "endpoint" (pp_Endpoint p) ++ [("protocol", JStr (pp_Protocol p))] ++
        omitempty "preshared_key" (pp_PresharedKey p))) = false) as ->.
  { unfold omitempty. rewrite Epsk. destruct (pp_Endpoint p =s ""); reflexivity. }
  cbn [andb negb]. rewrite Ev. reflexivity.
Qed.
Lemma Encode_limit p b : Proposal_Encode p = Ok b -> slen b <= Enroll_MaxBytes.
Proof.
  unfold Proposal_Encode. destruct (Proposal_Validate p); [|discriminate]. cbv zeta.
  destruct (Z.ltb_spec Enroll_MaxBytes (slen (marshal (proposal_json p)))); [discriminate|]. by intros <-%Ok_inj.
Qed.
Lemma Encode_read_back p b : texts_ok p -> Proposal_Encode p = Ok b -> Proposal_Decode b = Ok p.
Proof.
  intros Ht He. rewrite <-(sapp_nil_r b). apply Encode_read_tail; [done..|]. rewrite sapp_nil_r. by eapply Encode_limit.
Qed.

(** An enrollment survives its way into the QR code and out of it: what is
    encoded is decoded to the same proposal, the limit of the code included. *)
Theorem Proposal_roundtrip p b : texts_ok p -> Proposal_Encode p = Ok b -> Proposal_Decode b = Ok p.
Proof. apply Encode_read_back. Qed.

(** A reply is only accepted for the proposal it answers: its identifier and
    exactly its one address, with a sound key that is not the server's own. *)
Theorem CheckReply_sound p b r :
  CheckReply p b = Ok r ->
  proposal_ok p /\ rp_Schema r = Reply_Schema /\ rp_ID r = pp_ID p /\ rp_Addresses r = [pp_Address p] /\
  rp_PublicKey r <> pp_ServerPublicKey p /\ is_ok (PublicKey (rp_PublicKey r)) = true.
Proof.
  unfold CheckReply. destruct (Proposal_Validate p) as [[]|] eqn:Ev; [|discriminate]. destruct (Enroll_MaxBytes <? slen b); [discriminate|].
  destruct (DecodeJSON _ b) as [q|]; [|discriminate].
  destruct ((rp_Schema q <>s Reply_Schema) || _ || _ || _) eqn:E; [discriminate|].
  destruct (PublicKey (rp_PublicKey q)) eqn:Ek; [|discriminate]. intros <-%Ok_inj.
  apply orb_false_iff in E as [[[E1 E2]%orb_false_iff E3]%orb_false_iff E4].
  apply negb_false_iff in E1, E2, E3. apply String.eqb_eq in E1, E2. apply bool_decide_eq_true in E3. apply String.eqb_neq in E4.
  split_and!; [apply Validate_ok; exact Ev|exact E1|exact E2|exact E3|exact E4|rewrite Ek; reflexivity].
Qed.
End proposal.

(** ** The phone's address *)

Definition pool_addr (v n : Z) : Addr := Addr4 (Z.shiftr v 8 * 256 + n).
Lemma pool_bytes v n : 0 <= v < 2 ^ 32 -> AddrFrom4 (take 3 (v4_bytes v) ++ [n]) = pool_addr v n.
Proof.
  intros Hv. unfold AddrFrom4, pool_addr, v4_bytes. f_equal. cbn [val_bytes take app]. unfold bytes_val. cbn [fold_left].
  rewrite !Z.shiftr_div_pow2 by lia. change (8 * Z.of_nat 3) with 24. change (8 * Z.of_nat 2) with 16.
  change (8 * Z.of_nat 1) with 8. Z.to_euclidean_division_equations. lia.
Qed.
Lemma first_free_spec v prefixes count : forall n, 0 <= v < 2 ^ 32 ->
  match first_free (v4_bytes v) prefixes n count with
  | Some a => exists m, n <= m < n + Z.of_nat count /\ a = Addr_String (pool_addr v m) +:+ "/32" /\
      (forall p, In p prefixes -> Contains p (pool_addr v m) = false) /\
      forall k, n <= k < m -> exists p, In p prefixes /\ Contains p (pool_addr v k) = true
  | None => forall k, n <= k < n + Z.of_nat count -> exists p, In p prefixes /\ Contains p (pool_addr v k) = true
  end.
Proof.
  induction count as [|count IH]; intros n Hv; cbn [first_free]; [intros k Hk; lia|].
  rewrite pool_bytes by done. cbv zeta. destruct (existsb _ prefixes) eqn:E.
  - apply existsb_exists in E as (p & Hp & Hc). specialize (IH (n + 1) Hv).
    destruct (first_free _ _ _ _) as [a|].
    + destruct IH as (m & Hm & -> & Hfree & Hall). exists m. split_and!; [lia|lia|done|done|].
      intros k Hk. destruct (decide (k = n)) as [->|]; [by exists p|]. apply Hall. lia.
    + intros k Hk. destruct (decide (k = n)) as [->|]; [by exists p|]. apply IH. lia.
  - exists n. split_and!; [lia|lia|done| |intros k Hk; lia]. intros p Hp.
    destruct (Contains p (pool_addr v n)) eqn:Ec; [|done]. exfalso.
    assert (existsb (fun p => Contains p (pool_addr v n)) prefixes = true) as Ht by (apply existsb_exists; by exists p).
    congruence.
Qed.

(** The address a phone gets is the first of its server's /24 that is free: a
    host address in the same /24 as the server's private route, neither the
    network, the gateway nor the broadcast number, outside every live, routed or
    reserved prefix; allocation fails only when every candidate is taken. *)
Theorem phoneAddress_spec serverRoute used v prefixes :
  ParsePrefix serverRoute = Some (mkPrefix (Addr4 v) 32) -> IsPrivate (Addr4 v) = true ->
  parse_prefixes used = Some prefixes ->
  match phoneAddress serverRoute used with
  | Ok a => exists n, 2 <= n <= 254 /\ a = Addr_String (pool_addr v n) +:+ "/32" /\
      (forall p, In p prefixes -> Contains p (pool_addr v n) = false) /\
      forall k, 2 <= k < n -> exists p, In p prefixes /\ Contains p (pool_addr v k) = true
  | Err _ => forall k, 2 <= k <= 254 -> exists p, In p prefixes /\ Contains p (pool_addr v k) = true
  end.
Proof.
  intros Hp Hpriv Hu. unfold phoneAddress. rewrite Hp. cbn [pf_addr pf_bits]. rewrite Hpriv, Hu. cbn [negb orb Z.eqb Pos.eqb].
  apply ParsePrefix_wf in Hp as (Hwf & _). cbn in Hwf.
  pose proof (first_free_spec v prefixes 253 2 Hwf) as Hf.
  destruct (first_free _ _ _ _) as [a|].
  - destruct Hf as (n & Hn & -> & Hfree & Hall). exists n. split_and!; [lia|lia|done|done|done].
  - intros k Hk. apply Hf. lia.
Qed.

(** ** Issuing an enrollment *)

Section issue.
Context `{tables : UnicodeTables} `{urls : UrlLib}.

Lemma issue_ok a env p data : issue a env = Ok (p, data) ->
  Proposal_Encode p = Ok data /\ pp_Name p = ea_Name a /\ pp_ID p = NewID (ee_random env) /\
  exists server, ee_server env = Ok server /\ pp_ServerPublicKey p = sp_PublicKey server /\
    phoneAddress (nth 0 (pp_AllowedIPs p) "")
      (sp_PeerAddresses server ++ pp_AllowedIPs p ++ (if ea_Reserved a =s "" then [] else split_on "," (ea_Reserved a))) =
    Ok (pp_Address p).
Proof.
  unfold issue. destruct (negb (ea_Extra a || _ || _ || _ || _)); [|discriminate].
  destruct (ee_dir_private env); [|discriminate]. destruct (ee_dir_empty env); [|discriminate].
  destruct (ee_server env) as [server|] eqn:Es; [|discriminate]. cbv beta iota zeta delta [map_err].
  destruct (phoneAddress _ _) as [address|] eqn:Ea; [|discriminate].
  destruct (Proposal_Validate _) as [[]|]; [|discriminate]. destruct (ee_psk env) as [psk|]; [|discriminate].
  destruct (Proposal_Encode (with_psk _ _)) as [d|] eqn:Ee; [|discriminate]. intros E.
  apply Ok_inj, pair_equal_spec in E as [<- <-].
  split_and!; [exact Ee|reflexivity..|]. exists server. split_and!; [reflexivity..|exact Ea].
Qed.

End issue.

(** ** Witnesses *)

Lemma NewID_is_uuid_witness : uuid (NewID (replicate 16 200)) = true.
Proof.
  apply NewID_is_uuid; [reflexivity|]. apply Forall_replicate. unfold is_byte. lia.
Defined.
#[local] Instance e_tables : UnicodeTables := {| lower_rune := fun r => r |}.
#[local] Instance e_urls : UrlLib :=
  {| url_Parse := fun s => if s =s "https://d" then Some (mkURL "https" "d" false "" "" "" "") else None;
     URL_String := fun u => Scheme u +:+ "://" +:+ Host u +:+ Path u |}.
Definition w_proposal : Proposal :=
  mkProposal Enroll_Schema (NewID (replicate 16 200)) "Server" "10.77.0.2/32" (b64_encode base_key)
    ["10.77.0.1/32"] ["stun.example.com:3478"] ["https://d"] "203.0.113.7:51820" "ipv4" (b64_encode (replicate 32 7)).
Definition w_encoded : string := marshal (proposal_json w_proposal).
(** Validation with the server key's ladder already evaluated. *)
Ltac validate_key lemma := unfold Proposal_Validate; eval_head; cbn [pp_ServerPublicKey]; rewrite lemma; vm_compute; reflexivity.
Lemma w_proposal_valid : Proposal_Validate w_proposal = Ok tt.
Proof. unfold w_proposal. validate_key PublicKey_base. Qed.
Example w_proposal_encodes : Proposal_Encode w_proposal = Ok w_encoded.
Proof. unfold Proposal_Encode. rewrite w_proposal_valid. vm_compute. reflexivity. Qed.
Lemma w_texts_ok : texts_ok w_proposal.
Proof. apply (List.Forall_forall (fun s => sforall quotable s = true)), forallb_forall. vm_compute. reflexivity. Qed.
Lemma Proposal_roundtrip_witness : Proposal_Decode w_encoded = Ok w_proposal.
Proof. apply (Proposal_roundtrip w_proposal w_encoded w_texts_ok w_proposal_encodes). Defined.
Lemma Proposal_Decode_sound_witness : proposal_ok w_proposal.
Proof.
  apply (Proposal_Decode_sound w_encoded). exact (Encode_read_back w_proposal w_encoded w_texts_ok w_proposal_encodes).
Defined.
Definition w_enroll_reply : Reply := mkReply Reply_Schema (pp_ID w_proposal) (b64_encode masked_key) ["10.77.0.2/32"].
Definition w_reply_text : string :=
  marshal (JObj [("schema", JStr Reply_Schema); ("proposal_id", JStr (pp_ID w_proposal));
                 ("public_key", JStr (b64_encode masked_key)); ("addresses", JStrs ["10.77.0.2/32"])]).
Example w_reply_checks : CheckReply w_proposal w_reply_text = Ok w_enroll_reply.
Proof.
  unfold CheckReply. rewrite w_proposal_valid. do 2 eval_head.
  match goal with |- context [rp_Schema ?c] => change c with w_enroll_reply end. eval_head.
  cbn [w_enroll_reply rp_PublicKey]. rewrite PublicKey_masked. reflexivity.
Qed.
Lemma CheckReply_sound_witness :
  proposal_ok w_proposal /\ rp_Schema w_enroll_reply = Reply_Schema /\ rp_ID w_enroll_reply = pp_ID w_proposal /\
  rp_Addresses w_enroll_reply = [pp_Address w_proposal] /\ rp_PublicKey w_enroll_reply <> pp_ServerPublicKey w_proposal /\
  is_ok (PublicKey (rp_PublicKey w_enroll_reply)) = true.
Proof. exact (CheckReply_sound w_proposal w_reply_text w_enroll_reply w_reply_checks). Defined.
Definition w_reserved : list Prefix :=
  [mkPrefix (Addr4 (10 * 2 ^ 24 + 42 * 2 ^ 16)) 28; mkPrefix (Addr4 (10 * 2 ^ 24 + 42 * 2 ^ 16 + 16)) 30;
   mkPrefix (Addr4 (10 * 2 ^ 24 + 42 * 2 ^ 16 + 20)) 32].
Definition w_server_addr : Z := 10 * 2 ^ 24 + 42 * 2 ^ 16 + 1.
Lemma phoneAddress_spec_witness :
  match phoneAddress "10.42.0.1/32" ["10.42.0.0/28"; "10.42.0.16/30"; "10.42.0.20/32"] with
  | Ok a => exists n, 2 <= n <= 254 /\ a = Addr_String (pool_addr w_server_addr n) +:+ "/32" /\
      (forall p, In p w_reserved -> Contains p (pool_addr w_server_addr n) = false) /\
      forall k, 2 <= k < n -> exists p, In p w_reserved /\ Contains p (pool_addr w_server_addr k) = true
  | Err _ => forall k, 2 <= k <= 254 -> exists p, In p w_reserved /\ Contains p (pool_addr w_server_addr k) = true
  end.
Proof. apply (phoneAddress_spec "10.42.0.1/32"); vm_compute; reflexivity. Defined.
Example phoneAddress_known :
  phoneAddress "10.42.0.1/32" ["10.42.0.0/28"; "10.42.0.16/30"; "10.42.0.20/32"] = Ok "10.42.0.21/32".
Proof. vm_compute. reflexivity. Qed.
Definition w_enroll_env : EnrollEnv :=
  mkEnrollEnv true true
    (Ok (mkServerPublic (b64_encode base_key) ["stun.example.com:3478"] ["https://d"] ["10.77.0.2/32"]))
    (replicate 16 200) (Ok (b64_encode (replicate 32 7))) true true true true.
Definition w_enroll_args : EnrollArgs := mkEnrollArgs "/config" "/out" "Server" "203.0.113.7:51820" "10.77.0.1/32" "" false.
Definition w_issued : Proposal :=
  mkProposal Enroll_Schema (NewID (replicate 16 200)) "Server" "10.77.0.3/32" (b64_encode base_key)
    ["10.77.0.1/32"] ["stun.example.com:3478"] ["https://d"] "203.0.113.7:51820" "ipv4" "".
Lemma w_issued_valid : Proposal_Validate w_issued = Ok tt.
Proof. unfold w_issued. validate_key PublicKey_base. Qed.
Lemma w_issued_psk_valid : Proposal_Validate (with_psk w_issued (b64_encode (replicate 32 7))) = Ok tt.
Proof. unfold w_issued, with_psk. validate_key PublicKey_base. Qed.
Lemma w_issue : issue w_enroll_args w_enroll_env =
  Ok (with_psk w_issued (b64_encode (replicate 32 7)), marshal (proposal_json (with_psk w_issued (b64_encode (replicate 32 7))))).
Proof.
  unfold issue. do 4 eval_head. cbv zeta. eval_head.
  match goal with |- context [Proposal_Validate ?c] => change c with w_issued end. rewrite w_issued_valid. eval_head.
  match goal with |- context [with_psk ?c ?k] => change (with_psk c k) with (with_psk w_issued (b64_encode (replicate 32 7))) end.
  unfold Proposal_Encode. rewrite w_issued_psk_valid. vm_compute. reflexivity.
Qed.
