(* ===== verification/StrSearch.v ===== *)
(** * strings.Index, Count, Contains and TrimRight

    Searching a text for a substring and cutting it at the place, with the lemmas
    for texts put together from whole lines: a search for a text that ends its
    line finds the same places in the parts. *)

From S2P Require Import Prelude GoStr.

Definition newline_char : ascii := zb 10.
Definition nl_text : string := String newline_char "".

(** The first place; Go's -1 is [None]. *)
Fixpoint Index (s sub : string) : option nat :=
  if String.prefix sub s then Some O
  else match s with "" => None | String _ s' => option_map S (Index s' sub) end.
Definition str_contains (s sub : string) : bool := match Index s sub with Some _ => true | None => false end.
(** Non-overlapping occurrences of a non-empty [sub]; [skip] bytes of a match
    remain to be passed. *)
Fixpoint count_from (skip : nat) (s sub : string) : nat :=
  match s with
  | "" => O
  | String _ s' =>
      match skip with
      | S k => count_from k s' sub
      | O => if String.prefix sub s then S (count_from (String.length sub - 1) s' sub) else count_from O s' sub
      end
  end.
Definition Count (s sub : string) : nat := count_from O s sub.
(** s[:n] and s[n:] *)
Fixpoint str_take (n : nat) (s : string) : string :=
  match n, s with S n', String c s' => String c (str_take n' s') | _, _ => "" end.
Fixpoint str_drop (n : nat) (s : string) : string :=
  match n, s with S n', String _ s' => str_drop n' s' | _, _ => s end.
(** [strings.TrimRight] with a one-byte cutset. *)
Fixpoint trim_right (c : ascii) (s : string) : string :=
  match s with
  | "" => ""
  | String a s' => match trim_right c s' with "" => if Ascii.eqb a c then "" else String a "" | t => String a t end
  end.

(** ** Places *)

Lemma str_take_app a t : str_take (String.length a) (a +:+ t) = a.
Proof. induction a as [|c a IH]; [by destruct t|]. cbn. by rewrite IH. Qed.
Lemma str_drop_app a t : str_drop (String.length a) (a +:+ t) = t.
Proof. induction a as [|c a IH]; [by destruct t|]. done. Qed.
Lemma str_drop_drop n k s : str_drop n (str_drop k s) = str_drop (k + n) s.
Proof. revert s. induction k as [|k IH]; intros [|c s]; [done..|by destruct n|]. apply IH. Qed.
Lemma str_drop_all s : str_drop (String.length s) s = "".
Proof. by induction s. Qed.

Lemma prefix_self a t : String.prefix a (a +:+ t) = true.
Proof. induction a as [|c a IH]; [by destruct t|]. cbn. by destruct (ascii_dec c c). Qed.
Lemma prefix_iff a s : String.prefix a s = true <-> exists t, s = a +:+ t.
Proof.
  split; [|by intros [t ->]; apply prefix_self].
  revert s. induction a as [|c a IH]; intros s; [by exists s|].
  destruct s as [|d s]; [done|]. cbn. destruct (ascii_dec c d) as [->|]; [|done].
  intros (t & ->)%IH. by exists t.
Qed.

Lemma Index_app_found a m t : str_contains (a +:+ m +:+ t) m = true.
Proof.
  unfold str_contains. induction a as [|c a IH]; cbn [String.append].
  - destruct (m +:+ t) as [|c s] eqn:E; cbn [Index]; rewrite <-E, prefix_self; done.
  - cbn [Index]. destruct (String.prefix m _); [done|]. by destruct (Index (a +:+ m +:+ t) m).
Qed.
Lemma contains_iff s m : str_contains s m = true <-> exists a t, s = a +:+ m +:+ t.
Proof.
  split; [|by intros (a & t & ->); apply Index_app_found].
  unfold str_contains. induction s as [|c s IH].
  - cbn. destruct m; [|done]. intros _. by exists "", "".
  - cbn [Index]. destruct (String.prefix m (String c s)) eqn:E.
    + intros _. apply prefix_iff in E as [t ->]. by exists "", t.
    + destruct (Index s m); [|done]. intros _. destruct (IH eq_refl) as (a & t & ->). by exists (String c a), t.
Qed.

(** ** Whole lines *)

Fixpoint line_ended (s : string) : bool :=
  match s with "" => true | String c "" => Ascii.eqb c newline_char | String _ s' => line_ended s' end.
Lemma line_ended_tail c s : s <> "" -> line_ended (String c s) = line_ended s.
Proof. by destruct s. Qed.
Lemma line_ended_nl a : line_ended (a +:+ nl_text) = true.
Proof. induction a as [|c a IH]; [done|]. cbn [String.append]. rewrite line_ended_tail; [done|by destruct a]. Qed.
Lemma line_ended_app a b : line_ended a = true -> line_ended b = true -> line_ended (a +:+ b) = true.
Proof.
  induction a as [|c a IH]; [done|]. intros Ha Hb. cbn [String.append]. destruct a as [|d a].
  - destruct b; [done|exact Hb].
  - rewrite line_ended_tail; [|done]. apply IH; [|done]. by rewrite line_ended_tail in Ha.
Qed.

Section mark.
(** A mark: a text without newlines, and its newline. *)
Variables (w : string) (Hw : smem newline_char w = false).
Let m := w +:+ nl_text.

Lemma mark_nonempty : m <> "".
Proof. unfold m. by destruct w. Qed.
Lemma mark_no_straddle a t : line_ended a = true -> a <> "" -> String.prefix m (a +:+ t) = String.prefix m a.
Proof.
  unfold m. clear m. revert a. induction w as [|x w' IH]; intros [|c a] Ha Hne; try done.
  - change (String.append "" nl_text) with (String newline_char ""). cbn [String.append String.prefix]. destruct (ascii_dec newline_char c); [|done]. by destruct (a +:+ t), a.
  - cbn [smem] in Hw. apply orb_false_iff in Hw as [Hx Hw']. cbn [String.append String.prefix].
    destruct (ascii_dec x c) as [->|]; [|done]. destruct a as [|d a].
    + cbn [line_ended] in Ha. congruence.
    + rewrite line_ended_tail in Ha by done. by apply IH.
Qed.
Lemma Index_lines a t : line_ended a = true ->
  Index (a +:+ t) m = match Index a m with Some k => Some k | None => option_map (Nat.add (String.length a)) (Index t m) end.
Proof.
  induction a as [|c a IH]; intros Ha.
  - cbn [String.append String.length Nat.add Index]. assert (String.prefix m "" = false) as -> by (unfold m; by destruct w).
    destruct (Index t m); done.
  - pose proof (mark_no_straddle (String c a) t Ha ltac:(done)) as E. cbn [String.append Index] in *. rewrite E.
    destruct (String.prefix m (String c a)); [done|]. rewrite IH.
    + destruct (Index a m); [done|]. by destruct (Index t m).
    + destruct a; [done|]. by rewrite line_ended_tail in Ha.
Qed.
Lemma count_lines a t : line_ended a = true -> forall k, (k <= String.length a)%nat ->
  count_from k (a +:+ t) m = (count_from k a m + Count t m)%nat.
Proof.
  induction a as [|c a IH]; intros Ha k Hk.
  - cbn in Hk. assert (k = 0)%nat as -> by lia. done.
  - assert (line_ended a = true) as Ha'. { destruct a; [done|]. by rewrite line_ended_tail in Ha. }
    cbn [String.append count_from]. destruct k as [|k]; [|apply IH; [done|cbn in Hk; lia]].
    pose proof (mark_no_straddle (String c a) t Ha ltac:(done)) as E. cbn [String.append] in E. rewrite E.
    destruct (String.prefix m (String c a)) eqn:Ep; [|apply IH; [done|lia]].
    rewrite IH; [done..|]. apply prefix_iff in Ep as [u Eu]. apply (f_equal String.length) in Eu.
    rewrite slength_app in Eu. cbn in Eu. lia.
Qed.
Lemma Count_lines a t : line_ended a = true -> Count (a +:+ t) m = (Count a m + Count t m)%nat.
Proof. intros Ha. apply count_lines; [done|lia]. Qed.
Lemma Count_absent a : Index a m = None -> Count a m = 0%nat.
Proof.
  unfold Count. induction a as [|c a IH]; [done|]. cbn [Index count_from].
  destruct (String.prefix m (String c a)); [done|]. intros H. apply IH. by destruct (Index a m).
Qed.
(** The mark itself. *)
Lemma Index_mark t : Index (m +:+ t) m = Some O.
Proof. destruct (m +:+ t) as [|c s] eqn:E; cbn [Index]; by rewrite <-E, prefix_self. Qed.
Lemma Index_after a t : line_ended a = true -> Index a m = None -> Index (a +:+ m +:+ t) m = Some (String.length a).
Proof. intros Ha Hn. rewrite Index_lines, Hn, Index_mark by done. cbn. f_equal. lia. Qed.
End mark.

(** A text whose first byte never occurs is not found. *)
Lemma Index_first_absent c m s : smem c s = false -> Index s (String c m) = None.
Proof.
  induction s as [|d s IH]; [done|]. cbn [smem Index String.prefix]. intros [Hd Hs]%orb_false_iff.
  destruct (ascii_dec c d) as [->|]; [by rewrite Ascii.eqb_refl in Hd|]. by rewrite IH.
Qed.

(** ** Trailing newlines *)

Lemma trim_right_tail a : exists n, a = trim_right newline_char a +:+ Nat.iter n (String newline_char) "".
Proof.
  induction a as [|c a [n IH]]; [by exists O|]. cbn [trim_right].
  destruct (trim_right newline_char a) as [|d s] eqn:E.
  - destruct (Ascii.eqb_spec c newline_char) as [->|].
    + exists (S n). exact (f_equal (String _) IH).
    + exists n. exact (f_equal (String _) IH).
  - exists n. exact (f_equal (String c) IH).
Qed.
Lemma trim_right_idem a : trim_right newline_char (trim_right newline_char a) = trim_right newline_char a.
Proof.
  induction a as [|c a IH]; [done|]. cbn [trim_right].
  destruct (trim_right newline_char a) as [|d s] eqn:E.
  - destruct (Ascii.eqb_spec c newline_char); [done|]. cbn [trim_right]. by destruct (Ascii.eqb_spec c newline_char).
  - cbn [trim_right] in *. by rewrite IH.
Qed.
Lemma trim_right_nl a : trim_right newline_char (a +:+ nl_text) = trim_right newline_char a.
Proof.
  induction a as [|c a IH]; [done|]. cbn [String.append trim_right]. by rewrite IH.
Qed.

(** What is left after trimming is whole lines only when it is nothing. *)
Lemma trim_right_ended a : line_ended (trim_right newline_char a) = true -> trim_right newline_char a = "".
Proof.
  induction a as [|c a IH]; [done|]. cbn [trim_right]. destruct (trim_right newline_char a) as [|d s] eqn:E.
  - destruct (Ascii.eqb_spec c newline_char); [done|]. cbn [line_ended]. by destruct (Ascii.eqb_spec c newline_char).
  - intros H. rewrite line_ended_tail in H by done. discriminate (IH H).
Qed.
Definition newlines (n : nat) : string := Nat.iter n (String newline_char) "".
Lemma nl_absent w : w <> "" -> Index nl_text (w +:+ nl_text) = None.
Proof.
  destruct w as [|c w]; [done|]. intros _. cbn [String.append Index nl_text String.prefix].
  destruct (ascii_dec c newline_char); [|done]. by destruct w.
Qed.
(** Trimming and ending with newlines introduces no mark into whole lines. *)
Lemma Index_trim w s n : smem newline_char w = false -> w <> "" -> line_ended s = true -> Index s (w +:+ nl_text) = None ->
  Index (trim_right newline_char s +:+ newlines n) (w +:+ nl_text) = None.
Proof.
  intros Hw Hne Hs Hn. set (m := w +:+ nl_text) in *.
  assert (forall k, Index (newlines k) m = None) as Hnls.
  { intros k. induction k as [|k IH]; [unfold m; by destruct w|]. change (newlines (S k)) with (nl_text +:+ newlines k).
    unfold m. rewrite (Index_lines w Hw) by done. rewrite nl_absent by done. fold m. by rewrite IH. }
  assert (Index (trim_right newline_char s +:+ nl_text) m = None) as Ht.
  { destruct (trim_right_tail s) as [k Ek]. destruct k as [|k].
    - cbn [Nat.iter] in Ek. rewrite sapp_nil_r in Ek. rewrite trim_right_ended by (by rewrite <-Ek). by apply nl_absent.
    - cbn [Nat.iter nat_rect] in Ek. change (String newline_char ?x) with (nl_text +:+ x) in Ek. rewrite <-sapp_assoc in Ek.
      rewrite Ek in Hn. unfold m in Hn. rewrite (Index_lines w Hw) in Hn by apply line_ended_nl. fold m in Hn.
      by destruct (Index (trim_right newline_char s +:+ nl_text) m). }
  destruct n as [|n].
  - cbn. rewrite sapp_nil_r. destruct (Index (trim_right newline_char s) m) eqn:E; [|done]. exfalso.
    assert (str_contains (trim_right newline_char s) m = true) as Hc by (unfold str_contains; by rewrite E).
    apply contains_iff in Hc as (a & u & Ec). assert (str_contains (trim_right newline_char s +:+ nl_text) m = true) as Hc.
    { apply contains_iff. exists a, (u +:+ nl_text). by rewrite Ec, !sapp_assoc. }
    unfold str_contains in Hc. by rewrite Ht in Hc.
  - change (newlines (S n)) with (nl_text +:+ newlines n). rewrite <-sapp_assoc. unfold m.
    rewrite (Index_lines w Hw) by apply line_ended_nl. fold m. by rewrite Ht, Hnls.
Qed.
(** A text without a newline is found before the last newline or not at all. *)
Lemma prefix_before_nl w s : smem newline_char w = false -> String.prefix w (s +:+ nl_text) = String.prefix w s.
Proof.
  revert s. induction w as [|x w IH]; intros s Hw; [by destruct s|]. cbn [smem] in Hw. apply orb_false_iff in Hw as [Hx Hw].
  destruct s as [|c s]; cbn [String.append String.prefix].
  - unfold nl_text. cbn [String.prefix]. destruct (ascii_dec x newline_char) as [->|]; [|done]. by rewrite Ascii.eqb_refl in Hx.
  - destruct (ascii_dec x c); [by apply IH|done].
Qed.
Lemma Index_before_nl s w : smem newline_char w = false -> w <> "" -> Index (s +:+ nl_text) w = Index s w.
Proof.
  intros Hw Hne. induction s as [|c s IH].
  - pose proof (prefix_before_nl w "" Hw) as E. cbn [String.append] in *. unfold nl_text at 1. cbn [Index].
    fold nl_text. rewrite E. by destruct w.
  - pose proof (prefix_before_nl w (String c s) Hw) as E. cbn [String.append Index] in *. rewrite E.
    destruct (String.prefix w (String c s)); [done|]. by rewrite IH.
Qed.
Lemma contains_before_nls s w n : smem newline_char w = false -> w <> "" -> str_contains (s +:+ newlines n) w = str_contains s w.
Proof.
  intros Hw Hne. revert s. induction n as [|n IH]; intros s; [by rewrite sapp_nil_r|].
  change (newlines (S n)) with (nl_text +:+ newlines n). rewrite <-sapp_assoc, IH.
  unfold str_contains. by rewrite Index_before_nl.
Qed.
Lemma contains_trim s w : smem newline_char w = false -> w <> "" ->
  str_contains (trim_right newline_char s) w = str_contains s w.
Proof.
  intros Hw Hne. destruct (trim_right_tail s) as [n E]. rewrite E at 2. by rewrite (contains_before_nls _ w n).
Qed.
