(* ===== verification/LinuxProfile.v ===== *)
(** * internal/linuxprofile: the enrolment profile of a Linux client

    profile.go: the profile document, its strict decoding and validation, the
    native WireGuard text and the discovery document it renders, and the files
    it is kept in.  runtime.go: the commands that set the interface up and take
    it down.  Commands, files and the application are the environment's: each
    answer may depend on everything done before it. *)

From S2P Require Import Prelude GoStr Codec Netip NetipFacts Json JsonFacts Validation Discovery TextFacts Plugin JsonDecode Provision.

(** ** profile.go *)

Definition Linux_Schema : string := "stunmesh-linux-v1".
Definition Linux_MaxBytes : Z := 16384.
Definition Linux_Interface : string := "wg0".
Definition ListenPort : Z := 51832.
Definition ProxyPort : Z := 51834.

(** ^[a-z][a-z0-9-]{0,31}$ *)
Definition is_lower (c : ascii) : bool := (97 <=? bz c) && (bz c <=? 122).
Definition label_char (c : ascii) : bool := is_lower c || is_digit c || Ascii.eqb c "-".
Definition label (s : string) : bool :=
  match s with "" => false | String c s' => is_lower c && sforall label_char s' && (slen s' <=? 31) end.
(** ^label(\.label)*$ *)
Definition hostname (s : string) : bool := forallb label (split_on "." s).

Record Profile := mkProfile {
  lp_Schema : string; lp_Name : string; lp_PrivateKey : string; lp_PresharedKey : string;
  lp_ServerPublicKey : string; lp_Address : string; lp_AllowedIPs : list string; lp_Endpoint : string;
  lp_STUN : list string; lp_OpenDHT : list string;
  lp_Hostnames : gmap string string; lp_LANHostnames : gmap string string
}.
Definition Profile0 : Profile := mkProfile "" "" "" "" "" "" [] "" [] [] ∅ ∅.

(** [wgtypes]: parsing a key's text and the X25519 public key of a private one. *)
Class WgTypes := { wgtypes_ParseKey : string -> option (list Z); wgtypes_PublicKey : list Z -> list Z }.
(** What is documented of them: a key's canonical text parses to the key, and a
    public key has 32 bytes. *)
Class WgTypesLaws (wgt : WgTypes) := {
  ParseKey_Key text k : Validation.Key text = Ok k -> wgtypes_ParseKey text = Some k;
  PublicKey_bytes k : length k = 32%nat -> length (wgtypes_PublicKey k) = 32%nat /\ bytes_ok (wgtypes_PublicKey k)
}.
(** [go.yaml.in/yaml/v3]. *)
Class YamlLib := { yaml_Marshal : any -> result string; yaml_Unmarshal_any : string -> option (list (string * any)) }.

Section profile.
Context `{UnicodeTables} `{UrlLib} `{wgt : WgTypes}.

(** A map of strings, decoded in place. *)
Definition decode_string_map (v : json) (old : gmap string string) : option (gmap string string) :=
  match v with
  | JObj l => fold_left (fun acc m => match acc, decode_string m.2 "" with
                                      | Some acc, Some a => Some (<[m.1 := a]> acc)
                                      | _, _ => None
                                      end) l (Some old)
  | JNull => Some ∅
  | _ => None
  end.
Definition profile_field (p : Profile) (m : string * json) : option Profile :=
  let '(k, v) := m in
  let '(mkProfile sc na pr ps sp ad ips ep st dht hn lan) := p in
  if field_match "schema" k then option_map (fun x => mkProfile x na pr ps sp ad ips ep st dht hn lan) (decode_string v sc)
  else if field_match "name" k then option_map (fun x => mkProfile sc x pr ps sp ad ips ep st dht hn lan) (decode_string v na)
  else if field_match "private_key" k then option_map (fun x => mkProfile sc na x ps sp ad ips ep st dht hn lan) (decode_string v pr)
  else if field_match "preshared_key" k then option_map (fun x => mkProfile sc na pr x sp ad ips ep st dht hn lan) (decode_string v ps)
  else if field_match "server_public_key" k then option_map (fun x => mkProfile sc na pr ps x ad ips ep st dht hn lan) (decode_string v sp)
  else if field_match "address" k then option_map (fun x => mkProfile sc na pr ps sp x ips ep st dht hn lan) (decode_string v ad)
  else if field_match "allowed_ips" k then option_map (fun x => mkProfile sc na pr ps sp ad x ep st dht hn lan) (decode_strings v)
  else if field_match "endpoint" k then option_map (fun x => mkProfile sc na pr ps sp ad ips x st dht hn lan) (decode_string v ep)
  else if field_match "stun_servers" k then option_map (fun x => mkProfile sc na pr ps sp ad ips ep x dht hn lan) (decode_strings v)
  else if field_match "opendht" k then option_map (fun x => mkProfile sc na pr ps sp ad ips ep st x hn lan) (decode_strings v)
  else if field_match "hostnames" k then option_map (fun x => mkProfile sc na pr ps sp ad ips ep st dht x lan) (decode_string_map v hn)
  else if field_match "lan_hostnames" k then option_map (fun x => mkProfile sc na pr ps sp ad ips ep st dht hn x) (decode_string_map v lan)
  else None.

Definition Profile_PublicKey (p : Profile) : string :=
  b64_encode (wgtypes_PublicKey (default (replicate 32 0) (wgtypes_ParseKey (lp_PrivateKey p)))).

Definition validName (s : string) : bool :=
  (slen s <=? 128) && hostname s && (s <>s "localhost") && negb (has_suffix s ".localhost").

(** The private key is clamped and not zero. *)
Definition private_key_ok (k : list Z) : bool :=
  negb (key_is_zero k) && (Z.land (byte_at k 0) 7 =? 0) && (Z.land (byte_at k 31) 128 =? 0) &&
  negb (Z.land (byte_at k 31) 64 =? 0).
Definition profile_proposal (p : Profile) : Proposal :=
  mkProposal Enroll_Schema "00000000-0000-4000-8000-000000000001" (lp_Name p) (lp_Address p) (lp_ServerPublicKey p)
    (lp_AllowedIPs p) (lp_STUN p) (lp_OpenDHT p) (lp_Endpoint p) "ipv4" (lp_PresharedKey p).
(** The loop over the routes: the printed routes, or the error. *)
Fixpoint check_routes (client : Addr) (allowed : list string) (l : list string) : result (list string) :=
  match l with
  | [] => Ok allowed
  | s :: rest =>
      match ServiceRoute s with
      | Err _ => Err (ENew "invalid private service route")
      | Ok route =>
          if negb (Is4 (pf_addr route)) || negb (IsPrivate (pf_addr route)) || Contains route client
          then Err (ENew "invalid private service route")
          else if bool_decide (Prefix_String route ∈ allowed) then Err (ENew "duplicate route")
          else check_routes client (Prefix_String route :: allowed) rest
      end
  end.
Definition check_hostname (allowed : list string) (lan : gmap string string) (e : string * string) : result unit :=
  let '(name, s) := e in
  if negb (validName name) || has_suffix name "-lan" then Err (ENew "invalid VPN hostname")
  else match ParseAddr s with
       | None => Err (ENew "hostname requires an exact service route")
       | Some ip =>
           if negb (bool_decide ((Addr_String ip +:+ "/32") ∈ allowed))
           then Err (ENew "hostname requires an exact service route")
           else match lan !! name with Some _ => Err (ENew "hostname collision") | None => Ok tt end
       end.
Definition check_lan_hostname (e : string * string) : result unit :=
  let '(name, s) := e in
  match ParseAddr s with
  | None => Err (ENew "invalid LAN recovery alias")
  | Some ip =>
      if negb (validName name) || negb (has_suffix name "-lan") || negb (Is4 ip) || negb (IsPrivate ip)
      then Err (ENew "invalid LAN recovery alias") else Ok tt
  end.
(** The entries of a map, in some order, stopping at the first error. *)
Fixpoint each_entry (f : string * string -> result unit) (l : list (string * string)) : result unit :=
  match l with [] => Ok tt | e :: rest => let? _ := f e in each_entry f rest end.

Definition Validate (p : Profile) : result unit :=
  require negb ((lp_Schema p <>s Linux_Schema) || negb (label (lp_Name p))) else ENew "invalid Linux schema/name";
  require match Validation.Key (lp_PrivateKey p) with Ok k => private_key_ok k | Err _ => false end
    else ENew "invalid WireGuard private key";
  require match Validation.Key (lp_PresharedKey p) with Ok k => negb (key_is_zero k) | Err _ => false end
    else ENew "invalid preshared key";
  match ParsePrefix (lp_Address p) with
  | None => Err (ENew "Linux client address must be a private IPv4 /32")
  | Some client =>
      require Is4 (pf_addr client) && IsPrivate (pf_addr client) && (pf_bits client =? 32)
        else ENew "Linux client address must be a private IPv4 /32";
      let? _ := Proposal_Validate (profile_proposal p) in
      require match Endpoint (lp_Endpoint p) with Ok ep => Is4 (ap_addr ep) | Err _ => false end
        else ENew "numeric IPv4 bootstrap required";
      let? allowed := check_routes (pf_addr client) [] (lp_AllowedIPs p) in
      require negb ((size (lp_Hostnames p) =? 0)%nat || (16 <? size (lp_Hostnames p))%nat ||
                    (16 <? size (lp_LANHostnames p))%nat) else ENew "hostname count outside bounds";
      let? _ := each_entry (check_hostname allowed (lp_LANHostnames p)) (map_to_list (lp_Hostnames p)) in
      let? _ := each_entry check_lan_hostname (map_to_list (lp_LANHostnames p)) in
      if Profile_PublicKey p =s lp_ServerPublicKey p then Err (ENew "client and server identities must differ") else Ok tt
  end.

Definition Decode (b : string) : result Profile :=
  if Linux_MaxBytes <? slen b then Err (ENew "profile input exceeds bounds")
  else
    let? p := DecodeJSON (fun v => decode_struct profile_field v Profile0) b in
    match document_keys b with
    | None => Err (ENew "invalid profile")
    | Some fields =>
        require forallb (fun k => k =s to_lower k) fields else ENew "profile fields must be lowercase";
        let? _ := Validate p in Ok p
    end.

(** [io.ReadAll] through the limit: [None] is a read error. *)
Definition Read (r : option string) : result Profile :=
  match r with
  | None => Err (ENew "profile input exceeds bounds")
  | Some b => if Linux_MaxBytes <? slen b then Err (ENew "profile input exceeds bounds") else Decode b
  end.

Definition WireGuard (p : Profile) : string :=
  unlines ["[Interface]"; "PrivateKey = " +:+ lp_PrivateKey p; "ListenPort = " +:+ itoa ListenPort; "";
              "[Peer]"; "PublicKey = " +:+ lp_ServerPublicKey p; "PresharedKey = " +:+ lp_PresharedKey p;
              "AllowedIPs = " +:+ join ", " (lp_AllowedIPs p); "Endpoint = " +:+ lp_Endpoint p;
              "PersistentKeepalive = 25"].

(** What may be shown of a profile. *)
Definition AStrMap (m : gmap string string) : any := AMap (map (fun e => (e.1, AStr e.2)) (map_to_list m)).
Definition Public (p : Profile) : list (string * any) :=
  [("schema", AStr (lp_Schema p)); ("name", AStr (lp_Name p)); ("public_key", AStr (Profile_PublicKey p));
   ("server_public_key", AStr (lp_ServerPublicKey p)); ("address", AStr (lp_Address p));
   ("allowed_ips", AStrs (lp_AllowedIPs p)); ("endpoint", AStr (lp_Endpoint p)); ("hostnames", AStrMap (lp_Hostnames p));
   ("lan_hostnames", AStrMap (lp_LANHostnames p)); ("listen_port", AInt ListenPort); ("proxy_port", AInt ProxyPort)].

Definition discovery_tree (p : Profile) : any :=
  AMap [("refresh_interval", AStr "180s");
        ("interfaces", AMap [(Linux_Interface, AMap [
           ("protocol", AStr "ipv4"); ("proxy", AMap [("listen", AInt ProxyPort)]);
           ("peers", AMap [("nas", AMap [("public_key", AStr (lp_ServerPublicKey p)); ("plugin", AStr "dht");
                                         ("protocol", AStr "ipv4")])])])]);
        ("plugins", AMap [("dht", AMap [("type", AStr "builtin"); ("name", AStr "opendht");
                                        ("endpoints", AStrs (lp_OpenDHT p)); ("timeout", AStr "10s")])]);
        ("stun", AMap [("addresses", AStrs (lp_STUN p))]);
        ("log", AMap [("level", AStr "info"); ("format", AStr "json")])].
Definition Profile_Discovery `{YamlLib} (p : Profile) : result string :=
  yaml_Marshal (discovery_tree p).

(** [Load]: the opened file's mode and contents. *)
Record OpenFile := mkOpenFile { of_stat : option (bool * Z); of_data : option string }.
Definition Linux_Load (file : option OpenFile) : result Profile :=
  match file with
  | None => Err (ENew "cannot open Linux profile")
  | Some f =>
      match of_stat f with
      | Some (regular, perm) =>
          if negb regular || negb (Z.land perm 63 =? 0) then Err (ENew "profile must be a private regular file")
          else Read (of_data f)
      | None => Err (ENew "profile must be a private regular file")
      end
  end.
End profile.

(** ** WriteNew

    Creation is exclusive.  [wo_create] is whether a path that is free can be
    created; [wo_partial] is what a failed write left before it is removed. *)
Notation Files := (gmap string string).
Record WriteOutcome := mkWriteOutcome {
  wo_create : bool; wo_write : bool; wo_partial : string; wo_remove : bool
}.
Definition WriteNew (o : WriteOutcome) (fs : Files) (path b : string) : Files * result unit :=
  match fs !! path with
  | Some _ => (fs, Err (ENew "output must be a new private file"))
  | None =>
      if negb (wo_create o) then (fs, Err (ENew "output must be a new private file"))
      else if wo_write o then (<[path := b]> fs, Ok tt)
      else (if wo_remove o then fs else <[path := wo_partial o]> fs, Err (ENew "cannot write complete output"))
  end.
