(* ===== verification/LinuxProfileFacts.v ===== *)
(** * What a Linux profile that passes the boundary is, and what it renders *)

From S2P Require Import Prelude GoStr Codec Netip NetipFacts Json JsonFacts Validation Discovery TextFacts Entity Plugin JsonDecode Config ConfigFacts Provision ProvisionFacts LinuxProfile.

(** ** Names *)

Definition label_spec (s : string) : Prop :=
  exists c t, s = String c t /\ is_lower c = true /\ sforall label_char t = true /\ (String.length t <= 31)%nat.
Lemma label_iff s : label s = true <-> label_spec s.
Proof.
  unfold label, label_spec. split.
  - destruct s as [|c t]; [done|]. intros [[? ?]%andb_true_iff Hl]%andb_true_iff. exists c, t.
    unfold slen in Hl. split_and!; try done. lia.
  - intros (c & t & -> & -> & -> & Hl). unfold slen. cbn [andb]. lia.
Qed.
Lemma label_char_graph c : label_char c = true -> graph c = true.
Proof. destruct c as [[] [] [] [] [] [] [] []]; vm_compute; done. Qed.
Lemma lower_graph c : is_lower c = true -> graph c = true.
Proof. unfold is_lower, graph. lia. Qed.
Lemma label_graph s : label s = true -> sforall graph s = true.
Proof.
  intros (c & t & -> & Hc & Ht & _)%label_iff. cbn [sforall]. rewrite (lower_graph _ Hc).
  eapply sforall_impl; [exact label_char_graph|done].
Qed.
(** No mark character of the managed block can be part of a name. *)
Lemma label_no_hash s : label s = true -> smem "#" s = false.
Proof.
  intros (c & t & -> & Hc & Ht & _)%label_iff. cbn [smem]. apply orb_false_iff. split.
  - destruct (Ascii.eqb_spec c "#") as [->|]; done.
  - clear Hc. induction t as [|d t IH]; [done|]. cbn in *. apply andb_true_iff in Ht as [Hd Ht]. rewrite IH by done.
    destruct (Ascii.eqb_spec d "#") as [->|]; done.
Qed.

(** ** Validate *)

Section validate.
Context `{tables : UnicodeTables} `{urls : UrlLib} `{wgt : WgTypes}.

Definition host_route_ok (client : Addr) (r : Prefix) : Prop :=
  Is4 (pf_addr r) = true /\ IsPrivate (pf_addr r) = true /\ Contains r client = false.
Lemma check_routes_iff client l : forall seen out,
  check_routes client seen l = Ok out <->
  exists rs, Forall2 (fun s r => ServiceRoute s = Ok r) l rs /\ Forall (host_route_ok client) rs /\
             NoDup (map Prefix_String rs) /\ (forall s, s ∈ seen -> ~ In s (map Prefix_String rs)) /\
             out = rev (map Prefix_String rs) ++ seen.
Proof.
  induction l as [|s l IH]; intros seen out; cbn [check_routes].
  { split.
    - intros <-%Ok_inj. exists []. split_and!; [constructor|constructor|apply NoDup_nil_2|by intros ? _ []|done].
    - intros (rs & Hrs & _ & _ & _ & ->). inversion Hrs. done. }
  destruct (ServiceRoute s) as [r|] eqn:E.
  2: { split; [done|]. intros (rs & Hrs & _). inversion Hrs; congruence. }
  destruct (Is4 (pf_addr r)) eqn:E4, (IsPrivate (pf_addr r)) eqn:Ep, (Contains r client) eqn:Ec; cbn [negb orb];
    try (split; [done|]; intros (rs & Hrs & Hok & _); inversion Hrs as [|? r' ? rs' Hr']; subst;
         assert (r' = r) as -> by congruence; apply Forall_cons_iff in Hok as [(?&?&?) _]; congruence).
  destruct (bool_decide_reflect (Prefix_String r ∈ seen)) as [Hin|Hin].
  { split; [done|]. intros (rs & Hrs & _ & _ & Hs & _). inversion Hrs as [|? r' ? rs' Hr']; subst.
    assert (r' = r) as -> by congruence. by destruct (Hs _ Hin (or_introl eq_refl)). }
  rewrite IH. split.
  - intros (rs & H1 & H2 & H3 & H4 & ->). exists (r :: rs). split_and!.
    + by constructor.
    + by constructor.
    + cbn. apply list.NoDup_cons. split; [|done]. rewrite list_elem_of_In. apply H4. left.
    + intros x Hx [<-|Hin']; [done|]. eapply H4; [|exact Hin']. by right.
    + cbn [map rev]. by rewrite <-app_assoc.
  - intros (rs & H1 & H2 & H3 & H4 & ->). inversion H1 as [|? r' ? rs' Hr' Hrs']; subst.
    assert (r' = r) as -> by congruence. apply Forall_cons_iff in H2 as [_ H2].
    cbn [map] in H3. apply list.NoDup_cons in H3 as [Hn H3]. rewrite list_elem_of_In in Hn.
    exists rs'. split_and!; try done.
    + intros x [->|Hx]%elem_of_cons Hin'; [done|]. by apply (H4 x Hx); right.
    + cbn [map rev]. by rewrite <-app_assoc.
Qed.

Lemma each_entry_iff f l : each_entry f l = Ok tt <-> Forall (fun e => f e = Ok tt) l.
Proof.
  induction l as [|e l IH]; cbn [each_entry]; [by split|]. rewrite Forall_cons_iff.
  destruct (f e) as [[]|]; [rewrite IH; naive_solver|naive_solver].
Qed.
Lemma entries_iff f (m : gmap string string) :
  each_entry f (map_to_list m) = Ok tt <-> forall name s, m !! name = Some s -> f (name, s) = Ok tt.
Proof.
  rewrite each_entry_iff, List.Forall_forall. split.
  - intros Hf name s Hm. apply Hf. by apply list_elem_of_In, elem_of_map_to_list.
  - intros Hf [name s] Hin. apply Hf. by apply elem_of_map_to_list, list_elem_of_In.
Qed.

Definition vpn_name_ok (allowed : list string) (lan : gmap string string) (name s : string) : Prop :=
  validName name = true /\ has_suffix name "-lan" = false /\ lan !! name = None /\
  exists ip, ParseAddr s = Some ip /\ In (Addr_String ip +:+ "/32") allowed.
Lemma check_hostname_iff allowed lan name s :
  check_hostname allowed lan (name, s) = Ok tt <-> vpn_name_ok allowed lan name s.
Proof.
  unfold check_hostname, vpn_name_ok. split.
  - destruct (_ || has_suffix name "-lan") eqn:E; [done|]. apply orb_false_iff in E as [Hv%negb_false_iff Hs].
    destruct (ParseAddr s) as [ip|]; [|done]. destruct (bool_decide_reflect ((Addr_String ip +:+ "/32") ∈ allowed)); [|done].
    destruct (lan !! name) eqn:El; [done|]. intros _. split_and!; [done..|]. exists ip. by rewrite <-list_elem_of_In.
  - intros (-> & -> & -> & ip & -> & Hin%list_elem_of_In). by rewrite bool_decide_true.
Qed.
Definition lan_name_ok (name s : string) : Prop :=
  validName name = true /\ has_suffix name "-lan" = true /\
  exists ip, ParseAddr s = Some ip /\ Is4 ip = true /\ IsPrivate ip = true.
Lemma check_lan_hostname_iff name s : check_lan_hostname (name, s) = Ok tt <-> lan_name_ok name s.
Proof.
  unfold check_lan_hostname, lan_name_ok. split.
  - destruct (ParseAddr s) as [ip|]; [|done]. destruct (_ || negb (IsPrivate ip)) eqn:E; [done|]. intros _.
    apply orb_false_iff in E as [[[Hv Hs]%orb_false_iff H4]%orb_false_iff Hp]. apply negb_false_iff in Hv, Hs, H4, Hp.
    split_and!; [done..|]. by exists ip.
  - intros (-> & -> & ip & -> & -> & ->). done.
Qed.

Definition clamped (k : list Z) : Prop :=
  key_is_zero k = false /\ Z.land (byte_at k 0) 7 = 0 /\ Z.land (byte_at k 31) 128 = 0 /\ Z.land (byte_at k 31) 64 <> 0.
Lemma private_key_ok_iff k : private_key_ok k = true <-> clamped k.
Proof.
  unfold private_key_ok, clamped. rewrite !andb_true_iff, !negb_true_iff, !Z.eqb_eq, Z.eqb_neq. naive_solver.
Qed.

(** A client's profile: its own single private IPv4 address and sound keys; a
    proposal the enrolment boundary accepts; a numeric IPv4 endpoint; distinct
    private service routes away from the client; VPN names that each have a
    route of their own, LAN names that cannot be mistaken for them; and an
    identity that is not the server's. *)
Record profile_ok (p : Profile) : Prop := {
  fo_schema : lp_Schema p = Linux_Schema;
  fo_name : label (lp_Name p) = true;
  fo_private : exists k, Validation.Key (lp_PrivateKey p) = Ok k /\ clamped k;
  fo_psk : exists k, Validation.Key (lp_PresharedKey p) = Ok k /\ key_is_zero k = false;
  fo_proposal : Proposal_Validate (profile_proposal p) = Ok tt;
  fo_endpoint : exists ep, Endpoint (lp_Endpoint p) = Ok ep /\ Is4 (ap_addr ep) = true;
  fo_routes : exists client rs,
    ParsePrefix (lp_Address p) = Some client /\ Is4 (pf_addr client) = true /\ IsPrivate (pf_addr client) = true /\
    pf_bits client = 32 /\
    Forall2 (fun s r => ServiceRoute s = Ok r) (lp_AllowedIPs p) rs /\ Forall (host_route_ok (pf_addr client)) rs /\
    NoDup (map Prefix_String rs) /\
    forall name s, lp_Hostnames p !! name = Some s -> vpn_name_ok (map Prefix_String rs) (lp_LANHostnames p) name s;
  fo_counts : (1 <= size (lp_Hostnames p) <= 16)%nat /\ (size (lp_LANHostnames p) <= 16)%nat;
  fo_lan : forall name s, lp_LANHostnames p !! name = Some s -> lan_name_ok name s;
  fo_identity : Profile_PublicKey p <> lp_ServerPublicKey p
}.

Lemma vpn_names_perm a b lan name s : (forall x, In x a <-> In x b) -> vpn_name_ok a lan name s <-> vpn_name_ok b lan name s.
Proof. intros Hab. unfold vpn_name_ok. by setoid_rewrite Hab. Qed.

Lemma require_iff (c : bool) e (k : result unit) : (require c else e; k) = Ok tt <-> c = true /\ k = Ok tt.
Proof. destruct c; naive_solver. Qed.
Lemma key_test_iff (f : list Z -> bool) text :
  match Validation.Key text with Ok k => f k | Err _ => false end = true <->
  exists k, Validation.Key text = Ok k /\ f k = true.
Proof.
  destruct (Validation.Key text) as [k|]; split; try done.
  - intros. by exists k.
  - by intros (? & <-%Ok_inj & ?).
  - by intros (? & ? & ?).
Qed.

Lemma Validate_ok_iff p : Validate p = Ok tt <-> profile_ok p.
Proof.
  unfold Validate. rewrite !require_iff, negb_true_iff, orb_false_iff, !negb_false_iff, String.eqb_eq.
  rewrite (key_test_iff private_key_ok), (key_test_iff (fun k => negb (key_is_zero k))). split.
  - intros ((Hs & Hn) & (k & Hk & Hc) & (psk & Hpsk & Hz) & H).
    destruct (ParsePrefix (lp_Address p)) as [client|] eqn:Ea; [|done].
    rewrite require_iff, !andb_true_iff, Z.eqb_eq in H. destruct H as (((H4 & Hp) & Hb) & H).
    destruct (Proposal_Validate (profile_proposal p)) as [[]|] eqn:Eq; [|done].
    rewrite require_iff in H. destruct H as (He & H).
    destruct (check_routes (pf_addr client) [] (lp_AllowedIPs p)) as [allowed|] eqn:Er; [|done].
    apply check_routes_iff in Er as (rs & Hrs & Hok & Hnd & _ & Hout). rewrite app_nil_r in Hout.
    rewrite require_iff, negb_true_iff, !orb_false_iff, Nat.eqb_neq, !Nat.ltb_ge in H.
    destruct H as (((Hc0 & Hc1) & Hc2) & H).
    destruct (each_entry (check_hostname _ _) _) as [[]|] eqn:Eh; [|done].
    destruct (each_entry check_lan_hostname _) as [[]|] eqn:El; [|done].
    destruct (String.eqb_spec (Profile_PublicKey p) (lp_ServerPublicKey p)) as [|Hid]; [done|].
    rewrite entries_iff in Eh, El. constructor; try done.
    + exists k. split; [done|by apply private_key_ok_iff].
    + exists psk. split; [done|by apply negb_true_iff].
    + destruct (Endpoint (lp_Endpoint p)) as [ep|]; [|done]. by exists ep.
    + exists client, rs. split_and!; try done. intros name s Hm. apply Eh in Hm. rewrite check_hostname_iff in Hm.
      revert Hm. apply vpn_names_perm. intros x. rewrite Hout. by rewrite <-in_rev.
    + lia.
    + intros name s Hm. by apply check_lan_hostname_iff, El.
  - intros [Hs Hn (k & Hk & Hc) (psk & Hpsk & Hz) Hq (ep & Hep & Hep4) (client & rs & Ha & H4 & Hp & Hb & Hrs & Hok & Hnd & Hh) Hcnt Hl Hid].
    split_and!; [done|done|exists k; split; [done|by apply private_key_ok_iff]|exists psk; by rewrite Hz|].
    rewrite Ha, H4, Hp, Hb, Hq, Hep, Hep4. cbn [andb Z.eqb Pos.eqb].
    assert (check_routes (pf_addr client) [] (lp_AllowedIPs p) = Ok (rev (map Prefix_String rs))) as ->.
    { apply check_routes_iff. exists rs. split_and!; try done; [intros s Hin; set_solver|by rewrite app_nil_r]. }
    rewrite require_iff. split.
    { rewrite negb_true_iff, !orb_false_iff, Nat.eqb_neq, !Nat.ltb_ge. lia. }
    rewrite (proj2 (entries_iff _ _)), (proj2 (entries_iff _ _)).
    + by destruct (String.eqb_spec (Profile_PublicKey p) (lp_ServerPublicKey p)).
    + intros name s Hm. by apply check_lan_hostname_iff, Hl.
    + intros name s Hm. apply check_hostname_iff. eapply vpn_names_perm; [|by apply Hh].
      intros x. by rewrite <-in_rev.
Qed.

Lemma Decode_valid b p : Decode b = Ok p -> Validate p = Ok tt.
Proof.
  unfold Decode. destruct (Linux_MaxBytes <? slen b); [done|]. destruct (DecodeJSON _ b) as [q|]; [|done].
  destruct (document_keys b) as [fields|]; [|done]. destruct (forallb _ fields); [|done].
  destruct (Validate q) as [[]|] eqn:E; [|done]. by intros <-%Ok_inj.
Qed.
(** Every way in: the document, standard input and a file. *)
Lemma Read_valid r p : Read r = Ok p -> Validate p = Ok tt.
Proof. unfold Read. destruct r as [b|]; [|done]. destruct (_ <? _); [done|apply Decode_valid]. Qed.
Lemma Load_valid file p : Linux_Load file = Ok p ->
  Validate p = Ok tt /\ exists f perm, file = Some f /\ of_stat f = Some (true, perm) /\ Z.land perm 63 = 0.
Proof.
  unfold Linux_Load. destruct file as [f|]; [|done]. destruct (of_stat f) as [[regular perm]|] eqn:E; [|done].
  destruct regular; [|done]. destruct (Z.eqb_spec (Z.land perm 63) 0); [|done]. cbn [negb orb]. intros H.
  split; [by eapply Read_valid|]. by exists f, perm.
Qed.

(** ** The rendered WireGuard file: one line per entry

    Every text that goes into it is free of white space, so none can open a
    line of its own. *)

Lemma key_graph text k : Validation.Key text = Ok k -> sforall graph text = true.
Proof.
  intros (Hl & Hb & ->)%Key_ok_iff. apply (b64_word k Hb). by destruct k.
Qed.
Lemma server_key_graph p : Proposal_Validate (profile_proposal p) = Ok tt -> sforall graph (lp_ServerPublicKey p) = true.
Proof.
  intros H. apply Validate_ok in H. pose proof (po_server _ H) as Hk. change (pp_ServerPublicKey _) with (lp_ServerPublicKey p) in Hk.
  unfold Validation.PublicKey in Hk. destruct (Validation.Key (lp_ServerPublicKey p)) as [k|] eqn:E; [|discriminate Hk].
  exact (key_graph _ _ E).
Qed.
Lemma ServiceRoute_graph s r : ServiceRoute s = Ok r -> sforall graph s = true.
Proof.
  unfold ServiceRoute, ValidPrefix. destruct (64 <? slen s); [done|].
  destruct (ParsePrefix s) as [q|] eqn:E; [|done]. intros _. by eapply ParsePrefix_graph.
Qed.
Lemma Endpoint_graph s ep : Endpoint s = Ok ep -> sforall graph s = true.
Proof.
  unfold Endpoint. destruct (256 <? slen s); [done|]. destruct (ParseAddrPort s) as [e|] eqn:E; [|done].
  cbn zeta. destruct (_ || IsLinkLocalUnicast _) eqn:C; [done|]. intros _.
  repeat (apply orb_false_iff in C as [C ?]).
  eapply ParseAddrPort_graph; [exact E|]. by apply String.eqb_eq, negb_false_iff.
Qed.
Lemma routes_one_line l : Forall (fun s => sforall graph s = true) l -> smem (zb 10) (join ", " l) = false.
Proof.
  induction 1 as [|s l Hs Hl IH]; [done|]. destruct l as [|t l]; [by apply smem_word|].
  cbn [join]. rewrite !smem_app, (smem_word _ s) by done. exact IH.
Qed.

Definition wireguard_lines (p : Profile) : list string :=
  ["[Interface]"; "PrivateKey = " +:+ lp_PrivateKey p; "ListenPort = 51832"; "";
   "[Peer]"; "PublicKey = " +:+ lp_ServerPublicKey p; "PresharedKey = " +:+ lp_PresharedKey p;
   "AllowedIPs = " +:+ join ", " (lp_AllowedIPs p); "Endpoint = " +:+ lp_Endpoint p; "PersistentKeepalive = 25"].
(** C32: The file [wg setconf] is given has exactly these lines: no field of the
    profile can open a line of its own, end a section or add a peer. *)
Theorem WireGuard_one_peer p : Validate p = Ok tt -> split_on (zb 10) (WireGuard p) = wireguard_lines p ++ [""].
Proof.
  intros Hv%Validate_ok_iff. change (WireGuard p) with (unlines (wireguard_lines p)). apply split_unlines.
  destruct Hv as [_ _ (k & Hk & _) (psk & Hpsk & _) Hq (ep & Hep & _) (c & rs & _ & _ & _ & _ & Hrs & _) _ _ _].
  pose proof (server_key_graph p Hq) as Hs. unfold one_line, wireguard_lines.
  repeat (apply List.Forall_cons; [rewrite ?smem_app; cbn [smem]; try reflexivity|]); [..|apply List.Forall_nil].
  - apply smem_word; [reflexivity|exact (key_graph _ _ Hk)].
  - apply smem_word; [reflexivity|exact Hs].
  - apply smem_word; [reflexivity|exact (key_graph _ _ Hpsk)].
  - apply routes_one_line. clear -Hrs. induction Hrs; constructor; [by eapply ServiceRoute_graph|done].
  - apply smem_word; [reflexivity|exact (Endpoint_graph _ _ Hep)].
Qed.
End validate.

(** ** The discovery file the daemon starts from *)

(** What the rendered tree decodes to over the defaults. *)
Definition nas_peer (p : Profile) : CfgPeer := mkCfgPeer "" (lp_ServerPublicKey p) "dht" "ipv4" None.
Definition dht_conf (p : Profile) : gmap string any :=
  {[ "name" := AStr "opendht"; "endpoints" := AList (map AStr (lp_OpenDHT p)); "timeout" := AStr "10s" ]}.
Definition wg0_interface (p : Profile) : Interface :=
  mkInterface "ipv4" (mkProxy ProxyPort None 0) [] false {[ "nas" := nas_peer p ]}.
Definition discovery_config (p : Profile) : Config :=
  mkConfig {[ Linux_Interface := wg0_interface p ]} {[ "dht" := mkDef "builtin" (dht_conf p) ]} (180 * Second)
    (mkLogger "info" "json") (mkStun "" (Some (lp_STUN p)))
    (mkPingMonitor DefaultPingInterval DefaultPingTimeout DefaultPingFixedRetries).

Section discovery.
Context `{tables : UnicodeTables} `{urls : UrlLib} `{wgt : WgTypes} `{env : ConfigEnv}.

Lemma all_strings_map l : all_strings (map AStr l) = Some l.
Proof. induction l as [|s l IH]; [done|]. cbn. by rewrite IH. Qed.
Lemma dht_conf_name p : dht_conf p !! "name" = Some (AStr "opendht").
Proof. unfold dht_conf. by simplify_map_eq. Qed.
Lemma dht_conf_endpoints p : GetStringSlice (dht_conf p) "endpoints" = Ok (lp_OpenDHT p).
Proof. unfold GetStringSlice, dht_conf. simplify_map_eq. by rewrite all_strings_map. Qed.
Lemma dht_conf_endpoint p : GetString (dht_conf p) "endpoint" = ("", false).
Proof. unfold GetString, dht_conf. rewrite !lookup_insert_ne, lookup_singleton_ne by done. done. Qed.
Lemma dht_conf_timeout p : GetDuration (dht_conf p) "timeout" = Ok (10 * Second, true).
Proof. unfold GetDuration, dht_conf. simplify_map_eq. by vm_compute. Qed.
Lemma store_config_endpoints l : GetStringSlice (store_config l) "endpoints" = Ok l.
Proof. unfold GetStringSlice, store_config. by simplify_map_eq. Qed.
Lemma store_config_endpoint l : GetString (store_config l) "endpoint" = ("", false).
Proof. unfold GetString, store_config. rewrite !lookup_insert_ne, lookup_singleton_ne by done. done. Qed.
Lemma dht_conf_valid p : ValidateDefinition (mkDef "builtin" (dht_conf p)) = Ok tt.
Proof.
  unfold ValidateDefinition. cbn [Type_ PConfig]. rewrite dht_conf_name. cbn [String.eqb negb orb].
  assert (Forall (fun e => config_key_ok e.1 e.2 = Ok tt) (map_to_list (dht_conf p))) as Hf.
  { apply List.Forall_forall. intros [k v] Hin%list_elem_of_In%elem_of_map_to_list. unfold dht_conf in Hin.
    rewrite !lookup_insert_Some, lookup_singleton_Some in Hin.
    destruct Hin as [[<- <-]|[_ [[<- <-]|[_ [<- <-]]]]]; reflexivity. }
  induction Hf as [|[k v] l Hk Hf IH]; [done|]. cbn [config_keys_ok]. cbn [fst snd] in Hk. rewrite Hk. exact IH.
Qed.
(** The store the profile names is one the plugin accepts. *)
Lemma dht_created p : is_ok (NewOpenDHTPlugin (store_config (lp_OpenDHT p))) = true ->
  is_ok (createPlugin (mkDef "builtin" (dht_conf p))) = true.
Proof.
  unfold createPlugin. rewrite dht_conf_valid. unfold NewOpenDHTPlugin. cbn [PConfig].
  rewrite dht_conf_valid. destruct (ValidateDefinition _); [|done].
  rewrite store_config_endpoints, store_config_endpoint, dht_conf_endpoints, dht_conf_endpoint. cbn [fst String.eqb].
  destruct (_ || _)%bool; [done|]. destruct (normalize_all [] (lp_OpenDHT p)) as [eps|]; [|done]. intros _. by rewrite dht_conf_timeout.
Qed.

Lemma nas_peer_valid p : Proposal_Validate (profile_proposal p) = Ok tt -> validate_peer (nas_peer p) = Ok tt.
Proof.
  intros H%Validate_ok. pose proof (po_server _ H) as Hk. change (pp_ServerPublicKey _) with (lp_ServerPublicKey p) in Hk.
  unfold validate_peer, nas_peer. cbn [cpPublicKey].
  destruct (Validation.PublicKey (lp_ServerPublicKey p)); [reflexivity|discriminate Hk].
Qed.
Lemma wg0_interface_valid p : Proposal_Validate (profile_proposal p) = Ok tt ->
  validate_interface (Linux_Interface, wg0_interface p) = Ok tt.
Proof.
  intros Hq. unfold validate_interface. do 6 eval_head. cbn [wg0_interface ifPeers]. rewrite map_to_list_singleton.
  cbn [for_all snd]. rewrite nas_peer_valid by exact Hq. reflexivity.
Qed.
Lemma discovery_config_valid p servers : Proposal_Validate (profile_proposal p) = Ok tt ->
  zerolog_ParseLevel "info" = true -> (length servers <= 8)%nat -> Forall (fun a => Validation.Server a = Ok tt) servers ->
  validateConfigForGOOS (mkConfig {[ Linux_Interface := wg0_interface p ]} {[ "dht" := mkDef "builtin" (dht_conf p) ]}
    (180 * Second) (mkLogger "info" "json") (mkStun "" (Some servers))
    (mkPingMonitor DefaultPingInterval DefaultPingTimeout DefaultPingFixedRetries)) = Ok tt.
Proof.
  intros Hq Hlevel Hn Hs. unfold validateConfigForGOOS. cbv zeta.
  cbn [cRefreshInterval cPingMonitor cInterfaces cPlugins cStun cLog Addresses default pmInterval pmTimeout pmFixedRetries].
  do 2 eval_head. rewrite !map_size_singleton, !map_to_list_singleton.
  match goal with |- (if ?c then _ else _) = _ => assert (c = false) as -> end.
  { change ((MaxServers <? Z.of_nat (length servers)) = false). apply Z.ltb_ge. unfold MaxServers. lia. }
  rewrite (proj2 (for_all_ok _ _)) by (by apply List.Forall_forall).
  cbn [for_all snd]. rewrite dht_conf_valid. eval_head. cbn [Level]. rewrite Hlevel. eval_head.
  cbn [for_all]. rewrite wg0_interface_valid by exact Hq. reflexivity.
Qed.

(** A list of servers without an empty entry is used as it is. *)
Lemma GetServers_sublist l : l <> [] -> "" ∉ l -> GetServers (mkStun "" (Some l)) `sublist_of` l.
Proof.
  intros Hl Hne. destruct (GetServers_spec (mkStun "" (Some l))) as (_ & _ & He & [[Hsub _]|[Hall _]]).
  - cbn [Address Addresses default] in Hsub. apply sublist_cons_r in Hsub as [Hsub|(k & El & _)]; [exact Hsub|].
    destruct He. rewrite El. left.
  - destruct l as [|a l]; [done|]. destruct Hne. rewrite <-(Hall a); [left|]. cbn. right. left.
Qed.

End discovery.

(** A profile file that loads was private and regular, and what it holds is a
    sound profile; so is what standard input holds. *)
Theorem Linux_Load_sound `{UnicodeTables} `{UrlLib} `{wgt : WgTypes} file p :
  Linux_Load file = Ok p ->
  profile_ok p /\ exists f perm, file = Some f /\ of_stat f = Some (true, perm) /\ Z.land perm 63 = 0.
Proof. intros [Hv Hf]%Load_valid. split; [by apply Validate_ok_iff|exact Hf]. Qed.

(** ** WriteNew *)

(** A file that exists is never touched; a success leaves exactly the bytes; a
    failure whose removal works leaves nothing. *)
Theorem WriteNew_spec o fs path b fs' r :
  WriteNew o fs path b = (fs', r) ->
  (forall q, q <> path -> fs' !! q = fs !! q) /\
  match r with
  | Ok _ => fs !! path = None /\ fs' = <[path := b]> fs
  | Err _ => is_Some (fs !! path) \/ wo_remove o = true -> fs' = fs
  end.
Proof.
  unfold WriteNew. destruct (fs !! path) as [old|] eqn:E; [by intros [<- <-]%pair_equal_spec|].
  destruct (wo_create o); cbn [negb]; [|by intros [<- <-]%pair_equal_spec].
  destruct (wo_write o).
  - intros [<- <-]%pair_equal_spec. split; [intros q Hq; by rewrite lookup_insert_ne|done].
  - intros [<- <-]%pair_equal_spec. split.
    + intros q Hq. destruct (wo_remove o); [done|by rewrite lookup_insert_ne].
    + intros [Hs|Hr]; [by destruct Hs|by rewrite Hr].
Qed.

(** ** Witnesses *)

#[export] Instance lin_tables : UnicodeTables := {| lower_rune := fun r => r |}.
#[export] Instance lin_urls : UrlLib :=
  {| url_Parse := fun s => if s =s "https://d" then Some (mkURL "https" "d" false "" "" "" "") else None;
     URL_String := fun u => Scheme u +:+ "://" +:+ Host u +:+ Path u |}.
(** A stand-in for the curve: any function from keys to keys. *)
#[export] Instance lin_wgt : WgTypes :=
  {| wgtypes_ParseKey := fun s => match Validation.Key s with Ok k => Some k | Err _ => None end;
     wgtypes_PublicKey := map (fun b => Z.land (255 - b) 255) |}.
#[export] Instance lin_wgt_laws : WgTypesLaws lin_wgt.
Proof.
  constructor; [intros text k E; cbn; by rewrite E|]. intros k Hk. cbn. rewrite length_map. split; [done|].
  apply List.Forall_forall. intros b (x & <- & _)%in_map_iff. unfold is_byte.
  change (Z.land (255 - x) 255) with (Z.land (255 - x) (Z.ones 8)). rewrite Z.land_ones by lia. by apply Z.mod_pos_bound.
Qed.
Definition w_private : list Z := 8 :: replicate 30 0 ++ [64].
Definition w_profile : Profile :=
  mkProfile Linux_Schema "laptop" (b64_encode w_private) (b64_encode (replicate 32 7)) (b64_encode base_key)
    "10.77.0.253/32" ["10.77.0.1/32"; "10.77.0.21/32"] "192.168.0.10:51824" ["stun.example.com:3478"] ["https://d"]
    {[ "nas" := "10.77.0.1" ]} {[ "nas-lan" := "192.168.0.10" ]}.
Lemma w_profile_proposal : Proposal_Validate (profile_proposal w_profile) = Ok tt.
Proof. unfold w_profile, profile_proposal. cbn [lp_Name lp_Address lp_ServerPublicKey]. validate_key PublicKey_base. Qed.
Lemma w_profile_valid : Validate w_profile = Ok tt.
Proof.
  unfold Validate. do 5 eval_head. rewrite w_profile_proposal. do 4 eval_head. vm_compute. reflexivity.
Qed.
Lemma WireGuard_one_peer_witness : split_on (zb 10) (WireGuard w_profile) = wireguard_lines w_profile ++ [""].
Proof. apply (WireGuard_one_peer w_profile). exact w_profile_valid. Defined.
#[export] Instance lin_env : ConfigEnv := {|
  Raw := unit;
  yaml_first := fun _ => Some (mkNode DocumentNode "" "" "" []);
  yaml_trailing_eof := fun _ => true;
  yaml_Unmarshal := fun _ => Some tt;
  mapstructure_Decode := fun _ _ => Some (discovery_config w_profile);
  zerolog_ParseLevel := fun l => l =s "info";
  os_Stat := fun _ => false;
  os_ExpandEnv := fun s => s;
  filepath_Join := fun a b => a +:+ "/" +:+ b;
  os_ReadFile := fun _ => Some (Some "interfaces: {}")
|}.
(** A file with the profile, readable by its owner only: rendering and decoding
    meet on this one. *)
Definition w_profile_text : string :=
  marshal (JObj [("schema", JStr Linux_Schema); ("name", JStr "laptop"); ("private_key", JStr (lp_PrivateKey w_profile));
    ("preshared_key", JStr (lp_PresharedKey w_profile)); ("server_public_key", JStr (lp_ServerPublicKey w_profile));
    ("address", JStr (lp_Address w_profile)); ("allowed_ips", JStrs (lp_AllowedIPs w_profile));
    ("endpoint", JStr (lp_Endpoint w_profile)); ("stun_servers", JStrs (lp_STUN w_profile));
    ("opendht", JStrs (lp_OpenDHT w_profile)); ("hostnames", JObj [("nas", JStr "10.77.0.1")]);
    ("lan_hostnames", JObj [("nas-lan", JStr "192.168.0.10")])]).
Lemma w_profile_decodes : Decode w_profile_text = Ok w_profile.
Proof.
  unfold Decode. do 2 eval_head.
  match goal with |- context [Validate ?c] => change c with w_profile end. do 2 eval_head.
  rewrite w_profile_valid. reflexivity.
Qed.
Lemma Linux_Load_sound_witness :
  profile_ok w_profile /\ exists f perm, Some (mkOpenFile (Some (true, 384)) (Some w_profile_text)) = Some f /\
    of_stat f = Some (true, perm) /\ Z.land perm 63 = 0.
Proof.
  apply (Linux_Load_sound (Some (mkOpenFile (Some (true, 384)) (Some w_profile_text))) w_profile).
  unfold Linux_Load. cbn [of_stat]. eval_head. unfold Read. cbn [of_data]. eval_head. exact w_profile_decodes.
Defined.
Lemma WriteNew_spec_witness :
  let fs : Files := <["/out/a" := "x"]> ∅ in
  forall q, q <> "/out/a" -> (<["/out/a" := "x"]> ∅ : Files) !! q = (∅ : Files) !! q.
Proof.
  intros fs q Hq. exact (proj1 (WriteNew_spec (mkWriteOutcome true true "" true) ∅ "/out/a" "x" fs (Ok tt) eq_refl) q Hq).
Defined.
