(* ===== verification/LinuxRuntime.v ===== *)
(** * internal/linuxprofile/runtime.go: the interface's life

    Setting the WireGuard interface up with the native tools, taking it down
    again, and the run in between.  Everything outside is one environment: it
    answers a call from the call and all that happened before; the calls made
    and their answers are the trace a theorem speaks of. *)

From S2P Require Import Prelude GoStr Codec Json JsonFacts Validation Discovery GoTime Plugin JsonDecode Provision LinuxProfile.

Record Runtime := mkRuntime { rt_IP : list string; rt_WG : string }.
Definition Native : Runtime := mkRuntime ["/bin/busybox"; "ip"] "/usr/local/bin/wg".
Definition OwnershipFile : string := "/ownership/interface.json".

(** The answer of reading a file. *)
Inductive FileRead := FRead (data : string) | FNotExist | FReadError.
(** One call and its answer.  A command's answer is its output, [None] when it
    fails. *)
Inductive Step :=
| SExec (argv : list string) (out : option string)
| SWrite (path data : string) (r : result unit)
| SReadFile (path : string) (r : FileRead)
| SIndex (n : option Z)
| SRemove (path : string) (r : result unit)
| SMkdir (dir : option string)
| SRemoveAll (dir : string)
| SAppNew (config : string) (r : result unit)
| SAppRun (r : result unit)
| SAppClose.
Definition History : Type := list Step.
Class LinuxHost := {
  sys_exec : History -> list string -> option string;
  sys_write : History -> string -> string -> result unit;     (* WriteNew *)
  sys_read : History -> string -> FileRead;
  sys_index : History -> option Z;                     (* net.InterfaceByName *)
  sys_remove : History -> string -> result unit;
  sys_mkdir : History -> option string;
  sys_app_new : History -> string -> result unit;
  sys_app_run : History -> result unit;
  sys_join : string -> string -> string                (* filepath.Join *)
}.

Section runtime.
Context `{UnicodeTables} `{UrlLib} `{wgt : WgTypes} `{host : LinuxHost}.

Definition act (A : Type) : Type := History -> History * A.
Definition exec (argv : list string) : act (option string) :=
  fun h => let out := sys_exec h argv in (h ++ [SExec argv out], out).
Definition write_new (path data : string) : act (result unit) :=
  fun h => let e := sys_write h path data in (h ++ [SWrite path data e], e).

Definition ip_argv (r : Runtime) (args : list string) : list string := rt_IP r ++ args.
Definition ip (r : Runtime) (args : list string) : act (result unit) :=
  fun h => let '(h, out) := exec (ip_argv r args) h in
           (h, match out with Some _ => Ok tt | None => Err (ENew "owned interface/route operation failed") end).

Definition link_add : list string := ["link"; "add"; Linux_Interface; "type"; "wireguard"].
Definition link_delete : list string := ["link"; "delete"; "dev"; Linux_Interface].
Definition link_show : list string := ["link"; "show"; "dev"; Linux_Interface].
Definition link_up : list string := ["link"; "set"; "dev"; Linux_Interface; "mtu"; "1280"; "up"].
Definition address_add (a : string) : list string := ["address"; "add"; a; "dev"; Linux_Interface].
Definition route_add (route : string) : list string :=
  ["route"; "add"; route; "dev"; Linux_Interface; "metric"; "50"; "proto"; "186"].
Definition wg_show (r : Runtime) : list string := [rt_WG r; "show"; Linux_Interface; "public-key"].
Definition wg_setconf (r : Runtime) (file : string) : list string := [rt_WG r; "setconf"; Linux_Interface; file].

Definition Cleanup (r : Runtime) (p : Profile) : act (result unit) :=
  fun h =>
    let '(h, out) := exec (wg_show r) h in
    match out with
    | None =>
        let '(h, shown) := ip r link_show h in
        (h, match shown with Err _ => Ok tt | Ok _ => Err (ENew "cannot establish interface ownership") end)
    | Some out =>
        if trim_space out <>s Profile_PublicKey p
        then (h, Err (ENew "refusing to remove another WireGuard identity"))
        else ip r link_delete h
    end.

Fixpoint add_routes (r : Runtime) (routes : list string) : act (result unit) :=
  fun h =>
    match routes with
    | [] => (h, Ok tt)
    | route :: rest =>
        let '(h, e) := ip r (route_add route) h in
        match e with Err e => (h, Err e) | Ok _ => add_routes r rest h end
    end.
(** [Setup] after the interface was created. *)
Definition configure (r : Runtime) (p : Profile) (dir : string) : act (result unit) :=
  fun h =>
    let conf := sys_join dir "wg.conf" in
    let '(h, e) := write_new conf (WireGuard p) h in
    match e with Err e => (h, Err e) | Ok _ =>
    let '(h, out) := exec (wg_setconf r conf) h in
    match out with None => (h, Err (ENew "native WireGuard configuration failed")) | Some _ =>
    let '(h, e) := ip r (address_add (lp_Address p)) h in
    match e with Err e => (h, Err e) | Ok _ =>
    let '(h, e) := ip r link_up h in
    match e with Err e => (h, Err e) | Ok _ => add_routes r (lp_AllowedIPs p) h
    end end end end.
Definition Setup (r : Runtime) (p : Profile) (dir : string) : act (result unit) :=
  fun h =>
    match Validate p with
    | Err e => (h, Err e)
    | Ok _ =>
        let '(h, e) := ip r link_add h in
        match e with
        | Err e => (h, Err e)
        | Ok _ =>
            let '(h, e) := configure r p dir h in
            match e with
            | Ok _ => (h, Ok tt)
            | Err e => let '(h, _) := ip r link_delete h in (h, Err e)   (* the deferred removal *)
            end
        end
    end.

(** ** The ownership receipt *)

Record receipt := mkReceipt { rc_Index : Z; rc_PublicKey : string }.
Definition receipt_json (c : receipt) : json :=
  JObj [("ifindex", JNum (itoa (rc_Index c))); ("public_key", JStr (rc_PublicKey c))].
(** [json.Unmarshal]: other members are ignored. *)
Definition receipt_field (c : receipt) (m : string * json) : option receipt :=
  let '(k, v) := m in
  if field_match "ifindex" k then option_map (fun x => mkReceipt x (rc_PublicKey c)) (decode_int v (rc_Index c))
  else if field_match "public_key" k then option_map (fun x => mkReceipt (rc_Index c) x) (decode_string v (rc_PublicKey c))
  else Some c.
Definition read_receipt (b : string) : option receipt :=
  match parse_json b with Some v => decode_struct receipt_field v (mkReceipt 0 "") | None => None end.

Definition CleanupOwned (r : Runtime) (p : Profile) (path : string) : act (result unit) :=
  fun h =>
    let data := sys_read h path in
    let h := h ++ [SReadFile path data] in
    match data with
    | FNotExist => (h, Ok tt)
    | FReadError => (h, Err (ENew "cannot read interface ownership receipt"))
    | FRead b =>
        match read_receipt b with
        | None => (h, Err (ENew "invalid interface ownership receipt"))
        | Some owned =>
            if rc_PublicKey owned <>s Profile_PublicKey p then (h, Err (ENew "invalid interface ownership receipt"))
            else
              let remove h := let e := sys_remove h path in (h ++ [SRemove path e], e) in
              let n := sys_index h in
              let h := h ++ [SIndex n] in
              match n with
              | Some index =>
                  if negb (index =? rc_Index owned) then (h, Err (ENew "refusing a replacement interface"))
                  else let '(h, e) := Cleanup r p h in
                       match e with Err e => (h, Err e) | Ok _ => remove h end
              | None =>
                  let '(h, shown) := ip r link_show h in
                  match shown with Ok _ => (h, Err (ENew "cannot verify interface index")) | Err _ => remove h end
              end
        end
    end.

(** ** run *)

Context `{YamlLib}.

(** The application over the rendered discovery file. *)
Definition run_app (p : Profile) (dir : string) : act (result unit) :=
  fun h =>
    match Profile_Discovery p with
    | Err e => (h, Err e)
    | Ok yml =>
        let path := sys_join dir "stunmesh.yml" in
        let '(h, e) := write_new path yml h in
        match e with Err e => (h, Err e) | Ok _ =>
        let e := sys_app_new h path in
        let h := h ++ [SAppNew path e] in
        match e with Err e => (h, Err e) | Ok _ =>
        let e := sys_app_run h in
        let h := h ++ [SAppRun e] in
        (h ++ [SAppClose], e)
        end end
    end.
(** Between [Setup] and the deferred [Cleanup]. *)
Definition run_inner (r : Runtime) (p : Profile) (dir ownership : string) : act (result unit) :=
  fun h =>
    if ownership =s "" then run_app p dir h
    else
      let n := sys_index h in
      let h := h ++ [SIndex n] in
      match n with
      | None => (h, Err (ENew "cannot record owned interface"))
      | Some index =>
          let '(h, e) := write_new ownership (marshal (receipt_json (mkReceipt index (Profile_PublicKey p)))) h in
          match e with
          | Err e => (h, Err e)
          | Ok _ =>
              let '(h, e) := run_app p dir h in
              let '(h, _) := CleanupOwned r p ownership h in (h, e)
          end
      end.
Definition run (p : Profile) (ownership : string) : act (result unit) :=
  fun h =>
    let dir := sys_mkdir h in
    let h := h ++ [SMkdir dir] in
    match dir with
    | None => (h, Err (ENew "cannot allocate private runtime directory"))
    | Some dir =>
        let '(h, e) := Setup Native p dir h in
        let '(h, e) :=
          match e with
          | Err e => (h, Err e)
          | Ok _ =>
              let '(h, e) := run_inner Native p dir ownership h in
              let '(h, _) := Cleanup Native p h in (h, e)
          end in
        (h ++ [SRemoveAll dir], e)
    end.
Definition Run (p : Profile) : act (result unit) := run p "".
Definition RunOwned (p : Profile) : act (result unit) := run p OwnershipFile.
End runtime.
