(* ===== verification/LinuxRuntimeFacts.v ===== *)
(** * Taking the interface up and down: what is run, and whose interface it is *)

From S2P Require Import Prelude GoStr Codec Netip NetipFacts Json JsonFacts Validation Discovery GoTime TextFacts Entity Plugin PluginFacts JsonDecode Config ConfigFacts Provision ProvisionFacts LinuxProfile LinuxProfileFacts LinuxRuntime.

Section runtime.
Context `{tables : UnicodeTables} `{urls : UrlLib} `{wgt : WgTypes} `{host : LinuxHost}.

(** A command that succeeded, and a trace of them. *)
Definition succeeded (argv : list string) (s : Step) : Prop := exists out, s = SExec argv (Some out).
Definition all_succeeded (cmds : list (list string)) (steps : list Step) : Prop := Forall2 succeeded cmds steps.

Lemma ip_trace r args h h' e : ip r args h = (h', e) ->
  exists out, h' = h ++ [SExec (ip_argv r args) out] /\
    match e with Ok _ => exists o, out = Some o | Err _ => out = None end.
Proof.
  unfold ip, exec. intros E. injection E as <- <-. eexists. split; [reflexivity|].
  destruct (sys_exec h (ip_argv r args)) as [o|]; [by exists o|done].
Qed.

Lemma add_routes_trace r routes : forall h h' e, add_routes r routes h = (h', e) ->
  exists steps, h' = h ++ steps /\
    match e with
    | Ok _ => all_succeeded (map (fun x => ip_argv r (route_add x)) routes) steps
    | Err _ => True
    end.
Proof.
  induction routes as [|x routes IH]; intros h h' e; cbn [add_routes].
  { intros [<- <-]%pair_equal_spec. exists []. split; [by rewrite app_nil_r|constructor]. }
  destruct (ip r (route_add x) h) as [h1 e1] eqn:E. apply ip_trace in E as (out & -> & He).
  destruct e1 as [u|err].
  - intros (steps & -> & Hs)%IH. destruct He as [o ->]. exists (SExec (ip_argv r (route_add x)) (Some o) :: steps).
    split; [by rewrite <-app_assoc|]. destruct e; [|done]. cbn [map]. constructor; [by exists o|exact Hs].
  - intros [<- <-]%pair_equal_spec. by eexists.
Qed.

(** The commands of a complete configuration, in order. *)
Definition configure_cmds (r : Runtime) (p : Profile) (dir : string) : list (list string) :=
  [wg_setconf r (sys_join dir "wg.conf"); ip_argv r (address_add (lp_Address p)); ip_argv r link_up] ++
  map (fun x => ip_argv r (route_add x)) (lp_AllowedIPs p).
Lemma configure_trace r p dir h h' e : configure r p dir h = (h', e) ->
  exists steps, h' = h ++ steps /\
    match e with
    | Ok _ => exists cmds, steps = SWrite (sys_join dir "wg.conf") (WireGuard p) (Ok tt) :: cmds /\
                           all_succeeded (configure_cmds r p dir) cmds
    | Err _ => True
    end.
Proof.
  unfold configure, write_new, exec. cbv zeta. destruct (sys_write h _ _) as [[]|]; cycle 1.
  { intros [<- <-]%pair_equal_spec. by eexists. }
  set (h1 := h ++ _). destruct (sys_exec h1 _) as [o|] eqn:Eo; cycle 1.
  { intros [<- <-]%pair_equal_spec. unfold h1. rewrite <-app_assoc. by eexists. }
  destruct (ip r (address_add _) _) as [h2 e2] eqn:E2. apply ip_trace in E2 as (o2 & -> & He2). unfold h1.
  destruct e2; cycle 1. { intros [<- <-]%pair_equal_spec. rewrite <-!app_assoc. by eexists. }
  destruct He2 as [u2 ->]. destruct (ip r link_up _) as [h3 e3] eqn:E3. apply ip_trace in E3 as (o3 & -> & He3).
  destruct e3; cycle 1. { intros [<- <-]%pair_equal_spec. rewrite <-!app_assoc. by eexists. }
  destruct He3 as [u3 ->]. intros (steps & -> & Hs)%add_routes_trace. rewrite <-!app_assoc. cbn [app].
  eexists. split; [reflexivity|]. destruct e; [|done]. eexists. split; [reflexivity|]. unfold configure_cmds. cbn [app].
  repeat (constructor; [by eexists|]). exact Hs.
Qed.

(** [Setup] in full: an invalid profile runs nothing; an interface that cannot be
    created, because one is there already, is left alone; a later failure
    deletes the interface that was created, last of all; and a success is
    exactly the sequence create, write, configure, address, up, routes, with
    every command having succeeded. *)
Lemma Setup_trace r p dir h h' e : Setup r p dir h = (h', e) ->
  match Validate p with
  | Err _ => h' = h /\ is_ok e = false
  | Ok _ => exists added, 
      match added with
      | None => h' = h ++ [SExec (ip_argv r link_add) None] /\ is_ok e = false
      | Some o => exists steps, 
          match e with
          | Ok _ => exists cmds, h' = h ++ SExec (ip_argv r link_add) (Some o) :: steps /\
              steps = SWrite (sys_join dir "wg.conf") (WireGuard p) (Ok tt) :: cmds /\ all_succeeded (configure_cmds r p dir) cmds
          | Err _ => exists out, h' = h ++ SExec (ip_argv r link_add) (Some o) :: steps ++ [SExec (ip_argv r link_delete) out]
          end
      end
  end.
Proof.
  unfold Setup. destruct (Validate p) as [[]|]; [|by intros [<- <-]%pair_equal_spec].
  destruct (ip r link_add h) as [h1 e1] eqn:E1. apply ip_trace in E1 as (out & -> & He1).
  destruct e1; [|intros [<- <-]%pair_equal_spec; exists None; by subst]. destruct He1 as [o ->].
  destruct (configure r p dir _) as [h2 e2] eqn:E2. apply configure_trace in E2 as (steps & -> & Hs).
  destruct e2.
  - intros [<- <-]%pair_equal_spec. exists (Some o), steps. destruct Hs as (cmds & Es & Hc). exists cmds.
    split_and!; [by rewrite <-app_assoc|exact Es|exact Hc].
  - destruct (ip r link_delete _) as [h3 e3] eqn:E3. apply ip_trace in E3 as (out & -> & _).
    intros [<- <-]%pair_equal_spec. exists (Some o), steps, out. by rewrite <-!app_assoc.
Qed.

Definition is_delete (r : Runtime) (s : Step) : Prop := exists out, s = SExec (ip_argv r link_delete) out.
(** [Cleanup] deletes the interface only when the tool has just reported the
    profile's own public key for it, and never anything else. *)
Lemma Cleanup_trace r p h h' e : Cleanup r p h = (h', e) ->
  (exists shown, h' = h ++ [SExec (wg_show r) None; SExec (ip_argv r link_show) shown] /\
     (is_ok e = true <-> shown = None)) \/
  (exists out, h' = h ++ [SExec (wg_show r) (Some out)] /\ trim_space out <> Profile_PublicKey p /\ is_ok e = false) \/
  (exists out deleted, h' = h ++ [SExec (wg_show r) (Some out); SExec (ip_argv r link_delete) deleted] /\
     trim_space out = Profile_PublicKey p /\ (is_ok e = true <-> exists o, deleted = Some o)).
Proof.
  unfold Cleanup, exec. destruct (sys_exec h (wg_show r)) as [out|].
  - destruct (String.eqb_spec (trim_space out) (Profile_PublicKey p)) as [Ek|Ek]; cbn [negb].
    + intros E. apply ip_trace in E as (d & -> & He). right. right. exists out, d. rewrite <-app_assoc.
      split_and!; [done|done|]. destruct e; cbn; [|subst; split; [done|by intros [? [=]]]]. destruct He as [o ->].
      split; [intros _; by exists o|done].
    + intros [<- <-]%pair_equal_spec. right. left. by exists out.
  - destruct (ip r link_show _) as [h1 e1] eqn:E1. apply ip_trace in E1 as (d & -> & He).
    intros [<- <-]%pair_equal_spec. left. exists d. rewrite <-app_assoc. split; [done|].
    destruct e1; cbn; [destruct He as [o ->]; split; [done|by intros [=]]|by subst].
Qed.

(** ** The receipt's guard *)

Definition deletes (s : Step) : Prop := exists out, s = SExec (ip_argv Native link_delete) out.
Ltac not_delete := let x := fresh in intros [x [=]].
(** The deletion was preceded by the tool's report of the profile's key. *)
Definition reported_own (p : Profile) (steps : list Step) : Prop :=
  exists out, In (SExec (wg_show Native) (Some out)) steps /\ trim_space out = Profile_PublicKey p.
Lemma Cleanup_reported p h h' e : Cleanup Native p h = (h', e) ->
  exists steps, h' = h ++ steps /\ forall s, In s steps -> deletes s -> reported_own p steps.
Proof.
  intros [(shown & -> & _)|[(out & -> & _)|(out & d & -> & Ho & _)]]%Cleanup_trace; eexists; (split; [reflexivity|]).
  - intros s [<-|[<-|[]]]; not_delete.
  - intros s [<-|[]]; not_delete.
  - intros _ _ _. exists out. split; [by left|done].
Qed.
(** A replacement interface is never deleted: [CleanupOwned] deletes only when
    the receipt names the profile's key and the very interface there is now,
    and the tool still reports that key for it. *)
Lemma CleanupOwned_trace p path h h' e :
  CleanupOwned Native p path h = (h', e) ->
  exists steps, h' = h ++ steps /\
  forall s, In s steps -> deletes s ->
    exists b owned, In (SReadFile path (FRead b)) steps /\ read_receipt b = Some owned /\
      rc_PublicKey owned = Profile_PublicKey p /\ In (SIndex (Some (rc_Index owned))) steps /\ reported_own p steps.
Proof.
  assert (forall steps r, (forall s, In s steps -> ~ deletes s) -> (h ++ steps, r) = (h', e) ->
    exists steps, h' = h ++ steps /\ forall s, In s steps -> deletes s -> exists b owned, In (SReadFile path (FRead b)) steps /\
      read_receipt b = Some owned /\ rc_PublicKey owned = Profile_PublicKey p /\ In (SIndex (Some (rc_Index owned))) steps /\
      reported_own p steps) as Hplain.
  { intros steps r Hn [<- _]%pair_equal_spec. exists steps. split; [done|]. intros s Hs Hd. by destruct (Hn s Hs). }
  unfold CleanupOwned. cbv zeta. set (data := sys_read h path).
  destruct data as [b| |]; [|apply Hplain; intros s [<-|[]]; not_delete..].
  destruct (read_receipt b) as [owned|] eqn:Er; [|apply Hplain; intros s [<-|[]]; not_delete].
  destruct (String.eqb_spec (rc_PublicKey owned) (Profile_PublicKey p)) as [Ek|]; cbn [negb];
    [|apply Hplain; intros s [<-|[]]; not_delete].
  rewrite <-!app_assoc. cbn [app]. destruct (sys_index _) as [index|].
  - destruct (Z.eqb_spec index (rc_Index owned)) as [->|]; cbn [negb];
      [|apply Hplain; intros s [<-|[<-|[]]]; not_delete].
    destruct (Cleanup Native p _) as [h1 e1] eqn:Ec. apply Cleanup_reported in Ec as (steps & -> & Hs).
    assert (forall tail, (forall s, In s tail -> ~ deletes s) -> exists more,
      (h ++ [SReadFile path (FRead b); SIndex (Some (rc_Index owned))]) ++ steps ++ tail = h ++ more /\
      forall s, In s more -> deletes s -> exists b0 owned0, In (SReadFile path (FRead b0)) more /\
        read_receipt b0 = Some owned0 /\ rc_PublicKey owned0 = Profile_PublicKey p /\ In (SIndex (Some (rc_Index owned0))) more /\
        reported_own p more) as Hfin.
    { intros tail Ht. rewrite <-app_assoc. eexists. split; [reflexivity|].
      intros s Hin Hd. cbn [app In] in Hin. destruct Hin as [<-|[<-|Hin]].
      { by destruct Hd. } { by destruct Hd. }
      apply in_app_or in Hin as [H1|H2]; [|by destruct (Ht s H2)].
      exists b, owned. destruct (Hs s H1 Hd) as (out & Ho & Ht'). split_and!; [by left|done..|by right; left|].
      exists out. split; [|done]. cbn [app In]. do 2 right. apply in_or_app. left. exact Ho. }
    destruct e1 as [u|err]; intros [<- _]%pair_equal_spec.
    + rewrite <-app_assoc. apply Hfin. intros s [<-|[]]. not_delete.
    + rewrite <-(app_nil_r steps). apply Hfin. by intros ? [].
  - destruct (ip Native link_show _) as [h1 e1] eqn:E1. apply ip_trace in E1 as (o & -> & _). rewrite <-app_assoc. cbn [app].
    destruct e1; [|rewrite <-app_assoc; cbn [app]]; apply Hplain.
    + intros s [<-|[<-|[<-|[]]]]; not_delete.
    + intros s [<-|[<-|[<-|[<-|[]]]]]; not_delete.
Qed.

(** ** Traces, compositionally *)

(** Whatever [a] does, it only appends steps, all satisfying [P]. *)
Definition does {A} (P : Step -> Prop) (a : act A) : Prop :=
  forall h, exists steps, fst (a h) = h ++ steps /\ Forall P steps.
Lemma does_eq {A} (P : Step -> Prop) (a : act A) h h' e : does P a -> a h = (h', e) ->
  exists steps, h' = h ++ steps /\ Forall P steps.
Proof. intros Ha E. destruct (Ha h) as (steps & Hs & Hp). rewrite E in Hs. by exists steps. Qed.
Lemma does_one {A} (P : Step -> Prop) (f : History -> Step) (g : History -> A) :
  (forall h, P (f h)) -> does P (fun h => (h ++ [f h], g h)).
Proof. intros Hf h. exists [f h]. split; [done|by repeat constructor]. Qed.
Lemma does_nil {A} (P : Step -> Prop) (x : A) : does P (fun h => (h, x)).
Proof. intros h. exists []. split; [by rewrite app_nil_r|constructor]. Qed.
Lemma does_bind {A B} (P : Step -> Prop) (a : act A) (k : A -> act B) :
  does P a -> (forall x, does P (k x)) -> does P (fun h => let '(h, x) := a h in k x h).
Proof.
  intros Ha Hk h. destruct (a h) as [h1 x] eqn:E. destruct (does_eq _ _ _ _ _ Ha E) as (s1 & -> & H1).
  destruct (Hk x (h ++ s1)) as (s2 & -> & H2). exists (s1 ++ s2). split; [by rewrite app_assoc|by apply Forall_app].
Qed.
Lemma does_ip (P : Step -> Prop) r args : (forall out, P (SExec (ip_argv r args) out)) -> does P (ip r args).
Proof. intros Hp. unfold ip. apply does_bind; [by apply does_one|]. intros [o|]; apply does_nil. Qed.

(** Anything but the creation of the interface or its configuration. *)
Definition quiet (s : Step) : Prop :=
  match s with
  | SExec argv _ => argv <> ip_argv Native link_add /\ forall f, argv <> wg_setconf Native f
  | _ => True
  end.
Lemma Cleanup_quiet p : does quiet (Cleanup Native p).
Proof.
  unfold Cleanup. apply does_bind; [by apply does_one|]. intros [out|].
  - destruct (negb _); [apply does_nil|by apply does_ip].
  - apply does_bind; [by apply does_ip|]. intros [|]; apply does_nil.
Qed.
(** One step, then the rest. *)
Lemma does_after {A} (P : Step -> Prop) (s : Step) (k : act A) h :
  P s -> does P k -> exists steps, fst (k (h ++ [s])) = h ++ steps /\ Forall P steps.
Proof.
  intros Hs Hk. destruct (Hk (h ++ [s])) as (steps & -> & Hp). exists (s :: steps).
  split; [by rewrite <-app_assoc|by constructor].
Qed.
Lemma remove_quiet path : does quiet (fun h => let e := sys_remove h path in (h ++ [SRemove path e], e)).
Proof. by apply does_one. Qed.

(** [CleanupOwned] after the receipt was read, and after the index was. *)
Definition owned_indexed (p : Profile) (path : string) (owned : receipt) (n : option Z) : act (result unit) :=
  fun h =>
    match n with
    | Some index =>
        if negb (index =? rc_Index owned) then (h, Err (ENew "refusing a replacement interface"))
        else let '(h, e) := Cleanup Native p h in
             match e with Err e => (h, Err e) | Ok _ => let e := sys_remove h path in (h ++ [SRemove path e], e) end
    | None =>
        let '(h, shown) := ip Native link_show h in
        match shown with Ok _ => (h, Err (ENew "cannot verify interface index")) | Err _ => let e := sys_remove h path in (h ++ [SRemove path e], e) end
    end.
Lemma owned_indexed_quiet p path owned n : does quiet (owned_indexed p path owned n).
Proof.
  destruct n as [index|]; unfold owned_indexed.
  - destruct (negb _); [apply does_nil|]. apply does_bind; [apply Cleanup_quiet|].
    intros [|]; [apply remove_quiet|apply does_nil].
  - apply does_bind; [by apply does_ip|]. intros [|]; [apply does_nil|apply remove_quiet].
Qed.
Lemma CleanupOwned_quiet p path : does quiet (CleanupOwned Native p path).
Proof.
  intros h. unfold CleanupOwned. cbv zeta. destruct (sys_read h path) as [b| |];
    [|by apply (does_after quiet (SReadFile path _) (fun h => (h, _))); [|apply does_nil]..].
  destruct (read_receipt b) as [owned|];
    [|by apply (does_after quiet (SReadFile path _) (fun h => (h, _))); [|apply does_nil]].
  destruct (negb _); [by apply (does_after quiet (SReadFile path _) (fun h => (h, _))); [|apply does_nil]|].
  apply (does_after quiet (SReadFile path _) (fun h => owned_indexed p path owned (sys_index h) (h ++ [SIndex (sys_index h)])));
    [done|]. intros h1. apply (does_after quiet (SIndex _)); [done|apply owned_indexed_quiet].
Qed.

(** The run between [Setup] and the last [Cleanup]. *)
Lemma write_quiet path data : does quiet (write_new path data).
Proof. by apply does_one. Qed.
Context `{yaml : YamlLib}.
Lemma run_app_quiet p dir : does quiet (run_app p dir).
Proof.
  unfold run_app. destruct (Profile_Discovery p) as [yml|]; [|apply does_nil]. cbv zeta.
  apply does_bind; [apply write_quiet|]. intros [|]; [|apply does_nil].
  intros h. set (e := sys_app_new h _). destruct e as [|].
  - destruct (sys_app_run _) as [|]; eexists [_; _; _]; rewrite <-!app_assoc; (split; [reflexivity|by repeat constructor]).
  - eexists [_]. split; [reflexivity|by repeat constructor].
Qed.
Lemma run_inner_quiet p dir ownership : does quiet (run_inner Native p dir ownership).
Proof.
  intros h. unfold run_inner. destruct (ownership =s ""); [apply run_app_quiet|]. cbv zeta.
  destruct (sys_index h) as [index|]; [|by apply (does_after quiet (SIndex _) (fun h => (h, _))); [|apply does_nil]].
  apply (does_after quiet (SIndex (Some index)) (fun h =>
    let '(h, e) := write_new ownership (marshal (receipt_json (mkReceipt index (Profile_PublicKey p)))) h in
    match e with
    | Err e => (h, Err e)
    | Ok _ => let '(h, e) := run_app p dir h in let '(h, _) := CleanupOwned Native p ownership h in (h, e)
    end)); [done|]. apply does_bind; [apply write_quiet|].
  intros [|]; [|apply does_nil]. apply does_bind; [apply run_app_quiet|]. intros e.
  apply does_bind; [apply CleanupOwned_quiet|]. intros e2. apply does_nil.
Qed.

(** ** What the calls do to the host

    The part of the host the runtime changes: the files it wrote, and the
    interface - absent, there without a configuration, or configured from a
    text. *)
Record HostState := mkHost { hs_files : list (string * string); hs_link : option (option string) }.
Definition hs_file (st : HostState) (path : string) : option string :=
  option_map snd (find (fun f => f.1 =s path) (hs_files st)).
Definition host_step (st : HostState) (s : Step) : HostState :=
  match s with
  | SWrite path data (Ok _) => mkHost ((path, data) :: hs_files st) (hs_link st)
  | SExec argv (Some _) =>
      if decide (argv = ip_argv Native link_add) then mkHost (hs_files st) (Some None)
      else if decide (argv = ip_argv Native link_delete) then mkHost (hs_files st) None
      else match argv, hs_link st with
           | [w; c; i; file], Some _ =>
               if decide ([w; c; i; file] = wg_setconf Native file) then mkHost (hs_files st) (Some (hs_file st file)) else st
           | _, _ => st
           end
  | _ => st
  end.
Definition host_at (h : History) : HostState := fold_left host_step h (mkHost [] None).
(** How the native tools answer, given that state: no second interface of the
    name is created, one that is there can be deleted, and [wg show] reports the
    public key of the configuration it was given. *)
Record LawfulHost (p : Profile) : Prop := {
  lw_add h : hs_link (host_at h) <> None -> sys_exec h (ip_argv Native link_add) = None;
  lw_delete h : hs_link (host_at h) <> None -> exists out, sys_exec h (ip_argv Native link_delete) = Some out;
  lw_show h : hs_link (host_at h) = Some (Some (WireGuard p)) ->
              exists out, sys_exec h (wg_show Native) = Some out /\ trim_space out = Profile_PublicKey p
}.

Lemma host_at_app h steps : host_at (h ++ steps) = fold_left host_step steps (host_at h).
Proof. apply fold_left_app. Qed.
Lemma quiet_link_step L st s : quiet s -> hs_link st = L \/ hs_link st = None ->
  hs_link (host_step st s) = L \/ hs_link (host_step st s) = None.
Proof.
  destruct s as [argv [out|]|path data []| | | | | | | |]; cbn [quiet host_step]; try done.
  intros [Ha Hc] Hl. rewrite decide_False by done. destruct (decide (argv = ip_argv Native link_delete)); [by right|].
  destruct argv as [|w [|c [|i [|file [|? ?]]]]]; try done. destruct (hs_link st) as [|] eqn:El; [|by rewrite El].
  rewrite decide_False by apply Hc. by rewrite El.
Qed.
Lemma quiet_link L steps : forall st, Forall quiet steps -> hs_link st = L \/ hs_link st = None ->
  hs_link (fold_left host_step steps st) = L \/ hs_link (fold_left host_step steps st) = None.
Proof.
  induction steps as [|s steps IH]; intros st Hq Hl; [done|]. apply Forall_cons_1 in Hq as [Hs Hq].
  cbn [fold_left]. apply IH; [done|]. by apply quiet_link_step.
Qed.
(** An [ip] command other than the creation and the removal of the interface. *)
Lemma other_ip_step st a args out : ip_argv Native (a :: args) <> ip_argv Native link_add ->
  ip_argv Native (a :: args) <> ip_argv Native link_delete -> host_step st (SExec (ip_argv Native (a :: args)) out) = st.
Proof.
  intros Ha Hd. cbn [host_step]. destruct out as [out|]; [|done]. rewrite !decide_False by done.
  unfold ip_argv, Native, wg_setconf. cbn [rt_IP rt_WG app]. destruct args as [|x [|? ?]]; [done| |done].
  destruct (hs_link st) eqn:El; [|done]. by rewrite decide_False by (intros [=]).
Qed.
Lemma routes_link routes steps : all_succeeded (map (fun x => ip_argv Native (route_add x)) routes) steps ->
  forall st, fold_left host_step steps st = st.
Proof.
  revert steps. induction routes as [|x routes IH]; intros steps H st; inversion_clear H as [|? s ? rest [out ->] Hr]; [done|].
  cbn [fold_left]. unfold route_add at 1. rewrite other_ip_step by (intros [=]). by apply IH.
Qed.
Lemma add_step st o : host_step st (SExec (ip_argv Native link_add) (Some o)) = mkHost (hs_files st) (Some None).
Proof. reflexivity. Qed.
Lemma write_step st path data u : host_step st (SWrite path data (Ok u)) = mkHost ((path, data) :: hs_files st) (hs_link st).
Proof. reflexivity. Qed.
Lemma delete_step st o : host_step st (SExec (ip_argv Native link_delete) (Some o)) = mkHost (hs_files st) None.
Proof. reflexivity. Qed.
Lemma setconf_step st f o c : hs_link st = Some c ->
  host_step st (SExec (wg_setconf Native f) (Some o)) = mkHost (hs_files st) (Some (hs_file st f)).
Proof.
  intros Hl. cbn [host_step]. rewrite !decide_False by (unfold ip_argv, wg_setconf; intros [=]).
  unfold wg_setconf. rewrite Hl. by rewrite decide_True.
Qed.
(** After a successful [Setup] the interface carries the profile's configuration. *)
Lemma setup_link p dir cmds o st : all_succeeded (configure_cmds Native p dir) cmds ->
  hs_link (fold_left host_step
    (SExec (ip_argv Native link_add) (Some o) :: SWrite (sys_join dir "wg.conf") (WireGuard p) (Ok tt) :: cmds) st) =
  Some (Some (WireGuard p)).
Proof.
  intros H. unfold configure_cmds in H. cbn [app] in H.
  inversion_clear H as [|? ? ? ? [o1 ->] H1]. inversion_clear H1 as [|? ? ? ? [o2 ->] H2].
  inversion_clear H2 as [|? ? ? ? [o3 ->] H3]. cbn [fold_left]. unfold address_add, link_up.
  rewrite (routes_link _ _ H3), !other_ip_step by (intros [=]). rewrite add_step, write_step.
  erewrite setconf_step by done. cbn [hs_link hs_files].
  unfold hs_file. cbn [find hs_files fst snd option_map]. by rewrite String.eqb_refl.
Qed.
(** Deleting, whatever was there. *)
Lemma delete_link p h : LawfulHost p ->
  hs_link (host_at (h ++ [SExec (ip_argv Native link_delete) (sys_exec h (ip_argv Native link_delete))])) = None.
Proof.
  intros L. rewrite host_at_app. cbn [fold_left]. destruct (hs_link (host_at h)) as [c|] eqn:E.
  - destruct (lw_delete _ L h) as [out ->]; [by rewrite E|]. by rewrite delete_step.
  - destruct (sys_exec h _); [by rewrite delete_step|done].
Qed.

(** The last [Cleanup] of a run. *)
Lemma Cleanup_link p h : LawfulHost p ->
  hs_link (host_at h) = Some (Some (WireGuard p)) \/ hs_link (host_at h) = None ->
  hs_link (host_at (fst (Cleanup Native p h))) = None.
Proof.
  intros L [Hl|Hl].
  - unfold Cleanup, exec. destruct (lw_show _ L _ Hl) as (out & -> & Hk). rewrite Hk, String.eqb_refl. cbn [negb].
    unfold ip, exec. cbn [fst]. by apply (delete_link p).
  - destruct (Cleanup_quiet p h) as (steps & -> & Hq). rewrite host_at_app.
    by destruct (quiet_link None steps (host_at h) Hq (or_intror Hl)).
Qed.
(** The interface is created only when there was none. *)
Lemma created_absent p h o : LawfulHost p -> sys_exec h (ip_argv Native link_add) = Some o -> hs_link (host_at h) = None.
Proof. intros L Ea. destruct (hs_link (host_at h)) eqn:E; [|done]. by rewrite (lw_add _ L h) in Ea by (by rewrite E). Qed.
Lemma setup_absent p dir h h' u : LawfulHost p -> Setup Native p dir h = (h', Ok u) -> hs_link (host_at h) = None.
Proof.
  intros L. unfold Setup. destruct (Validate p); [|intros [=]].
  unfold ip at 1, exec. destruct (sys_exec h _) as [o|] eqn:Ea; [by intros _; eapply created_absent|].
  intros [=].
Qed.
(** A failed [Setup] leaves the interface as it was. *)
Lemma failed_setup_link p dir h h' err : LawfulHost p -> Setup Native p dir h = (h', Err err) ->
  hs_link (host_at h') = hs_link (host_at h).
Proof.
  intros L. unfold Setup. destruct (Validate p); [|by intros [<- _]%pair_equal_spec].
  unfold ip at 1, exec. destruct (sys_exec h _) as [o|] eqn:Ea.
  - rewrite (created_absent p h o L Ea).
    destruct (configure _ _ _ _) as [h1 [u|e]]; [intros [=]|].
    unfold ip, exec. intros [<- _]%pair_equal_spec. by apply (delete_link p).
  - intros [<- _]%pair_equal_spec. by rewrite host_at_app.
Qed.
Lemma inert_link h s : match s with SExec _ _ | SWrite _ _ _ => False | _ => True end ->
  hs_link (host_at (h ++ [s])) = hs_link (host_at h).
Proof. intros Hs. rewrite host_at_app. by destruct s. Qed.

Lemma run_link p ownership h : LawfulHost p -> hs_link (host_at (fst (run p ownership h))) = hs_link (host_at h).
Proof.
  intros L. unfold run. cbv zeta. destruct (sys_mkdir h) as [dir|]; [|by apply inert_link].
  destruct (Setup Native p dir _) as [h1 e1] eqn:Es. destruct e1 as [u|err].
  - destruct (run_inner Native p dir ownership h1) as [h2 e2] eqn:Er.
    pose proof (run_inner_quiet p dir ownership h1) as (steps & Hs & Hq). rewrite Er in Hs. cbn [fst] in Hs. subst h2.
    apply Setup_trace in Es as Ht.
    assert (hs_link (host_at h1) = Some (Some (WireGuard p))) as Hl1.
    { destruct (Validate p); [|by destruct Ht]. destruct Ht as ([o|] & Ht); [|by destruct Ht].
      destruct Ht as (st & cmds & -> & -> & Hc). rewrite host_at_app. by apply setup_link. }
    pose proof (Cleanup_link p (h1 ++ steps) L) as Hc. destruct (Cleanup Native p (h1 ++ steps)) as [h3 e3] eqn:Ec.
    cbn [fst] in *. rewrite inert_link by done. rewrite Hc.
    2: { rewrite host_at_app. apply quiet_link; [done|by left]. }
    rewrite <-(inert_link h (SMkdir (Some dir))) by done. symmetry. by eapply setup_absent.
  - cbn [fst]. rewrite inert_link by done. rewrite (failed_setup_link _ _ _ _ _ L Es). by apply inert_link.
Qed.

(** ** The properties *)



(** [Setup] on every branch.  An invalid profile runs nothing; an interface
    that cannot be created is left alone; a failure after the creation deletes
    what was created, last of all; a success is exactly create, write, configure,
    address, up and one route per destination, every command having succeeded. *)
Theorem Setup_spec r p dir h h' e : Setup r p dir h = (h', e) ->
  match Validate p with
  | Err _ => h' = h /\ is_ok e = false
  | Ok _ => exists added,
      match added with
      | None => h' = h ++ [SExec (ip_argv r link_add) None] /\ is_ok e = false
      | Some o => exists steps,
          match e with
          | Ok _ => exists cmds, h' = h ++ SExec (ip_argv r link_add) (Some o) :: steps /\
              steps = SWrite (sys_join dir "wg.conf") (WireGuard p) (Ok tt) :: cmds /\ all_succeeded (configure_cmds r p dir) cmds
          | Err _ => exists out, h' = h ++ SExec (ip_argv r link_add) (Some o) :: steps ++ [SExec (ip_argv r link_delete) out]
          end
      end
  end.
Proof. apply Setup_trace. Qed.
End runtime.

(** ** The receipt, written and read back *)

Lemma dec_go_head f : forall n acc, 0 < n -> n < 10 ^ Z.of_nat f ->
  exists c s, dec_go f n acc = String c s /\ c <> "0"%char.
Proof.
  induction f as [|f IH]; intros n acc Hn Hf; [cbn in Hf; lia|]. cbn [dec_go]. destruct (Z.ltb_spec n 10) as [Hs|Hs].
  - eexists _, _. split; [reflexivity|]. intros E. assert (Hd : digit_val (dec_digit (n mod 10)) = Some (n mod 10))
      by (apply digit_val_dec, Z.mod_pos_bound; lia). rewrite E, Z.mod_small in Hd by lia. apply (inj Some) in Hd.
    change (bz "0" - 48) with 0 in Hd. lia.
  - rewrite Nat2Z.inj_succ, Z.pow_succ_r in Hf by lia.
    apply IH; [by apply Z.div_str_pos|]. apply Z.div_lt_upper_bound; [done|exact Hf].
Qed.
Lemma digit_val_digit c d : digit_val c = Some d -> is_digit c = true.
Proof. unfold digit_val. by destruct (is_digit c). Qed.
Lemma take_digits_val s r : forall acc n, digits_val digit_val 10 acc s = Some n ->
  match r with String c _ => is_digit c = false | "" => True end -> take_digits (s +:+ r) = (s, r).
Proof.
  induction s as [|c s IH]; intros acc n Hv Hr; cbn [String.append].
  - destruct r as [|c r]; [done|]. cbn [take_digits]. by rewrite Hr.
  - cbn [digits_val] in Hv. destruct (digit_val c) as [d|] eqn:Ed; [|done]. cbn [take_digits].
    rewrite (digit_val_digit _ _ Ed). by rewrite (IH _ _ Hv Hr).
Qed.
(** An index prints as a JSON number, and is read as one. *)
Lemma parse_number_itoa n r : 0 <= n -> parse_number (itoa n +:+ String "," r) = Some (itoa n, String "," r).
Proof.
  intros Hn. pose proof (dec_nonneg_val n Hn) as Hv. assert (Hi : itoa n = dec_nonneg n).
  { unfold itoa. by destruct (Z.ltb_spec n 0); [lia|]. }
  rewrite Hi. destruct (decide (n = 0)) as [->|Hz]; [done|].
  destruct (dec_go_head (S (Z.to_nat (Z.log2 n))) n "" ltac:(lia) (dec_fuel n Hn)) as (c & s & Hd & Hc).
  fold (dec_nonneg n) in Hd. rewrite Hd in *. pose proof (take_digits_val _ (String "," r) _ _ Hv eq_refl) as Ht.
  pose proof Hv as Hdig. cbn [digits_val] in Hdig. destruct (digit_val c) as [d|] eqn:Ed; [|done].
  apply digit_val_digit in Ed. unfold parse_number. cbn [String.append] in *.
  destruct c as [[] [] [] [] [] [] [] []]; try discriminate Ed; try done; rewrite Ht;
    cbn [parse_frac parse_exp Ascii.eqb Bool.eqb orb String.append]; by rewrite sapp_nil_r.
Qed.
Lemma parse_value_itoa f n r : 0 <= n -> parse_value (S f) (itoa n +:+ String "," r) = Some (JNum (itoa n), String "," r).
Proof.
  intros Hn. pose proof (parse_number_itoa n r Hn) as Hp. pose proof (dec_nonneg_val n Hn) as Hv.
  assert (Hi : itoa n = dec_nonneg n). { unfold itoa. by destruct (Z.ltb_spec n 0); [lia|]. }
  pose proof (itoa_ne n Hn) as Hne. rewrite Hi in *. destruct (dec_nonneg n) as [|c s]; [done|].
  cbn [digits_val] in Hv. destruct (digit_val c) as [d|] eqn:Ed; [|done]. apply digit_val_digit in Ed.
  cbn [String.append] in *.
  destruct c as [[] [] [] [] [] [] [] []]; try discriminate Ed; cbn [parse_value skip_ws]; 
    match goal with |- context [is_ws ?c] => change (is_ws c) with false end; cbn iota;
    match goal with |- context [bz ?c =? 34] => change (bz c =? 34) with false end; cbn [Ascii.eqb Bool.eqb]; cbn iota; by rewrite Hp.
Qed.
Lemma receipt_read c : 0 <= rc_Index c < 2 ^ 63 -> sforall json_safe (rc_PublicKey c) = true ->
  read_receipt (marshal (receipt_json c)) = Some c.
Proof.
  intros Hi Hk. destruct c as [i k]. cbn [rc_Index rc_PublicKey] in *. unfold read_receipt, receipt_json. rewrite marshal_obj.
  cbn [map join marshal_member]. unfold marshal_member. cbn [fst snd marshal rc_Index rc_PublicKey].
  rewrite (json_string_safe "ifindex"), (json_string_safe "public_key"), (json_string_safe k) by done.
  replace (parse_json _) with (Some (JObj [("ifindex", JNum (itoa i)); ("public_key", JStr k)])).
  - unfold decode_struct, decode_members, receipt_field.
    change (field_match "ifindex" "ifindex") with true. change (field_match "ifindex" "public_key") with false.
    change (field_match "public_key" "public_key") with true. cbn iota. cbn [decode_int]. by rewrite parse_int64_itoa.
  - symmetry. rewrite !sapp_assoc.
    change (parse_json (String "{" (String dquote (("ifindex" +:+ String dquote "") +:+ ":" +:+ itoa i +:+ "," +:+
      quoted "public_key" +:+ ":" +:+ quoted k +:+ "}"))) = Some (JObj [("ifindex", JNum (itoa i)); ("public_key", JStr k)])).
    apply parse_json_object; [rewrite !slength_app; cbn; lia|]. intros n. etrans.
    { apply (parse_members_step _ "ifindex" (JNum (itoa i)) (itoa i)); [done|]. apply parse_value_itoa. lia. }
    by apply (parse_members_last _ "public_key" (JStr k) (quoted k)); [|apply parse_value_string].
Qed.
(** The receipt [run] writes is read back by [CleanupOwned] as it was
    written: the interface's index and the profile's public key. *)
Theorem receipt_roundtrip c : 0 <= rc_Index c < 2 ^ 63 -> sforall json_safe (rc_PublicKey c) = true ->
  read_receipt (marshal (receipt_json c)) = Some c.
Proof. apply receipt_read. Qed.

(** ** Witnesses *)

(** A host whose tools keep the state the trace says: the interface can be
    created when absent and deleted when present, and [wg show] prints the key
    of [w_profile] once configured. *)
Definition sim_exec (h : History) (argv : list string) : option string :=
  let st := hs_link (host_at h) in
  if decide (argv = ip_argv Native link_add) then match st with None => Some "" | Some _ => None end
  else if decide (argv = ip_argv Native link_delete) then match st with None => None | Some _ => Some "" end
  else if decide (argv = wg_show Native) then
    match st with Some (Some _) => Some (Profile_PublicKey w_profile +:+ unlines [""]) | _ => None end
  else if decide (argv = ip_argv Native link_show) then match st with None => None | Some _ => Some "" end
  else Some "".
#[local] Instance sim_host : LinuxHost := {|
  sys_exec := sim_exec; sys_write := fun _ _ _ => Ok tt; sys_read := fun _ _ => FNotExist;
  sys_index := fun _ => Some 7; sys_remove := fun _ _ => Ok tt; sys_mkdir := fun _ => Some "/run/wg-1";
  sys_app_new := fun _ _ => Ok tt; sys_app_run := fun _ => Err (ENew "context canceled");
  sys_join := fun d f => d +:+ "/" +:+ f |}.
#[local] Instance sim_yaml : YamlLib := {| yaml_Marshal := fun _ => Ok "wg:"; yaml_Unmarshal_any := fun _ => None |}.
Lemma sim_lawful : LawfulHost w_profile.
Proof.
  constructor; intros h Hl; cbn [sys_exec sim_host]; unfold sim_exec.
  - rewrite decide_True by done. by destruct (hs_link _).
  - rewrite decide_False by (unfold ip_argv; intros [=]). rewrite decide_True by done.
    destruct (hs_link _); [by eexists|done].
  - rewrite !decide_False by (unfold ip_argv, wg_show; intros [=]). rewrite decide_True by done. rewrite Hl.
    eexists. split; [reflexivity|]. by vm_compute.
Qed.

(** The receipt of the run, and an interface with the same index. *)
Definition w_receipt : receipt := mkReceipt 7 (Profile_PublicKey w_profile).
Lemma receipt_roundtrip_witness : read_receipt (marshal (receipt_json w_receipt)) = Some w_receipt.
Proof. apply (receipt_roundtrip w_receipt); [by cbn|by vm_compute]. Defined.

(** [Setup] succeeds on this host, and its trace is the one stated. *)
Definition w_setup_steps : list Step :=
  SExec (ip_argv Native link_add) (Some "") :: SWrite "/run/wg-1/wg.conf" (WireGuard w_profile) (Ok tt) ::
  map (fun argv => SExec argv (Some "")) (configure_cmds Native w_profile "/run/wg-1").
Lemma w_setup : Setup Native w_profile "/run/wg-1" [] = (w_setup_steps, Ok tt).
Proof. unfold Setup. rewrite w_profile_valid. by vm_compute. Qed.
Lemma Setup_spec_witness : exists o steps cmds,
  w_setup_steps = SExec (ip_argv Native link_add) (Some o) :: steps /\
  steps = SWrite (sys_join "/run/wg-1" "wg.conf") (WireGuard w_profile) (Ok tt) :: cmds /\
  all_succeeded (configure_cmds Native w_profile "/run/wg-1") cmds.
Proof.
  pose proof (Setup_spec Native w_profile "/run/wg-1" [] w_setup_steps (Ok tt) w_setup) as H. rewrite w_profile_valid in H.
  destruct H as ([o|] & H); [|by destruct H]. destruct H as (steps & cmds & H). by exists o, steps, cmds.
Defined.
(** An owned interface, taken down from its receipt. *)
Definition w_up : History := w_setup_steps ++ [SIndex (Some 7)].
Definition owned_host : LinuxHost := {|
  sys_exec := sim_exec; sys_write := sys_write; sys_read := fun _ _ => FRead (marshal (receipt_json w_receipt));
  sys_index := fun _ => Some 7; sys_remove := fun _ _ => Ok tt; sys_mkdir := sys_mkdir; sys_app_new := sys_app_new;
  sys_app_run := sys_app_run; sys_join := sys_join |}.
Definition w_owned_steps : list Step :=
  [SReadFile OwnershipFile (FRead (marshal (receipt_json w_receipt))); SIndex (Some 7);
   SExec (wg_show Native) (Some (Profile_PublicKey w_profile +:+ unlines [""]));
   SExec (ip_argv Native link_delete) (Some ""); SRemove OwnershipFile (Ok tt)].
Lemma w_cleanup : CleanupOwned (host := owned_host) Native w_profile OwnershipFile w_up = (w_up ++ w_owned_steps, Ok tt).
Proof. by vm_compute. Qed.
