(* ===== verification/LinuxServer.v ===== *)
(** * internal/linuxprofile/server.go: the server's side of a Linux enrolment

    Reading the server's WireGuard and discovery files, what they say in public,
    and the candidate files with a managed peer added, replaced or revoked.
    YAML texts are read and printed by the library; the tree is Go's
    [map[string]any].  [Peers] is the tree's own map under
    interfaces/wg0/peers, shared by every copy of the server. *)

From S2P Require Import Prelude GoStr Codec Netip NetipFacts Json JsonFacts Validation Discovery TextFacts Plugin JsonDecode Config Provision StrSearch LinuxProfile.

(** ** The two expressions

    \s is one of tab, newline, form feed, carriage return and space; [FindAll]
    tries each line start that earlier matches leave. *)
Definition re_space (c : ascii) : bool :=
  (bz c =? 9) || (bz c =? 10) || (bz c =? 12) || (bz c =? 13) || (bz c =? 32).
Fixpoint re_span (P : ascii -> bool) (s : string) : string * string :=
  match s with
  | "" => ("", "")
  | String c s' => if P c then let '(x, r) := re_span P s' in (String c x, r) else ("", s)
  end.
(** keyword\s*=\s* : what the second \s* took, and the rest. *)
Definition re_assign (keyword s : string) : option (string * string) :=
  match strip_word keyword s with
  | None => None
  | Some r =>
      match (re_span re_space r).2 with
      | String "=" r => Some (re_span re_space r)
      | _ => None
      end
  end.
(** The white space gives characters back until [.+] finds one on its line: its
    last character that is not a newline, and the newlines after it. *)
Fixpoint last_on_line (ws : string) : option (ascii * string) :=
  match ws with
  | "" => None
  | String c ws' =>
      match last_on_line ws' with
      | Some r => Some r
      | None => if Ascii.eqb c newline_char then None else Some (c, ws')
      end
  end.
Definition not_newline (c : ascii) : bool := negb (Ascii.eqb c newline_char).
(** (?m)^AllowedIPs\s*=\s*(.+)$ at a line start: the capture and the rest. *)
Definition routeLine_at (s : string) : option (string * string) :=
  match re_assign "AllowedIPs" s with
  | None => None
  | Some (ws, "") => match last_on_line ws with Some (c, rest) => Some (String c "", rest) | None => None end
  | Some (_, r) => Some (re_span not_newline r)
  end.
(** (?m)^PrivateKey\s*=\s*(\S+)\s*$ *)
Fixpoint from_last_newline (ws : string) : option string :=
  match ws with
  | "" => None
  | String c ws' =>
      match from_last_newline ws' with
      | Some r => Some r
      | None => if Ascii.eqb c newline_char then Some ws else None
      end
  end.
Definition privateLine_at (s : string) : option (string * string) :=
  match re_assign "PrivateKey" s with
  | None | Some (_, "") => None
  | Some (_, r) =>
      let '(token, r) := re_span (fun c => negb (re_space c)) r in
      let '(ws, r) := re_span re_space r in
      if r =s "" then Some (token, "")
      else match from_last_newline ws with Some nl => Some (token, nl +:+ r) | None => None end
  end.
Fixpoint find_lines (at_ : string -> option (string * string)) (fuel : nat) (line_start : bool) (s : string) : list string :=
  match fuel with
  | O => []
  | S fuel =>
      match (if line_start then at_ s else None) with
      | Some (capture, rest) => capture :: find_lines at_ fuel false rest
      | None => match s with "" => [] | String c s' => find_lines at_ fuel (Ascii.eqb c newline_char) s' end
      end
  end.
Definition FindAll (at_ : string -> option (string * string)) (s : string) : list string :=
  find_lines at_ (S (String.length s)) true s.
(** The routes of every line, trimmed. *)
Definition wg_routes (wg : string) : list string :=
  concat (map (fun line => map trim_space (split_on "," line)) (FindAll routeLine_at wg)).

(** ** Maps of any *)

Definition anymap : Type := list (string * any).
Fixpoint any_get (k : string) (m : anymap) : option any :=
  match m with [] => None | (k', v) :: m' => if k =s k' then Some v else any_get k m' end.
Fixpoint any_set (k : string) (v : any) (m : anymap) : anymap :=
  match m with [] => [(k, v)] | (k', v') :: m' => if k =s k' then (k, v) :: m' else (k', v') :: any_set k v m' end.
Definition any_delete (k : string) (m : anymap) : anymap := List.filter (fun e => e.1 <>s k) m.
Definition any_map (k : string) (m : anymap) : option anymap :=
  match any_get k m with Some (AMap m') => Some m' | _ => None end.
Definition any_is (k s : string) (m : anymap) : bool := match any_get k m with Some (AStr v) => v =s s | _ => false end.

(** ** Server *)

Record Server := mkServer {
  sv_WG : string; sv_YAML : anymap; sv_PublicKey : string; sv_STUN : list string; sv_DHT : list string
}.
(** The shared map, and an update of it in place. *)
Definition peers_of (yaml : anymap) : option anymap :=
  match any_map "interfaces" yaml with
  | Some ifs => match any_map "wg0" ifs with Some iface => any_map "peers" iface | None => None end
  | None => None
  end.
Definition sv_Peers (s : Server) : anymap := default [] (peers_of (sv_YAML s)).
Definition update_peers (f : anymap -> anymap) (yaml : anymap) : anymap :=
  match any_map "interfaces" yaml with
  | Some ifs =>
      match any_map "wg0" ifs with
      | Some iface =>
          match any_map "peers" iface with
          | Some peers =>
              any_set "interfaces" (AMap (any_set "wg0" (AMap (any_set "peers" (AMap (f peers)) iface)) ifs)) yaml
          | None => yaml
          end
      | None => yaml
      end
  | None => yaml
  end.

Definition layout_error : error := ENew "unsupported server YAML layout".
Definition boundedFile (content : option string) : result string :=
  match content with
  | None => Err (ENew "cannot read server configuration")
  | Some b => if MaxConfigBytes <? slen b then Err (ENew "server configuration exceeds bounds") else Ok b
  end.
Fixpoint any_texts (l : list any) : option (list string) :=
  match l with
  | [] => Some []
  | AStr s :: l' => option_map (cons s) (any_texts l')
  | _ :: _ => None
  end.

Section server.
Context `{UnicodeTables} `{UrlLib} `{wgt : WgTypes} `{YamlLib} `{ConfigEnv}.

(** The layout the editing relies on, and the store's endpoints. *)
Definition server_layout (yaml : anymap) : result (list string) :=
  let lookup (m : anymap) k := match any_map k m with Some m' => Ok m' | None => Err layout_error end in
  let? ifs := lookup yaml "interfaces" in
  let? iface := lookup ifs "wg0" in
  let? _ := lookup iface "peers" in
  let? pl := lookup yaml "plugins" in
  let? dht := lookup pl "dht" in
  require any_is "name" "opendht" dht && any_is "type" "builtin" dht else ENew "expected built-in OpenDHT plugin";
  match any_get "endpoints" dht with
  | Some (AList l) => match any_texts l with Some texts => Ok texts | None => Err (ENew "invalid OpenDHT endpoint") end
  | _ => Err (ENew "expected OpenDHT endpoint list")
  end.
(** [readfile] opens a path and reads it to the limit. *)
Definition LoadServer (readfile : string -> option string) (paths : list string) (dir : string) : result Server :=
  let? wg := boundedFile (readfile (filepath_Join dir "wg0.conf")) in
  match FindAll privateLine_at wg with
  | [key] =>
      match wgtypes_ParseKey key with
      | None => Err (ENew "invalid server private key")
      | Some k =>
          let ymlPath := filepath_Join dir "stunmesh.yml" in
          let? cfg := map_err (ENew "invalid server discovery config") (load ymlPath "" paths) in
          let? b := boundedFile (readfile ymlPath) in
          match yaml_Unmarshal_any b with
          | None => Err (ENew "invalid server YAML")
          | Some yaml =>
              let? dht := server_layout yaml in
              Ok (mkServer wg yaml (b64_encode (wgtypes_PublicKey k)) (GetServers (cStun cfg)) dht)
          end
      end
  | _ => Err (ENew "expected one server interface identity")
  end.

Definition Server_Public (s : Server) : ServerPublic :=
  mkServerPublic (sv_PublicKey s) (sv_STUN s) (sv_DHT s) (wg_routes (sv_WG s)).

(** ** Edited *)

Definition begin_mark (p : Profile) : string := ("# BEGIN LINUX " +:+ lp_Name p) +:+ nl_text.
Definition end_mark (p : Profile) : string := ("# END LINUX " +:+ lp_Name p) +:+ nl_text.
Definition peer_name (p : Profile) : string := "linux-" +:+ lp_Name p.
Definition public_line (p : Profile) : string := "PublicKey = " +:+ Profile_PublicKey p +:+ nl_text.
Definition peer_lines (p : Profile) : string :=
  unlines ["[Peer]"; "PublicKey = " +:+ Profile_PublicKey p; "PresharedKey = " +:+ lp_PresharedKey p;
              "AllowedIPs = " +:+ lp_Address p; "PersistentKeepalive = 25"].
Definition managed_peer (p : Profile) : any :=
  AMap [("public_key", AStr (Profile_PublicKey p)); ("plugin", AStr "dht"); ("protocol", AStr "ipv4")].
Definition with_text (s : Server) (wg : string) (yaml : anymap) : Server :=
  mkServer wg yaml (sv_PublicKey s) (sv_STUN s) (sv_DHT s).

(** Taking the managed peer of the profile's name out, when there is one. *)
Definition unmanage (s : Server) (p : Profile) : result Server :=
  let bad := Err (ENew "inconsistent managed peer; review private files") in
  let discovery := any_get (peer_name p) (sv_Peers s) in
  match Index (sv_WG s) (begin_mark p), Index (sv_WG s) (end_mark p), discovery with
  | None, None, None => Ok s
  | Some start, Some finish, Some peer =>
      if (finish <? start)%nat || negb (Count (sv_WG s) (begin_mark p) =? 1)%nat ||
         negb (Count (sv_WG s) (end_mark p) =? 1)%nat then bad
      else
        let block := str_drop start (str_take finish (sv_WG s)) in
        if match peer with AMap m => any_is "public_key" (Profile_PublicKey p) m | _ => false end &&
           str_contains block (public_line p)
        then Ok (with_text s (str_take start (sv_WG s) +:+ str_drop (finish + String.length (end_mark p)) (sv_WG s))
                   (update_peers (any_delete (peer_name p)) (sv_YAML s)))
        else Err (ENew "refusing to replace a different managed identity")
  | _, _, _ => bad
  end.
Definition route_collides (ip : Addr) (r : string) : bool :=
  match ParsePrefix r with None => true | Some prefix => Contains prefix ip end.
(** Appending the managed peer. *)
Definition manage (s : Server) (p : Profile) : result Server :=
  let ip := match ParsePrefix (lp_Address p) with Some a => pf_addr a | None => AddrZ end in
  require negb (existsb (route_collides ip) (wg_routes (sv_WG s))) else ENew "existing server peer address collision";
  require negb (str_contains (sv_WG s) (Profile_PublicKey p)) else ENew "identity already belongs to another peer";
  Ok (with_text s (trim_right newline_char (sv_WG s) +:+ nl_text +:+ nl_text +:+ begin_mark p +:+ peer_lines p +:+ end_mark p)
        (update_peers (any_set (peer_name p) (managed_peer p)) (sv_YAML s))).
(** The candidate texts; the server's own map afterwards, which every outcome
    may have changed. *)
Definition Edited (s : Server) (p : Profile) (revoke : bool) : Server * result (string * string) :=
  let after (t : Server) := with_text s (sv_WG s) (sv_YAML t) in
  let render (t : Server) :=
    (after t, match yaml_Marshal (AMap (sv_YAML t)) with
              | Ok yml => Ok (sv_WG t, yml)
              | Err _ => Err (ENew "cannot render discovery config")
              end) in
  match Validate p with
  | Err e => (s, Err e)
  | Ok _ =>
      if lp_ServerPublicKey p <>s sv_PublicKey s then (s, Err (ENew "profile belongs to another server"))
      else match unmanage s p with
           | Err e => (s, Err e)
           | Ok t =>
               if revoke then render t
               else match manage t p with Err e => (after t, Err e) | Ok u => render u end
           end
  end.

(** Both files or neither; a removal that fails leaves its file. *)
Record EditOutcome := mkEditOutcome { eo_wg : WriteOutcome; eo_yml : WriteOutcome; eo_remove : bool }.
Definition WriteEdited (o : EditOutcome) (private_dir : bool) (s : Server) (p : Profile) (revoke : bool) (dir : string)
    (fs : Files) : Server * Files * result unit :=
  if negb private_dir then (s, fs, Err (ENew "candidate directory must be private"))
  else match Edited s p revoke with
       | (s, Err e) => (s, fs, Err e)
       | (s, Ok (wg, yml)) =>
           let wgPath := filepath_Join dir "wg0.conf" in
           match WriteNew (eo_wg o) fs wgPath wg with
           | (fs, Err e) => (s, fs, Err e)
           | (fs, Ok _) =>
               match WriteNew (eo_yml o) fs (filepath_Join dir "stunmesh.yml") yml with
               | (fs, Err e) => (s, if eo_remove o then delete wgPath fs else fs, Err e)
               | (fs, Ok _) => (s, fs, Ok tt)
               end
           end
       end.
End server.
