(* ===== verification/LinuxServerFacts.v ===== *)
(** * Editing the server's files for a Linux client

    Enrolling, revoking and enrolling again come back to the same files; an
    enrolled address is in the list new addresses are chosen against. *)

From S2P Require Import Prelude GoStr Codec Netip NetipFacts Json JsonFacts Validation Discovery TextFacts Plugin JsonDecode Config ConfigFacts Provision ProvisionFacts StrSearch LinuxProfile LinuxProfileFacts LinuxServer.

(** ** The shared map *)

Lemma any_get_set k v m : any_get k (any_set k v m) = Some v.
Proof.
  induction m as [|[k' v'] m IH]; cbn; [by rewrite String.eqb_refl|].
  destruct (k =s k') eqn:E; cbn; [by rewrite String.eqb_refl|]. by rewrite E.
Qed.
Lemma any_set_set k v w m : any_set k w (any_set k v m) = any_set k w m.
Proof.
  induction m as [|[k' v'] m IH]; cbn; [by rewrite String.eqb_refl|].
  destruct (k =s k') eqn:E; cbn; [by rewrite String.eqb_refl|]. by rewrite E, IH.
Qed.
Lemma any_set_same k v m : any_get k m = Some v -> any_set k v m = m.
Proof.
  induction m as [|[k' v'] m IH]; cbn; [done|]. destruct (String.eqb_spec k k') as [->|].
  - by intros [= ->].
  - intros H. by rewrite IH.
Qed.
Lemma any_delete_absent k m : any_get k m = None -> any_delete k m = m.
Proof.
  induction m as [|[k' v'] m IH]; cbn; [done|]. rewrite (String.eqb_sym k' k).
  destruct (k =s k'); [done|]. intros H. cbn. f_equal. by apply IH.
Qed.
Lemma any_set_absent k v m : any_get k m = None -> any_set k v m = m ++ [(k, v)].
Proof.
  induction m as [|[k' v'] m IH]; cbn; [done|]. destruct (k =s k'); [done|]. intros H. by rewrite IH.
Qed.
Lemma any_delete_set k v m : any_get k m = None -> any_delete k (any_set k v m) = m.
Proof.
  intros H. rewrite any_set_absent by done. unfold any_delete. rewrite filter_app.
  fold (any_delete k m). rewrite any_delete_absent by done.
  cbn. rewrite String.eqb_refl. cbn. by rewrite app_nil_r.
Qed.
Lemma any_get_delete k m : any_get k (any_delete k m) = None.
Proof.
  induction m as [|[k' v'] m IH]; [done|]. unfold any_delete. cbn. rewrite (String.eqb_sym k' k).
  destruct (k =s k') eqn:E; cbn; [exact IH|]. rewrite E. exact IH.
Qed.
Lemma any_map_set k m m' : any_map k (any_set k (AMap m) m') = Some m.
Proof. unfold any_map. by rewrite any_get_set. Qed.
Lemma any_map_get k m m' : any_map k m = Some m' -> any_get k m = Some (AMap m').
Proof. unfold any_map. destruct (any_get k m) as [[]|]; naive_solver. Qed.

Lemma peers_of_update f yaml ps : peers_of yaml = Some ps -> peers_of (update_peers f yaml) = Some (f ps).
Proof.
  unfold peers_of, update_peers. destruct (any_map "interfaces" yaml) as [ifs|]; [|done].
  destruct (any_map "wg0" ifs) as [iface|]; [|done]. intros ->. by rewrite !any_map_set.
Qed.
Lemma update_update f g yaml : update_peers g (update_peers f yaml) = update_peers (fun m => g (f m)) yaml.
Proof.
  unfold update_peers. destruct (any_map "interfaces" yaml) as [ifs|] eqn:E1; [|by rewrite E1].
  destruct (any_map "wg0" ifs) as [iface|] eqn:E2; [|by rewrite E1, E2].
  destruct (any_map "peers" iface) as [ps|] eqn:E3; [|by rewrite E1, E2, E3].
  by rewrite !any_map_set, !any_set_set.
Qed.
Lemma update_same f yaml ps : peers_of yaml = Some ps -> f ps = ps -> update_peers f yaml = yaml.
Proof.
  unfold peers_of, update_peers. destruct (any_map "interfaces" yaml) as [ifs|] eqn:E1; [|done].
  destruct (any_map "wg0" ifs) as [iface|] eqn:E2; [|done]. intros E3 Hf. rewrite E3, Hf.
  rewrite (any_set_same "peers"), (any_set_same "wg0"), (any_set_same "interfaces"); [done|by apply any_map_get..].
Qed.
Lemma update_ext f g yaml ps : peers_of yaml = Some ps -> f ps = g ps -> update_peers f yaml = update_peers g yaml.
Proof.
  unfold peers_of, update_peers. destruct (any_map "interfaces" yaml) as [ifs|]; [|done].
  destruct (any_map "wg0" ifs) as [iface|]; [|done]. intros -> Hf. by rewrite Hf.
Qed.

(** ** Marks *)

Section marks.
Context `{tables : UnicodeTables} `{urls : UrlLib} `{wgt : WgTypes} `{laws : !WgTypesLaws wgt}.
Variables (p : Profile) (Hv : Validate p = Ok tt).

Let begin_word : string := "# BEGIN LINUX " +:+ lp_Name p.
Let end_word : string := "# END LINUX " +:+ lp_Name p.
Lemma name_graph : sforall graph (lp_Name p) = true.
Proof. apply label_graph. apply Validate_ok_iff in Hv as []. done. Qed.
Lemma begin_one_line : smem newline_char begin_word = false.
Proof. unfold begin_word. rewrite smem_app, (smem_word newline_char (lp_Name p)) by (done || apply name_graph). done. Qed.
Lemma end_one_line : smem newline_char end_word = false.
Proof. unfold end_word. rewrite smem_app, (smem_word newline_char (lp_Name p)) by (done || apply name_graph). done. Qed.
Lemma name_no_hash : smem "#" (lp_Name p) = false.
Proof. apply label_no_hash. apply Validate_ok_iff in Hv as []. done. Qed.

Lemma b64_no_hash l : bytes_ok l -> smem "#" (b64_encode l) = false.
Proof.
  intros Hl. assert (sforall (fun c => negb (Ascii.eqb c "#")) (b64_encode l) = true) as H.
  { apply b64_encode_forall; [done| |done]. intros v. revert v. apply (range_check _ 64). by vm_compute. }
  induction (b64_encode l) as [|c s IH]; [done|]. cbn in *. apply andb_true_iff in H as [Hc%negb_true_iff Hs].
  by rewrite Hc, IH.
Qed.
Lemma key_no_hash text k : Validation.Key text = Ok k -> smem "#" text = false.
Proof. intros (_ & Hb & ->)%Key_ok_iff. by apply b64_no_hash. Qed.
Lemma address_no_hash : smem "#" (lp_Address p) = false.
Proof.
  apply Validate_ok_iff in Hv as [_ _ _ _ _ _ (c & rs & Ha & _) _ _ _]. apply ParsePrefix_chars in Ha.
  induction (lp_Address p) as [|d s IH]; [done|]. cbn in *. apply andb_true_iff in Ha as [Hd Hs]. rewrite IH by done.
  by destruct (Ascii.eqb_spec d "#") as [->|].
Qed.
Lemma public_bytes : exists k, Profile_PublicKey p = b64_encode k /\ length k = 32%nat /\ bytes_ok k.
Proof.
  apply Validate_ok_iff in Hv as [_ _ (k & Hk & _) _ _ _ _ _ _ _]. unfold Profile_PublicKey.
  rewrite (ParseKey_Key _ _ Hk). cbn [default]. apply Key_ok_iff in Hk as (Hl & _).
  destruct (PublicKey_bytes k Hl) as [? ?]. by exists (wgtypes_PublicKey k).
Qed.
Lemma public_graph : sforall graph (Profile_PublicKey p) = true /\ Profile_PublicKey p <> "".
Proof.
  destruct public_bytes as (k & -> & Hl & Hb). destruct (b64_word k Hb) as [? ?]; [by destruct k|done].
Qed.
Lemma peer_lines_no_hash : smem "#" (peer_lines p) = false.
Proof.
  destruct public_bytes as (k & Hk & _ & Hb). unfold peer_lines. rewrite Hk. cbn [unlines].
  pose proof Hv as Hv'. apply Validate_ok_iff in Hv' as [_ _ _ (psk & Hpsk & _) _ _ _ _ _ _].
  rewrite !smem_app. cbn [smem]. rewrite !smem_app, (b64_no_hash k Hb). cbn [smem].
  rewrite !smem_app, (key_no_hash _ _ Hpsk). cbn [smem]. rewrite !smem_app, address_no_hash. reflexivity.
Qed.
Lemma peer_lines_ended : line_ended (peer_lines p) = true.
Proof. unfold peer_lines. rewrite unlines_join by done. apply line_ended_nl. Qed.
Lemma marks_ended : line_ended (begin_mark p) = true /\ line_ended (end_mark p) = true.
Proof. split; apply line_ended_nl. Qed.
Lemma hash_tail s u : smem "#" u = false -> Index (String "#" u) (String "#" s) = None <-> String.prefix (String "#" s) (String "#" u) = false.
Proof.
  intros Hu. cbn [Index]. destruct (String.prefix (String "#" s) (String "#" u)); [done|].
  by rewrite Index_first_absent.
Qed.
Lemma end_not_in_begin : Index (begin_mark p) (end_mark p) = None.
Proof.
  unfold begin_mark, end_mark. cbn [String.append]. apply hash_tail; [|reflexivity].
  cbn [smem]. rewrite !smem_app, name_no_hash. reflexivity.
Qed.
Lemma begin_not_in_end : Index (end_mark p) (begin_mark p) = None.
Proof.
  unfold begin_mark, end_mark. cbn [String.append]. apply hash_tail; [|reflexivity].
  cbn [smem]. rewrite !smem_app, name_no_hash. reflexivity.
Qed.
Lemma no_mark s : smem "#" s = false -> Index s (begin_mark p) = None /\ Index s (end_mark p) = None.
Proof. intros Hs. unfold begin_mark, end_mark. cbn [String.append]. by rewrite !Index_first_absent. Qed.

(** The searches on texts of whole lines, for the two marks. *)
Lemma Index_end a t : line_ended a = true -> Index (a +:+ t) (end_mark p) =
  match Index a (end_mark p) with Some k => Some k | None => option_map (Nat.add (String.length a)) (Index t (end_mark p)) end.
Proof. exact (Index_lines end_word end_one_line a t). Qed.
Lemma Count_begin a t : line_ended a = true ->
  Count (a +:+ t) (begin_mark p) = (Count a (begin_mark p) + Count t (begin_mark p))%nat.
Proof. exact (Count_lines begin_word begin_one_line a t). Qed.
Lemma Count_end a t : line_ended a = true -> Count (a +:+ t) (end_mark p) = (Count a (end_mark p) + Count t (end_mark p))%nat.
Proof. exact (Count_lines end_word end_one_line a t). Qed.

(** The managed text, and the text before it. *)
Definition managed_text : string := begin_mark p +:+ peer_lines p +:+ end_mark p.
Variables (base : string) (Hbase : line_ended base = true).
Hypothesis (Hnb : Index base (begin_mark p) = None) (Hne : Index base (end_mark p) = None).
Lemma find_begin : Index (base +:+ managed_text) (begin_mark p) = Some (String.length base).
Proof. by apply (Index_after begin_word begin_one_line). Qed.
Lemma find_end : Index (base +:+ managed_text) (end_mark p) =
  Some (String.length base + (String.length (begin_mark p) + String.length (peer_lines p)))%nat.
Proof.
  unfold managed_text. rewrite Index_end, Hne by exact Hbase.
  rewrite Index_end, end_not_in_begin by apply marks_ended. rewrite Index_end by apply peer_lines_ended.
  rewrite (proj2 (no_mark _ peer_lines_no_hash)).
  assert (Index (end_mark p) (end_mark p) = Some O) as ->.
  { rewrite <-(sapp_nil_r (end_mark p)) at 1. apply Index_mark. }
  cbn [option_map]. f_equal. lia.
Qed.
Lemma count_self w : smem newline_char w = false -> Count (w +:+ nl_text) (w +:+ nl_text) = 1%nat.
Proof.
  intros Hw. unfold Count. destruct (w +:+ nl_text) as [|c s] eqn:E; [by destruct w|]. cbn [count_from].
  assert (String.prefix (String c s) (String c s) = true) as ->.
  { rewrite <-(sapp_nil_r (String c s)) at 2. apply prefix_self. }
  f_equal. cbn [String.length]. rewrite Nat.sub_succ, Nat.sub_0_r.
  assert (forall u m, count_from (String.length u) u m = 0%nat) as ->; [|done].
  intros u m. by induction u.
Qed.
Lemma count_marks : Count (base +:+ managed_text) (begin_mark p) = 1%nat /\ Count (base +:+ managed_text) (end_mark p) = 1%nat.
Proof.
  unfold managed_text. split.
  - rewrite !Count_begin by (exact Hbase || apply marks_ended || apply peer_lines_ended).
    rewrite (Count_absent begin_word base Hnb : Count base (begin_mark p) = 0%nat).
    rewrite (Count_absent begin_word _ (proj1 (no_mark _ peer_lines_no_hash)) : Count (peer_lines p) (begin_mark p) = 0%nat).
    rewrite (Count_absent begin_word _ begin_not_in_end : Count (end_mark p) (begin_mark p) = 0%nat).
    exact (f_equal (fun n => 0 + (n + (0 + 0)))%nat (count_self begin_word begin_one_line)) || exact (f_equal (fun n => 0 + (0 + (0 + n)))%nat (count_self begin_word begin_one_line)).
  - rewrite !Count_end by (exact Hbase || apply marks_ended || apply peer_lines_ended).
    rewrite (Count_absent end_word base Hne : Count base (end_mark p) = 0%nat).
    rewrite (Count_absent end_word _ (proj2 (no_mark _ peer_lines_no_hash)) : Count (peer_lines p) (end_mark p) = 0%nat).
    rewrite (Count_absent end_word _ end_not_in_begin : Count (begin_mark p) (end_mark p) = 0%nat).
    exact (f_equal (fun n => 0 + (n + (0 + 0)))%nat (count_self end_word end_one_line)) || exact (f_equal (fun n => 0 + (0 + (0 + n)))%nat (count_self end_word end_one_line)).
Qed.
Lemma managed_block :
  str_drop (String.length base) (str_take (String.length base + (String.length (begin_mark p) + String.length (peer_lines p)))
    (base +:+ managed_text)) = begin_mark p +:+ peer_lines p.
Proof.
  unfold managed_text.
  rewrite <-!slength_app, <-(sapp_assoc (begin_mark p) _ (end_mark p)), <-(sapp_assoc base _ (end_mark p)), str_take_app.
  apply str_drop_app.
Qed.
Lemma managed_cut :
  str_take (String.length base) (base +:+ managed_text) +:+
  str_drop (String.length base + (String.length (begin_mark p) + String.length (peer_lines p)) + String.length (end_mark p))
    (base +:+ managed_text) = base.
Proof.
  rewrite str_take_app. unfold managed_text.
  rewrite <-!slength_app, <-(sapp_assoc (begin_mark p) _ (end_mark p)), <-(sapp_assoc base _ (end_mark p)), str_drop_all.
  apply sapp_nil_r.
Qed.
Lemma block_has_key : str_contains (begin_mark p +:+ peer_lines p) (public_line p) = true.
Proof.
  apply contains_iff. exists (begin_mark p +:+ "[Peer]" +:+ nl_text).
  eexists. unfold peer_lines, public_line. cbn [unlines]. rewrite !sapp_assoc. reflexivity.
Qed.

(** Taking out what was put in. *)
Lemma unmanage_managed s peers :
  peers_of (sv_YAML s) = Some peers -> any_get (peer_name p) peers = Some (managed_peer p) ->
  sv_WG s = base +:+ managed_text ->
  unmanage s p = Ok (with_text s base (update_peers (any_delete (peer_name p)) (sv_YAML s))).
Proof.
  intros Hp Hg Hw. unfold unmanage. cbv zeta. unfold sv_Peers. rewrite Hp. change (default [] (Some peers)) with peers. rewrite Hg, Hw, find_begin, find_end.
  destruct count_marks as [-> ->]. destruct (Nat.ltb_spec (String.length base +
    (String.length (begin_mark p) + String.length (peer_lines p)))%nat (String.length base)) as [|_]; [lia|].
  cbn [Nat.eqb negb orb]. rewrite managed_block, block_has_key, managed_cut.
  assert (any_is "public_key" (Profile_PublicKey p) [("public_key", AStr (Profile_PublicKey p)); ("plugin", AStr "dht"); ("protocol", AStr "ipv4")] = true) as Hk.
  { unfold any_is. cbn. by rewrite String.eqb_refl. }
  unfold managed_peer. by rewrite Hk.
Qed.
End marks.

(** ** The route lines *)

Lemma re_span_app P s t : re_span P (s +:+ t) =
  match re_span P s with
  | (x, "") => let '(y, r) := re_span P t in (x +:+ y, r)
  | (x, r) => (x, r +:+ t)
  end.
Proof.
  induction s as [|c s IH]; [cbn; by destruct (re_span P t)|]. cbn [String.append re_span].
  destruct (P c); [|done]. rewrite IH. destruct (re_span P s) as [x [|d r]]; [|done]. by destruct (re_span P t).
Qed.
(** A run stops at a character that is not of its class. *)
Lemma re_span_stop P s c t : P c = false -> re_span P (s +:+ String c t) = ((re_span P s).1, (re_span P s).2 +:+ String c t).
Proof.
  intros Hc. rewrite re_span_app. destruct (re_span P s) as [x [|d r]]; [|done]. cbn. by rewrite Hc, sapp_nil_r.
Qed.
Lemma re_span_concat P s : s = (re_span P s).1 +:+ (re_span P s).2.
Proof.
  induction s as [|c s IH]; [done|]. cbn. destruct (P c); [|done]. destruct (re_span P s) as [x r]. cbn in *. by rewrite <-IH.
Qed.
Lemma re_span_ended P s : line_ended s = true -> line_ended (re_span P s).2 = true.
Proof.
  induction s as [|c s IH]; [done|]. intros H. cbn. destruct (P c); [|done].
  assert (line_ended s = true) as Hs by (destruct s; [done|exact H]). apply IH in Hs. by destruct (re_span P s).
Qed.
Lemma strip_word_app k s t r : strip_word k s = Some r -> strip_word k (s +:+ t) = Some (r +:+ t).
Proof.
  revert s. induction k as [|a k IH]; intros s; [by intros [= ->]; destruct r|]. destruct s as [|b s]; [done|]. cbn.
  destruct (Ascii.eqb a b); [apply IH|done].
Qed.
(** A keyword does not run over the end of a line. *)
Lemma strip_word_lines k s t : smem newline_char k = false -> line_ended s = true -> s <> "" ->
  strip_word k (s +:+ t) = option_map (fun r => r +:+ t) (strip_word k s).
Proof.
  revert s. induction k as [|a k IH]; intros s Hk Hs Hne; [done|]. destruct s as [|b s]; [done|]. cbn in *.
  apply orb_false_iff in Hk as [Ha Hk]. destruct (Ascii.eqb_spec a b) as [->|]; [|done].
  destruct s as [|c s]; [|apply IH; done]. congruence.
Qed.
Lemma strip_word_ended k s r : smem newline_char k = false -> line_ended s = true -> s <> "" ->
  strip_word k s = Some r -> line_ended r = true /\ r <> "" /\ (String.length r <= String.length s)%nat.
Proof.
  revert s. induction k as [|a k IH]; intros s Hk Hs Hne; [intros [= <-]; done|]. destruct s as [|b s]; [done|]. cbn in Hk |- *.
  apply orb_false_iff in Hk as [Ha Hk]. destruct (Ascii.eqb_spec a b) as [->|]; [|done].
  destruct s as [|c s]; [cbn in Hs; congruence|]. intros H. apply IH in H as (?&?&?); [|done..].
  split_and!; [done|done|]. cbn in *. lia.
Qed.
Lemma re_span_length P s : (String.length (re_span P s).2 <= String.length s)%nat.
Proof. pose proof (f_equal String.length (re_span_concat P s)) as E. rewrite slength_app in E. lia. Qed.
Lemma to_line_end s : line_ended s = true -> s <> "" -> (re_span not_newline s).2 <> "".
Proof.
  induction s as [|c s IH]; [done|]. intros H _. cbn [re_span]. unfold not_newline at 1.
  destruct (Ascii.eqb_spec c newline_char) as [->|Hc]; [done|]. cbn [negb].
  destruct s as [|d s]; [cbn [line_ended] in H; by destruct (Ascii.eqb_spec c newline_char)|].
  specialize (IH H ltac:(done)). by destruct (re_span not_newline (String d s)).
Qed.

(** Whole lines, then a line that neither continues an assignment nor is one:
    a match that starts before it ends before it or with it. *)
Definition plain_line (c : ascii) (l : string) : Prop :=
  re_space c = false /\ Ascii.eqb c "=" = false /\ smem newline_char (String c l) = false /\
  forall t, strip_word "AllowedIPs" (String c l +:+ t) = None.
Lemma route_match u c l t cap rest : plain_line c l -> line_ended u = true -> u <> "" ->
  routeLine_at (u +:+ String c l +:+ nl_text +:+ t) = Some (cap, rest) ->
  rest = nl_text +:+ t \/
  exists v, rest = v +:+ String c l +:+ nl_text +:+ t /\ line_ended v = true /\ (String.length v < String.length u)%nat.
Proof.
  intros (Hsp & Heq & Hnl & _) Hu Hne. set (z := String c l +:+ nl_text +:+ t).
  unfold routeLine_at, re_assign. rewrite strip_word_lines by done.
  destruct (strip_word "AllowedIPs" u) as [r|] eqn:Er; [|done]. cbn [option_map].
  apply strip_word_ended in Er as (Hr & Hrne & Hrl); [|done..].
  change (r +:+ z) with (r +:+ String c (l +:+ nl_text +:+ t)). rewrite re_span_stop by done. cbn [snd].
  pose proof (re_span_ended re_space r Hr) as Hr1. pose proof (re_span_length re_space r) as Hl1.
  destruct (re_span re_space r).2 as [|d r1]; [cbn [String.append]; by destruct c as [[] [] [] [] [] [] [] []]|].
  cbn [String.append]. destruct (Ascii.eqb_spec d "=") as [->|Hd]; [|by destruct d as [[] [] [] [] [] [] [] []]].
  assert (line_ended r1 = true /\ r1 <> "") as [Hr1e Hr1n]. { destruct r1; [done|]. split; [exact Hr1|done]. }
  rewrite re_span_stop by done. pose proof (re_span_ended re_space r1 Hr1e) as Hr2.
  pose proof (re_span_length re_space r1) as Hl2. destruct (re_span re_space r1) as [ws r2]. cbn [fst snd] in *.
  destruct r2 as [|e r2].
  - cbn [String.append]. intros E%(inj Some). apply (f_equal snd) in E. change (cap, rest).2 with rest in E. rewrite <-E. left. change (String c (l +:+ nl_text +:+ t)) with ((String c l) +:+ String newline_char t).
    rewrite re_span_stop by (by unfold not_newline; rewrite Ascii.eqb_refl).
    cbn [snd]. assert ((re_span not_newline (String c l)).2 = "") as ->; [|done].
    clear -Hnl. revert Hnl. generalize (String c l) as s. intros s. induction s as [|a s IH]; [done|]. cbn [smem re_span].
    intros [Ha Hs]%orb_false_iff. unfold not_newline at 1. rewrite Ha. cbn [negb]. specialize (IH Hs). by destruct (re_span not_newline s).
  - cbn [String.append]. intros E%(inj Some). apply (f_equal snd) in E. change (cap, rest).2 with rest in E. rewrite <-E. right.
    change (String e (r2 +:+ String c (l +:+ nl_text +:+ t))) with (String e r2 +:+ z). rewrite re_span_app.
    pose proof (to_line_end (String e r2) Hr2 ltac:(done)) as Hv. pose proof (re_span_ended not_newline _ Hr2) as Hve.
    pose proof (re_span_length not_newline (String e r2)) as Hvl.
    destruct (re_span not_newline (String e r2)) as [x [|f v]]; [done|]. cbn [snd] in *.
    exists (String f v). split_and!; [done|done|]. cbn in *. lia.
Qed.

Lemma find_step fuel s : find_lines routeLine_at (S fuel) true s =
  match routeLine_at s with
  | Some (capture, rest) => capture :: find_lines routeLine_at fuel false rest
  | None => match s with "" => [] | String c s' => find_lines routeLine_at fuel (Ascii.eqb c newline_char) s' end
  end.
Proof. done. Qed.
Lemma find_step_in fuel c s :
  find_lines routeLine_at (S fuel) false (String c s) = find_lines routeLine_at fuel (Ascii.eqb c newline_char) s.
Proof. done. Qed.
Lemma line_length l t : String.length (l +:+ nl_text +:+ t) = S (String.length l + String.length t).
Proof. rewrite !slength_app. change (String.length nl_text) with 1%nat. lia. Qed.
(** The rest of a line is passed over. *)
Lemma skip_line l t fuel : smem newline_char l = false -> (String.length (l +:+ nl_text +:+ t) < fuel)%nat ->
  exists fuel', (String.length t < fuel')%nat /\
    find_lines routeLine_at fuel false (l +:+ nl_text +:+ t) = find_lines routeLine_at fuel' true t.
Proof.
  rewrite line_length. revert fuel. induction l as [|c l IH]; intros fuel Hl Hf; (destruct fuel as [|fuel]; [lia|]).
  - exists fuel. split; [cbn in Hf; lia|]. done.
  - cbn [smem] in Hl. apply orb_false_iff in Hl as [Hc Hl]. cbn [String.append] in *. rewrite find_step_in, Hc.
    apply IH; [done|]. cbn in Hf. lia.
Qed.
(** The search comes to the start of the text after a plain line, whatever the
    lines before it hold. *)
Lemma reach_line c l t u : plain_line c l -> line_ended u = true -> forall fuel start,
  (String.length (u +:+ String c l +:+ nl_text +:+ t) < fuel)%nat ->
  exists pre fuel', (String.length t < fuel')%nat /\
    find_lines routeLine_at fuel start (u +:+ String c l +:+ nl_text +:+ t) = pre ++ find_lines routeLine_at fuel' true t.
Proof.
  intros Hpl. remember (String.length u) as n eqn:En. revert u En.
  induction n as [n IH] using lt_wf_ind. intros u -> Hu fuel start Hf. rewrite slength_app, line_length in Hf. destruct fuel as [|fuel]; [lia|].
  pose proof Hpl as (Hsp & _ & Hnl & Hk). pose proof Hnl as Hnl'. cbn [smem] in Hnl'. apply orb_false_iff in Hnl' as [Hcn Hln].
  destruct u as [|d u].
  - (* at the plain line *)
    assert (find_lines routeLine_at (S fuel) start (String c l +:+ nl_text +:+ t) =
            find_lines routeLine_at fuel false (l +:+ nl_text +:+ t)) as E.
    { cbn [String.append find_lines]. change (String c (l +:+ nl_text +:+ t)) with (String c l +:+ nl_text +:+ t).
      assert ((if start then routeLine_at (String c l +:+ nl_text +:+ t) else None) = None) as ->.
      { destruct start; [|done]. unfold routeLine_at, re_assign. by rewrite Hk. }
      by rewrite Hcn. }
    destruct (skip_line l t fuel Hln) as (fuel' & Hf' & Es); [rewrite line_length; cbn in Hf; lia|].
    exists [], fuel'. split; [done|]. cbn [String.append app]. cbn [String.append] in E. rewrite E. exact Es.
  - assert (line_ended u = true) as Hu' by (destruct u; [done|exact Hu]).
    assert (exists pre fuel', (String.length t < fuel')%nat /\
      find_lines routeLine_at fuel (Ascii.eqb d newline_char) (u +:+ String c l +:+ nl_text +:+ t) =
      pre ++ find_lines routeLine_at fuel' true t) as Hnext.
    { eapply IH; [|reflexivity|exact Hu'|rewrite slength_app, line_length; cbn in Hf |- *; lia]. cbn. lia. }
    destruct start; [|exact Hnext].
    rewrite find_step. destruct (routeLine_at (String d u +:+ String c l +:+ nl_text +:+ t)) as [[cap rest]|] eqn:Em;
      [|exact Hnext].
    apply route_match in Em as [->|(v & -> & Hv & Hlt)]; [..|exact Hpl|exact Hu|done].
    + destruct (skip_line "" t fuel eq_refl) as (fuel' & Hf' & Es); [rewrite line_length; cbn in *; lia|].
      exists [cap], fuel'. split; [done|]. cbn [String.append app] in *. by rewrite Es.
    + destruct (IH _ Hlt v eq_refl Hv fuel false) as (pre & fuel' & Hf' & Es).
      { rewrite slength_app, line_length. cbn in Hf, Hlt |- *. lia. }
      exists (cap :: pre), fuel'. split; [done|]. cbn [app]. by rewrite Es.
Qed.

Lemma trim_space_id s : word s -> trim_space s = s.
Proof.
  intros Hw. pose proof (word_tight s Hw) as (Hs & (a & r & Ea & Ha) & (q & z & Ez & Hz)). unfold trim_space.
  rewrite runes_ascii by done.
  assert (drop_spaces (singles s) = singles s) as ->. { rewrite Ea. cbn [singles drop_spaces fst]. by rewrite Ha. }
  assert (drop_spaces (rev (singles s)) = rev (singles s)) as ->.
  { rewrite Ez, singles_app, rev_app_distr. cbn [singles rev app drop_spaces fst]. by rewrite Hz. }
  by rewrite rev_involutive, of_runes_singles.
Qed.
Lemma graph_not_re_space c : graph c = true -> re_space c = false.
Proof. unfold graph, re_space. lia. Qed.
Lemma span_line s t : smem newline_char s = false -> re_span not_newline (s +:+ nl_text +:+ t) = (s, nl_text +:+ t).
Proof.
  induction s as [|c s IH]; [done|]. cbn [smem String.append re_span]. intros [Hc Hs]%orb_false_iff.
  unfold not_newline at 1. rewrite Hc. cbn [negb]. by rewrite IH.
Qed.
(** The line of a managed peer yields its address. *)
Lemma route_line a t : word a -> routeLine_at ("AllowedIPs = " +:+ a +:+ nl_text +:+ t) = Some (a, nl_text +:+ t).
Proof.
  intros [Hne Ha]. unfold routeLine_at, re_assign. destruct a as [|c a]; [done|].
  assert (strip_word "AllowedIPs" ("AllowedIPs = " +:+ String c a +:+ nl_text +:+ t) =
          Some (String " " (String "=" (String " " (String c (a +:+ nl_text +:+ t)))))) as -> by reflexivity.
  pose proof Ha as Hg. cbn [sforall] in Hg. apply andb_true_iff in Hg as [Hc _].
  assert (re_span re_space (String " " (String "=" (String " " (String c (a +:+ nl_text +:+ t))))) =
          (" ", String "=" (String " " (String c (a +:+ nl_text +:+ t))))) as -> by reflexivity.
  assert (re_span re_space (String " " (String c (a +:+ nl_text +:+ t))) = (" ", String c a +:+ nl_text +:+ t)) as E.
  { cbn [re_span String.append]. rewrite (graph_not_re_space c Hc). reflexivity. }
  cbn [snd]. rewrite E. cbn [String.append]. change (String c (a +:+ nl_text +:+ t)) with (String c a +:+ nl_text +:+ t).
  by rewrite (span_line (String c a) t (smem_word newline_char _ eq_refl Ha)).
Qed.
Lemma wg_routes_line wg a : word a -> smem "," a = false -> In a (FindAll routeLine_at wg) -> In a (wg_routes wg).
Proof.
  intros Hw Hc Hin. unfold wg_routes. apply in_concat. exists (map trim_space (split_on "," a)). split.
  - by apply (in_map (fun line => map trim_space (split_on "," line))).
  - rewrite split_on_none by done. cbn. left. by apply trim_space_id.
Qed.
Lemma routes_of_managed u l a t : plain_line "P" l -> line_ended u = true -> word a -> smem "," a = false ->
  In a (wg_routes (u +:+ String "P" l +:+ nl_text +:+ "AllowedIPs = " +:+ a +:+ nl_text +:+ t)).
Proof.
  intros Hp Hu Ha Hc. apply wg_routes_line; [done..|]. unfold FindAll.
  destruct (reach_line "P" l ("AllowedIPs = " +:+ a +:+ nl_text +:+ t) u Hp Hu _ true (Nat.lt_succ_diag_r _)) as (pre & fuel & Hf & E).
  rewrite E. apply in_or_app. right. destruct fuel as [|fuel]; [lia|]. rewrite find_step, route_line by done. by left.
Qed.

(** A newline more or less at the end changes no route. *)
Lemma strip_word_nl k s : smem newline_char k = false ->
  strip_word k (s +:+ nl_text) = option_map (fun r => r +:+ nl_text) (strip_word k s).
Proof.
  revert s. induction k as [|a k IH]; intros s Hk; [by destruct s|]. cbn [smem] in Hk. apply orb_false_iff in Hk as [Ha Hk].
  destruct s as [|b s]; cbn [String.append strip_word].
  - unfold nl_text. cbn [strip_word]. by rewrite Ha.
  - destruct (Ascii.eqb a b); [by apply IH|done].
Qed.
Lemma last_on_line_nl ws : last_on_line (ws +:+ nl_text) =
  option_map (fun r => (r.1, r.2 +:+ nl_text)) (last_on_line ws).
Proof.
  induction ws as [|c ws IH]; [done|]. cbn [String.append last_on_line]. rewrite IH.
  destruct (last_on_line ws) as [[d r]|]; [done|]. cbn [option_map]. by destruct (Ascii.eqb c newline_char).
Qed.
Lemma routeLine_nl s : routeLine_at (s +:+ nl_text) = option_map (fun r => (r.1, r.2 +:+ nl_text)) (routeLine_at s).
Proof.
  unfold routeLine_at, re_assign. rewrite strip_word_nl by done. destruct (strip_word "AllowedIPs" s) as [r|]; [|done].
  cbn [option_map]. rewrite re_span_app. destruct (re_span re_space r) as [x [|c r1]]; [done|]. cbn [snd String.append].
  destruct (Ascii.eqb_spec c "=") as [->|Hc]; [|by destruct c as [[] [] [] [] [] [] [] []]].
  rewrite re_span_app. destruct (re_span re_space r1) as [ws [|d r2]].
  - change (re_span re_space nl_text) with (nl_text, ""). cbv beta iota. rewrite last_on_line_nl.
    by destruct (last_on_line ws) as [[e rest]|].
  - cbn [String.append]. change (String d (r2 +:+ nl_text)) with (String d r2 +:+ nl_text). rewrite re_span_app.
    destruct (re_span not_newline (String d r2)) as [y [|e r3]]; [|done].
    change (re_span not_newline nl_text) with ("", nl_text). cbv beta iota. by rewrite sapp_nil_r.
Qed.
Lemma last_on_line_length ws c r : last_on_line ws = Some (c, r) -> (String.length r < String.length ws)%nat.
Proof.
  revert c r. induction ws as [|d ws IH]; intros c r; [done|]. cbn [last_on_line].
  destruct (last_on_line ws) as [[e u]|] eqn:E.
  - intros [= <- <-]. specialize (IH _ _ eq_refl). cbn. lia.
  - destruct (Ascii.eqb d newline_char); [done|]. intros [= <- <-]. cbn. lia.
Qed.
Lemma strip_word_length k s r : strip_word k s = Some r -> (String.length r <= String.length s)%nat.
Proof.
  revert s. induction k as [|a k IH]; intros s; [by intros [= ->]|]. destruct s as [|b s]; [done|]. cbn.
  destruct (Ascii.eqb a b); [|done]. intros H%IH. lia.
Qed.
Lemma routeLine_shorter s c r : routeLine_at s = Some (c, r) -> (String.length r < String.length s)%nat.
Proof.
  unfold routeLine_at, re_assign. destruct (strip_word "AllowedIPs" s) as [u|] eqn:Eu; [|done].
  apply strip_word_length in Eu. pose proof (re_span_length re_space u) as H1.
  destruct (re_span re_space u).2 as [|d u1]; [done|]. 
  destruct (Ascii.eqb_spec d "=") as [->|]; [|by destruct d as [[] [] [] [] [] [] [] []]].
  pose proof (f_equal String.length (re_span_concat re_space u1)) as H2. rewrite slength_app in H2.
  destruct (re_span re_space u1) as [ws [|e u2]]; cbn [fst snd String.length] in *.
  - destruct (last_on_line ws) as [[e v]|] eqn:El; [|done]. intros [= _ <-]. apply last_on_line_length in El. lia.
  - intros E%(inj Some). pose proof (re_span_length not_newline (String e u2)) as H3. rewrite E in H3. cbn in H3. lia.
Qed.
Lemma find_lines_step fuel start s : find_lines routeLine_at (S fuel) start s =
  match (if start then routeLine_at s else None) with
  | Some (capture, rest) => capture :: find_lines routeLine_at fuel false rest
  | None => match s with "" => [] | String c s' => find_lines routeLine_at fuel (Ascii.eqb c newline_char) s' end
  end.
Proof. done. Qed.
Lemma find_lines_nl fuel start s : (String.length s < fuel)%nat ->
  find_lines routeLine_at (S fuel) start (s +:+ nl_text) = find_lines routeLine_at fuel start s.
Proof.
  revert start s. induction fuel as [|fuel IH]; intros start s Hs; [lia|].
  assert ((match s with "" => [] | String c s' => find_lines routeLine_at fuel (Ascii.eqb c newline_char) s' end) =
    match s +:+ nl_text with "" => [] | String c s' => find_lines routeLine_at (S fuel) (Ascii.eqb c newline_char) s' end) as Hnext.
  { destruct s as [|c s]; [destruct fuel; done|]. cbn [String.append]. rewrite IH; [done|]. cbn in Hs. lia. }
  rewrite (find_lines_step (S fuel)), (find_lines_step fuel), <-Hnext.
  destruct start; [|done]. rewrite routeLine_nl. destruct (routeLine_at s) as [[c r]|] eqn:E; [|done]. cbn [option_map fst snd].
  f_equal. apply IH. apply routeLine_shorter in E. lia.
Qed.
Lemma wg_routes_newlines s n : wg_routes (s +:+ newlines n) = wg_routes s.
Proof.
  revert s. induction n as [|n IH]; intros s; [by rewrite sapp_nil_r|].
  change (newlines (S n)) with (nl_text +:+ newlines n). rewrite <-sapp_assoc, IH. unfold wg_routes, FindAll.
  do 2 f_equal. rewrite slength_app. change (String.length nl_text) with 1%nat. rewrite Nat.add_1_r. apply find_lines_nl. lia.
Qed.
Lemma wg_routes_trim s : wg_routes (trim_right newline_char s) = wg_routes s.
Proof. destruct (trim_right_tail s) as [n E]. rewrite E at 2. symmetry. apply wg_routes_newlines. Qed.

(** ** Edited *)

Section edited.
Context `{tables : UnicodeTables} `{urls : UrlLib} `{wgt : WgTypes} `{laws : !WgTypesLaws wgt} `{yamllib : YamlLib} `{env : ConfigEnv}.

(** The candidates of an activation. *)
Lemma Edited_activate s p s' wg yml : Edited s p false = (s', Ok (wg, yml)) ->
  Validate p = Ok tt /\ lp_ServerPublicKey p = sv_PublicKey s /\
  exists t u, unmanage s p = Ok t /\ manage t p = Ok u /\ sv_WG u = wg /\ yaml_Marshal (AMap (sv_YAML u)) = Ok yml /\
    s' = with_text s (sv_WG s) (sv_YAML u).
Proof.
  unfold Edited. cbv zeta. destruct (Validate p) as [[]|]; [|discriminate].
  destruct (String.eqb_spec (lp_ServerPublicKey p) (sv_PublicKey s)) as [E|]; [|discriminate]. cbn [negb].
  destruct (unmanage s p) as [t|]; [|discriminate]. destruct (manage t p) as [u|] eqn:Em; [|discriminate].
  destruct (yaml_Marshal (AMap (sv_YAML u))) as [y|] eqn:Ey; [|discriminate].
  intros [<- [<- <-]%Ok_inj%pair_equal_spec]%pair_equal_spec.
  split_and!; [done|exact E|]. by exists t, u.
Qed.
Definition manage_text (s : Server) (p : Profile) : string :=
  (trim_right newline_char (sv_WG s) +:+ newlines 2) +:+ managed_text p.
Lemma manage_ok s p u : manage s p = Ok u ->
  existsb (route_collides (match ParsePrefix (lp_Address p) with Some a => pf_addr a | None => AddrZ end)) (wg_routes (sv_WG s)) = false /\
  str_contains (sv_WG s) (Profile_PublicKey p) = false /\
  u = with_text s (manage_text s p) (update_peers (any_set (peer_name p) (managed_peer p)) (sv_YAML s)).
Proof.
  unfold manage. cbv zeta. destruct (existsb _ _); [discriminate|]. destruct (str_contains _ _); [discriminate|].
  cbn [negb]. intros <-%Ok_inj. split_and!; [done..|]. unfold manage_text, managed_text. f_equal.
  cbn [newlines Nat.iter nat_rect]. by rewrite !sapp_assoc.
Qed.

(** Nothing of the client's is in the server's files yet. *)
Definition fresh (s : Server) (p : Profile) : Prop :=
  Index (sv_WG s) (begin_mark p) = None /\ Index (sv_WG s) (end_mark p) = None /\
  any_get (peer_name p) (sv_Peers s) = None.
Lemma unmanage_fresh s p : fresh s p -> unmanage s p = Ok s.
Proof. intros (H1 & H2 & H3). unfold unmanage. cbv zeta. by rewrite H1, H2, H3. Qed.

(** What [LoadServer] gives for the candidate files. *)
Definition reloaded (s : Server) (wg : string) (yaml : anymap) : Server := with_text s wg yaml.

Section enrolled.
Variables (s s' : Server) (p : Profile) (wg yml : string) (peers : anymap).
Hypothesis (Hlines : line_ended (sv_WG s) = true) (Hpeers : peers_of (sv_YAML s) = Some peers) (Hfresh : fresh s p).
Hypothesis (Hedit : Edited s p false = (s', Ok (wg, yml))).
Let t := reloaded s wg (sv_YAML s').

Lemma enrolled_facts : Validate p = Ok tt /\ lp_ServerPublicKey p = sv_PublicKey s /\ wg = manage_text s p /\
  existsb (route_collides (match ParsePrefix (lp_Address p) with Some a => pf_addr a | None => AddrZ end)) (wg_routes (sv_WG s)) = false /\
  str_contains (sv_WG s) (Profile_PublicKey p) = false /\
  sv_YAML s' = update_peers (any_set (peer_name p) (managed_peer p)) (sv_YAML s) /\
  yaml_Marshal (AMap (sv_YAML s')) = Ok yml.
Proof.
  pose proof Hedit as (Hv & Hk & x & u & Hx & Hu & Hw & Hy & Hs)%Edited_activate.
  rewrite unmanage_fresh in Hx by exact Hfresh. apply Ok_inj in Hx as <-.
  apply manage_ok in Hu as (Hr & Hc & ->). rewrite Hs. cbn [with_text sv_WG sv_YAML] in *. by split_and!.
Qed.
(** Taking the client out of the reloaded files. *)
Lemma enrolled_unmanage : unmanage t p =
  Ok (with_text s (trim_right newline_char (sv_WG s) +:+ newlines 2) (sv_YAML s)).
Proof.
  destruct enrolled_facts as (Hv & _ & Hw & _ & _ & Hyaml & _). destruct Hfresh as (Hb & He & Hg).
  unfold sv_Peers in Hg. rewrite Hpeers in Hg. change (default [] (Some peers)) with peers in Hg.
  assert (line_ended (trim_right newline_char (sv_WG s) +:+ newlines 2) = true) as Hended.
  { change (newlines 2) with (nl_text +:+ nl_text). rewrite <-sapp_assoc. apply line_ended_nl. }
  rewrite (unmanage_managed p Hv (trim_right newline_char (sv_WG s) +:+ newlines 2) Hended
             (Index_trim _ _ 2 (begin_one_line p Hv) ltac:(done) Hlines Hb) (Index_trim _ _ 2 (end_one_line p Hv) ltac:(done) Hlines He)
             t (any_set (peer_name p) (managed_peer p) peers)).
  - unfold t, reloaded. cbn [with_text sv_YAML]. unfold with_text. f_equal. cbn [sv_WG sv_YAML sv_PublicKey sv_STUN sv_DHT].
    f_equal. rewrite Hyaml, update_update. eapply update_same; [exact Hpeers|]. by apply any_delete_set.
  - unfold t, reloaded. cbn [with_text sv_YAML]. rewrite Hyaml. by apply peers_of_update.
  - apply any_get_set.
  - exact Hw.
Qed.

(** Activating it again changes nothing: the same two files. *)
Theorem activate_again : exists t', Edited t p false = (t', Ok (wg, yml)).
Proof.
  destruct enrolled_facts as (Hv & Hk & Hw & Hr & Hc & Hyaml & Hy). unfold Edited. cbv zeta. rewrite Hv.
  change (sv_PublicKey t) with (sv_PublicKey s). rewrite Hk, String.eqb_refl. cbn [negb].
  rewrite enrolled_unmanage. unfold manage. cbv zeta. cbn [with_text sv_WG sv_YAML].
  rewrite wg_routes_newlines, wg_routes_trim, Hr. cbn [negb].
  destruct (public_graph p Hv) as [Hg Hne].
  rewrite contains_before_nls, contains_trim, Hc by (done || by apply smem_word). cbn [negb]. cbn [sv_YAML with_text].
  rewrite <-Hyaml, Hy. eexists. f_equal. f_equal. f_equal. rewrite Hw. unfold manage_text, managed_text. cbn [sv_WG].
  assert (forall a n, trim_right newline_char (a +:+ newlines n) = trim_right newline_char a) as Ht.
  { intros a n. revert a. induction n as [|n IH]; intros a; [by rewrite sapp_nil_r|].
    change (newlines (S n)) with (nl_text +:+ newlines n). by rewrite <-sapp_assoc, IH, trim_right_nl. }
  rewrite Ht, trim_right_idem. change (newlines 2) with (nl_text +:+ nl_text). by rewrite !sapp_assoc.
Qed.
(** The value [Edited] was called on is not the server any more: its text has
    no managed peer and its shared map has one, so every further call fails. *)
Theorem edited_server_unusable revoke :
  (Edited s' p revoke).2 = Err (ENew "inconsistent managed peer; review private files").
Proof.
  pose proof Hedit as (_ & _ & _ & u & _ & _ & _ & _ & Hs)%Edited_activate.
  destruct enrolled_facts as (Hv & Hk & _ & _ & _ & Hyaml & _). destruct Hfresh as (Hb & He & _).
  unfold Edited. cbv zeta. rewrite Hv, Hs. change (sv_PublicKey (with_text s ?a ?b)) with (sv_PublicKey s).
  rewrite Hk, String.eqb_refl. cbn [negb]. unfold unmanage. cbv zeta. change (sv_WG (with_text s ?a ?b)) with a.
  rewrite Hb, He. unfold sv_Peers. change (sv_YAML (with_text s ?a ?b)) with b.
  rewrite Hs in Hyaml. cbn [with_text sv_YAML] in Hyaml. rewrite Hyaml, (peers_of_update _ _ _ Hpeers).
  change (default [] (Some ?x)) with x. by rewrite any_get_set.
Qed.
End enrolled.

(** ** Addresses *)

Lemma parse_prefixes_in used ps s : parse_prefixes used = Some ps -> In s used -> exists q, ParsePrefix s = Some q /\ In q ps.
Proof.
  revert ps. induction used as [|x used IH]; intros ps; [done|]. cbn.
  destruct (ParsePrefix x) as [q|] eqn:E; [|done]. destruct (parse_prefixes used) as [qs|]; [|done]. intros [= <-] [->|Hin].
  - exists q. split; [done|by left].
  - destruct (IH qs eq_refl Hin) as (q' & Hq & Hi). exists q'. split; [done|by right].
Qed.
Lemma phoneAddress_free route used a : phoneAddress route used = Ok a -> exists w, a = Addr_String w +:+ "/32" /\
  forall s q, In s used -> ParsePrefix s = Some q -> Contains q w = false.
Proof.
  unfold phoneAddress. destruct (ParsePrefix route) as [server|] eqn:Er; [|done]. destruct (pf_addr server) as [|v|v z] eqn:Ea; [done| |done].
  destruct (_ || _); [done|]. destruct (parse_prefixes used) as [ps|] eqn:Ep; [|done].
  apply ParsePrefix_wf in Er as (Hwf & _). rewrite Ea in Hwf. cbn in Hwf. pose proof (first_free_spec v ps 253 2 Hwf) as Hf.
  destruct (first_free _ _ _ _) as [b|]; [|done]. intros <-%Ok_inj. destruct Hf as (m & _ & -> & Hfree & _).
  exists (pool_addr v m). split; [done|]. intros s q Hs Hq. destruct (parse_prefixes_in _ _ _ Ep Hs) as (q' & Hq' & Hin).
  assert (q' = q) as -> by congruence. by apply Hfree.
Qed.
Lemma unlines_cons x l : unlines (x :: l) = x +:+ nl_text +:+ unlines l.
Proof. done. Qed.
Lemma managed_plain p : Validate p = Ok tt -> plain_line "P" ("resharedKey = " +:+ lp_PresharedKey p).
Proof.
  intros Hv%Validate_ok_iff. destruct Hv as [_ _ _ (psk & Hpsk & _) _ _ _ _ _ _]. split_and!; [done|done| |done].
  cbn [smem]. rewrite smem_app, (smem_word _ (lp_PresharedKey p)); [done|done|exact (key_graph _ _ Hpsk)].
Qed.
Lemma managed_address base p : Validate p = Ok tt -> line_ended base = true ->
  In (lp_Address p) (wg_routes (base +:+ managed_text p)).
Proof.
  intros Hv Hb. pose proof (managed_plain p Hv) as Hp. pose proof (proj1 (Validate_ok_iff p) Hv) as Hok.
  destruct Hok as [_ _ _ _ _ _ (c & rs & Ha & _) _ _ _]. pose proof (ParsePrefix_chars _ _ Ha) as Hch.
  assert (word (lp_Address p)) as Hw.
  { split; [intros E; by rewrite E in Ha|by eapply ParsePrefix_graph]. }
  assert (smem "," (lp_Address p) = false) as Hcomma.
  { clear -Hch. induction (lp_Address p) as [|d s IH]; [done|]. cbn in *. apply andb_true_iff in Hch as [Hd Hs]. rewrite IH by done.
    by destruct (Ascii.eqb_spec d ",") as [->|]. }
  assert (line_ended (base +:+ begin_mark p +:+ "[Peer]" +:+ nl_text +:+ "PublicKey = " +:+ Profile_PublicKey p +:+ nl_text) = true) as Hu.
  { do 2 (apply line_ended_app; [first [exact Hb|apply line_ended_nl]|]).
    rewrite <-(sapp_assoc "[Peer]"). apply line_ended_app; [done|]. rewrite <-sapp_assoc. apply line_ended_nl. }
  pose proof (routes_of_managed _ _ (lp_Address p) ("PersistentKeepalive = 25" +:+ nl_text +:+ end_mark p) Hp Hu Hw Hcomma) as Hin.
  assert (base +:+ managed_text p =
    (base +:+ begin_mark p +:+ "[Peer]" +:+ nl_text +:+ "PublicKey = " +:+ Profile_PublicKey p +:+ nl_text) +:+
    String "P" ("resharedKey = " +:+ lp_PresharedKey p) +:+ nl_text +:+ "AllowedIPs = " +:+ lp_Address p +:+
    nl_text +:+ "PersistentKeepalive = 25" +:+ nl_text +:+ end_mark p) as ->; [|exact Hin].
  unfold managed_text, peer_lines. rewrite !unlines_cons. repeat rewrite sapp_assoc. reflexivity.
Qed.
(** C13: Once a client is activated its address is taken: it is among the addresses
    the new file publishes, and no enrolment that reads them ever hands it out
    again. *)
Theorem activated_address_reserved s p s' wg yml :
  Edited s p false = (s', Ok (wg, yml)) ->
  exists client, ParsePrefix (lp_Address p) = Some client /\
    In (lp_Address p) (sp_PeerAddresses (Server_Public (reloaded s wg (sv_YAML s')))) /\
    forall route more a,
      phoneAddress route (sp_PeerAddresses (Server_Public (reloaded s wg (sv_YAML s'))) ++ more) = Ok a ->
      exists w, a = Addr_String w +:+ "/32" /\ w <> pf_addr client.
Proof.
  intros (Hv & _ & t & u & _ & Hu & Hw & _)%Edited_activate. apply manage_ok in Hu as (_ & _ & ->).
  cbn [with_text sv_WG] in Hw. unfold manage_text in Hw.
  assert (In (lp_Address p) (wg_routes wg)) as Hin.
  { rewrite <-Hw. apply managed_address; [done|]. change (newlines 2) with (nl_text +:+ nl_text). rewrite <-sapp_assoc. apply line_ended_nl. }
  pose proof (proj1 (Validate_ok_iff p) Hv) as Hok. destruct Hok as [_ _ _ _ _ _ (c & rs & Ha & H4 & _ & Hbits & _) _ _ _].
  exists c. split; [done|]. split; [exact Hin|]. intros route more a Hp.
  apply phoneAddress_free in Hp as (w & -> & Hfree). exists w. split; [done|]. intros ->.
  assert (Contains c (pf_addr c) = false) as Hc.
  { eapply Hfree; [apply in_or_app; left; exact Hin|exact Ha]. }
  destruct c as [[|v|v z] bits]; cbn in H4, Hbits; try done. subst bits. unfold Contains in Hc. cbn [pf_addr pf_bits] in Hc.
  rewrite Z.lxor_nilpotent in Hc. done.
Qed.
End edited.

(** ** The files *)

Section files.
Context `{tables : UnicodeTables} `{urls : UrlLib} `{wgt : WgTypes} `{yamllib : YamlLib} `{env : ConfigEnv}.

(** What a server that loads is: one private identity, a discovery file the
    daemon accepts, and the layout every edit relies on. *)
Theorem LoadServer_sound readfile paths dir s : LoadServer readfile paths dir = Ok s ->
  (exists key k, FindAll privateLine_at (sv_WG s) = [key] /\ wgtypes_ParseKey key = Some k /\
     sv_PublicKey s = b64_encode (wgtypes_PublicKey k)) /\
  slen (sv_WG s) <= MaxConfigBytes /\
  (exists cfg, load (filepath_Join dir "stunmesh.yml") "" paths = Ok cfg /\ sv_STUN s = GetServers (cStun cfg)) /\
  sv_STUN s <> [] /\ exists peers, peers_of (sv_YAML s) = Some peers.
Proof.
  unfold LoadServer, boundedFile. destruct (readfile (filepath_Join dir "wg0.conf")) as [wg|]; [|discriminate].
  destruct (Z.ltb_spec MaxConfigBytes (slen wg)); [discriminate|]. destruct (FindAll privateLine_at wg) as [|key [|]] eqn:Ek; try discriminate.
  destruct (wgtypes_ParseKey key) as [k|] eqn:Ep; [|discriminate]. cbv zeta.
  destruct (load _ _ _) as [cfg|] eqn:El; cbn [map_err]; [|discriminate].
  destruct (readfile (filepath_Join dir "stunmesh.yml")) as [b|]; [|discriminate]. destruct (_ <? slen b); [discriminate|].
  destruct (yaml_Unmarshal_any b) as [yaml|]; [|discriminate].
  destruct (server_layout yaml) as [dht|] eqn:Ey; [|discriminate]. intros <-%Ok_inj. cbn [sv_WG sv_YAML sv_PublicKey sv_STUN].
  split_and!; [by exists key, k|done|by exists cfg|apply GetServers_usable|].
  unfold server_layout in Ey. unfold peers_of. destruct (any_map "interfaces" yaml) as [ifs|]; [|discriminate].
  destruct (any_map "wg0" ifs) as [iface|]; [|discriminate]. destruct (any_map "peers" iface) as [ps|]; [|discriminate]. by exists ps.
Qed.

End files.

(** ** Witnesses *)

#[export] Instance lin_yaml : YamlLib := {| yaml_Marshal := fun _ => Ok "refresh_interval: 180s"; yaml_Unmarshal_any := fun _ => None |}.
Definition w_server : Server :=
  mkServer ("[Interface]" +:+ nl_text +:+ "ListenPort = 51824" +:+ nl_text +:+ "[Peer]" +:+ nl_text +:+ "AllowedIPs = 10.77.0.9/32" +:+ nl_text)
    [("interfaces", AMap [("wg0", AMap [("protocol", AStr "ipv4"); ("peers", AMap [("phone", AMap [])])])])]
    (b64_encode base_key) ["stun.example.com:3478"] ["https://d"].
Definition w_enrolled_text : string := manage_text w_server w_profile.
Definition w_enrolled_yaml : anymap := update_peers (any_set "linux-laptop" (managed_peer w_profile)) (sv_YAML w_server).
Definition w_after : Server := with_text w_server (sv_WG w_server) w_enrolled_yaml.
Lemma w_server_edited : Edited w_server w_profile false = (w_after, Ok (w_enrolled_text, "refresh_interval: 180s")).
Proof. unfold Edited. cbv zeta. rewrite w_profile_valid. vm_compute. reflexivity. Qed.
Lemma w_server_fresh : fresh w_server w_profile.
Proof. by split_and!; vm_compute. Qed.
Lemma activate_again_witness :
  exists t', Edited (reloaded w_server w_enrolled_text (sv_YAML w_after)) w_profile false = (t', Ok (w_enrolled_text, "refresh_interval: 180s")).
Proof.
  exact (activate_again w_server w_after w_profile w_enrolled_text "refresh_interval: 180s" [("phone", AMap [])]
           eq_refl eq_refl w_server_fresh w_server_edited).
Defined.
Lemma edited_server_unusable_witness :
  (Edited w_after w_profile true).2 =
  Err (ENew "inconsistent managed peer; review private files").
Proof.
  exact (edited_server_unusable w_server w_after w_profile w_enrolled_text "refresh_interval: 180s" [("phone", AMap [])]
           eq_refl w_server_fresh w_server_edited true).
Defined.
Lemma activated_address_reserved_witness :
  exists client, ParsePrefix "10.77.0.253/32" = Some client /\ In "10.77.0.253/32" (wg_routes w_enrolled_text).
Proof.
  destruct (activated_address_reserved w_server w_profile _ _ _ w_server_edited) as (c & Hc & Hin & _).
  exists c. exact (conj Hc Hin).
Defined.
Definition w_outcome : EditOutcome :=
  mkEditOutcome (mkWriteOutcome true true "" true) (mkWriteOutcome true false "refresh" true) true.
Lemma w_write_fails : WriteEdited w_outcome true w_server w_profile false "/out" ∅ =
  (w_after, ∅, Err (ENew "cannot write complete output")).
Proof. unfold WriteEdited. cbn [negb]. rewrite w_server_edited. vm_compute. reflexivity. Qed.
