(* ===== verification/Flags.v ===== *)
(** * The flag package, as the commands use it

    A command declares its flags, each a text or a truth value, and parses its
    arguments: flags up to the first argument that is none, then the rest. *)

From S2P Require Import Prelude GoStr.

Inductive FlagKind := FString | FBool.
(** A declared flag: its name, the variable it sets, and what it holds. *)
Record FlagDef := mkFlag { fd_name : string; fd_var : string; fd_kind : FlagKind }.
(** The variables set so far; a variable not set has its default. *)
Definition FlagVars : Type := list (string * string).
Definition flag_set (v x : string) (vars : FlagVars) : FlagVars := (v, x) :: vars.
Definition flag_get (v default : string) (vars : FlagVars) : string :=
  match find (fun e => e.1 =s v) vars with Some e => e.2 | None => default end.
(** strconv.ParseBool *)
Definition ParseBool (s : string) : option bool :=
  if existsb (fun t => s =s t) ["1"; "t"; "T"; "TRUE"; "true"; "True"] then Some true
  else if existsb (fun t => s =s t) ["0"; "f"; "F"; "FALSE"; "false"; "False"] then Some false
  else None.

Inductive FlagEnd := FlagsDone (vars : FlagVars) (rest : list string) | FlagHelp | FlagBad (e : error).

(** What one argument is. *)
Inductive FlagArg := NotAFlag | Terminator | BadSyntax | AFlag (name : string) (value : option string).
Definition flag_name (name : string) : FlagArg :=
  match name with
  | "" | String "-" _ | String "=" _ => BadSyntax
  | String c r =>
      match cut "=" r with
      | Some (n, value) => AFlag (String c n) (Some value)
      | None => AFlag name None
      end
  end.
Definition flag_arg (s : string) : FlagArg :=
  match s with
  | "--" => Terminator
  | String "-" (String "-" name) => flag_name name
  | String "-" (String c name) => flag_name (String c name)
  | _ => NotAFlag
  end.
Definition help_flag (name : string) : bool := (name =s "help") || (name =s "h").

Fixpoint Flags_Parse (defs : list FlagDef) (vars : FlagVars) (args : list string) : FlagEnd :=
  match args with
  | [] => FlagsDone vars []
  | s :: rest =>
      match flag_arg s with
      | NotAFlag => FlagsDone vars args
      | Terminator => FlagsDone vars rest
      | BadSyntax => FlagBad (ENew "bad flag syntax")
      | AFlag name value =>
          match find (fun d => fd_name d =s name) defs with
          | None => if help_flag name then FlagHelp else FlagBad (ENew "flag provided but not defined")
          | Some d =>
              match fd_kind d, value, rest with
              | FBool, None, _ => Flags_Parse defs (flag_set (fd_var d) "true" vars) rest
              | FBool, Some x, _ =>
                  match ParseBool x with
                  | None => FlagBad (ENew "invalid boolean value")
                  | Some b => Flags_Parse defs (flag_set (fd_var d) (if b then "true" else "false") vars) rest
                  end
              | FString, Some x, _ => Flags_Parse defs (flag_set (fd_var d) x vars) rest
              | FString, None, x :: rest' => Flags_Parse defs (flag_set (fd_var d) x vars) rest'
              | FString, None, [] => FlagBad (ENew "flag needs an argument")
              end
          end
      end
  end.

(** The usual way of giving a text flag: two arguments. *)
Definition given (l : list (string * string)) : list string := concat (map (fun e => ["--" +:+ e.1; e.2]) l).
Definition plain_name (s : string) : bool :=
  negb (s =s "") && negb (has_prefix s "-") && sforall (fun c => negb (Ascii.eqb c "=")) s.

Lemma cut_absent c s : sforall (fun a => negb (Ascii.eqb a c)) s = true -> cut c s = None.
Proof.
  induction s as [|a s IH]; [done|]. cbn [sforall cut]. intros [Ha Hs]%andb_true_iff.
  apply negb_true_iff in Ha. rewrite Ha. by rewrite IH.
Qed.
Lemma flag_arg_given n : plain_name n = true -> flag_arg ("--" +:+ n) = AFlag n None.
Proof.
  unfold plain_name. intros [[Hn Hd]%andb_true_iff He]%andb_true_iff. destruct n as [|c n]; [done|].
  cbn [sforall] in He. apply andb_true_iff in He as [Hc He].
  assert (flag_arg ("--" +:+ String c n) = flag_name (String c n)) as -> by reflexivity.
  assert (flag_name (String c n) = match cut "=" n with Some (m, v) => AFlag (String c m) (Some v) | None => AFlag (String c n) None end) as ->.
  { destruct c as [[] [] [] [] [] [] [] []]; try reflexivity; try discriminate Hc. destruct n; discriminate Hd. }
  by rewrite cut_absent.
Qed.
(** Given text flags, all declared, are all set, and the rest is what follows. *)
Lemma Flags_Parse_given defs l : forall vars,
  Forall (fun e => plain_name e.1 = true /\ exists d, find (fun d => fd_name d =s e.1) defs = Some d /\ fd_kind d = FString /\ fd_var d = e.1) l ->
  Flags_Parse defs vars (given l) = FlagsDone (rev l ++ vars) [].
Proof.
  induction l as [|[n x] l IH]; intros vars H; [done|]. apply Forall_cons_1 in H as [(Hn & d & Hf & Hk & Hv) H]. cbn [fst] in *.
  unfold given. cbn [map concat app fst snd Flags_Parse]. rewrite flag_arg_given, Hf, Hk by done.
  change (concat _) with (given l). rewrite IH by done. rewrite Hv. cbn [rev]. by rewrite <-app_assoc.
Qed.
