(* ===== verification/JsonIndent.v ===== *)
(** * Indented JSON: [json.MarshalIndent], and reading any layout back

    The indented text of a tree, and a theorem on every text that lays a tree
    out - white space wherever the grammar allows it: it is read back as the
    tree.  What [Marshal] and [MarshalIndent] print are two such layouts. *)

From S2P Require Import Prelude GoStr Json JsonFacts JsonDecode.

Definition json_nl : string := String (zb 10) "".
Definition pad (n : nat) : string := Nat.iter n (String.append "  ") "".
(** [json.MarshalIndent] with no prefix and two spaces. *)
Fixpoint marshal_indent (depth : nat) (v : json) : string :=
  let line n := json_nl +:+ pad n in
  match v with
  | JArr ((_ :: _) as l) =>
      "[" +:+ line (S depth) +:+
      join ("," +:+ line (S depth)) ((fix elements (l : list json) : list string :=
        match l with [] => [] | x :: l' => marshal_indent (S depth) x :: elements l' end) l) +:+ line depth +:+ "]"
  | JObj ((_ :: _) as l) =>
      "{" +:+ line (S depth) +:+
      join ("," +:+ line (S depth)) ((fix members (l : list (string * json)) : list string :=
        match l with [] => [] | (k, x) :: l' => (json_string k +:+ ": " +:+ marshal_indent (S depth) x) :: members l' end) l)
        +:+ line depth +:+ "}"
  | _ => marshal v
  end.

(** ** Layouts *)

Definition blank (w : string) : Prop := sforall is_ws w = true.
Inductive lays : json -> string -> Prop :=
| lays_str s : sforall quotable s = true -> lays (JStr s) (json_string s)
| lays_null : lays JNull "null"
| lays_arr0 w : blank w -> lays (JArr []) ("[" +:+ w +:+ "]")
| lays_arr l t : l <> [] -> lays_elements l t -> lays (JArr l) ("[" +:+ t)
| lays_obj0 w : blank w -> lays (JObj []) ("{" +:+ w +:+ "}")
| lays_obj l t : l <> [] -> lays_members l t -> lays (JObj l) ("{" +:+ t)
with lays_elements : list json -> string -> Prop :=
| lays_last x t w1 w2 : blank w1 -> blank w2 -> lays x t -> lays_elements [x] (w1 +:+ t +:+ w2 +:+ "]")
| lays_more x t w1 w2 l tl : blank w1 -> blank w2 -> lays x t -> l <> [] -> lays_elements l tl ->
    lays_elements (x :: l) (w1 +:+ t +:+ w2 +:+ "," +:+ tl)
with lays_members : list (string * json) -> string -> Prop :=
| lays_mlast k x t w1 w2 w3 : sforall quotable k = true -> blank w1 -> blank w2 -> blank w3 -> lays x t ->
    lays_members [(k, x)] (w1 +:+ json_string k +:+ ":" +:+ w2 +:+ t +:+ w3 +:+ "}")
| lays_mmore k x t w1 w2 w3 l tl : sforall quotable k = true -> blank w1 -> blank w2 -> blank w3 -> lays x t ->
    l <> [] -> lays_members l tl ->
    lays_members ((k, x) :: l) (w1 +:+ json_string k +:+ ":" +:+ w2 +:+ t +:+ w3 +:+ "," +:+ tl).
Scheme lays_ind' := Minimality for lays Sort Prop
  with elements_ind' := Minimality for lays_elements Sort Prop
  with members_ind' := Minimality for lays_members Sort Prop.
Combined Scheme lays_mutind from lays_ind', elements_ind', members_ind'.

Lemma skip_blank w s : blank w -> skip_ws (w +:+ s) = skip_ws s.
Proof.
  unfold blank. induction w as [|c w IH]; [done|]. cbn [sforall String.append skip_ws].
  intros [-> Hw]%andb_true_iff. by apply IH.
Qed.
(** A value's first character. *)
Lemma lays_head v t : lays v t -> exists c s, t = String c s /\ is_ws c = false /\ c <> "]"%char.
Proof.
  intros H. destruct H as [s Hs| | | | |]; try (eexists _, _; split; [reflexivity|done]).
Qed.
Lemma skip_layout v t r : lays v t -> skip_ws (t +:+ r) = t +:+ r.
Proof. intros (c & s & -> & Hc & _)%lays_head. cbn [String.append skip_ws]. by rewrite Hc. Qed.
Lemma parse_value_ws f w s : blank w -> parse_value f (w +:+ s) = parse_value f s.
Proof. intros Hw. destruct f as [|f]; [done|]. cbn [parse_value]. by rewrite skip_blank. Qed.
Lemma parse_members_key f w k r acc : blank w -> sforall quotable k = true ->
  parse_members (S f) (w +:+ json_string k +:+ ":" +:+ r) acc =
  match parse_value f r with
  | None => None
  | Some (v, r3) =>
      match skip_ws r3 with
      | String "," r4 => parse_members f r4 (acc ++ [(k, v)])
      | String "}" r4 => Some (JObj (acc ++ [(k, v)]), r4)
      | _ => None
      end
  end.
Proof.
  intros Hw Hk. rewrite json_string_quotable by done. unfold quoted. cbn [parse_members]. rewrite skip_blank by done.
  cbn [String.append]. change (skip_ws (String dquote ?y)) with (String dquote y). change (negb (bz dquote =? 34)) with false.
  cbn iota. rewrite sapp_assoc. change ((String dquote "") +:+ ?y) with (String dquote y). rewrite parse_string_quotable by done.
  reflexivity.
Qed.

Lemma skip_ws_idem s : skip_ws (skip_ws s) = skip_ws s.
Proof. induction s as [|c s IH]; [done|]. cbn [skip_ws]. destruct (is_ws c) eqn:E; [exact IH|]. cbn [skip_ws]. by rewrite E. Qed.
Lemma parse_value_skip f s : parse_value f (skip_ws s) = parse_value f s.
Proof. destruct f as [|f]; [done|]. cbn [parse_value]. by rewrite skip_ws_idem. Qed.
Lemma parse_elements_skip f s acc : parse_elements f (skip_ws s) acc = parse_elements f s acc.
Proof. destruct f as [|f]; [done|]. cbn [parse_elements]. by rewrite parse_value_skip. Qed.
Lemma parse_members_skip f s acc : parse_members f (skip_ws s) acc = parse_members f s acc.
Proof. destruct f as [|f]; [done|]. cbn [parse_members]. by rewrite skip_ws_idem. Qed.
(** Arrays and objects with something in them. *)
Lemma parse_open_array f x c s : skip_ws x = String c s -> c <> "]"%char ->
  parse_value (S f) (String "[" x) = parse_elements f x [].
Proof.
  intros Hx Hc. rewrite <-(parse_elements_skip f x). cbn [parse_value]. change (skip_ws (String "[" ?x)) with (String "[" x).
  cbn iota. change (bz "[" =? 34) with false. cbn [Ascii.eqb Bool.eqb]. cbn iota. rewrite Hx.
  destruct c as [[] [] [] [] [] [] [] []]; try reflexivity. by destruct Hc.
Qed.
Lemma parse_open_object f x c s : skip_ws x = String c s -> c <> "}"%char ->
  parse_value (S f) (String "{" x) = parse_members f x [].
Proof.
  intros Hx Hc. rewrite <-(parse_members_skip f x). cbn [parse_value]. change (skip_ws (String "{" ?x)) with (String "{" x).
  cbn iota. change (bz "{" =? 34) with false. cbn [Ascii.eqb Bool.eqb]. cbn iota. rewrite Hx.
  destruct c as [[] [] [] [] [] [] [] []]; try reflexivity. by destruct Hc.
Qed.
Lemma elements_head l t r : lays_elements l t -> exists c s, skip_ws (t +:+ r) = String c s /\ c <> "]"%char.
Proof.
  destruct 1 as [x t w1 w2 Hw _ Hx|x t w1 w2 l tl Hw _ Hx _ _]; pose proof (lays_head _ _ Hx) as (c & s & -> & Hc & Hn);
    rewrite !sapp_assoc, skip_blank by done; cbn [String.append skip_ws]; rewrite Hc; eexists _, _; (split; [reflexivity|done]).
Qed.
Lemma members_head l t r : lays_members l t -> exists c s, skip_ws (t +:+ r) = String c s /\ c <> "}"%char.
Proof.
  destruct 1 as [k x t w1 w2 w3 Hk Hw|k x t w1 w2 w3 l tl Hk Hw]; rewrite json_string_quotable by done; unfold quoted;
    rewrite !sapp_assoc, skip_blank by done; eexists _, _; (split; [reflexivity|done]).
Qed.

Ltac measure := rewrite ?slength_app in *; cbn [String.length String.append] in *; rewrite ?slength_app in *; cbn [String.length] in *; lia.
Lemma layouts_read :
  (forall v t, lays v t -> forall f r, (String.length t < f)%nat -> parse_value f (t +:+ r) = Some (v, r)) /\
  (forall l t, lays_elements l t -> forall f r acc, (String.length t < f)%nat ->
     parse_elements f (t +:+ r) acc = Some (JArr (acc ++ l), r)) /\
  (forall l t, lays_members l t -> forall f r acc, (String.length t < f)%nat ->
     parse_members f (t +:+ r) acc = Some (JObj (acc ++ l), r)).
Proof.
  apply lays_mutind.
  - intros s Hs f r Hf. destruct f as [|f]; [lia|]. rewrite json_string_quotable by done. by apply parse_value_quotable.
  - intros f r Hf. by destruct f as [|f]; [lia|].
  - intros w Hw f r Hf. destruct f as [|f]; [lia|]. rewrite !sapp_assoc. change ("[" +:+ ?x) with (String "[" x). cbn [parse_value].
    change (skip_ws (String "[" ?x)) with (String "[" x). cbn iota. change (bz "[" =? 34) with false. cbn [Ascii.eqb Bool.eqb]. cbn iota.
    by rewrite skip_blank.
  - intros l t Hne Hl IH f r Hf. destruct f as [|f]; [lia|]. destruct (elements_head _ _ r Hl) as (c & s & Es & Hc).
    change (("[" +:+ t) +:+ r) with (String "[" (t +:+ r)). erewrite parse_open_array by done. apply IH. measure.
  - intros w Hw f r Hf. destruct f as [|f]; [lia|]. rewrite !sapp_assoc. change ("{" +:+ ?x) with (String "{" x). cbn [parse_value].
    change (skip_ws (String "{" ?x)) with (String "{" x). cbn iota. change (bz "{" =? 34) with false. cbn [Ascii.eqb Bool.eqb]. cbn iota.
    by rewrite skip_blank.
  - intros l t Hne Hl IH f r Hf. destruct f as [|f]; [lia|]. destruct (members_head _ _ r Hl) as (c & s & Es & Hc).
    change (("{" +:+ t) +:+ r) with (String "{" (t +:+ r)). erewrite parse_open_object by done. apply IH. measure.
  - intros x t w1 w2 H1 H2 Hx IH f r acc Hf. destruct f as [|f]; [lia|]. rewrite !sapp_assoc. cbn [parse_elements].
    rewrite parse_value_ws, IH, skip_blank by (done || measure). reflexivity.
  - intros x t w1 w2 l tl H1 H2 Hx IH Hne Hl IHl f r acc Hf. destruct f as [|f]; [lia|]. rewrite !sapp_assoc. cbn [parse_elements].
    rewrite parse_value_ws, IH, skip_blank by (done || measure). change (skip_ws ("," +:+ ?y)) with (String "," y). cbn iota.
    rewrite IHl by measure. by rewrite <-app_assoc.
  - intros k x t w1 w2 w3 Hk H1 H2 H3 Hx IH f r acc Hf. destruct f as [|f]; [lia|]. rewrite !sapp_assoc.
    rewrite parse_members_key, parse_value_ws, IH, skip_blank by (done || measure). reflexivity.
  - intros k x t w1 w2 w3 l tl Hk H1 H2 H3 Hx IH Hne Hl IHl f r acc Hf. destruct f as [|f]; [lia|]. rewrite !sapp_assoc.
    rewrite parse_members_key, parse_value_ws, IH, skip_blank by (done || measure).
    change (skip_ws ("," +:+ ?y)) with (String "," y). cbn iota. rewrite IHl by measure. by rewrite <-app_assoc.
Qed.
(** Any layout of a tree, white space around it or not, is read as the tree. *)
Lemma parse_json_layout v t w : lays v t -> blank w -> parse_json (t +:+ w) = Some v.
Proof.
  intros Hl Hw. unfold parse_json. rewrite (proj1 layouts_read _ _ Hl) by measure.
  rewrite <-(sapp_nil_r w), skip_blank by done. done.
Qed.

(** ** The indented text is a layout *)

Inductive plain : json -> Prop :=
| plain_str s : sforall quotable s = true -> plain (JStr s)
| plain_null : plain JNull
| plain_arr l : Forall plain l -> plain (JArr l)
| plain_obj l : Forall (fun m => sforall quotable m.1 = true /\ plain m.2) l -> plain (JObj l).
Definition line (n : nat) : string := json_nl +:+ pad n.
Definition indent_member (n : nat) (m : string * json) : string := json_string m.1 +:+ ": " +:+ marshal_indent n m.2.
Lemma indent_arr n x l : marshal_indent n (JArr (x :: l)) =
  "[" +:+ line (S n) +:+ join ("," +:+ line (S n)) (map (marshal_indent (S n)) (x :: l)) +:+ line n +:+ "]".
Proof. reflexivity. Qed.
Lemma indent_obj n m l : marshal_indent n (JObj (m :: l)) =
  "{" +:+ line (S n) +:+ join ("," +:+ line (S n)) (map (indent_member (S n)) (m :: l)) +:+ line n +:+ "}".
Proof.
  destruct m as [k x]. cbn [marshal_indent]. do 4 f_equal. cbn [map]. f_equal. induction l as [|[k' x'] l IH]; [done|].
  cbn [map]. by rewrite <-IH.
Qed.
Lemma blank_line n : blank (line n).
Proof. unfold blank, line. cbn [sforall String.append json_nl]. induction n as [|n IH]; [done|]. exact IH. Qed.
Lemma indent_lays_elements n l : l <> [] -> Forall (fun x => lays x (marshal_indent n x)) l -> forall w,  blank w ->
  lays_elements l (w +:+ join ("," +:+ line n) (map (marshal_indent n) l) +:+ line (pred n) +:+ "]").
Proof.
  intros Hne. induction l as [|x l IH]; [done|]. intros [Hx Hl]%Forall_cons_1 w Hw. destruct l as [|y l].
  - cbn [map join]. apply lays_last; [done|apply blank_line|done].
  - cbn [map]. rewrite join_cons_sep, !sapp_assoc.
    change (marshal_indent n y :: map (marshal_indent n) l) with (map (marshal_indent n) (y :: l)).
    apply (lays_more x _ w ""); try done. apply IH; [done..|apply blank_line].
Qed.
Lemma indent_lays_members n l : l <> [] ->
  Forall (fun m => sforall quotable m.1 = true /\ lays m.2 (marshal_indent n m.2)) l -> forall w,  blank w ->
  lays_members l (w +:+ join ("," +:+ line n) (map (indent_member n) l) +:+ line (pred n) +:+ "}").
Proof.
  intros Hne. induction l as [|[k x] l IH]; [done|]. intros [[Hk Hx] Hl]%Forall_cons_1 w Hw. cbn [fst snd] in *. destruct l as [|y l].
  - cbn [map join indent_member]. unfold indent_member. cbn [fst snd]. rewrite !sapp_assoc.
    apply (lays_mlast k x _ w " "); [done..|apply blank_line|done].
  - cbn [map]. rewrite join_cons_sep. unfold indent_member at 1. cbn [fst snd]. rewrite !sapp_assoc.
    change (indent_member n y :: map (indent_member n) l) with (map (indent_member n) (y :: l)).
    apply (lays_mmore k x _ w " " ""); try done. apply IH; [done..|apply blank_line].
Qed.
Lemma depth_in y l : In y l -> (depth_of y < depths l)%nat.
Proof.
  induction l as [|x l IH]; [done|]. cbn [depths fold_right]. fold (depths l). intros [->|Hy]; [lia|]. apply IH in Hy. lia.
Qed.
Lemma indent_lays d : forall v n, (depth_of v <= d)%nat -> plain v -> lays v (marshal_indent n v).
Proof.
  induction d as [|d IH]; intros v n Hd Hv; [by destruct v; cbn in Hd; lia|].
  destruct Hv as [s Hs| |l Hl|l Hl].
  - by apply lays_str.
  - apply lays_null.
  - destruct l as [|x l]; [by apply (lays_arr0 "")|]. rewrite indent_arr. apply lays_arr; [done|].
    apply (indent_lays_elements (S n)); [done| |apply blank_line]. rewrite depth_arr in Hd.
    rewrite List.Forall_forall in Hl |- *. intros y Hy. apply IH; [|by apply Hl]. apply depth_in in Hy. lia.
  - destruct l as [|m l]; [by apply (lays_obj0 "")|]. rewrite indent_obj. apply lays_obj; [done|].
    apply (indent_lays_members (S n)); [done| |apply blank_line]. rewrite depth_obj in Hd.
    rewrite List.Forall_forall in Hl |- *. intros y Hy. destruct (Hl y Hy) as [Hk Hp]. split; [done|]. apply IH; [|done].
    apply (in_map snd), depth_in in Hy. lia.
Qed.
(** Indented text reads back as its tree. *)
Lemma parse_json_indent v w : plain v -> blank w -> parse_json (marshal_indent 0 v +:+ w) = Some v.
Proof. intros Hv Hw. apply parse_json_layout; [|done]. by apply (indent_lays (depth_of v)). Qed.
