(* ===== verification/LinuxIssue.v ===== *)
(** * internal/linuxprofile/profile.go: Issue

    Issuing a profile: a template without secrets, the two keys the official
    tool generates, and the indented profile that comes out.  The template's
    members travel as raw text ([json.RawMessage]): their own spelling is
    compacted and spliced into the document that is decoded and checked. *)

From S2P Require Import Prelude GoStr Codec Json JsonFacts Validation Discovery Plugin JsonDecode JsonIndent Provision StrSearch LinuxProfile.

(** ** Raw members *)

Fixpoint raw_members (fuel : nat) (s : string) : option (list (string * string)) :=
  match fuel with
  | O => None
  | S f =>
      match skip_ws s with
      | "" => None
      | String _ r =>                                     (* the quote *)
          match parse_string r with
          | None => None
          | Some (k, r) =>
              match skip_ws r with
              | String ":" r =>
                  let v := skip_ws r in
                  match parse_value (S (S (String.length v))) v with
                  | None => None
                  | Some (_, r') =>
                      let m := (k, str_take (String.length v - String.length r') v) in
                      match skip_ws r' with
                      | String "," r'' => option_map (cons m) (raw_members f r'')
                      | String "}" _ => Some [m]
                      | _ => None
                      end
                  end
              | _ => None
              end
          end
      end
  end.
(** [json.Unmarshal] into a map of raw messages, the document being an object. *)
Definition raw_fields (raw : string) : option (list (string * string)) :=
  match skip_ws raw with
  | String "{" r => match skip_ws r with String "}" _ => Some [] | _ => raw_members (S (String.length r)) r end
  | _ => None
  end.
(** A raw message is written without its white space, with the characters
    escaped that HTML or JavaScript would read. *)
Fixpoint compact (in_string escaped : bool) (s : string) : string :=
  match s with
  | "" => ""
  | String c s' =>
      let next :=
        if in_string then
          String c (compact (escaped || negb (bz c =? 34)) (negb escaped && (bz c =? 92)) s')
        else if is_ws c then compact false false s'
        else String c (compact (bz c =? 34) false s') in
      if Ascii.eqb c "<" then "\u003c" +:+ compact in_string false s'
      else if Ascii.eqb c ">" then "\u003e" +:+ compact in_string false s'
      else if Ascii.eqb c "&" then "\u0026" +:+ compact in_string false s'
      else match s' with
           | String d (String e s3) =>
               if (bz c =? 226) && (bz d =? 128) && ((bz e =? 168) || (bz e =? 169))
               then (if bz e =? 168 then "\u2028" else "\u2029") +:+ compact in_string false s3
               else next
           | _ => next
           end
  end.

(** ** Maps print with their keys in order *)

Fixpoint insert_key {A} (e : string * A) (l : list (string * A)) : list (string * A) :=
  match l with
  | [] => [e]
  | e' :: l' => if string_lt e.1 e'.1 then e :: l else e' :: insert_key e l'
  end.
Definition sort_keys {A} (l : list (string * A)) : list (string * A) := foldr insert_key [] l.
Definition raw_document (fields : list (string * string)) : string :=
  "{" +:+ join "," (map (fun f => json_string f.1 +:+ ":" +:+ compact false false f.2) (sort_keys fields)) +:+ "}".
Definition map_json (m : gmap string string) : json :=
  JObj (map (fun e => (e.1, JStr e.2)) (sort_keys (map_to_list m))).
(** The struct's members in order; [lan] is whether the map of LAN names was
    there at all: Go's nil map prints as null.  No list is nil, nor is the map of
    names, once the profile is valid. *)
Definition profile_json (p : Profile) (lan : bool) : json :=
  JObj [("schema", JStr (lp_Schema p)); ("name", JStr (lp_Name p)); ("private_key", JStr (lp_PrivateKey p));
        ("preshared_key", JStr (lp_PresharedKey p)); ("server_public_key", JStr (lp_ServerPublicKey p));
        ("address", JStr (lp_Address p)); ("allowed_ips", JStrs (lp_AllowedIPs p)); ("endpoint", JStr (lp_Endpoint p));
        ("stun_servers", JStrs (lp_STUN p)); ("opendht", JStrs (lp_OpenDHT p)); ("hostnames", map_json (lp_Hostnames p));
        ("lan_hostnames", if lan then map_json (lp_LANHostnames p) else JNull)].

Section issue.
Context `{UnicodeTables} `{UrlLib} `{wgt : WgTypes}.

Definition decode_raw_map (v : json) : option (list (string * json)) :=
  match v with JObj l => Some l | JNull => Some [] | _ => None end.
Definition secret_field (key : string) : bool :=
  (key <>s to_lower key) || (key =s "private_key") || (key =s "preshared_key").
(** The document that is checked: the template's members and the two keys.
    [wg] runs the official tool. *)
Definition issue_document (raw : string) (wg : string -> option string) : result string :=
  let bad := Err (ENew "invalid Linux issuance template") in
  if Linux_MaxBytes <? slen raw then bad
  else match DecodeJSON decode_raw_map raw, raw_fields raw with
       | Ok _, Some fields =>
           if existsb (fun f => secret_field f.1) fields then Err (ENew "issuance accepts no secret fields")
           else match wg "genkey", wg "genpsk" with
                | Some k, Some psk =>
                    Ok (raw_document (("private_key", json_string (trim_space k)) ::
                                      ("preshared_key", json_string (trim_space psk)) :: fields))
                | _, _ => Err (ENew "official wg key generation failed")
                end
       | _, _ => bad
       end.
(** Whether a document gives the LAN names. *)
Definition gives_lan (b : string) : bool :=
  match document_keys b with Some keys => existsb (field_match "lan_hostnames") keys | None => false end.
Definition Issue (raw : string) (wg : string -> option string) : result string :=
  let? b := issue_document raw wg in
  let? p := Decode b in
  Ok (marshal_indent 0 (profile_json p (gives_lan b))).
End issue.
