(* ===== verification/LinuxIssueFacts.v ===== *)
(** * Issued profiles, and what becomes of them *)

From S2P Require Import Prelude GoStr Codec Json JsonFacts Validation Discovery Plugin JsonDecode JsonIndent Provision ProvisionFacts StrSearch LinuxProfile LinuxProfileFacts LinuxIssue.

(** ** Sorted keys *)

Lemma insert_key_perm {A} (e : string * A) l : insert_key e l ≡ₚ e :: l.
Proof.
  induction l as [|e' l IH]; [done|]. cbn [insert_key]. destruct (string_lt e.1 e'.1); [done|].
  rewrite IH. apply Permutation_swap.
Qed.
Lemma sort_keys_perm {A} (l : list (string * A)) : sort_keys l ≡ₚ l.
Proof. unfold sort_keys. induction l as [|e l IH]; [done|]. cbn [foldr]. by rewrite insert_key_perm, IH. Qed.

(** A map that is printed is read back. *)
Lemma decode_entries l : forall acc,
  fold_left (fun acc m => match acc, decode_string m.2 "" with Some acc, Some a => Some (<[m.1 := a]> acc) | _, _ => None end)
    (map (fun e => (e.1, JStr e.2)) l) (Some acc) =
  Some (fold_left (fun (acc : gmap string string) e => <[e.1 := e.2]> acc) l acc).
Proof. induction l as [|e l IH]; intros acc; [done|]. cbn [map fold_left fst snd decode_string]. apply IH. Qed.
Lemma fold_insert (l : list (string * string)) : NoDup l.*1 -> forall acc : gmap string string, (forall k, k ∈ l.*1 -> acc !! k = None) ->
  fold_left (fun (acc : gmap string string) e => <[e.1 := e.2]> acc) l acc = list_to_map l ∪ acc.
Proof.
  induction l as [|[k x] l IH]; intros Hnd acc Hacc; cbn [fold_left fmap list_fmap fst snd list_to_map foldr] in *.
  { by rewrite (left_id_L ∅ (∪)). }
  apply list.NoDup_cons in Hnd as [Hk Hnd]. rewrite IH; [|done|].
  - rewrite <-insert_union_l, insert_union_r; [done|]. by apply not_elem_of_list_to_map_1.
  - intros k' Hk'. rewrite lookup_insert_ne; [apply Hacc; by right|]. intros ->. done.
Qed.
Lemma decode_map_json m : decode_string_map (map_json m) ∅ = Some m.
Proof.
  unfold map_json, decode_string_map. rewrite decode_entries. f_equal.
  assert (NoDup (sort_keys (map_to_list m)).*1) as Hnd.
  { rewrite sort_keys_perm. apply NoDup_fst_map_to_list. }
  rewrite fold_insert by done. rewrite (right_id_L ∅ (∪)).
  rewrite (list_to_map_proper _ (map_to_list m)); [apply list_to_map_to_list|done|apply sort_keys_perm].
Qed.

(** ** The names are their own lower case *)

Lemma split_on_all P c s : forallb (sforall P) (split_on c s) = true -> sforall (fun a => P a || Ascii.eqb a c) s = true.
Proof.
  induction s as [|a s IH]; [done|]. cbn [split_on sforall]. destruct (Ascii.eqb a c) eqn:E.
  - cbn [forallb sforall]. intros Hs. rewrite orb_true_r. by apply IH.
  - destruct (split_on c s) as [|w ws] eqn:Es; cbn [forallb sforall] in *.
    + intros Hs. rewrite andb_true_r in Hs. apply andb_true_iff in Hs as [-> _]. by apply IH.
    + intros [[-> Hw]%andb_true_iff Hws]%andb_true_iff. apply IH. by rewrite Hw.
Qed.
Definition name_char (a : ascii) : bool := label_char a || Ascii.eqb a ".".
Lemma name_char_lower a : name_char a = true -> lower_char a = a /\ quotable a = true /\ (bz a <? 128) = true.
Proof. destruct a as [[] [] [] [] [] [] [] []]; vm_compute; done. Qed.
Lemma valid_name_chars s : validName s = true -> sforall name_char s = true.
Proof.
  unfold validName, hostname. intros [[[_ Hh]%andb_true_iff _]%andb_true_iff _]%andb_true_iff.
  apply split_on_all. rewrite forallb_forall in Hh |- *. intros w Hw. specialize (Hh w Hw).
  apply label_iff in Hh as (c & t & -> & Hc & Ht & _). cbn [sforall]. rewrite Ht. unfold label_char. by rewrite Hc.
Qed.
Lemma valid_name_quotable s : validName s = true -> sforall quotable s = true.
Proof. intros Hs%valid_name_chars. eapply sforall_impl; [|exact Hs]. intros a Ha. by apply name_char_lower. Qed.
Section names.
Context `{tables : UnicodeTables}.
Lemma valid_name_lower s : validName s = true -> to_lower s = s.
Proof.
  intros Hs%valid_name_chars. unfold to_lower. assert (is_ascii s = true /\ ascii_lower s = s) as [-> ->]; [|done].
  induction s as [|a s IH]; [done|]. cbn [sforall] in Hs. apply andb_true_iff in Hs as [(Hl & _ & Ha)%name_char_lower Hs].
  destruct (IH Hs) as [H1 H2]. cbn [is_ascii ascii_lower]. rewrite Hl, H2. split; [|done]. unfold is_ascii in *. cbn. by rewrite Ha.
Qed.

(** ** The printed profile *)

Definition profile_texts_ok (p : Profile) : Prop :=
  Forall (fun s => sforall quotable s = true)
    ([lp_Schema p; lp_Name p; lp_PrivateKey p; lp_PresharedKey p; lp_ServerPublicKey p; lp_Address p; lp_Endpoint p] ++
     lp_AllowedIPs p ++ lp_STUN p ++ lp_OpenDHT p ++ (map_to_list (lp_Hostnames p)).*2 ++ (map_to_list (lp_LANHostnames p)).*2).
Definition names_ok (m : gmap string string) : Prop := forall k s, m !! k = Some s -> validName k = true.

Lemma map_json_keys m x : In x (map (fun e => (e.1, JStr e.2)) (sort_keys (map_to_list m))) ->
  exists k s, x = (k, JStr s) /\ m !! k = Some s.
Proof.
  intros ([k s] & <- & Hin)%in_map_iff. exists k, s. split; [done|].
  apply elem_of_map_to_list. apply list_elem_of_In in Hin. by rewrite sort_keys_perm in Hin.
Qed.
Lemma plain_map m : names_ok m -> Forall (fun s => sforall quotable s = true) (map_to_list m).*2 -> plain (map_json m).
Proof.
  intros Hn Hs. apply plain_obj, List.Forall_forall. intros x (k & s & -> & Hk)%map_json_keys. cbn [fst snd].
  split; [by eapply valid_name_quotable, Hn|]. apply plain_str. rewrite List.Forall_forall in Hs. apply Hs.
  apply in_map_iff. exists (k, s). split; [done|]. by apply list_elem_of_In, elem_of_map_to_list.
Qed.
Lemma check_map d m : d <= 15 -> names_ok m -> check d (map_json m) = Ok tt.
Proof.
  intros Hd Hn. unfold map_json. rewrite check_obj. destruct (Z.ltb_spec 16 d); [lia|]. apply members_ok. split_and!.
  - intros k x (k' & s & [= -> ->] & _)%map_json_keys. cbn. by destruct (Z.ltb_spec 16 (d + 1)); [lia|].
  - rewrite map_map. cbn [fst]. rewrite (map_ext_in _ fst).
    + rewrite sort_keys_perm. apply NoDup_fst_map_to_list.
    + intros [k s] Hin. cbn [fst]. apply valid_name_lower. apply list_elem_of_In in Hin. rewrite sort_keys_perm in Hin.
      apply elem_of_map_to_list in Hin. by eapply Hn.
  - intros ? _. apply not_elem_of_nil.
Qed.
Lemma plain_strs l : Forall (fun s => sforall quotable s = true) l -> plain (JStrs l).
Proof. intros Hl. apply plain_arr. induction Hl; constructor; [by apply plain_str|done]. Qed.
Lemma plain_profile p lan : profile_texts_ok p -> names_ok (lp_Hostnames p) -> names_ok (lp_LANHostnames p) -> plain (profile_json p lan).
Proof.
  unfold profile_texts_ok. rewrite !Forall_app. intros (Hs & Hips & Hstun & Hdht & Hh & Hl) Hnh Hnl.
  repeat (apply Forall_cons_iff in Hs as [? Hs]). apply plain_obj.
  do 11 (constructor; [split; [done|by apply plain_str || by apply plain_strs || by apply plain_map]|]).
  constructor; [split; [done|]|constructor]. cbn [snd]. destruct lan; [by apply plain_map|apply plain_null].
Qed.
Lemma check_profile p lan : names_ok (lp_Hostnames p) -> names_ok (lp_LANHostnames p) ->
  is_ok (check 0 (profile_json p lan)) = lan.
Proof.
  intros Hh Hl. unfold profile_json. rewrite check_obj. change (16 <? 0) with false. cbn iota. destruct lan.
  - match goal with |- is_ok ?x = _ => enough (x = Ok tt) as -> by done end. apply members_ok. split_and!.
    + intros k x Hx. assert (x = map_json (lp_Hostnames p) \/ x = map_json (lp_LANHostnames p) \/ (exists s, x = JStr s) \/ exists l, x = JStrs l)
        as [->|[->|[[s ->]|[l ->]]]]; [|by apply check_map|by apply check_map|done|by apply check_strs].
      cbn in Hx. repeat destruct Hx as [Hx|Hx]; try done; apply pair_equal_spec in Hx as [_ <-]; eauto.
    + apply (bool_decide_unpack _). reflexivity.
    + intros m _. apply not_elem_of_nil.
  - match goal with |- is_ok ?x = _ => destruct x as [[]|] eqn:E end; [|done]. apply members_ok in E as (Hc & _).
    specialize (Hc "lan_hostnames" JNull). cbn in Hc. discriminate Hc. tauto.
Qed.
Lemma decode_profile p : decode_struct profile_field (profile_json p true) Profile0 = Some p.
Proof.
  destruct p as [sc na pr ps sp ad ips ep st dht hn lan]. unfold profile_json.
  cbn [lp_Schema lp_Name lp_PrivateKey lp_PresharedKey lp_ServerPublicKey lp_Address lp_AllowedIPs lp_Endpoint lp_STUN lp_OpenDHT
    lp_Hostnames lp_LANHostnames].
  pose proof (decode_strs ips) as H1. pose proof (decode_strs st) as H2. pose proof (decode_strs dht) as H3.
  pose proof (decode_map_json hn) as H4. pose proof (decode_map_json lan) as H5. unfold Profile0.
  set (e := (∅ : gmap string string)) in *. clearbody e.
  cbn [decode_struct decode_members]. unfold profile_field.
  repeat match goal with |- context [field_match ?a ?b] =>
    let v := eval vm_compute in (field_match a b) in change (field_match a b) with v end.
  cbn iota. cbn [decode_string option_map]. rewrite H1. cbn [option_map]. rewrite H2. cbn [option_map]. rewrite H3.
  cbn [option_map]. rewrite H4. cbn [option_map]. by rewrite H5.
Qed.
End names.

(** ** What is issued, and what is accepted *)

Section issued.
Context `{tables : UnicodeTables} `{urls : UrlLib} `{wgt : WgTypes}.

Lemma valid_names p : Validate p = Ok tt -> names_ok (lp_Hostnames p) /\ names_ok (lp_LANHostnames p).
Proof.
  intros Hv%Validate_ok_iff. split; intros k s Hk.
  - destruct (fo_routes _ Hv) as (client & rs & _ & _ & _ & _ & _ & _ & _ & H). by destruct (H k s Hk) as [? _].
  - by destruct (fo_lan _ Hv k s Hk) as [? _].
Qed.
Lemma profile_lowercase p lan : forallb (fun k => k =s to_lower k)
  (match profile_json p lan with JObj l => map fst l | _ => [] end) = true.
Proof. reflexivity. Qed.
Lemma issued_read p lan w : Validate p = Ok tt -> profile_texts_ok p -> blank w ->
  slen (marshal_indent 0 (profile_json p lan) +:+ w) <= Linux_MaxBytes ->
  if lan then Read (Some (marshal_indent 0 (profile_json p lan) +:+ w)) = Ok p
  else is_ok (Read (Some (marshal_indent 0 (profile_json p lan) +:+ w))) = false.
Proof.
  intros Hv Ht Hw Hl. destruct (valid_names p Hv) as [Hh Hn].
  pose proof (parse_json_indent _ w (plain_profile p lan Ht Hh Hn) Hw) as Hp.
  set (text := marshal_indent 0 (profile_json p lan) +:+ w) in *.
  assert (slen text <> 0) as Hne.
  { unfold text, profile_json. rewrite indent_obj. unfold slen. rewrite !slength_app. cbn [String.length]. lia. }
  unfold Read, Decode, DecodeJSON, document_keys. rewrite (proj2 (Z.ltb_ge _ _) Hl), (proj2 (Z.eqb_neq _ 0) Hne).
  destruct (Z.ltb_spec MaxConfigBytes (slen text)) as [Hbig|_]; [unfold MaxConfigBytes, Linux_MaxBytes in *; lia|]. cbn [orb].
  rewrite Hp. pose proof (check_profile p lan Hh Hn) as Hc. destruct (check 0 (profile_json p lan)) as [[]|e]; cbn [is_ok] in Hc; subst lan.
  - rewrite decode_profile. pose proof (profile_lowercase p true) as Hlow. unfold profile_json in *. rewrite Hlow, Hv. done.
  - done.
Qed.

(** What [Issue] prints is a profile that was checked, from a template without
    secrets; but the file it is written to - the text and a newline - is not
    always a profile that can be loaded. *)
Lemma Issue_outcome raw wg text : Issue raw wg = Ok text ->
  exists b p, issue_document raw wg = Ok b /\ Decode b = Ok p /\ text = marshal_indent 0 (profile_json p (gives_lan b)).
Proof.
  unfold Issue. destruct (issue_document raw wg) as [b|] eqn:Eb; [|done]. destruct (Decode b) as [p|] eqn:Ed; [|done].
  intros <-%Ok_inj. by exists b, p.
Qed.
End issued.

(** ** Witnesses *)

Definition template_members (lan : bool) : list (string * json) :=
  [("schema", JStr Linux_Schema); ("name", JStr "laptop"); ("server_public_key", JStr (lp_ServerPublicKey w_profile));
   ("address", JStr (lp_Address w_profile)); ("allowed_ips", JStrs (lp_AllowedIPs w_profile));
   ("endpoint", JStr (lp_Endpoint w_profile)); ("stun_servers", JStrs (lp_STUN w_profile));
   ("opendht", JStrs (lp_OpenDHT w_profile)); ("hostnames", JObj [("nas", JStr "10.77.0.1")])] ++
  (if lan then [("lan_hostnames", JObj [("nas-lan", JStr "192.168.0.10")])] else []).
(** A template as an administrator writes it, on several lines. *)
Definition w_template : string := marshal_indent 0 (JObj (template_members true)).
Definition w_wg (cmd : string) : option string :=
  if cmd =s "genkey" then Some (lp_PrivateKey w_profile +:+ json_nl) else Some (lp_PresharedKey w_profile +:+ json_nl).
Definition w_issued_text : string := marshal_indent 0 (profile_json w_profile true).
Lemma w_issue_document : exists b, issue_document w_template w_wg = Ok b /\ gives_lan b = true /\ Decode b = Ok w_profile.
Proof.
  destruct (issue_document w_template w_wg) as [b|] eqn:E; [|vm_compute in E; discriminate E]. exists b.
  vm_compute in E. apply Ok_inj in E as <-. split_and!; [done|vm_compute; reflexivity|].
  unfold Decode. do 2 eval_head. match goal with |- context [Validate ?c] => change c with w_profile end. do 2 eval_head.
  rewrite w_profile_valid. reflexivity.
Qed.
Lemma w_issue_ok : Issue w_template w_wg = Ok w_issued_text.
Proof. destruct w_issue_document as (b & E & Hl & Hd). unfold Issue. by rewrite E, Hd, Hl. Qed.

(** The same template without LAN names: a profile is issued, and cannot be loaded. *)
Definition w_bare : Profile :=
  mkProfile Linux_Schema "laptop" (lp_PrivateKey w_profile) (lp_PresharedKey w_profile) (lp_ServerPublicKey w_profile)
    (lp_Address w_profile) (lp_AllowedIPs w_profile) (lp_Endpoint w_profile) (lp_STUN w_profile) (lp_OpenDHT w_profile)
    (lp_Hostnames w_profile) ∅.
Lemma w_bare_valid : Validate w_bare = Ok tt.
Proof.
  unfold Validate. do 5 eval_head. change (profile_proposal w_bare) with (profile_proposal w_profile).
  rewrite w_profile_proposal. do 4 eval_head. vm_compute. reflexivity.
Qed.
Definition w_bare_template : string := marshal_indent 0 (JObj (template_members false)).
Definition w_bare_issued : string := marshal_indent 0 (profile_json w_bare false).
Lemma w_bare_issue : Issue w_bare_template w_wg = Ok w_bare_issued.
Proof.
  unfold Issue. destruct (issue_document w_bare_template w_wg) as [b|] eqn:E; [|vm_compute in E; discriminate E].
  assert (Decode b = Ok w_bare) as ->.
  { vm_compute in E. apply Ok_inj in E as <-. unfold Decode. do 2 eval_head.
    match goal with |- context [Validate ?c] => change c with w_bare end. do 2 eval_head. by rewrite w_bare_valid. }
  vm_compute in E. apply Ok_inj in E as <-. vm_compute. reflexivity.
Qed.
Lemma w_bare_refused : is_ok (Read (Some (w_bare_issued +:+ json_nl))) = false.
Proof.
  apply (issued_read w_bare false json_nl w_bare_valid); [|done|vm_compute; discriminate].
  unfold profile_texts_ok. apply (bool_decide_unpack _). vm_compute. reflexivity.
Qed.
