(* ===== verification/Commands.v ===== *)
(** * main.go and cmd/provision/main.go: the commands

    What each command line does: which operation of the library is run, on
    which files, and what is printed.  A file system is a map from paths to
    contents; what reading one path and creating another may do is the
    environment's. *)

From S2P Require Import Prelude GoStr Codec Json JsonFacts Validation Discovery GoTime Plugin JsonDecode Config Provision StrSearch JsonIndent LinuxProfile LinuxRuntime LinuxServer LinuxIssue Flags.

Definition line_of (s : string) : string := s +:+ json_nl.
(** A slice no element was appended to prints as null. *)
Definition strs_or_null (l : list string) : json := match l with [] => JNull | _ => JStrs l end.
(** [encoding/json] prints a map's keys in order. *)
Definition public_json (s : ServerPublic) : json :=
  JObj [("opendht", strs_or_null (sp_DHT s)); ("peer_addresses", JStrs (sp_PeerAddresses s));
        ("server_public_key", JStr (sp_PublicKey s)); ("stun_servers", strs_or_null (sp_STUN s))].
Definition public_profile_json `{WgTypes} (p : Profile) (lan : bool) : json :=
  JObj [("address", JStr (lp_Address p)); ("allowed_ips", JStrs (lp_AllowedIPs p)); ("endpoint", JStr (lp_Endpoint p));
        ("hostnames", map_json (lp_Hostnames p)); ("lan_hostnames", if lan then map_json (lp_LANHostnames p) else JNull);
        ("listen_port", JNum (itoa ListenPort)); ("name", JStr (lp_Name p)); ("proxy_port", JNum (itoa ProxyPort));
        ("public_key", JStr (Profile_PublicKey p)); ("schema", JStr (lp_Schema p));
        ("server_public_key", JStr (lp_ServerPublicKey p))].

(** ** linuxCommand *)

Record Cli := mkCli { cli_files : Files; cli_hist : History; cli_out : list string }.
Class LinuxCli := {
  lc_stdin : option string;                      (* [None] when reading fails *)
  lc_open : string -> option OpenFile;
  lc_readfile : string -> option string;
  lc_paths : list string;
  lc_private_dir : string -> bool;               (* a directory of the owner's alone *)
  lc_edit : EditOutcome;
  lc_create : WriteOutcome;
  lc_wg : string -> option string                (* the official tool *)
}.

Section linux.
Context `{UnicodeTables} `{UrlLib} `{wgt : WgTypes} `{YamlLib} `{ConfigEnv} `{host : LinuxHost} `{LinuxCli}.

Definition print (s : string) (c : Cli) : Cli := mkCli (cli_files c) (cli_hist c) (cli_out c ++ [s]).
Definition with_files (fs : Files) (c : Cli) : Cli := mkCli fs (cli_hist c) (cli_out c).
Definition on_host (a : act (result unit)) (c : Cli) : Cli * result unit :=
  let '(h, e) := a (cli_hist c) in (mkCli (cli_files c) h (cli_out c), e).
Definition stdin_lan : bool := match lc_stdin with Some b => gives_lan b | None => false end.

(** linux-config-check *)
Definition config_check (path : string) (c : Cli) : Cli * result unit :=
  (c, match load path "" lc_paths with Err e => Err e | Ok _ => Ok tt end).
(** linux-server, linux-activate, linux-revoke *)
Definition server_public (dir : string) (c : Cli) : Cli * result unit :=
  match LoadServer lc_readfile lc_paths dir with
  | Err e => (c, Err e)
  | Ok s => (print (line_of (marshal (public_json (Server_Public s)))) c, Ok tt)
  end.
Definition server_edit (dir : string) (revoke : bool) (out : string) (c : Cli) : Cli * result unit :=
  match LoadServer lc_readfile lc_paths dir with
  | Err e => (c, Err e)
  | Ok s =>
      match Read lc_stdin with
      | Err e => (c, Err e)
      | Ok p =>
          let '(_, fs, e) := WriteEdited lc_edit (lc_private_dir out) s p revoke out (cli_files c) in
          (with_files fs c, e)
      end
  end.
(** linux-issue *)
Definition issue_file (out : string) (c : Cli) : Cli * result unit :=
  match lc_stdin with
  | None => (c, Err (ENew "read error"))
  | Some b =>
      match Issue b lc_wg with
      | Err e => (c, Err e)
      | Ok text => let '(fs, e) := WriteNew lc_create (cli_files c) out (line_of text) in (with_files fs c, e)
      end
  end.
(** linux-check *)
Definition check_profile (c : Cli) : Cli * result unit :=
  match Read lc_stdin with
  | Err e => (c, Err e)
  | Ok p => (print (line_of (marshal (public_profile_json p stdin_lan))) c, Ok tt)
  end.
(** The operations on a profile's file. *)
Definition on_profile (a : Profile -> act (result unit)) (path : string) (c : Cli) : Cli * result unit :=
  match Linux_Load (lc_open path) with
  | Err e => (c, Err e)
  | Ok p => on_host (a p) c
  end.
Definition linuxCommand (args : list string) (c : Cli) : Cli * result unit :=
  let invalid := (c, Err (ENew "invalid Linux operation")) in
  match args with
  | [] => (c, Err (ENew "missing Linux operation"))
  | [op] => if op =s "linux-check" then check_profile c else invalid
  | [op; x] =>
      if op =s "linux-config-check" then config_check x c
      else if op =s "linux-server" then server_public x c
      else if op =s "linux-issue" then issue_file x c
      else if op =s "linux-clean" then on_profile (Cleanup Native) x c
      else if op =s "linux-clean-owned" then on_profile (fun p => CleanupOwned Native p OwnershipFile) x c
      else if op =s "linux-run-owned" then on_profile RunOwned x c
      else if op =s "linux-run" then on_profile Run x c
      else invalid
  | [op; dir; out] =>
      if op =s "linux-activate" then server_edit dir false out c
      else if op =s "linux-revoke" then server_edit dir true out c
      else invalid
  | _ => invalid
  end.
End linux.

(** ** main.go: the daemon's command line *)

(** What the program does outside, in order. *)
Inductive MainStep :=
| MPrint (s : string)
| MNew (configFile configDir : string) (r : result unit)      (* app.New *)
| MRun (oneshot : bool) (r : result unit)                     (* Run, RunOneshot *)
| MClose.
(** Parsing the flags may end the process by itself. *)
Inductive MainEnd := Exited (code : Z) | Returned (r : result unit).
Class MainHost := {
  mh_new : string -> string -> result unit;
  mh_run : bool -> result unit;
  mh_build_version : string;                 (* set by the linker, "dev" otherwise *)
  mh_build_info : option string              (* the main module's version *)
}.
Section main.
Context `{MainHost}.

Definition main_version : string :=
  if mh_build_version <>s "dev" then mh_build_version
  else match mh_build_info with
       | Some v => if (v <>s "") && (v <>s "(devel)") then v else "dev"
       | None => "dev"
       end.
Definition main_flags : list FlagDef :=
  [mkFlag "oneshot" "oneshot" FBool; mkFlag "version" "showVersion" FBool; mkFlag "c" "configFile" FString;
   mkFlag "config" "configFile" FString; mkFlag "config-dir" "configDir" FString].
(** [linux] is the outcome of [linuxCommand] on the arguments. *)
Definition main_run (args : list string) (linux : list string -> result unit) : list MainStep * MainEnd :=
  let is_linux := match args with op :: _ => has_prefix op "linux-" | [] => false end in
  if is_linux then ([], Returned (linux args))
  else match Flags_Parse main_flags [] args with
       | FlagHelp => ([], Exited 0)
       | FlagBad _ => ([], Exited 2)
       | FlagsDone vars _ =>
           if flag_get "showVersion" "false" vars =s "true" then ([MPrint (line_of main_version)], Returned (Ok tt))
           else
             let file := flag_get "configFile" "" vars in
             let dir := flag_get "configDir" "" vars in
             let e := mh_new file dir in
             match e with
             | Err err => ([MNew file dir e], Returned (Err err))
             | Ok _ =>
                 let oneshot := flag_get "oneshot" "false" vars =s "true" in
                 let r := mh_run oneshot in
                 ([MNew file dir e; MRun oneshot r; MClose], Returned r)
             end
       end.
Definition main_code (e : MainEnd) : Z :=
  match e with Exited c => c | Returned (Ok _) => 0 | Returned (Err _) => 1 end.
End main.

(** ** cmd/provision/main.go *)

Class ProvHost := {
  ph_random : list Z;
  ph_stdin : option string;
  ph_readable : string -> bool;               (* the file can be opened and read *)
  ph_create : WriteOutcome;
  ph_enroll : EnrollArgs -> EnrollEnv         (* server-new, but for the server's configuration *)
}.
Section provision.
Context `{UnicodeTables} `{UrlLib} `{wgt : WgTypes} `{YamlLib} `{ConfigEnv} `{ProvHost} `{LinuxCli}.

Definition opened (fs : Files) (path : string) : option string := if ph_readable path then fs !! path else None.
Definition prov_read (fs : Files) (path : string) : result string :=
  match opened fs path with
  | None => Err (ENew "cannot open enrollment input")
  | Some b => Ok (str_take (Z.to_nat (Enroll_MaxBytes + 1)) b)
  end.

Definition text_flag (n : string) : FlagDef := mkFlag n n FString.
Definition new_flags : list FlagDef :=
  map text_flag ["name"; "address"; "server-key"; "routes"; "stun"; "opendht"; "endpoint"; "protocol"; "psk-file"; "out"].
Definition reply_flags : list FlagDef := map text_flag ["proposal"; "reply"].
Definition server_flags : list FlagDef := map text_flag ["config"; "out"; "name"; "endpoint"; "routes"; "reserved"].

(** The PSK's input: at most 65 bytes, one line. *)
Definition read_psk (fs : Files) (file : string) : result string :=
  match (if file =s "-" then Ok ph_stdin
         else match opened fs file with None => Err (ENew "cannot open PSK input") | b => Ok b end) with
  | Err e => Err e
  | Ok None => Err (ENew "cannot read PSK input")
  | Ok (Some b) =>
      let psk := trim_suffix (trim_suffix (str_take 65 b) json_nl) (String (zb 13) "") in
      if psk =s "" then Err (ENew "empty PSK input") else Ok psk
  end.
(** The file is created anew; what a failed write left stays. *)
Definition create_new (o : WriteOutcome) (fs : Files) (path b : string) : Files * result unit :=
  match fs !! path with
  | Some _ => (fs, Err (ENew "cannot create new enrollment output"))
  | None =>
      if negb (wo_create o) then (fs, Err (ENew "cannot create new enrollment output"))
      else if wo_write o then (<[path := b]> fs, Ok tt) else (<[path := wo_partial o]> fs, Err (ENew "write error"))
  end.
Definition new_proposal (vars : FlagVars) (psk : string) : Proposal :=
  let get n := flag_get n "" vars in
  mkProposal Enroll_Schema (NewID ph_random) (flag_get "name" "Server" vars) (get "address") (get "server-key")
    (split_on "," (get "routes")) (split_on "," (get "stun")) (split_on "," (get "opendht")) (get "endpoint")
    (flag_get "protocol" "ipv4" vars) psk.
Definition new_psk (fs : Files) (vars : FlagVars) : result string :=
  let psk_file := flag_get "psk-file" "" vars in if psk_file =s "" then Ok "" else read_psk fs psk_file.
Definition cmd_new (fs : Files) (vars : FlagVars) (rest : list string) : Files * result unit :=
  let out := flag_get "out" "" vars in
  if negb (match rest with [] => true | _ => false end) || (out =s "")
  then (fs, Err (ENew "specify --out and enrollment inputs"))
  else match new_psk fs vars with
       | Err e => (fs, Err e)
       | Ok psk =>
           match Proposal_Encode (new_proposal vars psk) with
           | Err e => (fs, Err e)
           | Ok b => create_new ph_create fs out (line_of b)
           end
       end.

Definition review_text : string :=
  "Compare phone/server public keys over your trusted local channel. Add PublicKey and this exact phone address to WG and the OpenDHT overlay in the server Git repository. If the proposal includes a PSK, configure that same PSK on the server without exporting it in this public reply.".
Definition reply_json (r : Reply) : json :=
  JObj [("schema", JStr (rp_Schema r)); ("proposal_id", JStr (rp_ID r)); ("public_key", JStr (rp_PublicKey r));
        ("addresses", JStrs (rp_Addresses r))].
Definition review_json (r : Reply) (psk_required : bool) : json :=
  JObj [("public_reply", reply_json r); ("psk_required", JBool psk_required); ("review", JStr review_text)].
Definition cmd_reply (fs : Files) (vars : FlagVars) (rest : list string) : result string :=
  if negb (match rest with [] => true | _ => false end) then Err (ENew "unexpected arguments")
  else
    let? pb := prov_read fs (flag_get "proposal" "" vars) in
    let? p := Proposal_Decode pb in
    let? rb := prov_read fs (flag_get "reply" "" vars) in
    let? r := CheckReply p rb in
    Ok (line_of (marshal_indent 0 (review_json r (pp_PresharedKey p <>s "")))).

(** server-new: the files it makes, by path, and its summary. *)
Definition enroll_args (vars : FlagVars) (rest : list string) : EnrollArgs :=
  let get n := flag_get n "" vars in
  mkEnrollArgs (get "config") (get "out") (get "name") (get "endpoint") (get "routes") (get "reserved")
    (negb (match rest with [] => true | _ => false end)).
Definition with_server (dir : string) (env : EnrollEnv) : EnrollEnv :=
  mkEnrollEnv (ee_dir_private env) (ee_dir_empty env)
    (let? s := LoadServer lc_readfile lc_paths dir in Ok (Server_Public s))
    (ee_random env) (ee_psk env) (ee_json_create env) (ee_json_write env) (ee_qr_create env) (ee_qr_run env).
Definition cmd_server_new (fs : Files) (vars : FlagVars) (rest : list string) : Files * result string :=
  let a := enroll_args vars rest in
  let '(files, r) := serverNew a (with_server (ea_Config a) (ph_enroll a)) in
  (list_to_map (map (fun f => (filepath_Join (ea_Out a) f.1, f.2)) files) ∪ fs,
   match r with
   | Err e => Err e
   | Ok (address, id) =>
       Ok (line_of (marshal (JObj [("address", JStr address); ("proposal_id", JStr id); ("schema", JStr Enroll_Schema)])))
   end).

Definition flag_error (e : FlagEnd) : option error :=
  match e with FlagHelp => Some (ENew "flag: help requested") | FlagBad e => Some e | FlagsDone _ _ => None end.
(** The files afterwards, and what is printed. *)
Definition provision_run (fs : Files) (args : list string) : Files * result string :=
  match args with
  | [] => (fs, Err (ENew "usage: provision new|reply|server-new [flags]; -h lists required inputs"))
  | op :: args =>
      if op =s "server-new" then
        match Flags_Parse server_flags [] args with
        | FlagsDone vars rest => cmd_server_new fs vars rest
        | e => (fs, Err (default (ENew "") (flag_error e)))
        end
      else if op =s "new" then
        match Flags_Parse new_flags [] args with
        | FlagsDone vars rest =>
            match cmd_new fs vars rest with (fs, Ok _) => (fs, Ok "") | (fs, Err e) => (fs, Err e) end
        | e => (fs, Err (default (ENew "") (flag_error e)))
        end
      else if op =s "reply" then
        match Flags_Parse reply_flags [] args with
        | FlagsDone vars rest => (fs, cmd_reply fs vars rest)
        | e => (fs, Err (default (ENew "") (flag_error e)))
        end
      else (fs, Err (ENew "expected new or reply"))
  end.
End provision.
