(* ===== verification/CommandsFacts.v ===== *)
(** * What the commands do, whatever their arguments *)

From S2P Require Import Prelude GoStr Codec Json JsonFacts Validation Discovery GoTime Plugin JsonDecode Config ConfigFacts Provision ProvisionFacts StrSearch JsonIndent LinuxProfile LinuxProfileFacts LinuxRuntime LinuxRuntimeFacts LinuxServer LinuxServerFacts LinuxIssue LinuxIssueFacts Flags Commands.

(** ** Files are only ever added *)

Lemma WriteNew_extends o fs path b fs' r : WriteNew o fs path b = (fs', r) -> fs ⊆ fs'.
Proof.
  unfold WriteNew. destruct (fs !! path) eqn:E; [by intros [<- _]%pair_equal_spec|].
  destruct (negb (wo_create o)); [by intros [<- _]%pair_equal_spec|].
  destruct (wo_write o); [intros [<- _]%pair_equal_spec; by apply insert_subseteq|].
  intros [<- _]%pair_equal_spec. destruct (wo_remove o); [done|by apply insert_subseteq].
Qed.
Section commands.
Context `{tables : UnicodeTables} `{urls : UrlLib} `{wgt : WgTypes} `{yaml : YamlLib} `{cenv : ConfigEnv} `{host : LinuxHost} `{cli : LinuxCli}.

Lemma WriteEdited_extends o private_dir s p revoke dir fs s' fs' r :
  WriteEdited o private_dir s p revoke dir fs = (s', fs', r) -> fs ⊆ fs'.
Proof.
  unfold WriteEdited. destruct (negb private_dir); [by intros (_ & <- & _)%triple_inj|].
  destruct (Edited s p revoke) as [t [[wg yml]|]]; [|by intros (_ & <- & _)%triple_inj]. cbv zeta.
  set (a := filepath_Join dir "wg0.conf"). set (b := filepath_Join dir "stunmesh.yml").
  destruct (WriteNew (eo_wg o) fs a wg) as [fs1 r1] eqn:E1. pose proof (WriteNew_extends _ _ _ _ _ _ E1) as H1.
  destruct r1; [|by intros (_ & <- & _)%triple_inj].
  destruct (WriteNew (eo_yml o) fs1 b yml) as [fs2 r2] eqn:E2. pose proof (WriteNew_extends _ _ _ _ _ _ E2) as H2.
  destruct r2; intros (_ & <- & _)%triple_inj; [by etrans|]. destruct (eo_remove o); [|by etrans].
  apply map_subseteq_spec. intros k x Hk. rewrite lookup_delete_ne.
  - eapply lookup_weaken; [exact Hk|by etrans].
  - intros <-. unfold WriteNew in E1. rewrite Hk in E1. discriminate E1.
Qed.

(** ** linuxCommand *)

Definition extends (c c' : Cli) : Prop :=
  cli_files c ⊆ cli_files c' /\ exists steps, cli_hist c' = cli_hist c ++ steps.
Lemma extends_refl c : extends c c.
Proof. split; [done|]. exists []. by rewrite app_nil_r. Qed.

(** The operations that touch the interface. *)
Definition host_op (op : string) : bool :=
  existsb (fun o => op =s o) ["linux-run"; "linux-run-owned"; "linux-clean"; "linux-clean-owned"].
(** What may be printed: a server's public view, or a valid profile's. *)
Definition public_text (s : string) : Prop :=
  (exists v, s = line_of (marshal (public_json v))) \/
  (exists p lan, Validate p = Ok tt /\ s = line_of (marshal (public_profile_json p lan))).
Definition cli_ok (args : list string) (c c' : Cli) (e : result unit) : Prop :=
  cli_files c ⊆ cli_files c' /\
  (exists shown, cli_out c' = cli_out c ++ shown /\ Forall public_text shown /\ (length shown <= 1)%nat) /\
  (cli_hist c' = cli_hist c \/
   exists op path f p, args = [op; path] /\ host_op op = true /\ lc_open path = Some f /\ Linux_Load (Some f) = Ok p /\
     cli_files c' = cli_files c /\ cli_out c' = cli_out c).
Lemma cli_idle args c e : cli_ok args c c e.
Proof. split_and!; [done| |by left]. exists []. split_and!; [by rewrite app_nil_r|done|cbn; lia]. Qed.
Lemma cli_printed args c e s : public_text s -> cli_ok args c (print s c) e.
Proof. intros Hs. split_and!; [done| |by left]. exists [s]. split_and!; [done|by constructor|done]. Qed.
Lemma cli_wrote args c e fs : cli_files c ⊆ fs -> cli_ok args c (with_files fs c) e.
Proof. intros Hf. split_and!; [done| |by left]. exists []. split_and!; [by rewrite app_nil_r|done|cbn; lia]. Qed.
Lemma cli_acted op path a c : host_op op = true ->
  cli_ok [op; path] c (on_profile a path c).1 (on_profile a path c).2.
Proof.
  intros Ho. unfold on_profile. destruct (Linux_Load (lc_open path)) as [p|] eqn:El; [|apply cli_idle].
  destruct (lc_open path) as [f|] eqn:Ef; [|done].
  unfold on_host. destruct (a p (cli_hist c)) as [h e]. cbn [fst snd]. split_and!; [done| |].
  - exists []. split_and!; [by rewrite app_nil_r|done|cbn; lia].
  - right. exists op, path, f, p. split_and!; done.
Qed.
Lemma cli_edited args dir revoke out c : cli_ok args c (server_edit dir revoke out c).1 (server_edit dir revoke out c).2.
Proof.
  unfold server_edit. destruct (LoadServer _ _ _) as [s|]; [|apply cli_idle]. destruct (Read lc_stdin) as [p|]; [|apply cli_idle].
  destruct (WriteEdited _ _ _ _ _ _ _) as [[s' fs] e] eqn:E. apply cli_wrote. by eapply WriteEdited_extends.
Qed.

Lemma linuxCommand_ok args c c' e : linuxCommand args c = (c', e) -> cli_ok args c c' e.
Proof.
  intros E. replace c' with (linuxCommand args c).1 by (by rewrite E). replace e with (linuxCommand args c).2 by (by rewrite E).
  clear E c' e. destruct args as [|op [|x [|y [|z args]]]]; cbn [linuxCommand]; [apply cli_idle| | | |apply cli_idle].
  - destruct (op =s "linux-check"); [|apply cli_idle]. unfold check_profile. destruct (Read lc_stdin) as [p|] eqn:Er; [|apply cli_idle].
    apply cli_printed. right. exists p, stdin_lan. split; [by eapply Read_valid|done].
  - destruct (op =s "linux-config-check"). { unfold config_check. destruct (load _ _ _); apply cli_idle. }
    destruct (op =s "linux-server").
    { unfold server_public. destruct (LoadServer _ _ _) as [s|]; [|apply cli_idle]. apply cli_printed. left. by eexists. }
    destruct (op =s "linux-issue").
    { unfold issue_file. destruct lc_stdin as [b|]; [|apply cli_idle]. destruct (Issue b lc_wg) as [text|]; [|apply cli_idle].
      destruct (WriteNew _ _ _ _) as [fs e] eqn:E. apply cli_wrote. by eapply WriteNew_extends. }
    repeat match goal with |- context [if op =s ?o then _ else _] =>
      destruct (String.eqb_spec op o) as [->|_]; [by apply cli_acted|] end.
    apply cli_idle.
  - destruct (op =s "linux-activate"); [apply cli_edited|]. destruct (op =s "linux-revoke"); [apply cli_edited|apply cli_idle].
Qed.
End commands.

(** ** provision new, then provision reply *)

Section provision.
Context `{tables : UnicodeTables} `{urls : UrlLib} `{wgt : WgTypes} `{yaml : YamlLib} `{cenv : ConfigEnv} `{ph : ProvHost} `{cli : LinuxCli}.

Lemma str_take_all n s : (String.length s <= n)%nat -> str_take n s = s.
Proof.
  revert n. induction s as [|c s IH]; intros [|n] H; cbn in *; try done; [lia|]. rewrite IH by lia. done.
Qed.
Lemma prov_read_short (fs : Files) path b : opened fs path = Some b -> slen b <= Enroll_MaxBytes + 1 -> prov_read fs path = Ok b.
Proof. intros Ho Hb. unfold prov_read. rewrite Ho. rewrite str_take_all; [done|]. unfold slen, Enroll_MaxBytes in *. lia. Qed.
Lemma CheckReply_limit p b r : CheckReply p b = Ok r -> slen b <= Enroll_MaxBytes.
Proof.
  unfold CheckReply. destruct (Proposal_Validate p); [|discriminate].
  destruct (Z.ltb_spec Enroll_MaxBytes (slen b)); [discriminate|done].
Qed.
Lemma slen_line b : slen (line_of b) = slen b + 1.
Proof. unfold slen, line_of. rewrite slength_app. cbn [String.length json_nl]. lia. Qed.

(** What [new] leaves: the encoded proposal and a newline, in a new file. *)
Lemma cmd_new_writes fs vars rest fs' : cmd_new fs vars rest = (fs', Ok tt) ->
  exists psk b, new_psk fs vars = Ok psk /\ Proposal_Encode (new_proposal vars psk) = Ok b /\ fs !! flag_get "out" "" vars = None /\
                fs' = <[flag_get "out" "" vars := line_of b]> fs.
Proof.
  unfold cmd_new. cbv zeta. destruct (negb _ || _); [by intros [_ [=]]%pair_equal_spec|].
  destruct (new_psk fs vars) as [psk|]; [|by intros [_ [=]]%pair_equal_spec].
  destruct (Proposal_Encode _) as [b|] eqn:Eb; [|by intros [_ [=]]%pair_equal_spec].
  unfold create_new. destruct (fs !! _) eqn:Ef; [by intros [_ [=]]%pair_equal_spec|].
  destruct (negb (wo_create ph_create)); [by intros [_ [=]]%pair_equal_spec|].
  destruct (wo_write ph_create); [|by intros [_ [=]]%pair_equal_spec]. intros [<- _]%pair_equal_spec.
  by exists psk, b.
Qed.
(** Reading it back: its own proposal, unless it is exactly at the limit. *)
Lemma proposal_file_read p b : texts_ok p -> Proposal_Encode p = Ok b ->
  Proposal_Decode (line_of b) = if slen b <? Enroll_MaxBytes then Ok p else Err (ENew "enrollment too large").
Proof.
  intros Ht Hb. destruct (Z.ltb_spec (slen b) Enroll_MaxBytes) as [Hl|Hl].
  - apply Encode_read_tail; [done..|]. change (slen (b +:+ json_nl)) with (slen (line_of b)). rewrite slen_line. lia.
  - unfold Proposal_Decode. rewrite slen_line. destruct (Z.ltb_spec Enroll_MaxBytes (slen b + 1)); [done|lia].
Qed.
End provision.

(** ** Witnesses *)

#[local] Instance w_host : LinuxHost := {|
  sys_exec := fun _ _ => None; sys_write := fun _ _ _ => Ok tt; sys_read := fun _ _ => FNotExist; sys_index := fun _ => None;
  sys_remove := fun _ _ => Ok tt; sys_mkdir := fun _ => None; sys_app_new := fun _ _ => Ok tt; sys_app_run := fun _ => Ok tt;
  sys_join := fun d f => d +:+ "/" +:+ f |}.
Definition w_created : WriteOutcome := mkWriteOutcome true true "" true.
#[local] Instance w_cli : LinuxCli := {|
  lc_stdin := Some w_template; lc_open := fun _ => None; lc_readfile := fun _ => None; lc_paths := []; lc_private_dir := fun _ => true;
  lc_edit := mkEditOutcome w_created w_created true; lc_create := w_created; lc_wg := w_wg |}.
Definition w_cli0 : Cli := mkCli {[ "/etc/hostname" := "laptop" ]} [] [].
Definition w_issued_files : Files := <["/out/profile.json" := line_of w_issued_text]> {[ "/etc/hostname" := "laptop" ]}.
Lemma w_issue_command : linuxCommand ["linux-issue"; "/out/profile.json"] w_cli0 = (with_files w_issued_files w_cli0, Ok tt).
Proof.
  change (linuxCommand ["linux-issue"; "/out/profile.json"] w_cli0) with (issue_file "/out/profile.json" w_cli0).
  unfold issue_file. cbn [lc_stdin w_cli lc_wg]. rewrite w_issue_ok. vm_compute. reflexivity.
Qed.

#[local] Instance w_prov : ProvHost := {|
  ph_random := replicate 16 200; ph_stdin := Some (lp_PresharedKey w_profile +:+ json_nl); ph_readable := fun _ => true;
  ph_create := w_created; ph_enroll := fun _ => w_enroll_env |}.
Definition w_vars : FlagVars :=
  [("name", "Server"); ("address", "10.77.0.2/32"); ("server-key", b64_encode base_key); ("routes", "10.77.0.1/32");
   ("stun", "stun.example.com:3478"); ("opendht", "https://d"); ("endpoint", "203.0.113.7:51820"); ("psk-file", "-"); ("out", "/out/p.json")].
Definition w_prov_files : Files := {[ "/in/reply.json" := w_reply_text ]}.
Lemma w_new_psk : new_psk w_prov_files w_vars = Ok (pp_PresharedKey w_proposal).
Proof. vm_compute. reflexivity. Qed.
Lemma w_new_proposal : new_proposal w_vars (pp_PresharedKey w_proposal) = w_proposal.
Proof. vm_compute. reflexivity. Qed.
Lemma w_encodes : Proposal_Encode w_proposal = Ok w_encoded.
Proof. exact w_proposal_encodes. Qed.
Lemma w_new : cmd_new w_prov_files w_vars [] = (<["/out/p.json" := line_of w_encoded]> w_prov_files, Ok tt).
Proof.
  unfold cmd_new. cbv zeta. change (negb true || (flag_get "out" "" w_vars =s "")) with false. cbn iota.
  rewrite w_new_psk, w_new_proposal, w_encodes. vm_compute. reflexivity.
Qed.
